(* ===== verification/_CoqProject ===== *)
-Q . S2P
Prelude.v
RustStr.v
Types.v
Errors.v
Utils.v
Protocol.v
CodecInstance.v
PendingStore.v
Externals.v
TunnelManager.v
ManagerSpec.v
ManagerSystem.v
TaskPool.v
Interleaving.v
Registration.v
WebSocket.v
Http.v
ServerConfig.v
Metrics.v
ServerProxy.v
IoUring.v
LocalProxy.v
Backoff.v
ClientConfig.v
ClientTunnel.v
Streaming.v
ProxyMetrics.v
ServerProxySpec.v
Abandoned.v
ClientSession.v
SocketTuning.v
ServerTcp.v
ServerRun.v
Startup.v
ServerSession.v
ServerSessionSpec.v
SessionTraffic.v
TcpStreams.v
TcpListener.v
Multi.v
MultiSpec.v
MultiRefinement.v
MultiServed.v
Contact.v
RoundTrip.v
ClientRun.v
Admin.v
Splice.v
Health.v
Router.v
UnitTests.v
Witnesses.v
MultiWitnesses.v
SystemWitnesses.v
