(* ===== verification/Prelude.v ===== *)
(** * Verification of expose: a tunnel server and its client

    expose makes a local service public: a client keeps a websocket to the
    server, the server hands it the HTTP requests and TCP connections that
    arrive for its subdomain, and the client forwards them to the local
    service.  This library models the program's own logic and proves what makes
    it correct.  The sources are Rust, under [src/expose-common],
    [src/expose-server] and [src/expose-client]; this file is the prelude that
    all others load.

    ** Parts and files

    Shared by both programs (expose-common):
    - [RustStr]: byte strings with the operations of [str] the sources use.
    - [Types] (types.rs), [Errors] (error.rs), [Utils] (utils.rs): data,
      defaults, error texts, statuses and codes, the size check and the
      sanitization of subdomains.
    - [Protocol] (protocol.rs): versions, handshake data, the message envelope
      and its size-checked encoding.  bincode is a class, [BincodeCodec], whose
      only law is that reading gives back what was written; [CodecInstance] has
      an instance that satisfies it.
    - [WebSocket], [Http]: frames, requests and bodies of the network libraries
      as data; conversions of those libraries are classes.
    - [SocketTuning] (tcp_tuning.rs of both crates): the options of a socket.
    - [TaskPool]: tasks that call a shared store and interleave, their schedules
      and the bound on how far they overshoot a limit; no code of its own.

    The server (expose-server):
    - [PendingStore] (tunnel_manager.rs): the requests that wait for a client,
      their counters and metrics, the sweeper; its invariant [store_wf].
    - [Externals]: the rate limiter, hash and constant-time comparison of
      other crates, as classes.
    - [TunnelManager] (tunnel_manager.rs): registration, allocation of
      subdomains, pending requests, answers, disconnection, rate limiting.  An
      [Arc<ActiveTunnel>] is a value plus mutable cells in a heap.
    - [ManagerSpec]: the invariant [manager_wf], its preservation by every
      operation, and the behaviour of each operation on every branch.
    - [ManagerSystem]: the operations as steps of a transition system and what
      holds in every reachable state.
    - [Interleaving]: registration and removal of pending requests taken apart
      into single calls on the concurrent maps, as tasks that interleave.
    - [Registration]: the same for the registration and removal of tunnels.
    - [ServerConfig] (config.rs): keys, configuration, loading.
    - [ServerProxy], [ServerProxySpec] (proxy/): a public request from the Host
      header to the response; [Abandoned]: a request whose public client goes
      away, so that its handler is dropped where it waits.
    - [Metrics] (metrics.rs): every emission, what the tunnel manager reports
      and when; [ProxyMetrics] (proxy/): the proxy with what it reports;
      [SessionTraffic] (server.rs, tcp_proxy.rs): what a session reports of its
      client, and data that comes too late.
    - [IoUring] (platform/io_uring.rs): helpers that nothing calls yet.
    - [ServerTcp] (tcp_proxy.rs): TCP tunnels, each operation by itself.
    - [TcpListener] (tcp_proxy.rs): the accept loop of a TCP tunnel beside its
      readers, the client's frames and the removal of the tunnel.
    - [ServerSession], [ServerSessionSpec] (server.rs): a client's websocket
      from the handshake to the end.
    - [ServerRun] (server.rs, tls.rs, platform/mod.rs): the server's state, its
      start and its listeners; [Startup] (main.rs, tracing.rs): the program
      around it.
    - [Router] (server.rs, admin.rs): the routes, the layers of the admin API,
      and which component answers a request.
    - [Admin] (admin.rs, middleware/auth.rs): the admin API.
    - [Health] (health.rs): the utilization report with its 32-bit floats,
      readiness and liveness.
    - [Splice] (zero_copy/): copying between sockets through a pipe.

    The client (expose-client):
    - [LocalProxy] (proxy.rs): buffers of streamed requests, forwarding.
    - [Backoff] (tunnel.rs): reconnection.
    - [ClientTunnel] (tunnel.rs, tcp_proxy.rs): the handshake, frames, local TCP
      connections, the loop of a session.
    - [ClientSession]: what a session guarantees, and its teardown.
    - [ClientConfig] (cli.rs, config.rs, client.rs, main.rs): the command line,
      the configuration files and what they are merged into.
    - [Multi] (multi.rs): several tunnels over one websocket; [MultiSpec] has
      the invariant of its tables and its routing, [MultiRefinement] its
      agreement with the client of one tunnel.

    Both ends together:
    - [Streaming]: a large request body from the server to the local service.
    - [TcpStreams]: the bytes of a TCP connection in both directions.
    - [Contact] (tunnel.rs): a whole session of the client, and its handshake
      against the frames the server's session sends.
    - [RoundTrip]: a public request to the local service and its answer back,
      across [ServerProxy], [ClientTunnel], [LocalProxy] and [ServerSession].
    - [ClientRun] (tunnel.rs): the loop of a client's session beside the proxy
      tasks, the ping task and the writer, interleaved.
    - [MultiServed]: the client of several tunnels against the server.

    [UnitTests] runs the unit tests of the modelled files on the model.
    [Witnesses], [MultiWitnesses] and [SystemWitnesses] apply the theorems that
    have hypotheses to concrete states.

    ** How code becomes definitions

    A struct is a record, an enum an inductive type, a [DashMap] a [gmap], a
    [Result] the monad [Result] below, an unsigned integer an [N] with its
    wrapping or saturating operations written out ([usize] has 64 bits).  A
    method that changes its object takes the state last and returns the new
    one; messages that are sent are returned in order.  A oneshot channel is an
    identifier and a send on it a [Delivery].  Randomness, clocks, fresh ids
    and the outcomes of system calls are arguments, so the theorems hold for
    all of them.  A socket that is read is the list of what it yields.  A Rust
    panic is [None] where one can happen ([slice::chunks] of size zero).
    Definitions carry the name of the code they model, with the type as a
    prefix where two would clash.

    Recursion is structural.  Fuel appears in [Http.chunks_go] (the length of
    the slice, enough by [Http.chunks_concat]), in [RustStr.strip_all] (the
    length of the string), in [TaskPool.run_task] (six calls for a pending
    request, enough by [Interleaving.alone_is_atomic], and four for a tunnel, by
    [Registration.registration_alone]), and in [Splice.splice_loop] (a round
    moves a byte at least; enough by [Splice.splice_connection_spec]).

    ** What the theorems show

    - Every accepted request is answered at most once, on its own channel and
      with its own id, and none is lost ([ManagerSystem]); at most one answer
      survives arbitrary interleaving of the single map calls ([Interleaving]).
    - The configured limits hold and the counters are exact when operations are
      atomic ([ManagerSystem]); with [n] workers the global limit is overshot by
      at most [n - 1], and the counters can drift ([Interleaving]); the same
      holds for tunnels, and a name can be given twice ([Registration]).
    - Registration, allocation, answering, disconnection, sweeping and rate
      limiting do what they promise on every branch ([ManagerSpec],
      [PendingStore]).
    - A public request reaches only the tunnel of its subdomain, bodies are
      bounded, and streamed bodies and TCP bytes arrive unchanged
      ([ServerProxySpec], [Streaming], [TcpStreams]).
    - From end to end, whole or streamed and interleaved with others, a public
      request is one local call for what was asked, and its answer goes to that
      client and to no other ([RoundTrip]); under every interleaving a client
      answers each call at most once ([ClientRun]).
    - Paths the server keeps for itself never reach a tunnel, every other path
      is the proxy's ([Router]).
    - Emitting metrics changes nothing; each request that is started is reported
      as completed or failed once, and the bytes reported are those that were
      sent or came ([ProxyMetrics], [SessionTraffic]); as long as operations do
      not overlap the gauge of pending requests is exact and that of tunnels is
      wrong by the disconnects nobody reported ([Metrics]).
    - Nobody gets a tunnel or uses the admin API without the right version and
      key ([ServerSessionSpec], [Admin], [ServerConfig]).
    - A client the server admits learns of the tunnel that was registered; one
      it refuses learns why, except for its name ([Contact]).
    - The client of several tunnels keeps its tables well formed, picks the
      tunnel the server resolved ([MultiSpec]), and with one tunnel refines the
      client of a single one ([MultiRefinement]).
    - A TCP connection is announced, carried and closed in order under every
      interleaving ([TcpListener]); the splice loop ends and keeps the stream in
      order ([Splice]).
    - The configuration of either side is what its sources say, and every
      error has its reason ([ServerConfig], [ClientConfig], [ServerRun]).
    - The health report is exact at the default limits ([Health]).
    - Encoding round-trips and is bounded; the two sides understand each
      other's versions and URLs ([Protocol], [ClientSession]).
    - The client's reconnection terminates as configured ([Backoff]).
    - Several theorems state defects of the code as it is: sessions that fail
      leave their tunnel behind, the join of the writer that never returns, the
      stale session that removes its successor ([ServerSessionSpec]), the
      client's teardown ([ClientSession]), the races of [Interleaving] and
      [Registration], requests lost before the acknowledgement ([Contact]), a
      second tunnel that is never served, attempts that are never counted
      ([MultiServed]), TCP tunnels that are confused ([MultiSpec]), readers that
      outlive their tunnel ([TcpListener]), bytes left in a pipe ([Splice]), a
      full store that is healthy ([Health]), an HTTPS listener nobody waits
      for ([ServerRun]), a tunnel that falls silent after one large answer
      ([ClientRun]), late TCP data that ends a session ([SessionTraffic]), and
      requests nobody waits for that keep a tunnel full ([Abandoned]).

    ** What is not modelled

    What the libraries do with what they are given: the metrics exporter, the
    tracing subscriber, tokio-uring, tower's limit and axum's matching of paths
    are parameters, the last with its documented laws.  [buffer.rs] converts
    between representations of bytes that are one here.  What is printed and
    logged is left out.  The order in which a concurrency limit admits requests is not
    modelled, nor are the metrics of a handler that is dropped.  Back-pressure of bounded channels is not modelled: a
    send that waits is a send that happens later.  The writer and ping tasks of
    the multi-tunnel client are those of the single client ([ClientSession],
    [ClientRun]) and enter a session as outcomes.  The repository's tests that
    need a pipe, files or a running server are not among [UnitTests]. *)

From stdpp Require Export base gmap strings list fin_maps fin_map_dom pretty numbers.
From stdpp Require Export relations.
From Stdlib Require Export ZifyBool ZifyN ZifyNat.

#[export] Set Warnings "-clear-no-such-hyp".

(** * Results of fallible operations *)

(** [std::result::Result]: the error type comes first so that [Result E] is a monad. *)
Inductive Result (E A : Type) : Type :=
| Ok (a : A)
| Err (e : E).

Arguments Ok {E A} _.
Arguments Err {E A} _.

#[export] Instance Result_ret (E : Type) : MRet (Result E) := fun A a => Ok a.
#[export] Instance Result_bind (E : Type) : MBind (Result E) :=
  fun A B f r => match r with Ok a => f a | Err e => Err e end.
#[export] Instance Result_fmap (E : Type) : FMap (Result E) :=
  fun A B f r => match r with Ok a => Ok (f a) | Err e => Err e end.

#[export] Instance Result_eq_dec {E A : Type} `{EqDecision E, EqDecision A} :
  EqDecision (Result E A).
Proof. solve_decision. Defined.

(** [Option::ok_or_else] and [Result::map_err]. *)
Definition ok_or {E A : Type} (o : option A) (e : E) : Result E A :=
  match o with Some a => Ok a | None => Err e end.

Definition map_err {E F A : Type} (r : Result E A) (f : E -> F) : Result F A :=
  match r with Ok a => Ok a | Err e => Err (f e) end.

Definition result_ok {E A : Type} (r : Result E A) : option A :=
  match r with Ok a => Some a | Err _ => None end.

Definition is_ok {E A : Type} (r : Result E A) : bool :=
  match r with Ok _ => true | Err _ => false end.

(** * Machine integers

    Unsigned integers are values of [N]; the operations that can leave the
    width are written out.  [usize] is 64 bits wide. *)

Definition width_max (w : N) : N := (2 ^ w - 1)%N.
Definition u16_max : N := 65535%N.
Definition u32_max : N := 4294967295%N.
Definition u64_max : N := 18446744073709551615%N.
Definition usize_max : N := u64_max.

Definition wrapping_add (max a b : N) : N := ((a + b) mod (max + 1))%N.
Definition saturating_add (max a b : N) : N := N.min (a + b) max.
Definition checked_sub (a b : N) : option N :=
  if decide (b <= a)%N then Some (a - b)%N else None.
Definition checked_mul (max a b : N) : option N :=
  if decide (a * b <= max)%N then Some (a * b)%N else None.

(** The length of a slice and the size of a map, as the code sees them. *)
Definition len {A : Type} (l : list A) : N := N.of_nat (length l).
Definition msize {A K : Type} `{Countable K} (m : gmap K A) : N := N.of_nat (size m).

(** Identifiers of type [uuid::Uuid]: 128-bit values, compared for equality only. *)
Abbreviation Uuid := N.

(** Instants and durations count nanoseconds. *)
Abbreviation Instant := N.
Abbreviation Duration := N.
Definition from_millis (ms : N) : Duration := (ms * 1000000)%N.
Definition from_secs (s : N) : Duration := (s * 1000000000)%N.
Definition as_secs (d : Duration) : N := (d / 1000000000)%N.

(** Bytes of a body are 8-bit values. *)
Abbreviation Bytes := (list N).

(** * Executions of a transition system *)

Section Reachability.
Context {State : Type} (init : State -> Prop) (step : State -> State -> Prop).

Inductive reachable : State -> Prop :=
| reachable_init s : init s -> reachable s
| reachable_step s s' : reachable s -> step s s' -> reachable s'.

Lemma invariant_holds (Inv : State -> Prop) :
  (forall s, init s -> Inv s) ->
  (forall s s', Inv s -> step s s' -> Inv s') ->
  forall s, reachable s -> Inv s.
Proof. intros Hinit Hstep s Hs; induction Hs; eauto. Qed.
End Reachability.

(** * Automation *)

Create HintDb expose.
Create Rewrite HintDb expose.

(** Splits on the results and options a computation goes through, and inverts
    the equations between their constructors. *)
Ltac res_step :=
  match goal with
  | H : Ok _ = Ok _ |- _ => injection H as H; subst
  | H : Err _ = Err _ |- _ => injection H as H; subst
  | H : Ok _ = Err _ |- _ => discriminate H
  | H : Err _ = Ok _ |- _ => discriminate H
  | H : (_, _) = (_, _) |- _ => injection H as H; subst
  | H : Some _ = Some _ |- _ => injection H as H; subst
  | H : Some _ = None |- _ => discriminate H
  | H : None = Some _ |- _ => discriminate H
  | H : context [match ?r with Ok _ => _ | Err _ => _ end] |- _ =>
      let E := fresh "Hr" in destruct r eqn:E
  | H : context [match ?o with Some _ => _ | None => _ end] |- _ =>
      let E := fresh "Ho" in destruct o eqn:E
  | H : context [if ?b then _ else _] |- _ =>
      let E := fresh "Hb" in destruct b eqn:E
  end.
Ltac res_simp := cbn in *; repeat (res_step; cbn in *).

(** * Lemmas on results *)

Section ResultLemmas.
Context {E : Type}.

Lemma bind_Ok {A B : Type} (f : A -> Result E B) (r : Result E A) (b : B) :
  (r ≫= f) = Ok b <-> exists a, r = Ok a /\ f a = Ok b.
Proof. destruct r; cbn; split; [eauto|intros (?&?&?); congruence|done|intros (?&?&?); done]. Qed.

Lemma bind_Err {A B : Type} (f : A -> Result E B) (r : Result E A) (e : E) :
  (r ≫= f) = Err e <-> r = Err e \/ exists a, r = Ok a /\ f a = Err e.
Proof.
  destruct r as [a'|e']; cbn; split.
  - intros H; right; by exists a'.
  - intros [?|(?&[= ->]&?)]; done.
  - intros [= ->]; by left.
  - intros [[= ->]|(?&?&?)]; done.
Qed.

Lemma ok_or_Ok {A : Type} (o : option A) (e : E) (a : A) :
  ok_or o e = Ok a <-> o = Some a.
Proof. destruct o; cbn; split; congruence. Qed.
End ResultLemmas.

#[export] Hint Rewrite @bind_Ok @bind_Err @ok_or_Ok : expose.

(** * Lemmas on machine integers *)

Lemma wrapping_add_small (max a b : N) :
  (a + b <= max)%N -> wrapping_add max a b = (a + b)%N.
Proof. intros H; unfold wrapping_add; apply N.mod_small; lia. Qed.

Lemma checked_sub_Some (a b : N) : (b <= a)%N -> checked_sub a b = Some (a - b)%N.
Proof. intros H; unfold checked_sub; by rewrite decide_True. Qed.

Lemma checked_sub_None (a b : N) : (a < b)%N -> checked_sub a b = None.
Proof. intros H; unfold checked_sub; rewrite decide_False; [done | lia]. Qed.

#[export] Hint Resolve wrapping_add_small checked_sub_Some checked_sub_None : expose.

(** * Lemmas on finite maps *)

Section MapLemmas.
Context {K A : Type} `{Countable K}.
Implicit Types m : gmap K A.

Lemma msize_insert_None m k v : m !! k = None -> msize (<[k := v]> m) = (msize m + 1)%N.
Proof. intros Hk; unfold msize; rewrite map_size_insert_None by done; lia. Qed.

Lemma size_pos_lookup m k v : m !! k = Some v -> 0 < size m.
Proof.
  intros Hk; destruct (size m) eqn:E; [|lia].
  apply map_size_empty_inv in E; subst; by rewrite lookup_empty in Hk.
Qed.

Lemma msize_delete_Some m k v : m !! k = Some v -> msize (delete k m) = (msize m - 1)%N.
Proof.
  intros Hk; unfold msize; rewrite map_size_delete_Some by eauto.
  pose proof (size_pos_lookup _ _ _ Hk); lia.
Qed.

Lemma msize_delete_le m k : (msize (delete k m) <= msize m)%N.
Proof. unfold msize; rewrite map_size_delete; destruct (m !! k); cbn; lia. Qed.

Lemma msize_mono m m' : m ⊆ m' -> (msize m <= msize m')%N.
Proof. intros Hs; unfold msize; pose proof (map_subseteq_size _ _ Hs); lia. Qed.

(** How many entries satisfy a predicate, and how the count follows an update. *)
Definition mcount (P : K * A -> Prop) `{forall x, Decision (P x)} (m : gmap K A) : N :=
  msize (filter P m).

Context (P : K * A -> Prop) `{forall x, Decision (P x)}.

Lemma mcount_empty : mcount P (∅ : gmap K A) = 0%N.
Proof. unfold mcount; rewrite map_filter_empty; done. Qed.

Lemma mcount_le m : (mcount P m <= msize m)%N.
Proof. unfold mcount, msize; pose proof (map_size_filter P m); lia. Qed.

Lemma mcount_mono m m' : m ⊆ m' -> (mcount P m <= mcount P m')%N.
Proof. intros Hs; by apply msize_mono, map_filter_subseteq_mono. Qed.

Lemma mcount_insert_True m k v :
  m !! k = None -> P (k, v) -> mcount P (<[k := v]> m) = (mcount P m + 1)%N.
Proof.
  intros Hk HP; unfold mcount; rewrite map_filter_insert_True by done.
  apply msize_insert_None, map_lookup_filter_None; by left.
Qed.

Lemma mcount_insert_False m k v :
  m !! k = None -> ~ P (k, v) -> mcount P (<[k := v]> m) = mcount P m.
Proof.
  intros Hk HP; unfold mcount; rewrite map_filter_insert_False by done.
  by rewrite delete_id.
Qed.

Lemma mcount_delete_True m k v :
  m !! k = Some v -> P (k, v) -> mcount P (delete k m) = (mcount P m - 1)%N.
Proof.
  intros Hk HP; unfold mcount; rewrite map_filter_delete.
  eapply msize_delete_Some, map_lookup_filter_Some_2; eauto.
Qed.

Lemma mcount_delete_False m k v :
  m !! k = Some v -> ~ P (k, v) -> mcount P (delete k m) = mcount P m.
Proof.
  intros Hk HP; unfold mcount; rewrite map_filter_delete_not; [done|].
  intros y Hy; rewrite Hk in Hy; by injection Hy as <-.
Qed.

Lemma mcount_pos m k v : m !! k = Some v -> P (k, v) -> (0 < mcount P m)%N.
Proof.
  intros Hk HP; unfold mcount, msize.
  assert (filter P m !! k = Some v) as Hf by (by apply map_lookup_filter_Some_2).
  pose proof (size_pos_lookup _ _ _ Hf); lia.
Qed.

Lemma mcount_delete_le m k : (mcount P (delete k m) <= mcount P m)%N.
Proof. unfold mcount; rewrite map_filter_delete; apply msize_delete_le. Qed.
End MapLemmas.

#[export] Hint Rewrite @mcount_empty : expose.
#[export] Hint Resolve mcount_pos mcount_le : expose.
