(* ===== verification/RustStr.v ===== *)
(** The operations of [str], [String] and the integer formatters of the Rust
    standard library that the sources use.  A Rust string is its sequence of
    UTF-8 bytes, a [string] here; an operation that searches, splits or filters
    by ASCII characters acts on the bytes, since no byte of a multi-byte
    character is below 128.  [str_trim] removes the characters of the Unicode
    property White_Space, written as the byte sequences that encode them. *)

From Stdlib Require Import Ascii.
From S2P Require Import Prelude.

Local Open Scope N_scope.

(** * Characters *)

Definition code (c : ascii) : N := N_of_ascii c.
Definition between (lo hi x : N) : bool := (lo <=? x) && (x <=? hi).
Definition is_ascii_digit (c : ascii) : bool := between 48 57 (code c).
Definition is_ascii_uppercase (c : ascii) : bool := between 65 90 (code c).
Definition is_ascii_lowercase (c : ascii) : bool := between 97 122 (code c).
Definition is_ascii_alphanumeric (c : ascii) : bool :=
  is_ascii_digit c || is_ascii_uppercase c || is_ascii_lowercase c.
Definition char_lower (c : ascii) : ascii :=
  if is_ascii_uppercase c then ascii_of_N (code c + 32) else c.

(** * Strings *)

Definition str_len (s : string) : N := N.of_nat (String.length s).

Fixpoint str_map (f : ascii -> ascii) (s : string) : string :=
  match s with EmptyString => EmptyString | String c s' => String (f c) (str_map f s') end.

Fixpoint str_filter (p : ascii -> bool) (s : string) : string :=
  match s with
  | EmptyString => EmptyString
  | String c s' => if p c then String c (str_filter p s') else str_filter p s'
  end.

Fixpoint str_forall (p : ascii -> bool) (s : string) : bool :=
  match s with EmptyString => true | String c s' => p c && str_forall p s' end.

Fixpoint str_take_while (p : ascii -> bool) (s : string) : string :=
  match s with
  | EmptyString => EmptyString
  | String c s' => if p c then String c (str_take_while p s') else EmptyString
  end.

Fixpoint str_take (n : nat) (s : string) : string :=
  match n, s with
  | S n', String c s' => String c (str_take n' s')
  | _, _ => EmptyString
  end.

Fixpoint str_drop (n : nat) (s : string) : string :=
  match n, s with
  | O, _ => s
  | S n', String _ s' => str_drop n' s'
  | S _, EmptyString => EmptyString
  end.

Definition str_starts_with (p s : string) : bool := String.prefix p s.

Fixpoint str_ends_with (suffix s : string) : bool :=
  String.eqb s suffix ||
  match s with EmptyString => false | String _ s' => str_ends_with suffix s' end.

(** [str::find] for a string pattern: the byte index of the first match. *)
Fixpoint str_find (needle s : string) : option nat :=
  if String.prefix needle s then Some O
  else match s with EmptyString => None | String _ s' => S <$> str_find needle s' end.

(** [s.split(c).next()]: the piece before the first [c], the whole string without one. *)
Definition str_split_first (c : ascii) (s : string) : string :=
  str_take_while (fun x => negb (Ascii.eqb x c)) s.

Definition to_ascii_lowercase (s : string) : string := str_map char_lower s.
Definition eq_ignore_ascii_case (a b : string) : bool :=
  String.eqb (to_ascii_lowercase a) (to_ascii_lowercase b).

(** * Trimming *)

Definition ws1 (a : N) : bool := between 9 13 a || (a =? 32).
Definition ws2 (a b : N) : bool := (a =? 194) && ((b =? 133) || (b =? 160)).
Definition ws3 (a b c : N) : bool :=
  ((a =? 225) && (b =? 154) && (c =? 128)) ||
  ((a =? 226) && (b =? 128) &&
     (between 128 138 c || (c =? 168) || (c =? 169) || (c =? 175))) ||
  ((a =? 226) && (b =? 129) && (c =? 159)) ||
  ((a =? 227) && (b =? 128) && (c =? 128)).

(** The rest of a string after one leading white-space character. *)
Definition ws_front (s : string) : option string :=
  match s with
  | String a r =>
      if ws1 (code a) then Some r else
      match r with
      | String b r2 =>
          if ws2 (code a) (code b) then Some r2 else
          match r2 with
          | String c r3 => if ws3 (code a) (code b) (code c) then Some r3 else None
          | EmptyString => None
          end
      | EmptyString => None
      end
  | EmptyString => None
  end.

(** The same at the end of a string, on its bytes in reverse order. *)
Definition ws_back (s : string) : option string :=
  match s with
  | String a r =>
      if ws1 (code a) then Some r else
      match r with
      | String b r2 =>
          if ws2 (code b) (code a) then Some r2 else
          match r2 with
          | String c r3 => if ws3 (code c) (code b) (code a) then Some r3 else None
          | EmptyString => None
          end
      | EmptyString => None
      end
  | EmptyString => None
  end.

Fixpoint strip_all (f : string -> option string) (fuel : nat) (s : string) : string :=
  match fuel with
  | O => s
  | S n => match f s with Some r => strip_all f n r | None => s end
  end.

Fixpoint str_rev_onto (s acc : string) : string :=
  match s with EmptyString => acc | String c s' => str_rev_onto s' (String c acc) end.
Definition str_rev (s : string) : string := str_rev_onto s EmptyString.

Definition str_trim (s : string) : string :=
  let front := strip_all ws_front (String.length s) s in
  let back := str_rev front in
  str_rev (strip_all ws_back (String.length back) back).

(** * Integers as text *)

(** [format!("{n}")] of an unsigned integer. *)
Definition fmt_uint (n : N) : string := pretty n.

Definition digit_value (c : ascii) : N := code c - 48.

Fixpoint parse_digits (max acc : N) (s : string) : option N :=
  match s with
  | EmptyString => Some acc
  | String c s' =>
      if is_ascii_digit c then
        let acc' := acc * 10 + digit_value c in
        if acc' <=? max then parse_digits max acc' s' else None
      else None
  end.

(** [str::parse] of an unsigned integer: digits with an optional plus sign, no
    empty text, an error on overflow. *)
Definition parse_uint (max : N) (s : string) : option N :=
  match s with
  | EmptyString => None
  | String c s' =>
      if Ascii.eqb c "+"%char then
        match s' with EmptyString => None | _ => parse_digits max 0 s' end
      else parse_digits max 0 s
  end.

(** * Lemmas: concatenation, prefixes and suffixes *)

Lemma str_app_cons (c : ascii) (s t : string) : String c s +:+ t = String c (s +:+ t).
Proof. reflexivity. Qed.

Lemma str_app_nil_l (s : string) : EmptyString +:+ s = s.
Proof. reflexivity. Qed.

Lemma str_app_nil_r (s : string) : s +:+ EmptyString = s.
Proof. induction s as [|c s IH]; [done|]. by rewrite str_app_cons, IH. Qed.

Lemma str_app_assoc (a b c : string) : (a +:+ b) +:+ c = a +:+ (b +:+ c).
Proof. induction a as [|x a IH]; [done|]. by rewrite !str_app_cons, IH. Qed.

Lemma str_length_app (a b : string) :
  String.length (a +:+ b) = (String.length a + String.length b)%nat.
Proof. induction a as [|x a IH]; [done|]. rewrite str_app_cons; cbn; by rewrite IH. Qed.

Lemma str_len_app (a b : string) : str_len (a +:+ b) = str_len a + str_len b.
Proof. unfold str_len; rewrite str_length_app; lia. Qed.

Lemma prefix_refl (s : string) : String.prefix s s = true.
Proof.
  induction s as [|c s IH]; [done|]; cbn.
  destruct (ascii_dec c c); [done | congruence].
Qed.

Lemma prefix_app (p s : string) : String.prefix p (p +:+ s) = true.
Proof.
  induction p as [|c p IH]; [by destruct s|]; rewrite str_app_cons; cbn.
  destruct (ascii_dec c c); [done | congruence].
Qed.

Lemma prefix_true_iff (p s : string) :
  String.prefix p s = true <-> exists r, s = p +:+ r.
Proof.
  split; [|intros [r ->]; apply prefix_app].
  revert s; induction p as [|c p IH]; intros s; [by exists s|].
  destruct s as [|d s]; cbn; [done|].
  destruct (ascii_dec c d) as [->|]; [|done].
  intros [r ->]%IH; by exists r.
Qed.

Lemma str_ends_with_iff (suffix s : string) :
  str_ends_with suffix s = true <-> exists r, s = r +:+ suffix.
Proof.
  split.
  - induction s as [|c s IH]; cbn -[String.eqb]; rewrite orb_true_iff, String.eqb_eq.
    + intros [<-|]; [by exists EmptyString | done].
    + intros [<-|[r ->]%IH]; [by exists EmptyString | by exists (String c r)].
  - intros [r ->]; induction r as [|c r IH].
    + rewrite str_app_nil_l; destruct suffix; cbn -[String.eqb]; [done|].
      by rewrite String.eqb_refl.
    + rewrite str_app_cons; cbn -[String.eqb]; rewrite IH; apply orb_true_r.
Qed.

Lemma str_take_app (a b : string) : str_take (String.length a) (a +:+ b) = a.
Proof. induction a as [|c a IH]; [done|]. rewrite str_app_cons; cbn; by rewrite IH. Qed.

Lemma str_drop_app (a b : string) : str_drop (String.length a) (a +:+ b) = b.
Proof. induction a as [|c a IH]; [done|]. by rewrite str_app_cons; cbn. Qed.

Lemma str_drop_add (a b : string) (n : nat) :
  str_drop (String.length a + n) (a +:+ b) = str_drop n b.
Proof. induction a as [|c a IH]; [done|]. by rewrite str_app_cons; cbn. Qed.

Lemma str_forall_app (p : ascii -> bool) (a b : string) :
  str_forall p (a +:+ b) = str_forall p a && str_forall p b.
Proof.
  induction a as [|c a IH]; [done|]. rewrite str_app_cons; cbn.
  by rewrite IH, andb_assoc.
Qed.

Lemma str_forall_impl (p q : ascii -> bool) (s : string) :
  (forall c, p c = true -> q c = true) -> str_forall p s = true -> str_forall q s = true.
Proof.
  intros Hpq; induction s as [|c s IH]; [done|]; cbn.
  rewrite !andb_true_iff; intros [? ?]; auto.
Qed.

Lemma str_take_while_all (p : ascii -> bool) (s : string) :
  str_forall p s = true -> str_take_while p s = s.
Proof.
  induction s as [|c s IH]; [done|]; cbn; rewrite andb_true_iff; intros [-> ?].
  by rewrite IH.
Qed.

Lemma str_take_while_app (p : ascii -> bool) (a : string) (c : ascii) (b : string) :
  str_forall p a = true -> p c = false -> str_take_while p (a +:+ String c b) = a.
Proof.
  intros Ha Hc; induction a as [|x a IH].
  - rewrite str_app_nil_l; cbn; by rewrite Hc.
  - cbn in Ha; apply andb_true_iff in Ha as [Hx ?].
    rewrite str_app_cons; cbn; rewrite Hx; by rewrite IH.
Qed.

(** The needle is not found inside a part that avoids its first character. *)
Lemma str_find_skip (c : ascii) (needle a s : string) :
  str_forall (fun x => negb (Ascii.eqb x c)) a = true ->
  str_find (String c needle) (a +:+ s) =
    (fun n => (String.length a + n)%nat) <$> str_find (String c needle) s.
Proof.
  induction a as [|x a IH]; intros Ha.
  - rewrite str_app_nil_l; cbn [String.length Nat.add]; by destruct (str_find _ s).
  - cbn in Ha; apply andb_true_iff in Ha as [Hx Ha].
    rewrite str_app_cons; cbn -[str_find]; cbn [str_find].
    cbn [String.prefix]; destruct (ascii_dec c x) as [->|Hne].
    + by rewrite Ascii.eqb_refl in Hx.
    + rewrite IH by done. by destruct (str_find _ s).
Qed.

Lemma str_find_here (needle s : string) : str_find needle (needle +:+ s) = Some O.
Proof.
  pose proof (prefix_app needle s) as Hp.
  destruct (needle +:+ s) as [|c t]; unfold str_find; fold str_find; by rewrite Hp.
Qed.

(** The needle differs from the text before the text ends; and so at every
    position of the text. *)
Fixpoint mismatch (needle a : string) : bool :=
  match needle, a with
  | String x needle', String y a' => if Ascii.eqb x y then mismatch needle' a' else true
  | _, _ => false
  end.

Fixpoint no_match (needle a : string) : bool :=
  match a with
  | EmptyString => true
  | String _ a' => mismatch needle a && no_match needle a'
  end.

Lemma mismatch_prefix (needle a s : string) :
  mismatch needle a = true -> String.prefix needle (a +:+ s) = false.
Proof.
  revert a; induction needle as [|x needle IH]; intros [|y a]; cbn [mismatch]; try done.
  rewrite str_app_cons; cbn [String.prefix]. destruct (Ascii.eqb_spec x y) as [->|Hne].
  - destruct (ascii_dec y y); [by apply IH | done].
  - by destruct (ascii_dec x y).
Qed.

Lemma str_find_past (needle a s : string) :
  no_match needle a = true ->
  str_find needle (a +:+ s) = (fun n => (String.length a + n)%nat) <$> str_find needle s.
Proof.
  induction a as [|x a IH]; intros Ha.
  - rewrite str_app_nil_l; cbn [String.length Nat.add]; by destruct (str_find needle s).
  - cbn [no_match] in Ha; apply andb_true_iff in Ha as [Hm Ha].
    pose proof (mismatch_prefix needle (String x a) s Hm) as Hp.
    rewrite str_app_cons in Hp |- *. unfold str_find; fold str_find. rewrite Hp, IH by done.
    by destruct (str_find needle s).
Qed.

(** * Lemmas: decimal text *)

Lemma digit_char_spec (d : N) :
  d < 10 ->
  is_ascii_digit (pretty_N_char d) = true /\ digit_value (pretty_N_char d) = d.
Proof.
  intros Hd.
  assert (d = 0 \/ d = 1 \/ d = 2 \/ d = 3 \/ d = 4 \/ d = 5 \/ d = 6 \/ d = 7 \/ d = 8
          \/ d = 9) as H by lia.
  repeat destruct H as [->|H]; [by vm_compute..|]. subst; by vm_compute.
Qed.

Lemma pretty_go_digits (x : N) (s : string) :
  str_forall is_ascii_digit s = true ->
  str_forall is_ascii_digit (pretty_N_go x s) = true.
Proof.
  revert s; induction (N.lt_wf_0 x) as [x _ IH]; intros s Hs.
  destruct (decide (0 < x)) as [Hx|Hx].
  - rewrite pretty_N_go_step by done. apply IH; [by apply N.div_lt|].
    cbn; rewrite Hs, andb_true_r. apply digit_char_spec, N.mod_lt; lia.
  - replace x with 0 by lia. by rewrite pretty_N_go_0.
Qed.

Lemma fmt_uint_digits (n : N) : str_forall is_ascii_digit (fmt_uint n) = true.
Proof.
  unfold fmt_uint, pretty, pretty_N; case_decide; [by vm_compute|].
  by apply pretty_go_digits.
Qed.

Lemma pretty_go_nonempty (x : N) (s : string) :
  s <> EmptyString -> pretty_N_go x s <> EmptyString.
Proof.
  revert s; induction (N.lt_wf_0 x) as [x _ IH]; intros s Hs.
  destruct (decide (0 < x)) as [Hx|Hx].
  - rewrite pretty_N_go_step by done. apply IH; [by apply N.div_lt | done].
  - replace x with 0 by lia. by rewrite pretty_N_go_0.
Qed.

Lemma fmt_uint_nonempty (n : N) : fmt_uint n <> EmptyString.
Proof.
  unfold fmt_uint, pretty, pretty_N; case_decide; [done|].
  rewrite pretty_N_go_step by lia. by apply pretty_go_nonempty.
Qed.

Lemma parse_pretty_go (max x : N) (s : string) :
  x <= max -> parse_digits max 0 (pretty_N_go x s) = parse_digits max x s.
Proof.
  revert s; induction (N.lt_wf_0 x) as [x _ IH]; intros s Hx.
  destruct (decide (0 < x)) as [Hpos|Hpos].
  - rewrite pretty_N_go_step by done.
    rewrite IH; [|by apply N.div_lt|].
    2: { pose proof (N.Div0.div_le_upper_bound x 10 max); lia. }
    cbn [parse_digits].
    destruct (digit_char_spec (x mod 10)) as [-> ->]; [apply N.mod_lt; lia|].
    assert (x / 10 * 10 + x mod 10 = x) as -> by (pose proof (N.div_mod x 10); lia).
    destruct (N.leb_spec x max); [done | lia].
  - replace x with 0 by lia. by rewrite pretty_N_go_0.
Qed.

Lemma parse_digits_fmt (max n : N) : n <= max -> parse_digits max 0 (fmt_uint n) = Some n.
Proof.
  intros Hn; unfold fmt_uint, pretty, pretty_N; case_decide as H0.
  - subst; cbn. destruct max; done.
  - by rewrite parse_pretty_go.
Qed.

(** Printing and parsing an integer of the width are inverse. *)
Lemma parse_fmt_uint (max n : N) : n <= max -> parse_uint max (fmt_uint n) = Some n.
Proof.
  intros Hn; pose proof (parse_digits_fmt max n Hn) as Hp.
  pose proof (fmt_uint_nonempty n) as Hne; pose proof (fmt_uint_digits n) as Hd.
  destruct (fmt_uint n) as [|c s]; [done|]; cbn in Hd.
  unfold parse_uint; destruct (Ascii.eqb_spec c "+"%char) as [->|]; [|done].
  by vm_compute in Hd.
Qed.

Lemma parse_digits_le (max acc : N) (s : string) (n : N) :
  acc <= max -> parse_digits max acc s = Some n -> n <= max.
Proof.
  revert acc; induction s as [|c s IH]; intros acc Hacc; cbn; [congruence|].
  destruct (is_ascii_digit c); [|done].
  destruct (N.leb_spec (acc * 10 + digit_value c) max); [eauto | done].
Qed.

Lemma parse_uint_le (max : N) (s : string) (n : N) : parse_uint max s = Some n -> n <= max.
Proof.
  destruct s as [|c s]; cbn -[parse_digits]; [done|].
  destruct (Ascii.eqb c "+"%char); [destruct s; [done|]|];
    intros H; eapply parse_digits_le in H; eauto; lia.
Qed.

(** * Lemmas: filtering and trimming *)

Lemma str_filter_all (p : ascii -> bool) (s : string) :
  str_forall p s = true -> str_filter p s = s.
Proof.
  induction s as [|c s IH]; [done|]; cbn; rewrite andb_true_iff; intros [-> ?].
  by rewrite IH.
Qed.

Lemma str_filter_forall (p : ascii -> bool) (s : string) :
  str_forall p (str_filter p s) = true.
Proof. induction s as [|c s IH]; [done|]; cbn; destruct (p c) eqn:E; cbn; [by rewrite E|done]. Qed.

Lemma str_filter_app (p : ascii -> bool) (a b : string) :
  str_filter p (a +:+ b) = str_filter p a +:+ str_filter p b.
Proof.
  induction a as [|c a IH]; [done|]. rewrite str_app_cons; cbn.
  destruct (p c); by rewrite IH.
Qed.

Lemma str_rev_onto_app (s acc : string) : str_rev_onto s acc = str_rev s +:+ acc.
Proof.
  unfold str_rev; revert acc; induction s as [|c s IH]; intros acc; cbn; [done|].
  rewrite IH, (IH (String c EmptyString)), str_app_assoc. done.
Qed.

Lemma str_rev_cons (c : ascii) (s : string) :
  str_rev (String c s) = str_rev s +:+ String c EmptyString.
Proof. unfold str_rev at 1; cbn; apply str_rev_onto_app. Qed.

Lemma str_rev_app (a b : string) : str_rev (a +:+ b) = str_rev b +:+ str_rev a.
Proof.
  induction a as [|c a IH].
  - by rewrite str_app_nil_l, str_app_nil_r.
  - by rewrite str_app_cons, !str_rev_cons, IH, str_app_assoc.
Qed.

Lemma str_rev_involutive (s : string) : str_rev (str_rev s) = s.
Proof. induction s as [|c s IH]; [done|]. by rewrite str_rev_cons, str_rev_app, IH. Qed.

Lemma str_forall_rev (p : ascii -> bool) (s : string) :
  str_forall p (str_rev s) = str_forall p s.
Proof.
  induction s as [|c s IH]; [done|]. rewrite str_rev_cons, str_forall_app, IH; cbn.
  by rewrite andb_true_r, andb_comm.
Qed.

Lemma str_filter_rev (p : ascii -> bool) (s : string) :
  str_filter p (str_rev s) = str_rev (str_filter p s).
Proof.
  induction s as [|c s IH]; [done|]. rewrite str_rev_cons, str_filter_app, IH; cbn [str_filter].
  destruct (p c); [by rewrite str_rev_cons | by rewrite str_app_nil_r].
Qed.

Section Trim.
(** Predicates on bytes that no byte of a white-space character satisfies. *)
Context (p : ascii -> bool).
Hypothesis not_ws1 : forall c, ws1 (code c) = true -> p c = false.
Hypothesis not_high : forall c, 128 <= code c -> p c = false.

(** What a stripping function removes: at least one byte, none of the predicate. *)
Let strips (f : string -> option string) : Prop :=
  forall s r, f s = Some r ->
    exists w, s = w +:+ r /\ str_filter p w = EmptyString /\ w <> EmptyString.

Lemma ws_front_bytes : strips ws_front.
Proof using not_ws1 not_high.
  intros [|a [|b [|c s]]] r; cbn; intros H; [done|..];
    destruct (ws1 (code a)) eqn:E1;
    try (injection H as <-; exists (String a EmptyString); split; [done|]; cbn;
         by rewrite not_ws1); try done.
  all: destruct (ws2 (code a) (code b)) eqn:E2;
    [injection H as <-; exists (String a (String b EmptyString)); split; [done|]; cbn;
     rewrite !not_high by (unfold ws2 in E2; lia); done|]; try done.
  destruct (ws3 (code a) (code b) (code c)) eqn:E3; [|done].
  injection H as <-; exists (String a (String b (String c EmptyString))); split; [done|].
  cbn; rewrite !not_high by (unfold ws3, between in E3; lia); done.
Qed.

Lemma ws_back_bytes : strips ws_back.
Proof using not_ws1 not_high.
  intros [|a [|b [|c s]]] r; cbn; intros H; [done|..];
    destruct (ws1 (code a)) eqn:E1;
    try (injection H as <-; exists (String a EmptyString); split; [done|]; cbn;
         by rewrite not_ws1); try done.
  all: destruct (ws2 (code b) (code a)) eqn:E2;
    [injection H as <-; exists (String a (String b EmptyString)); split; [done|]; cbn;
     rewrite !not_high by (unfold ws2 in E2; lia); done|]; try done.
  destruct (ws3 (code c) (code b) (code a)) eqn:E3; [|done].
  injection H as <-; exists (String a (String b (String c EmptyString))); split; [done|].
  cbn; rewrite !not_high by (unfold ws3, between in E3; lia); done.
Qed.

Lemma strip_all_filter (f : string -> option string) (n : nat) (s : string) :
  strips f -> str_filter p (strip_all f n s) = str_filter p s.
Proof using.
  intros Hf; revert s; induction n as [|n IH]; intros s; cbn; [done|].
  destruct (f s) as [r|] eqn:E; [|done].
  destruct (Hf _ _ E) as (w & -> & Hw & _). by rewrite IH, str_filter_app, Hw.
Qed.

(** Trimming removes only bytes that the predicate rejects. *)
Lemma str_trim_filter (s : string) : str_filter p (str_trim s) = str_filter p s.
Proof using not_ws1 not_high.
  unfold str_trim. rewrite str_filter_rev, strip_all_filter by apply ws_back_bytes.
  rewrite <- str_filter_rev, str_rev_involutive.
  apply strip_all_filter, ws_front_bytes.
Qed.

Lemma strip_all_id (f : string -> option string) (n : nat) (s : string) :
  strips f -> str_forall p s = true -> strip_all f n s = s.
Proof using.
  intros Hf Hs; destruct n; cbn; [done|]. destruct (f s) as [r|] eqn:E; [|done].
  destruct (Hf _ _ E) as (w & -> & Hw & Hne).
  rewrite str_forall_app, andb_true_iff in Hs; destruct Hs as [Hs _].
  rewrite str_filter_all in Hw by done. done.
Qed.

(** A string of such bytes has nothing to trim. *)
Lemma str_trim_id (s : string) : str_forall p s = true -> str_trim s = s.
Proof using not_ws1 not_high.
  intros Hs; unfold str_trim.
  rewrite (strip_all_id ws_front) by (done || apply ws_front_bytes).
  rewrite (strip_all_id ws_back) by (apply ws_back_bytes || by rewrite str_forall_rev).
  apply str_rev_involutive.
Qed.
End Trim.

#[export] Hint Resolve fmt_uint_digits fmt_uint_nonempty parse_fmt_uint parse_uint_le : expose.
