(* ===== verification/Types.v ===== *)
(** The shared data of [expose-common/src/types.rs]: tunnel protocols, the
    configuration of a tunnel, its assignment and the request limits. *)

From S2P Require Import Prelude RustStr.

Local Open Scope N_scope.

Inductive TunnelProtocol : Type :=
| Http
| Tcp.

#[export] Instance TunnelProtocol_eq_dec : EqDecision TunnelProtocol.
Proof. solve_decision. Defined.

Definition TunnelProtocol_default : TunnelProtocol := Http.

(** [Display for TunnelProtocol]. *)
Definition TunnelProtocol_fmt (p : TunnelProtocol) : string :=
  match p with Http => "http" | Tcp => "tcp" end.

Record TcpTuningConfig : Type := {
  tt_nodelay : bool;
  tt_keepalive_enabled : bool;
  tt_keepalive_time_secs : N;
  tt_keepalive_interval_secs : N;
  tt_send_buffer_size : option N;
  tt_recv_buffer_size : option N;
}.

Definition TcpTuningConfig_default : TcpTuningConfig := {|
  tt_nodelay := true;
  tt_keepalive_enabled := true;
  tt_keepalive_time_secs := 60;
  tt_keepalive_interval_secs := 10;
  tt_send_buffer_size := Some 262144;
  tt_recv_buffer_size := Some 262144;
|}.

Record TunnelConfig : Type := {
  tc_protocol : TunnelProtocol;
  tc_local_host : string;
  tc_local_port : N;
  tc_subdomain : option string;
  tc_server_url : string;
  tc_api_key : option string;
  tc_reconnect_max_attempts : N;
  tc_reconnect_base_delay_ms : N;
  tc_tcp_tuning : TcpTuningConfig;
}.

Definition local_endpoint (c : TunnelConfig) : string :=
  tc_local_host c +:+ ":" +:+ fmt_uint (tc_local_port c).

Definition TunnelConfig_default : TunnelConfig := {|
  tc_protocol := Http;
  tc_local_host := "127.0.0.1";
  tc_local_port := 8080;
  tc_subdomain := None;
  tc_server_url := "wss://tunnel.example.com";
  tc_api_key := None;
  tc_reconnect_max_attempts := 10;
  tc_reconnect_base_delay_ms := 1000;
  tc_tcp_tuning := TcpTuningConfig_default;
|}.

Record TunnelAssignment : Type := {
  ta_tunnel_id : Uuid;
  ta_subdomain : string;
  ta_domain : string;
  ta_protocol : TunnelProtocol;
}.

Definition TunnelAssignment_public_url (a : TunnelAssignment) : string :=
  match ta_protocol a with
  | Http => "https://" +:+ ta_subdomain a +:+ "." +:+ ta_domain a
  | Tcp => "tcp://" +:+ ta_subdomain a +:+ "." +:+ ta_domain a
  end.

Record RequestLimits : Type := {
  rl_max_body_bytes : N;
  rl_max_headers : N;
}.

#[export] Instance RequestLimits_eq_dec : EqDecision RequestLimits.
Proof. solve_decision. Defined.

Definition RequestLimits_default : RequestLimits := {|
  rl_max_body_bytes := 10 * 1024 * 1024;
  rl_max_headers := 64;
|}.
