(* ===== verification/Errors.v ===== *)
(** The error type of the workspace, [expose-common/src/error.rs], with its
    three classifications: HTTP status, protocol error code and retriability.
    Error values of foreign crates are represented by the text they display,
    the only part of them the sources use; [std::io::Error] keeps its kind. *)

From S2P Require Import Prelude RustStr.

Local Open Scope N_scope.

(** [ErrorCode] of [protocol.rs], with its [repr(u16)] discriminants. *)
Inductive ErrorCode : Type :=
| AuthenticationFailed
| SubdomainUnavailable
| RateLimitExceeded
| ProtocolMismatch
| InternalError.

#[export] Instance ErrorCode_eq_dec : EqDecision ErrorCode.
Proof. solve_decision. Defined.

Definition ErrorCode_as_u16 (c : ErrorCode) : N :=
  match c with
  | AuthenticationFailed => 1001
  | SubdomainUnavailable => 1002
  | RateLimitExceeded => 1003
  | ProtocolMismatch => 1004
  | InternalError => 1099
  end.

(** [std::io::Error]: [ErrorKind::Other] with a message, or an error of the system. *)
Inductive IoError : Type :=
| IoOther (message : string)
| IoSystem (message : string).

Definition io_error_to_string (e : IoError) : string :=
  match e with IoOther m => m | IoSystem m => m end.

(** [other_io_error] of [expose-server/src/error.rs] and [expose-client/src/error.rs]. *)
Definition other_io_error (message : string) : IoError := IoOther message.

Inductive EncodingError : Type :=
| Bincode (text : string)
| Utf8 (text : string)
| MessageTooLarge (size : N).

Inductive ConfigError : Type :=
| FileRead (e : IoError)
| Parse (text : string)
| Validation (message : string)
| MissingField (field : string).

Inductive ExposeError : Type :=
| Encoding (e : EncodingError)
| VersionMismatch (client_version server_version : N)
| InvalidMessage (context : string)
| Authentication (reason : string)
| AdminAuthorization
| SubdomainTaken (subdomain : string)
| InvalidSubdomain (subdomain reason : string)
| TunnelNotFound (identifier : string)
| TunnelDisconnected (reason : option string)
| RateLimited (retry_after_secs : N)
| CapacityExceeded (resource : string)
| PayloadTooLarge (size limit : N)
| Network (e : IoError)
| WebSocket (text : string)
| HttpError (text : string)
| Timeout (operation : string) (timeout_secs : N)
| ConnectionRefused (address : string)
| Config (e : ConfigError)
| Internal (text : string).

#[export] Instance IoError_eq_dec : EqDecision IoError.
Proof. solve_decision. Defined.
#[export] Instance EncodingError_eq_dec : EqDecision EncodingError.
Proof. solve_decision. Defined.
#[export] Instance ConfigError_eq_dec : EqDecision ConfigError.
Proof. solve_decision. Defined.
#[export] Instance ExposeError_eq_dec : EqDecision ExposeError.
Proof. solve_decision. Defined.

(** [expose_common::error::Result]. *)
Abbreviation result := (Result ExposeError).

(** * Display *)

Definition EncodingError_to_string (e : EncodingError) : string :=
  match e with
  | Bincode t => "bincode serialization failed: " +:+ t
  | Utf8 t => "invalid UTF-8 in message: " +:+ t
  | MessageTooLarge size => "message too large: " +:+ fmt_uint size +:+ " bytes"
  end.

Definition ConfigError_to_string (e : ConfigError) : string :=
  match e with
  | FileRead io => "failed to read config file: " +:+ io_error_to_string io
  | Parse t => "failed to parse config: " +:+ t
  | Validation m => "validation error: " +:+ m
  | MissingField f => "missing required field: " +:+ f
  end.

Definition ExposeError_to_string (e : ExposeError) : string :=
  match e with
  | Encoding e => "protocol encoding error: " +:+ EncodingError_to_string e
  | VersionMismatch c s =>
      "protocol version mismatch: client=" +:+ fmt_uint c +:+ ", server=" +:+ fmt_uint s
  | InvalidMessage c => "invalid message: " +:+ c
  | Authentication r => "authentication failed: " +:+ r
  | AdminAuthorization => "admin authorization failed"
  | SubdomainTaken s => "subdomain '" +:+ s +:+ "' is already in use"
  | InvalidSubdomain s r => "invalid subdomain '" +:+ s +:+ "': " +:+ r
  | TunnelNotFound i => "tunnel not found: " +:+ i
  | TunnelDisconnected _ => "tunnel disconnected"
  | RateLimited r => "rate limit exceeded, retry after " +:+ fmt_uint r +:+ "s"
  | CapacityExceeded r => "capacity exceeded: " +:+ r
  | PayloadTooLarge size limit =>
      "payload too large: " +:+ fmt_uint size +:+ " bytes exceeds limit of "
        +:+ fmt_uint limit +:+ " bytes"
  | Network io => "network error: " +:+ io_error_to_string io
  | WebSocket t => "websocket error: " +:+ t
  | HttpError t => "HTTP error: " +:+ t
  | Timeout op secs =>
      "timeout: " +:+ op +:+ " took longer than " +:+ fmt_uint secs +:+ "s"
  | ConnectionRefused a => "connection refused to " +:+ a
  | Config c => "configuration error: " +:+ ConfigError_to_string c
  | Internal t => "internal error: " +:+ t
  end.

(** * Classification *)

Definition http_status (e : ExposeError) : N :=
  match e with
  | Authentication _ => 401
  | AdminAuthorization => 403
  | SubdomainTaken _ => 409
  | InvalidSubdomain _ _ => 400
  | TunnelNotFound _ => 404
  | RateLimited _ => 429
  | CapacityExceeded _ => 503
  | PayloadTooLarge _ _ => 413
  | Timeout _ _ => 504
  | ConnectionRefused _ => 502
  | VersionMismatch _ _ => 400
  | Config _ => 500
  | Internal _ => 500
  | _ => 500
  end.

Definition error_code (e : ExposeError) : ErrorCode :=
  match e with
  | Authentication _ | AdminAuthorization => AuthenticationFailed
  | SubdomainTaken _ | InvalidSubdomain _ _ => SubdomainUnavailable
  | RateLimited _ => RateLimitExceeded
  | VersionMismatch _ _ => ProtocolMismatch
  | _ => InternalError
  end.

Definition is_retriable (e : ExposeError) : bool :=
  match e with
  | Network _ | WebSocket _ | Timeout _ _ | TunnelDisconnected _ => true
  | _ => false
  end.

(** [IntoResponse]: the status and the two fields of the JSON body. *)
Record ErrorResponse : Type := {
  er_status : N;
  er_code : N;
  er_message : string;
}.

Definition into_response (e : ExposeError) : ErrorResponse := {|
  er_status := http_status e;
  er_code := ErrorCode_as_u16 (error_code e);
  er_message := ExposeError_to_string e;
|}.

(** * Properties of the classification *)

(** Every error is answered with an HTTP error status, never a success. *)
Lemma http_status_is_error (e : ExposeError) : 400 <= http_status e < 600.
Proof. destruct e; cbn; lia. Qed.

Lemma ErrorCode_as_u16_inj (a b : ErrorCode) :
  ErrorCode_as_u16 a = ErrorCode_as_u16 b -> a = b.
Proof. destruct a, b; cbn; congruence. Qed.
