(* ===== verification/Utils.v ===== *)
(** [expose-common/src/utils.rs]: the payload size check and the sanitization
    of requested subdomains. *)

From Stdlib Require Import Ascii.
From S2P Require Import Prelude RustStr Errors.

Local Open Scope N_scope.

Definition validate_body_size (size limit : N) : result unit :=
  if decide (limit < size) then Err (PayloadTooLarge size limit) else Ok tt.

(** The characters a subdomain keeps. *)
Definition label_char (c : ascii) : bool := is_ascii_alphanumeric c || Ascii.eqb c "-"%char.

Definition sanitize_subdomain (raw : string) : option string :=
  let normalized := str_filter label_char (to_ascii_lowercase (str_trim raw)) in
  if String.eqb normalized EmptyString || (63 <? str_len normalized) then None
  else if str_starts_with "-" normalized || str_ends_with "-" normalized then None
  else Some normalized.

(** * What a sanitized subdomain is: a lower-case DNS label *)

Definition label_lower_char (c : ascii) : bool :=
  is_ascii_digit c || is_ascii_lowercase c || Ascii.eqb c "-"%char.

Record valid_label (s : string) : Prop := {
  vl_chars : str_forall label_lower_char s = true;
  vl_len : 1 <= str_len s <= 63;
  vl_front : str_starts_with "-" s = false;
  vl_back : str_ends_with "-" s = false;
}.

Lemma validate_body_size_Ok (size limit : N) :
  validate_body_size size limit = Ok tt <-> size <= limit.
Proof. unfold validate_body_size; case_decide; split; intros; try done; lia. Qed.

Lemma validate_body_size_Err (size limit : N) (e : ExposeError) :
  validate_body_size size limit = Err e <-> limit < size /\ e = PayloadTooLarge size limit.
Proof. unfold validate_body_size; case_decide; split; [naive_solver | by intros [_ ->] | done | lia]. Qed.

Lemma label_lower_char_spec (c : ascii) :
  label_char (char_lower c) = true -> label_lower_char (char_lower c) = true.
Proof. destruct c as [[] [] [] [] [] [] [] []]; vm_compute; congruence. Qed.

Lemma label_lower_char_fixed (c : ascii) :
  label_lower_char c = true -> label_char c = true /\ char_lower c = c.
Proof. destruct c as [[] [] [] [] [] [] [] []]; vm_compute; split; congruence. Qed.

Lemma label_char_not_ws (c : ascii) : ws1 (code c) = true -> label_char (char_lower c) = false.
Proof. destruct c as [[] [] [] [] [] [] [] []]; vm_compute; congruence. Qed.

Lemma label_char_not_high (c : ascii) : 128 <= code c -> label_char (char_lower c) = false.
Proof. destruct c as [[] [] [] [] [] [] [] []]; vm_compute; congruence. Qed.

Lemma filter_lower (s : string) :
  str_filter label_char (to_ascii_lowercase s) =
  to_ascii_lowercase (str_filter (fun c => label_char (char_lower c)) s).
Proof.
  unfold to_ascii_lowercase; induction s as [|c s IH]; [done|]; cbn.
  destruct (label_char (char_lower c)); cbn; by rewrite IH.
Qed.

(** Trimming is subsumed by the filter: white space is not kept anyway. *)
Lemma sanitize_no_trim (raw : string) :
  str_filter label_char (to_ascii_lowercase (str_trim raw)) =
  str_filter label_char (to_ascii_lowercase raw).
Proof.
  rewrite !filter_lower. f_equal.
  apply str_trim_filter; auto using label_char_not_ws, label_char_not_high.
Qed.

Lemma normalized_chars (raw : string) :
  str_forall label_lower_char (str_filter label_char (to_ascii_lowercase raw)) = true.
Proof.
  unfold to_ascii_lowercase; induction raw as [|c s IH]; [done|]; cbn.
  destruct (label_char (char_lower c)) eqn:E; [|done]; cbn.
  by rewrite IH, label_lower_char_spec.
Qed.

Lemma lower_label_id (s : string) :
  str_forall label_lower_char s = true ->
  str_filter label_char (to_ascii_lowercase s) = s.
Proof.
  unfold to_ascii_lowercase; induction s as [|c s IH]; [done|]; cbn.
  rewrite andb_true_iff; intros [Hc Hs].
  destruct (label_lower_char_fixed c Hc) as [H1 ->]. by rewrite H1, IH.
Qed.

Lemma str_len_zero (s : string) : str_len s = 0 <-> s = EmptyString.
Proof. destruct s; cbn; unfold str_len; cbn; split; intros; try done; lia. Qed.

(** The helper the components share: what [sanitize_subdomain] accepts. *)
Lemma sanitize_valid (raw s : string) : sanitize_subdomain raw = Some s -> valid_label s.
Proof.
  unfold sanitize_subdomain; rewrite sanitize_no_trim.
  set (n := str_filter _ _); intros H.
  assert (str_forall label_lower_char n = true) as Hn by apply normalized_chars.
  destruct (String.eqb_spec n EmptyString) as [|Hne]; [done|]; cbn in H.
  destruct (N.ltb_spec 63 (str_len n)); [done|]; cbn in H.
  destruct (str_starts_with "-" n) eqn:Hs, (str_ends_with "-" n) eqn:He; try done.
  injection H as <-; split; auto.
  split; [|lia]. assert (str_len n <> 0); [by rewrite str_len_zero | lia].
Qed.

Lemma sanitize_fixed (s : string) : valid_label s -> sanitize_subdomain s = Some s.
Proof.
  intros [Hc Hl Hf Hb]; unfold sanitize_subdomain; rewrite sanitize_no_trim, lower_label_id by done.
  destruct (String.eqb_spec s EmptyString) as [->|]; [unfold str_len in Hl; cbn in Hl; lia|].
  destruct (N.ltb_spec 63 (str_len s)); [lia|]. by rewrite Hf, Hb.
Qed.

#[export] Hint Resolve sanitize_valid sanitize_fixed : expose.
