(* ===== verification/Protocol.v ===== *)
(** The wire protocol of [expose-common/src/protocol.rs]: version
    compatibility, the handshake data and its public URL, the message envelope
    and its size-checked encoding.  [bincode] is not part of the sources: its
    two functions are arguments of the encoder and of the decoder. *)

From S2P Require Import Prelude RustStr Types Errors Utils.

Local Open Scope N_scope.

(** * Versions *)

Definition PROTOCOL_VERSION : N := 200.
Definition major_version (version : N) : N := version / 100.
Definition minor_version (version : N) : N := version mod 100.

Definition versions_compatible (client_version server_version : N) : bool :=
  major_version client_version =? major_version server_version.

Inductive VersionCheckResult : Type :=
| Compatible
| ClientTooOld (client_version server_version min_supported : N)
| ClientTooNew (client_version server_version : N).

Definition version_check (client_version server_version : N) : VersionCheckResult :=
  if versions_compatible client_version server_version then Compatible
  else if client_version <? server_version then
    ClientTooOld client_version server_version (major_version server_version * 100)
  else ClientTooNew client_version server_version.

Definition is_compatible (r : VersionCheckResult) : bool :=
  match r with Compatible => true | _ => false end.

Definition error_message (r : VersionCheckResult) : option string :=
  match r with
  | Compatible => None
  | ClientTooOld c s m => Some
      ("Client version " +:+ fmt_uint c +:+ " is incompatible with server version "
       +:+ fmt_uint s +:+ ". Upgrade the client to version " +:+ fmt_uint m
       +:+ " or newer.")
  | ClientTooNew c s => Some
      ("Client version " +:+ fmt_uint c +:+ " is newer than server version "
       +:+ fmt_uint s +:+ ". Upgrade the server to a compatible build.")
  end.

Definition DEFAULT_MAX_BODY_SIZE : N := 10 * 1024 * 1024.

(** * Handshake data *)

Record ConnectRequest : Type := {
  cr_protocol_version : N;
  cr_api_key : option string;
  cr_desired_subdomain : option string;
  cr_tunnel_protocol : TunnelProtocol;
  cr_client_version : string;
  cr_metadata : option string;
}.

Definition ConnectRequest_new (api_key desired_subdomain : option string)
    (tunnel_protocol : TunnelProtocol) (client_version : string) : ConnectRequest := {|
  cr_protocol_version := PROTOCOL_VERSION;
  cr_api_key := api_key;
  cr_desired_subdomain := desired_subdomain;
  cr_tunnel_protocol := tunnel_protocol;
  cr_client_version := client_version;
  cr_metadata := None;
|}.

Record ConnectResponse : Type := {
  ca_protocol_version : N;
  ca_tunnel_id : Uuid;
  ca_assigned_subdomain : string;
  ca_domain : string;
  ca_tunnel_protocol : TunnelProtocol;
  ca_message : option string;
  ca_limits : RequestLimits;
  ca_public_scheme : string;
  ca_public_port : option N;
  ca_public_url : string;
}.

Definition ConnectResponse_build (tunnel_id : Uuid) (subdomain domain : string)
    (tunnel_protocol : TunnelProtocol) (tls_enabled : bool) (public_port : option N)
    (limits : RequestLimits) : ConnectResponse :=
  let scheme :=
    match tunnel_protocol with
    | Http => if tls_enabled then "https" else "http"
    | Tcp => "tcp"
    end in
  let default_http_port := if tls_enabled then 443 else 80 in
  let port_suffix :=
    match tunnel_protocol, public_port with
    | Http, Some port =>
        if negb (port =? default_http_port) then ":" +:+ fmt_uint port else EmptyString
    | Http, None => EmptyString
    | Tcp, Some port => ":" +:+ fmt_uint port
    | Tcp, None => EmptyString
    end in
  let advertised_port :=
    match tunnel_protocol with
    | Http => if String.eqb port_suffix EmptyString then None else public_port
    | Tcp => public_port
    end in
  let public_url := scheme +:+ "://" +:+ subdomain +:+ "." +:+ domain +:+ port_suffix in
  {| ca_protocol_version := PROTOCOL_VERSION;
     ca_tunnel_id := tunnel_id;
     ca_assigned_subdomain := subdomain;
     ca_domain := domain;
     ca_tunnel_protocol := tunnel_protocol;
     ca_message := None;
     ca_limits := limits;
     ca_public_scheme := scheme;
     ca_public_port := advertised_port;
     ca_public_url := public_url |}.

(** * Messages *)

Inductive TcpCloseReason : Type :=
| CloseNormal
| CloseReset
| CloseTimeout
| CloseError (message : string).

Abbreviation Headers := (list (string * string)).

Inductive Message : Type :=
| Connect (request : ConnectRequest)
| ConnectAck (response : ConnectResponse)
| HttpRequest (id : Uuid) (method path : string) (headers : Headers) (body : Bytes)
| HttpResponse (id : Uuid) (status : N) (headers : Headers) (body : Bytes)
| HttpRequestStart (id : Uuid) (method path : string) (headers : Headers)
    (content_length : option N)
| HttpRequestChunk (id : Uuid) (data : Bytes) (sequence : N)
| HttpRequestEnd (id : Uuid)
| HttpResponseStart (id : Uuid) (status : N) (headers : Headers) (content_length : option N)
| HttpResponseChunk (id : Uuid) (data : Bytes) (sequence : N)
| HttpResponseEnd (id : Uuid)
| TcpConnect (connection_id : Uuid) (remote_addr : string)
| TcpConnectAck (connection_id : Uuid) (success : bool) (error : option string)
| TcpData (connection_id : Uuid) (data : Bytes) (sequence : N)
| TcpClose (connection_id : Uuid) (reason : TcpCloseReason)
| Disconnect (reason : option string)
| Error (code : ErrorCode) (message : string).

#[export] Instance TcpCloseReason_eq_dec : EqDecision TcpCloseReason.
Proof. solve_decision. Defined.
#[export] Instance ConnectRequest_eq_dec : EqDecision ConnectRequest.
Proof. solve_decision. Defined.
#[export] Instance ConnectResponse_eq_dec : EqDecision ConnectResponse.
Proof. solve_decision. Defined.
#[export] Instance Message_eq_dec : EqDecision Message.
Proof. solve_decision. Defined.

Definition variant_name (m : Message) : string :=
  match m with
  | Connect _ => "Connect"
  | ConnectAck _ => "ConnectAck"
  | HttpRequest _ _ _ _ _ => "HttpRequest"
  | HttpResponse _ _ _ _ => "HttpResponse"
  | HttpRequestStart _ _ _ _ _ => "HttpRequestStart"
  | HttpRequestChunk _ _ _ => "HttpRequestChunk"
  | HttpRequestEnd _ => "HttpRequestEnd"
  | HttpResponseStart _ _ _ _ => "HttpResponseStart"
  | HttpResponseChunk _ _ _ => "HttpResponseChunk"
  | HttpResponseEnd _ => "HttpResponseEnd"
  | TcpConnect _ _ => "TcpConnect"
  | TcpConnectAck _ _ _ => "TcpConnectAck"
  | TcpData _ _ _ => "TcpData"
  | TcpClose _ _ => "TcpClose"
  | Disconnect _ => "Disconnect"
  | Error _ _ => "Error"
  end.

Definition validate (m : Message) (limit : N) : result unit :=
  match m with
  | HttpRequest _ _ _ _ body | HttpResponse _ _ _ body =>
      _ ← validate_body_size (len body) limit; Ok tt
  | HttpRequestChunk _ data _ | HttpResponseChunk _ data _ =>
      _ ← validate_body_size (len data) limit; Ok tt
  | TcpData _ data _ => _ ← validate_body_size (len data) limit; Ok tt
  | _ => Ok tt
  end.

(** What the encoder needs of [bincode]: a function to bytes and one from bytes,
    failing with the text of a bincode error. *)
Class BincodeCodec : Type := {
  bincode_serialize : Message -> Result string Bytes;
  bincode_deserialize : Bytes -> Result string Message;
}.

(** The documented contract: what was serialized is read back. *)
Class BincodeLaws (B : BincodeCodec) : Prop := {
  bincode_roundtrip m b :
    bincode_serialize m = Ok b -> bincode_deserialize b = Ok m;
}.

Section Codec.
Context `{B : BincodeCodec}.

Definition encode (m : Message) : result Bytes :=
  _ ← validate m DEFAULT_MAX_BODY_SIZE;
  map_err (bincode_serialize m) (fun t => Encoding (Bincode t)).

Definition decode (bytes : Bytes) : result Message :=
  msg ← map_err (bincode_deserialize bytes) (fun t => Encoding (Bincode t));
  _ ← validate msg DEFAULT_MAX_BODY_SIZE;
  Ok msg.

Definition encode_message (msg : Message) : result Bytes := encode msg.
Definition decode_message (bytes : Bytes) : result Message := decode bytes.
End Codec.

(** * Versions: what the check decides *)

(** The payload a message carries, the only part [validate] looks at. *)
Definition payload (m : Message) : option Bytes :=
  match m with
  | HttpRequest _ _ _ _ b | HttpResponse _ _ _ b => Some b
  | HttpRequestChunk _ d _ | HttpResponseChunk _ d _ => Some d
  | TcpData _ d _ => Some d
  | _ => None
  end.

Lemma major_version_le (v w : N) : v <= w -> major_version v <= major_version w.
Proof. unfold major_version; intros; by apply N.Div0.div_le_mono. Qed.

Lemma major_times_100 (v : N) : major_version (major_version v * 100) = major_version v.
Proof. unfold major_version; by apply N.div_mul. Qed.

Lemma versions_compatible_iff (c s : N) :
  versions_compatible c s = true <-> major_version c = major_version s.
Proof. unfold versions_compatible; apply N.eqb_eq. Qed.

(** The version check is complete and correct: it answers Compatible exactly
    when the major versions agree; otherwise it reports the two versions it was
    given, and the version it asks an old client to upgrade to is the least
    version that the server accepts. *)
Theorem version_check_spec (c s : N) :
  match version_check c s with
  | Compatible => major_version c = major_version s
  | ClientTooOld c' s' m =>
      c' = c /\ s' = s /\ c < m <= s /\ version_check m s = Compatible /\
      forall v, version_check v s = Compatible -> m <= v
  | ClientTooNew c' s' => c' = c /\ s' = s /\ s < c /\ major_version s < major_version c
  end.
Proof.
  assert (forall v, version_check v s = Compatible <-> major_version v = major_version s) as Hc.
  { intros v; unfold version_check; rewrite <- versions_compatible_iff.
    destruct (versions_compatible v s); [done|]. destruct (v <? s); done. }
  destruct (version_check c s) as [|c' s' m|c' s'] eqn:E; [by apply Hc|..];
    unfold version_check in E; destruct (versions_compatible c s) eqn:Ec; try done;
    destruct (N.ltb_spec c s); simplify_eq; unfold versions_compatible in Ec;
    apply N.eqb_neq in Ec.
  - repeat split; try apply Hc; try apply major_times_100.
    + unfold major_version in *; lia.
    + unfold major_version; lia.
    + intros v Hv%Hc; unfold major_version in *; lia.
  - repeat split; [|unfold major_version in *; lia].
    assert (c' <> s') by (intros ->; done). lia.
Qed.

(** * Encoding *)

Lemma validate_spec (m : Message) (limit : N) :
  validate m limit = Ok tt <-> forall b : Bytes, payload m = Some b -> len b <= limit.
Proof.
  assert (forall b : Bytes, (_ ← validate_body_size (len b) limit; Ok tt) = Ok tt <-> len b <= limit) as H.
  { intros b; rewrite bind_Ok, <- validate_body_size_Ok. split; [by intros ([]&?&?) | by exists tt]. }
  destruct m; cbn -[mbind validate_body_size]; rewrite ?H; naive_solver.
Qed.

Lemma validate_Err (m : Message) (limit : N) (e : ExposeError) :
  validate m limit = Err e ->
  exists b : Bytes, payload m = Some b /\ limit < len b /\ e = PayloadTooLarge (len b) limit.
Proof.
  destruct m; cbn -[mbind validate_body_size]; intros H; try done;
    apply bind_Err in H as [[? ->]%validate_body_size_Err|([]&?&?)]; eauto; done.
Qed.

Section CodecProperties.
Context `{B : BincodeCodec}.

Lemma decode_validated (bytes : Bytes) (m : Message) :
  decode bytes = Ok m -> validate m DEFAULT_MAX_BODY_SIZE = Ok tt.
Proof. unfold decode; rewrite bind_Ok; intros (m' & _ & ([] & Hv & [= <-])%bind_Ok); done. Qed.

Lemma encode_Ok (m : Message) (bytes : Bytes) :
  encode m = Ok bytes <->
  validate m DEFAULT_MAX_BODY_SIZE = Ok tt /\ bincode_serialize m = Ok bytes.
Proof.
  unfold encode; rewrite bind_Ok; split.
  - intros ([] & Hv & Hs). destruct (bincode_serialize m); cbn in Hs; naive_solver.
  - intros [Hv Hs]; exists tt; by rewrite Hs.
Qed.

Lemma decode_encoded `{!BincodeLaws B} (m : Message) (bytes : Bytes) :
  encode m = Ok bytes -> decode bytes = Ok m.
Proof.
  rewrite encode_Ok; intros [Hv Hs%bincode_roundtrip].
  unfold decode; rewrite Hs; cbn. by rewrite Hv.
Qed.

(** the envelope: a message that was encoded decodes to itself; a payload
    above the 10 MiB limit is refused before anything is serialized, with its
    size and the limit in the error; and no bytes whatsoever decode to a
    message with such a payload. *)
Theorem envelope_spec `{!BincodeLaws B} (m : Message) (bytes : Bytes) :
  (encode m = Ok bytes -> decode bytes = Ok m) /\
  (forall b : Bytes, payload m = Some b -> DEFAULT_MAX_BODY_SIZE < len b ->
     encode m = Err (PayloadTooLarge (len b) DEFAULT_MAX_BODY_SIZE)) /\
  (decode bytes = Ok m -> forall b : Bytes, payload m = Some b -> len b <= DEFAULT_MAX_BODY_SIZE).
Proof.
  split_and!; [apply decode_encoded | |].
  - intros b Hb Hl; unfold encode.
    destruct (validate m DEFAULT_MAX_BODY_SIZE) as [[]|e] eqn:E.
    + apply (validate_spec m) with (b := b) in E; [lia | done].
    + apply validate_Err in E as (b' & Hb' & _ & ->). by simplify_eq.
  - intros Hd%decode_validated; rewrite validate_spec in Hd; auto.
Qed.
End CodecProperties.
