(* ===== verification/CodecInstance.v ===== *)
(** A concrete codec that satisfies the contract [BincodeLaws] asks of bincode,
    used to instantiate the theorems on encoding.  It is not the format of
    bincode: it writes the code that the [Countable] instance of a message
    gives, one bit per byte. *)

From S2P Require Import Prelude RustStr Types Errors Utils Protocol.

Local Open Scope N_scope.

#[export] Instance TunnelProtocol_countable : Countable TunnelProtocol.
Proof.
  refine (inj_countable' (fun p => match p with Http => false | Tcp => true end)
            (fun b : bool => if b then Tcp else Http) _).
  by intros [].
Defined.

#[export] Instance ErrorCode_countable : Countable ErrorCode.
Proof.
  refine (inj_countable ErrorCode_as_u16
    (fun n => if n =? 1001 then Some AuthenticationFailed
              else if n =? 1002 then Some SubdomainUnavailable
              else if n =? 1003 then Some RateLimitExceeded
              else if n =? 1004 then Some ProtocolMismatch
              else if n =? 1099 then Some InternalError else None) _).
  by intros [].
Defined.

#[export] Instance RequestLimits_countable : Countable RequestLimits.
Proof.
  refine (inj_countable' (fun r => (rl_max_body_bytes r, rl_max_headers r))
    (fun '(a, b) => {| rl_max_body_bytes := a; rl_max_headers := b |}) _).
  by intros [].
Defined.

#[export] Instance TcpCloseReason_countable : Countable TcpCloseReason.
Proof.
  refine (inj_countable
    (fun r => match r with
              | CloseNormal => (0, EmptyString) | CloseReset => (1, EmptyString)
              | CloseTimeout => (2, EmptyString) | CloseError m => (3, m) end)
    (fun '(n, m) => if n =? 0 then Some CloseNormal else if n =? 1 then Some CloseReset
                    else if n =? 2 then Some CloseTimeout else Some (CloseError m)) _).
  by intros [].
Defined.

(** A record as the list of the codes of its fields, which stays linear in them. *)
#[export] Instance ConnectRequest_countable : Countable ConnectRequest.
Proof.
  refine (inj_countable
    (fun r => [countable.encode (cr_protocol_version r); countable.encode (cr_api_key r);
               countable.encode (cr_desired_subdomain r);
               countable.encode (cr_tunnel_protocol r);
               countable.encode (cr_client_version r); countable.encode (cr_metadata r)])
    (fun l => match l with
     | [a; b; c; d; e; f] =>
         a ← countable.decode a; b ← countable.decode b; c ← countable.decode c;
         d ← countable.decode d; e ← countable.decode e; f ← countable.decode f;
         Some {| cr_protocol_version := a; cr_api_key := b; cr_desired_subdomain := c;
                 cr_tunnel_protocol := d; cr_client_version := e; cr_metadata := f |}
     | _ => None
     end) _).
  intros []; cbn. by rewrite !decode_encode.
Defined.

#[export] Instance ConnectResponse_countable : Countable ConnectResponse.
Proof.
  refine (inj_countable
    (fun r => [countable.encode (ca_protocol_version r); countable.encode (ca_tunnel_id r);
               countable.encode (ca_assigned_subdomain r); countable.encode (ca_domain r);
               countable.encode (ca_tunnel_protocol r); countable.encode (ca_message r);
               countable.encode (ca_limits r); countable.encode (ca_public_scheme r);
               countable.encode (ca_public_port r); countable.encode (ca_public_url r)])
    (fun l => match l with
     | [a; b; c; d; e; f; g; h; i; j] =>
         a ← countable.decode a; b ← countable.decode b; c ← countable.decode c;
         d ← countable.decode d; e ← countable.decode e; f ← countable.decode f;
         g ← countable.decode g; h ← countable.decode h; i ← countable.decode i;
         j ← countable.decode j;
         Some {| ca_protocol_version := a; ca_tunnel_id := b; ca_assigned_subdomain := c;
                 ca_domain := d; ca_tunnel_protocol := e; ca_message := f; ca_limits := g;
                 ca_public_scheme := h; ca_public_port := i; ca_public_url := j |}
     | _ => None
     end) _).
  intros []; cbn. by rewrite !decode_encode.
Defined.

(** A message as a tag and the codes of its fields. *)
Definition message_fields (m : Message) : N * list positive :=
  match m with
  | Connect r => (0, [countable.encode r])
  | ConnectAck r => (1, [countable.encode r])
  | HttpRequest i m p h b => (2, [countable.encode i; countable.encode m; countable.encode p; countable.encode h; countable.encode b])
  | HttpResponse i s h b => (3, [countable.encode i; countable.encode s; countable.encode h; countable.encode b])
  | HttpRequestStart i m p h c => (4, [countable.encode i; countable.encode m; countable.encode p; countable.encode h; countable.encode c])
  | HttpRequestChunk i d s => (5, [countable.encode i; countable.encode d; countable.encode s])
  | HttpRequestEnd i => (6, [countable.encode i])
  | HttpResponseStart i s h c => (7, [countable.encode i; countable.encode s; countable.encode h; countable.encode c])
  | HttpResponseChunk i d s => (8, [countable.encode i; countable.encode d; countable.encode s])
  | HttpResponseEnd i => (9, [countable.encode i])
  | TcpConnect i a => (10, [countable.encode i; countable.encode a])
  | TcpConnectAck i s e => (11, [countable.encode i; countable.encode s; countable.encode e])
  | TcpData i d s => (12, [countable.encode i; countable.encode d; countable.encode s])
  | TcpClose i r => (13, [countable.encode i; countable.encode r])
  | Disconnect r => (14, [countable.encode r])
  | Error c m => (15, [countable.encode c; countable.encode m])
  end.

Definition fields_message (f : N * list positive) : option Message :=
  match f with
  | (0, [a]) => Connect <$> countable.decode a
  | (1, [a]) => ConnectAck <$> countable.decode a
  | (2, [a; b; c; d; e]) =>
      a ← countable.decode a; b ← countable.decode b; c ← countable.decode c; d ← countable.decode d; HttpRequest a b c d <$> countable.decode e
  | (3, [a; b; c; d]) => a ← countable.decode a; b ← countable.decode b; c ← countable.decode c; HttpResponse a b c <$> countable.decode d
  | (4, [a; b; c; d; e]) =>
      a ← countable.decode a; b ← countable.decode b; c ← countable.decode c; d ← countable.decode d;
      HttpRequestStart a b c d <$> countable.decode e
  | (5, [a; b; c]) => a ← countable.decode a; b ← countable.decode b; HttpRequestChunk a b <$> countable.decode c
  | (6, [a]) => HttpRequestEnd <$> countable.decode a
  | (7, [a; b; c; d]) =>
      a ← countable.decode a; b ← countable.decode b; c ← countable.decode c; HttpResponseStart a b c <$> countable.decode d
  | (8, [a; b; c]) => a ← countable.decode a; b ← countable.decode b; HttpResponseChunk a b <$> countable.decode c
  | (9, [a]) => HttpResponseEnd <$> countable.decode a
  | (10, [a; b]) => a ← countable.decode a; TcpConnect a <$> countable.decode b
  | (11, [a; b; c]) => a ← countable.decode a; b ← countable.decode b; TcpConnectAck a b <$> countable.decode c
  | (12, [a; b; c]) => a ← countable.decode a; b ← countable.decode b; TcpData a b <$> countable.decode c
  | (13, [a; b]) => a ← countable.decode a; TcpClose a <$> countable.decode b
  | (14, [a]) => Disconnect <$> countable.decode a
  | (15, [a; b]) => a ← countable.decode a; Error a <$> countable.decode b
  | _ => None
  end.

#[export] Instance Message_countable : Countable Message.
Proof.
  refine (inj_countable message_fields fields_message _).
  intros []; cbn; by rewrite !decode_encode.
Defined.

(** Bits, least significant first, one per byte, ended by the byte 2. *)
Fixpoint positive_bytes (p : positive) : Bytes :=
  match p with
  | xH => [2]
  | xO q => 0 :: positive_bytes q
  | xI q => 1 :: positive_bytes q
  end.

Fixpoint bytes_positive (b : Bytes) : option positive :=
  match b with
  | [] => None
  | x :: r =>
      if x =? 2 then Some xH
      else if x =? 0 then xO <$> bytes_positive r
      else if x =? 1 then xI <$> bytes_positive r else None
  end.

#[export] Instance bit_codec : BincodeCodec := {|
  bincode_serialize m := Ok (positive_bytes (countable.encode m));
  bincode_deserialize b :=
    ok_or (p ← bytes_positive b; countable.decode p) "invalid encoding";
|}.

Lemma bytes_positive_bytes (p : positive) : bytes_positive (positive_bytes p) = Some p.
Proof. induction p as [p IH|p IH|]; cbn; [by rewrite IH | by rewrite IH | done]. Qed.

#[export] Instance bit_codec_laws : BincodeLaws bit_codec.
Proof.
  constructor; intros m b; cbn; intros [= <-].
  rewrite bytes_positive_bytes; cbn. by rewrite decode_encode.
Qed.
