(* ===== verification/PendingStore.v ===== *)
(** The pending request store of [expose-server/src/tunnel_manager.rs]: the map
    of requests that wait for a tunnel client, the per-tunnel counters and the
    metrics kept beside it, and the sweeper that expires requests.

    A [oneshot::Sender] is an identifier; sending on it is recorded as a
    delivery.  Operations return the deliveries they make, in order.  A
    [DashMap] is a [gmap]; where the code iterates over one, the model takes
    the order [map_to_list] gives, and the lemmas hold for every order. *)

From S2P Require Import Prelude RustStr Errors Protocol.

Local Open Scope N_scope.

(** * Data *)

Abbreviation Oneshot := N.

(** A message sent on the oneshot channel of a waiting request. *)
Abbreviation Delivery := (Oneshot * Message)%type.

Record PendingRequest : Type := {
  pr_sender : Oneshot;
  pr_created_at : Instant;
  pr_deadline : Instant;
  pr_request_id : Uuid;
  pr_tunnel_id : Uuid;
}.

Record PendingRequestMetrics : Type := {
  pm_pending_gauge : N;
  pm_expired_total : N;
}.

Record PendingStore : Type := {
  ps_requests : gmap Uuid PendingRequest;
  ps_per_tunnel : gmap Uuid N;
  ps_metrics : PendingRequestMetrics;
}.

(** [PendingRequestConfig] of [config.rs]. *)
Record PendingRequestConfig : Type := {
  pc_max_per_tunnel : N;
  pc_max_global : N;
  pc_sweep_interval : Duration;
  pc_default_timeout : Duration;
}.

Definition PendingRequestConfig_default : PendingRequestConfig := {|
  pc_max_per_tunnel := 100;
  pc_max_global := 10000;
  pc_sweep_interval := from_secs 1;
  pc_default_timeout := from_secs 30;
|}.

Definition timed_out_response (r : PendingRequest) : Message :=
  HttpResponse (pr_request_id r) 504
    [("x-expose-error", "tunnel response deadline exceeded")] [].

(** * Metrics: atomic counters *)

Definition metrics_new : PendingRequestMetrics :=
  {| pm_pending_gauge := 0; pm_expired_total := 0 |}.

(** [fetch_add] wraps around. *)
Definition metrics_increment (m : PendingRequestMetrics) : PendingRequestMetrics :=
  {| pm_pending_gauge := wrapping_add usize_max (pm_pending_gauge m) 1;
     pm_expired_total := pm_expired_total m |}.

(** [fetch_update] with [checked_sub]: no change at zero. *)
Definition metrics_decrement (m : PendingRequestMetrics) : PendingRequestMetrics :=
  {| pm_pending_gauge :=
       match checked_sub (pm_pending_gauge m) 1 with
       | Some v => v
       | None => pm_pending_gauge m
       end;
     pm_expired_total := pm_expired_total m |}.

Definition metrics_increment_expired (count : N) (m : PendingRequestMetrics) :
    PendingRequestMetrics :=
  {| pm_pending_gauge := pm_pending_gauge m;
     pm_expired_total := wrapping_add u64_max (pm_expired_total m) count |}.

(** * The store *)

Definition store_new : PendingStore :=
  {| ps_requests := ∅; ps_per_tunnel := ∅; ps_metrics := metrics_new |}.

Definition store_len (s : PendingStore) : N := msize (ps_requests s).

(** [PendingStore::insert]: only the counters; the request itself is inserted
    by the caller. *)
Definition store_insert (tunnel_id : Uuid) (s : PendingStore) : PendingStore :=
  {| ps_requests := ps_requests s;
     ps_per_tunnel :=
       match ps_per_tunnel s !! tunnel_id with
       | Some count => <[tunnel_id := wrapping_add usize_max count 1]> (ps_per_tunnel s)
       | None => <[tunnel_id := 1]> (ps_per_tunnel s)
       end;
     ps_metrics := metrics_increment (ps_metrics s) |}.

(** [requests.insert(request_id, pending)]. *)
Definition store_add (pending : PendingRequest) (s : PendingStore) : PendingStore :=
  {| ps_requests := <[pr_request_id pending := pending]> (ps_requests s);
     ps_per_tunnel := ps_per_tunnel s;
     ps_metrics := ps_metrics s |}.

Definition count_for_tunnel (tunnel_id : Uuid) (s : PendingStore) : N :=
  default 0 (ps_per_tunnel s !! tunnel_id).

(** The counter part of [PendingStore::remove]. *)
Definition release_count (tunnel_id : Uuid) (per_tunnel : gmap Uuid N) : gmap Uuid N :=
  match per_tunnel !! tunnel_id with
  | Some entry =>
      let entry' := if 0 <? entry then entry - 1 else entry in
      if entry' =? 0 then delete tunnel_id per_tunnel
      else <[tunnel_id := entry']> per_tunnel
  | None => per_tunnel
  end.

Definition store_remove (request_id : Uuid) (s : PendingStore) :
    PendingStore * option PendingRequest :=
  match ps_requests s !! request_id with
  | Some pending =>
      ({| ps_requests := delete request_id (ps_requests s);
          ps_per_tunnel := release_count (pr_tunnel_id pending) (ps_per_tunnel s);
          ps_metrics := metrics_decrement (ps_metrics s) |},
       Some pending)
  | None => (s, None)
  end.

(** Removing the given requests one after another, keeping those that were there. *)
Fixpoint remove_all (ids : list Uuid) (s : PendingStore) : PendingStore * list PendingRequest :=
  match ids with
  | [] => (s, [])
  | id :: ids' =>
      let '(s1, removed) := store_remove id s in
      let '(s2, rest) := remove_all ids' s1 in
      match removed with
      | Some request => (s2, request :: rest)
      | None => (s2, rest)
      end
  end.

Definition keys_for_tunnel (tunnel_id : Uuid) (s : PendingStore) : list Uuid :=
  (map_to_list (filter (fun kv => pr_tunnel_id kv.2 = tunnel_id) (ps_requests s))).*1.

Definition drain_for_tunnel (tunnel_id : Uuid) (s : PendingStore) :
    PendingStore * list PendingRequest :=
  remove_all (keys_for_tunnel tunnel_id s) s.

(** * The sweeper *)

Definition expired_ids (now : Instant) (s : PendingStore) : list Uuid :=
  (map_to_list (filter (fun kv => pr_deadline kv.2 <= now) (ps_requests s))).*1.

(** One tick of [pending_request_sweeper] that is not interleaved with other tasks. *)
Definition sweep_tick (now : Instant) (s : PendingStore) : PendingStore * list Delivery :=
  let ids := expired_ids now s in
  match ids with
  | [] => (s, [])
  | _ =>
      let '(s', removed) := remove_all ids s in
      ({| ps_requests := ps_requests s';
          ps_per_tunnel := ps_per_tunnel s';
          ps_metrics := metrics_increment_expired (len ids) (ps_metrics s') |},
       (fun r => (pr_sender r, timed_out_response r)) <$> removed)
  end.

(** * The invariant of the store *)

Abbreviation of_tunnel t := (fun kv : Uuid * PendingRequest => pr_tunnel_id kv.2 = t).

(** Requests are stored under their own id, each with its own channel; the
    per-tunnel counters and the gauge count exactly the requests that are
    there, and no counter is left at zero. *)
Record store_wf (s : PendingStore) : Prop := {
  wf_key id r : ps_requests s !! id = Some r -> pr_request_id r = id;
  wf_sender id id' r r' :
    ps_requests s !! id = Some r -> ps_requests s !! id' = Some r' ->
    pr_sender r = pr_sender r' -> id = id';
  wf_count t : count_for_tunnel t s = mcount (of_tunnel t) (ps_requests s);
  wf_no_zero t : ps_per_tunnel s !! t <> Some 0;
  wf_gauge : pm_pending_gauge (ps_metrics s) = store_len s;
  wf_bound : store_len s <= usize_max;
  wf_expired : pm_expired_total (ps_metrics s) <= u64_max;
}.

Lemma store_new_wf : store_wf store_new.
Proof.
  by constructor; cbn.
Qed.

(** ** Adding a request *)

Section Add.
Context (p : PendingRequest) (s : PendingStore).
Context (Hwf : store_wf s).
Context (Hfresh : ps_requests s !! pr_request_id p = None).
Context (Hsender : forall id r, ps_requests s !! id = Some r -> pr_sender r <> pr_sender p).
Context (Hroom : store_len s < usize_max).

Let s' := store_insert (pr_tunnel_id p) (store_add p s).

Lemma add_len : store_len s' = store_len s + 1.
Proof using Hfresh. unfold store_len, s'; cbn. by apply msize_insert_None. Qed.

Lemma add_count t :
  count_for_tunnel t s' =
    if decide (t = pr_tunnel_id p) then count_for_tunnel t s + 1 else count_for_tunnel t s.
Proof using Hwf Hroom.
  assert (count_for_tunnel (pr_tunnel_id p) s < usize_max) as Hc.
  { rewrite (wf_count s Hwf). unfold store_len in Hroom.
    pose proof (mcount_le (of_tunnel (pr_tunnel_id p)) (ps_requests s)). lia. }
  unfold count_for_tunnel in *; subst s'; cbn.
  destruct (ps_per_tunnel s !! pr_tunnel_id p) as [c|] eqn:E; cbn in *;
    case_decide; subst; rewrite ?lookup_insert_eq, ?lookup_insert_ne by done; cbn;
    rewrite ?E; cbn; try done.
  apply wrapping_add_small; lia.
Qed.

Lemma add_wf : store_wf s'.
Proof using Hwf Hfresh Hsender Hroom.
  constructor.
  - cbn; intros id r [[<- <-]|[_ H]]%lookup_insert_Some; [done | by apply (wf_key s Hwf)].
  - cbn; intros id id' r r' H1 H2 He.
    apply lookup_insert_Some in H1 as [[<- <-]|[? H1]];
      apply lookup_insert_Some in H2 as [[<- <-]|[? H2]]; try done.
    + exfalso; by eapply Hsender.
    + exfalso; by eapply Hsender.
    + by eapply (wf_sender s Hwf).
  - intros t; rewrite add_count; cbn. case_decide.
    + rewrite mcount_insert_True by done. by rewrite (wf_count s Hwf).
    + rewrite mcount_insert_False by done. by rewrite (wf_count s Hwf).
  - intros t; subst s'; cbn.
    pose proof (wf_no_zero s Hwf t) as Hz.
    assert (count_for_tunnel (pr_tunnel_id p) s < usize_max) as Hc.
    { rewrite (wf_count s Hwf). unfold store_len in Hroom.
      pose proof (mcount_le (of_tunnel (pr_tunnel_id p)) (ps_requests s)). lia. }
    unfold count_for_tunnel in Hc.
    destruct (ps_per_tunnel s !! pr_tunnel_id p) as [c|] eqn:E; cbn in *;
      (destruct (decide (t = pr_tunnel_id p)) as [->|];
       [rewrite lookup_insert_eq | by rewrite lookup_insert_ne]); [|done].
    rewrite wrapping_add_small by lia. intros [=]; lia.
  - rewrite add_len; cbn. rewrite (wf_gauge s Hwf). apply wrapping_add_small; lia.
  - rewrite add_len; lia.
  - apply (wf_expired s Hwf).
Qed.
End Add.

(** ** Removing a request *)

Section Remove.
Context (s : PendingStore) (Hwf : store_wf s).
Context (id : Uuid) (p : PendingRequest) (Hp : ps_requests s !! id = Some p).

Let s' := (store_remove id s).1.

Lemma remove_eq : store_remove id s =
  ({| ps_requests := delete id (ps_requests s);
      ps_per_tunnel := release_count (pr_tunnel_id p) (ps_per_tunnel s);
      ps_metrics := metrics_decrement (ps_metrics s) |}, Some p).
Proof using Hp. unfold store_remove; by rewrite Hp. Qed.

Lemma count_pos : 0 < count_for_tunnel (pr_tunnel_id p) s.
Proof using Hwf Hp. rewrite (wf_count s Hwf). by eapply mcount_pos. Qed.

Lemma release_lookup t :
  default 0 (release_count (pr_tunnel_id p) (ps_per_tunnel s) !! t) =
    if decide (t = pr_tunnel_id p) then count_for_tunnel t s - 1 else count_for_tunnel t s.
Proof using Hwf Hp.
  pose proof count_pos as Hc; unfold count_for_tunnel, release_count in *.
  destruct (ps_per_tunnel s !! pr_tunnel_id p) as [c|] eqn:E; cbn in Hc; [|lia].
  destruct (N.ltb_spec 0 c); [|lia].
  destruct (N.eqb_spec (c - 1) 0); case_decide; subst;
    rewrite ?lookup_delete_eq, ?lookup_insert_eq, ?lookup_delete_ne, ?lookup_insert_ne by done;
    rewrite ?E; cbn; try done; lia.
Qed.

Lemma remove_wf_present : store_wf s'.
Proof using Hwf Hp.
  unfold s'; rewrite remove_eq; cbn.
  constructor; cbn.
  - intros i r [_ H]%lookup_delete_Some; by apply (wf_key s Hwf).
  - intros i i' r r' [_ H1]%lookup_delete_Some [_ H2]%lookup_delete_Some.
    by eapply (wf_sender s Hwf).
  - intros t; unfold count_for_tunnel at 1; cbn. rewrite release_lookup.
    rewrite (wf_count s Hwf); case_decide; subst.
    + by erewrite mcount_delete_True.
    + erewrite mcount_delete_False; done.
  - intros t. pose proof (wf_no_zero s Hwf t) as Hz. unfold release_count.
    destruct (ps_per_tunnel s !! pr_tunnel_id p) as [c|] eqn:E; [|done].
    destruct (N.eqb_spec (if 0 <? c then c - 1 else c) 0);
      destruct (decide (t = pr_tunnel_id p)) as [->|];
      rewrite ?lookup_delete_eq, ?lookup_insert_eq, ?lookup_delete_ne, ?lookup_insert_ne by done;
      try done.
    intros [=]; lia.
  - unfold store_len; cbn. rewrite (wf_gauge s Hwf). unfold store_len.
    pose proof (size_pos_lookup _ _ _ Hp) as Hs.
    rewrite checked_sub_Some by (unfold msize; lia). by erewrite msize_delete_Some.
  - unfold store_len; cbn. pose proof (wf_bound s Hwf) as Hb; unfold store_len in Hb.
    pose proof (msize_delete_le (ps_requests s) id). lia.
  - apply (wf_expired s Hwf).
Qed.
End Remove.

Lemma remove_absent (s : PendingStore) (id : Uuid) :
  ps_requests s !! id = None -> store_remove id s = (s, None).
Proof. intros H; unfold store_remove; by rewrite H. Qed.

Lemma remove_wf (s : PendingStore) (id : Uuid) : store_wf s -> store_wf (store_remove id s).1.
Proof.
  intros Hwf; destruct (ps_requests s !! id) as [p|] eqn:E.
  - by eapply remove_wf_present.
  - by rewrite remove_absent.
Qed.

Lemma remove_requests (s : PendingStore) (id : Uuid) :
  ps_requests (store_remove id s).1 = delete id (ps_requests s) /\
  (store_remove id s).2 = ps_requests s !! id.
Proof.
  unfold store_remove; destruct (ps_requests s !! id) eqn:E; cbn; [done|].
  by rewrite delete_id.
Qed.

(** ** Removing several requests, in any order *)

Lemma remove_all_wf (ids : list Uuid) (s : PendingStore) :
  store_wf s -> store_wf (remove_all ids s).1.
Proof.
  revert s; induction ids as [|id ids IH]; intros s Hwf; cbn; [done|].
  pose proof (remove_wf s id Hwf) as H1. destruct (store_remove id s) as [s1 o]; cbn in H1.
  specialize (IH s1 H1). destruct (remove_all ids s1) as [s2 l]. by destruct o.
Qed.

Lemma remove_all_lookup (ids : list Uuid) (s : PendingStore) (k : Uuid) :
  ps_requests (remove_all ids s).1 !! k =
    if decide (k ∈ ids) then None else ps_requests s !! k.
Proof.
  revert s; induction ids as [|id ids IH]; intros s; cbn.
  - rewrite decide_False; [done | by apply not_elem_of_nil].
  - destruct (remove_requests s id) as [H1 _].
    destruct (store_remove id s) as [s1 o]; cbn in H1.
    specialize (IH s1). destruct (remove_all ids s1) as [s2 l]; cbn in IH.
    assert (ps_requests (match o with Some r => (s2, r :: l) | None => (s2, l) end).1 !! k
            = ps_requests s2 !! k) as -> by (by destruct o).
    rewrite IH, H1. repeat case_decide; try set_solver.
    + assert (k = id) as -> by set_solver. by rewrite lookup_delete_eq.
    + rewrite lookup_delete_ne; [done | set_solver].
Qed.

Lemma remove_all_removed (ids : list Uuid) (s : PendingStore) :
  NoDup ids -> (remove_all ids s).2 = omap (fun id => ps_requests s !! id) ids.
Proof.
  revert s; induction ids as [|id ids IH]; intros s Hnd; [done|].
  apply NoDup_cons in Hnd as [Hni Hnd]. cbn.
  destruct (remove_requests s id) as [H1 H2].
  destruct (store_remove id s) as [s1 o]; cbn in H1, H2; subst o.
  specialize (IH s1 Hnd). destruct (remove_all ids s1) as [s2 l]; cbn in IH.
  assert (l = omap (fun i => ps_requests s !! i) ids) as ->.
  { rewrite IH, H1. apply list_omap_ext; apply Forall_Forall2_diag, Forall_forall.
    intros i Hi; rewrite lookup_delete_ne; [done | by intros ->]. }
  by destruct (ps_requests s !! id).
Qed.

(** ** Draining a tunnel and sweeping *)

Section RemoveWhere.
Context (P : Uuid * PendingRequest -> Prop) `{forall x, Decision (P x)}.
Context (s : PendingStore).

Definition keys_where : list Uuid := (map_to_list (filter P (ps_requests s))).*1.

Lemma keys_where_NoDup : NoDup keys_where.
Proof. apply NoDup_fst_map_to_list. Qed.

Lemma elem_of_keys_where (id : Uuid) :
  id ∈ keys_where <-> exists r, ps_requests s !! id = Some r /\ P (id, r).
Proof.
  unfold keys_where; rewrite list_elem_of_fmap. split.
  - intros ([i r] & -> & [Hr HP]%elem_of_map_to_list%map_lookup_filter_Some); eauto.
  - intros (r & Hr & HP). exists (id, r); split; [done|].
    by apply elem_of_map_to_list, map_lookup_filter_Some.
Qed.

(** Exactly the requests that satisfy the predicate leave the store. *)
Lemma remove_where_lookup (id : Uuid) (r : PendingRequest) :
  ps_requests (remove_all keys_where s).1 !! id = Some r <->
  ps_requests s !! id = Some r /\ ~ P (id, r).
Proof.
  rewrite remove_all_lookup; case_decide as Hk.
  - apply elem_of_keys_where in Hk as (r' & Hr' & HP). split; [done|].
    intros [Hr Hn]; by simplify_eq.
  - split; [|by intros [? _]]. intros Hr; split; [done|]. intros HP; apply Hk.
    apply elem_of_keys_where; eauto.
Qed.

(** And exactly those are returned, once each. *)
Lemma remove_where_removed :
  (remove_all keys_where s).2 = (map_to_list (filter P (ps_requests s))).*2.
Proof.
  rewrite remove_all_removed by apply keys_where_NoDup. unfold keys_where.
  assert (forall l, (forall kv, kv ∈ l -> ps_requests s !! kv.1 = Some kv.2) ->
            omap (fun id => ps_requests s !! id) l.*1 = l.*2) as Hl.
  { induction l as [|[k v] l IH]; intros Hin; [done|]; cbn.
    pose proof (Hin (k, v) ltac:(set_solver)) as Hkv; cbn in Hkv; rewrite Hkv; cbn.
    f_equal; apply IH; set_solver. }
  apply Hl. intros [k v] [Hkv _]%elem_of_map_to_list%map_lookup_filter_Some. done.
Qed.

Lemma elem_of_removed_where (r : PendingRequest) :
  r ∈ (remove_all keys_where s).2 <-> exists id, ps_requests s !! id = Some r /\ P (id, r).
Proof.
  rewrite remove_where_removed, list_elem_of_fmap. split.
  - intros ([id r'] & -> & [Hr HP]%elem_of_map_to_list%map_lookup_filter_Some); eauto.
  - intros (id & Hr & HP). exists (id, r); split; [done|].
    by apply elem_of_map_to_list, map_lookup_filter_Some.
Qed.

Lemma removed_where_senders :
  store_wf s -> NoDup (pr_sender <$> (remove_all keys_where s).2).
Proof.
  intros Hwf; rewrite remove_where_removed, <- list_fmap_compose.
  pose proof (NoDup_fst_map_to_list (filter P (ps_requests s))) as Hnd.
  assert (forall kv, kv ∈ map_to_list (filter P (ps_requests s)) ->
            ps_requests s !! kv.1 = Some kv.2) as Hin.
  { intros [k v] [? _]%elem_of_map_to_list%map_lookup_filter_Some; done. }
  induction (map_to_list (filter P (ps_requests s))) as [|[k v] l IH]; [constructor|].
  cbn in *; apply NoDup_cons in Hnd as [Hk Hnd]; apply NoDup_cons; split.
  - rewrite list_elem_of_fmap; intros ([k' v'] & He & Hl); cbn in He.
    pose proof (Hin (k, v) ltac:(set_solver)) as H1.
    pose proof (Hin (k', v') ltac:(set_solver)) as H2; cbn in *.
    assert (k = k') as -> by (by eapply (wf_sender s Hwf)).
    apply Hk, list_elem_of_fmap; by exists (k', v').
  - apply IH; [done|]. intros kv ?; apply Hin; set_solver.
Qed.
End RemoveWhere.

Lemma drain_is_remove_where (t : Uuid) (s : PendingStore) :
  drain_for_tunnel t s = remove_all (keys_where (of_tunnel t) s) s.
Proof. reflexivity. Qed.

Abbreviation overdue now := (fun kv : Uuid * PendingRequest => pr_deadline kv.2 <= now).

Lemma store_wf_metrics (s : PendingStore) (m : PendingRequestMetrics) :
  store_wf s -> pm_pending_gauge m = pm_pending_gauge (ps_metrics s) ->
  pm_expired_total m <= u64_max ->
  store_wf {| ps_requests := ps_requests s; ps_per_tunnel := ps_per_tunnel s; ps_metrics := m |}.
Proof. intros [? ? ? ? Hg ? ?] Hm He; constructor; cbn; try done. by rewrite Hm. Qed.

Lemma wrapping_add_le (max a b : N) : wrapping_add max a b <= max.
Proof. unfold wrapping_add; pose proof (N.mod_lt (a + b) (max + 1)); lia. Qed.

Lemma remove_expired_total (ids : list Uuid) (s : PendingStore) :
  pm_expired_total (ps_metrics (remove_all ids s).1) = pm_expired_total (ps_metrics s).
Proof.
  revert s; induction ids as [|id ids IH]; intros s; cbn; [done|].
  assert (pm_expired_total (ps_metrics (store_remove id s).1) = pm_expired_total (ps_metrics s))
    as H by (unfold store_remove; by destruct (ps_requests s !! id)).
  destruct (store_remove id s) as [s1 o]; cbn in H. specialize (IH s1).
  destruct (remove_all ids s1) as [s2 l]; cbn in IH. by destruct o; cbn; rewrite IH.
Qed.

(** What a tick does, whether or not something has expired. *)
Lemma sweep_tick_eq (now : Instant) (s : PendingStore) :
  let '(s', removed) := remove_all (keys_where (overdue now) s) s in
  (sweep_tick now s).2 = (fun r => (pr_sender r, timed_out_response r)) <$> removed /\
  ps_requests (sweep_tick now s).1 = ps_requests s' /\
  (store_wf s -> store_wf (sweep_tick now s).1 /\
     pm_expired_total (ps_metrics (sweep_tick now s).1) =
       wrapping_add u64_max (pm_expired_total (ps_metrics s)) (len removed)).
Proof.
  assert (len (remove_all (keys_where (overdue now) s) s).2 = len (keys_where (overdue now) s)) as Hlen.
  { rewrite remove_where_removed; unfold keys_where, len. by rewrite !length_fmap. }
  unfold sweep_tick; change (expired_ids now s) with (keys_where (overdue now) s).
  pose proof (remove_all_wf (keys_where (overdue now) s) s) as Hwf.
  pose proof (remove_expired_total (keys_where (overdue now) s) s) as He.
  destruct (keys_where (overdue now) s) as [|id ids] eqn:E.
  { cbn; split; [done|]; split; [done|]. intros H; split; [done|].
    pose proof (wf_expired s H). change (len []) with 0.
    rewrite wrapping_add_small; lia. }
  destruct (remove_all (id :: ids) s) as [s' removed]; cbn in He, Hwf, Hlen |- *.
  repeat split_and; try done. intros H; rewrite He, Hlen. split; [|done].
  apply store_wf_metrics; cbn; [by apply Hwf | done | apply wrapping_add_le].
Qed.

(** C16: a tick of the sweeper removes exactly the requests whose deadline has
    passed, answers each of them once with a 504 that carries its request id,
    counts them as expired, and leaves the others and the invariant intact. *)
Theorem sweep_tick_spec (now : Instant) (s : PendingStore) :
  store_wf s ->
  let '(s', sent) := sweep_tick now s in
  store_wf s' /\
  (forall id r, ps_requests s' !! id = Some r <->
     ps_requests s !! id = Some r /\ now < pr_deadline r) /\
  (forall ch m, (ch, m) ∈ sent <->
     exists id r, ps_requests s !! id = Some r /\ pr_deadline r <= now /\ ch = pr_sender r /\
       m = HttpResponse id 504 [("x-expose-error", "tunnel response deadline exceeded")] []) /\
  NoDup sent.*1 /\
  pm_expired_total (ps_metrics s') =
    wrapping_add u64_max (pm_expired_total (ps_metrics s)) (len sent).
Proof.
  intros Hwf; pose proof (sweep_tick_eq now s) as Heq.
  pose proof (remove_where_lookup (overdue now) s) as Hl.
  pose proof (elem_of_removed_where (overdue now) s) as Hr.
  pose proof (removed_where_senders (overdue now) s Hwf) as Hnd.
  destruct (remove_all (keys_where (overdue now) s) s) as [s1 removed].
  destruct (sweep_tick now s) as [s' sent]; cbn in *.
  destruct Heq as (-> & Hreq & Hw); destruct (Hw Hwf) as [Hwf' Hexp].
  split; [done|]. split; [|split; [|split]].
  - intros id r; rewrite Hreq, Hl; cbn. by rewrite N.nle_gt.
  - intros ch m; rewrite list_elem_of_fmap; split.
    + intros (r & [= -> ->] & (id & Hs & Hd)%Hr). exists id, r. repeat split; try done.
      unfold timed_out_response. by rewrite (wf_key s Hwf _ _ Hs).
    + intros (id & r & Hs & Hd & -> & ->). exists r; split; [|apply Hr; eauto].
      unfold timed_out_response. by rewrite (wf_key s Hwf _ _ Hs).
  - by rewrite <- list_fmap_compose.
  - rewrite Hexp; unfold len; by rewrite length_fmap.
Qed.
