(* ===== verification/Externals.v ===== *)
(** The crates outside the repository that the server calls, as classes of
    operations: each definition that uses one takes it as an argument, and what
    a theorem relies on is a class of laws. *)

From S2P Require Import Prelude.

Local Open Scope N_scope.

(** [governor]: a direct rate limiter for a quota.  [gov_check] reads and
    updates the limiter's state at an instant; a denial is a [gov_negative],
    which tells how long to wait from an instant on. *)
Class Governor : Type := {
  gov_state : Type;
  gov_negative : Type;
  gov_direct : N -> N -> gov_state;
  gov_check : Instant -> gov_state -> gov_state * option gov_negative;
  gov_wait : gov_negative -> Instant -> Duration;
}.

(** [sha2::Sha256] on the bytes of a string. *)
Class Sha256 : Type := sha256 : string -> string.

(** [hex::encode]. *)
Class HexEncode : Type := hex_encode : string -> string.

(** [subtle::ConstantTimeEq] on slices of equal length: documented to be the
    equality of the contents. *)
Class ConstantTimeEq : Type := ct_eq : string -> string -> bool.
Class ConstantTimeEqLaws (C : ConstantTimeEq) : Prop := {
  ct_eq_spec a b : String.length a = String.length b -> ct_eq a b = true <-> a = b;
}.

(** * Instances for concrete runs

    A limiter that grants its burst once and then denies, with a fixed wait;
    the identity as a hash; string equality. *)

Module Concrete.
#[export] Instance counting_governor : Governor := {|
  gov_state := N;
  gov_negative := unit;
  gov_direct _ burst := burst;
  gov_check _ st := if 0 <? st then (st - 1, None) else (st, Some tt);
  gov_wait _ _ := 1500000000;
|}.

#[export] Instance identity_hash : Sha256 := fun s => s.
#[export] Instance identity_hex : HexEncode := fun s => s.
#[export] Instance string_ct_eq : ConstantTimeEq := String.eqb.

#[export] Instance string_ct_eq_laws : ConstantTimeEqLaws string_ct_eq.
Proof. constructor; intros a b _; apply String.eqb_eq. Qed.
End Concrete.
