(* ===== verification/TunnelManager.v ===== *)
(** The tunnel manager of [expose-server/src/tunnel_manager.rs]: registration
    and removal of tunnels under the global and per-key limits, allocation of
    subdomains, and the life of a pending request.

    An [Arc<ActiveTunnel>] can outlive its entry in the map, so its immutable
    fields are a value, [ActiveTunnel], and its interior-mutable ones (rate
    limiter and counters) are cells of the heap [tm_cells], one per tunnel id.
    Random samples, fresh UUIDs, fresh channels and clock readings are
    arguments. *)

From Stdlib Require Import Ascii.
From S2P Require Import Prelude RustStr Types Errors Utils Protocol PendingStore Externals.

Local Open Scope N_scope.

(** * Data *)

(** The sender of an [mpsc] channel of outgoing frames. *)
Abbreviation Mpsc := N.

Record ActiveTunnel : Type := {
  at_id : Uuid;
  at_subdomain : string;
  at_protocol : TunnelProtocol;
  at_sender : Mpsc;
  at_rate_limit_per_minute : N;
  at_rate_limit_burst : N;
  at_api_key_hash : option string;
}.

Section Manager.
Context `{G : Governor, H : Sha256}.

Record TunnelCells : Type := {
  tl_rate_limiter : gov_state;
  tl_requests_forwarded : N;
  tl_rate_limit_hits : N;
}.

Record TunnelManager : Type := {
  tm_domain : string;
  tm_limits : RequestLimits;
  tm_tunnels : gmap string ActiveTunnel;
  tm_cells : gmap Uuid TunnelCells;
  tm_rate_limit_per_minute : N;
  tm_rate_limit_burst : N;
  tm_pending_store : PendingStore;
  tm_pending_config : PendingRequestConfig;
  tm_sweeper_cancelled : bool;
  tm_max_tunnels : N;
  tm_max_tunnels_per_key : N;
}.

Record TunnelSummary : Type := {
  ts_tunnel_id : Uuid;
  ts_subdomain : string;
  ts_protocol : TunnelProtocol;
  ts_requests_forwarded : N;
  ts_rate_limit_hits : N;
  ts_rate_limit_per_minute : N;
  ts_rate_limit_burst : N;
  ts_pending_requests : N;
}.

Definition with_tunnels (m : TunnelManager) (ts : gmap string ActiveTunnel) : TunnelManager :=
  {| tm_domain := tm_domain m; tm_limits := tm_limits m; tm_tunnels := ts;
     tm_cells := tm_cells m; tm_rate_limit_per_minute := tm_rate_limit_per_minute m;
     tm_rate_limit_burst := tm_rate_limit_burst m; tm_pending_store := tm_pending_store m;
     tm_pending_config := tm_pending_config m; tm_sweeper_cancelled := tm_sweeper_cancelled m;
     tm_max_tunnels := tm_max_tunnels m; tm_max_tunnels_per_key := tm_max_tunnels_per_key m |}.

Definition with_cells (m : TunnelManager) (cs : gmap Uuid TunnelCells) : TunnelManager :=
  {| tm_domain := tm_domain m; tm_limits := tm_limits m; tm_tunnels := tm_tunnels m;
     tm_cells := cs; tm_rate_limit_per_minute := tm_rate_limit_per_minute m;
     tm_rate_limit_burst := tm_rate_limit_burst m; tm_pending_store := tm_pending_store m;
     tm_pending_config := tm_pending_config m; tm_sweeper_cancelled := tm_sweeper_cancelled m;
     tm_max_tunnels := tm_max_tunnels m; tm_max_tunnels_per_key := tm_max_tunnels_per_key m |}.

Definition with_store (m : TunnelManager) (s : PendingStore) : TunnelManager :=
  {| tm_domain := tm_domain m; tm_limits := tm_limits m; tm_tunnels := tm_tunnels m;
     tm_cells := tm_cells m; tm_rate_limit_per_minute := tm_rate_limit_per_minute m;
     tm_rate_limit_burst := tm_rate_limit_burst m; tm_pending_store := s;
     tm_pending_config := tm_pending_config m; tm_sweeper_cancelled := tm_sweeper_cancelled m;
     tm_max_tunnels := tm_max_tunnels m; tm_max_tunnels_per_key := tm_max_tunnels_per_key m |}.

(** [TunnelManager::new]; the sweeper it spawns is [sweep] below. *)
Definition manager_new (domain : string) (limits : RequestLimits) (per_minute burst : N)
    (pending_config : PendingRequestConfig) (max_tunnels max_tunnels_per_key : N) :
    TunnelManager :=
  {| tm_domain := domain; tm_limits := limits; tm_tunnels := ∅; tm_cells := ∅;
     tm_rate_limit_per_minute := N.max per_minute 1; tm_rate_limit_burst := N.max burst 1;
     tm_pending_store := store_new; tm_pending_config := pending_config;
     tm_sweeper_cancelled := false;
     tm_max_tunnels := max_tunnels; tm_max_tunnels_per_key := max_tunnels_per_key |}.

(** [Drop for TunnelManager]. *)
Definition manager_drop (m : TunnelManager) : TunnelManager :=
  {| tm_domain := tm_domain m; tm_limits := tm_limits m; tm_tunnels := tm_tunnels m;
     tm_cells := tm_cells m; tm_rate_limit_per_minute := tm_rate_limit_per_minute m;
     tm_rate_limit_burst := tm_rate_limit_burst m; tm_pending_store := tm_pending_store m;
     tm_pending_config := tm_pending_config m; tm_sweeper_cancelled := true;
     tm_max_tunnels := tm_max_tunnels m; tm_max_tunnels_per_key := tm_max_tunnels_per_key m |}.

(** * Tunnels *)

Definition active_tunnel_count (m : TunnelManager) : N := msize (tm_tunnels m).

Definition pending_request_count (m : TunnelManager) : N := store_len (tm_pending_store m).

Definition hash_api_key (key : string) : string := sha256 key.

Definition count_tunnels_for_key (key_hash : string) (m : TunnelManager) : N :=
  mcount (fun kv => at_api_key_hash kv.2 = Some key_hash) (tm_tunnels m).

Definition new_handle (id : Uuid) (subdomain : string) (protocol : TunnelProtocol)
    (sender : Mpsc) (api_key_hash : option string) (m : TunnelManager) :
    ActiveTunnel * TunnelManager :=
  ({| at_id := id; at_subdomain := subdomain; at_protocol := protocol; at_sender := sender;
      at_rate_limit_per_minute := tm_rate_limit_per_minute m;
      at_rate_limit_burst := tm_rate_limit_burst m; at_api_key_hash := api_key_hash |},
   with_cells m
     (<[id := {| tl_rate_limiter :=
                   gov_direct (tm_rate_limit_per_minute m) (tm_rate_limit_burst m);
                 tl_requests_forwarded := 0; tl_rate_limit_hits := 0 |}]> (tm_cells m))).

Definition server_full (current limit : N) : ExposeError :=
  CapacityExceeded ("server has reached maximum tunnel capacity (" +:+ fmt_uint current
                    +:+ "/" +:+ fmt_uint limit +:+ ")").
Definition key_full (current limit : N) : ExposeError :=
  CapacityExceeded ("API key has reached maximum tunnel limit (" +:+ fmt_uint current
                    +:+ "/" +:+ fmt_uint limit +:+ ")").

(** The three checks of [register_tunnel], before anything is inserted. *)
Definition register_checks (subdomain : string) (api_key : option string) (m : TunnelManager) :
    result unit :=
  let current := msize (tm_tunnels m) in
  if (0 <? tm_max_tunnels m) && (tm_max_tunnels m <=? current) then
    Err (server_full current (tm_max_tunnels m))
  else
    _ ← (if 0 <? tm_max_tunnels_per_key m then
           match hash_api_key <$> api_key with
           | Some hash =>
               let per_key := count_tunnels_for_key hash m in
               if tm_max_tunnels_per_key m <=? per_key then
                 Err (key_full per_key (tm_max_tunnels_per_key m))
               else Ok tt
           | None => Ok tt
           end
         else Ok tt);
    match tm_tunnels m !! subdomain with
    | Some _ => Err (SubdomainTaken subdomain)
    | None => Ok tt
    end.

(** The insertion that follows them. *)
Definition register_insert (tunnel_id : Uuid) (subdomain : string) (protocol : TunnelProtocol)
    (sender : Mpsc) (api_key : option string) (m : TunnelManager) :
    ActiveTunnel * TunnelManager :=
  let '(handle, m1) :=
    new_handle tunnel_id subdomain protocol sender (hash_api_key <$> api_key) m in
  (handle, with_tunnels m1 (<[subdomain := handle]> (tm_tunnels m1))).

Definition register_tunnel (tunnel_id : Uuid) (subdomain : string) (protocol : TunnelProtocol)
    (sender : Mpsc) (api_key : option string) (m : TunnelManager) :
    result ActiveTunnel * TunnelManager :=
  match register_checks subdomain api_key m with
  | Err e => (Err e, m)
  | Ok _ =>
      let '(handle, m') := register_insert tunnel_id subdomain protocol sender api_key m in
      (Ok handle, m')
  end.

Definition manager_remove (subdomain : string) (m : TunnelManager) : TunnelManager :=
  with_tunnels m (delete subdomain (tm_tunnels m)).

Definition manager_get (subdomain : string) (m : TunnelManager) : option ActiveTunnel :=
  tm_tunnels m !! subdomain.

(** * Summaries for the admin API *)

Record TunnelStats : Type := {
  st_requests_forwarded : N;
  st_rate_limit_hits : N;
  st_rate_limit_per_minute : N;
  st_rate_limit_burst : N;
}.

Definition stats (t : ActiveTunnel) (c : TunnelCells) : TunnelStats :=
  {| st_requests_forwarded := tl_requests_forwarded c;
     st_rate_limit_hits := tl_rate_limit_hits c;
     st_rate_limit_per_minute := at_rate_limit_per_minute t;
     st_rate_limit_burst := at_rate_limit_burst t |}.

(** The entry of a tunnel; its cells exist for as long as its handle does. *)
Definition summary (m : TunnelManager) (entry : string * ActiveTunnel) : option TunnelSummary :=
  let '(key, t) := entry in
  c ← tm_cells m !! at_id t;
  let st := stats t c in
  Some {| ts_tunnel_id := at_id t; ts_subdomain := key; ts_protocol := at_protocol t;
          ts_requests_forwarded := st_requests_forwarded st;
          ts_rate_limit_hits := st_rate_limit_hits st;
          ts_rate_limit_per_minute := st_rate_limit_per_minute st;
          ts_rate_limit_burst := st_rate_limit_burst st;
          ts_pending_requests := count_for_tunnel (at_id t) (tm_pending_store m) |}.

Definition manager_list (m : TunnelManager) : list TunnelSummary :=
  omap (summary m) (map_to_list (tm_tunnels m)).

(** [tunnels.iter().find(|entry| entry.value().id == *id)]. *)
Definition find_by_id (id : Uuid) (m : TunnelManager) : option (string * ActiveTunnel) :=
  head (filter (fun kv => at_id kv.2 = id) (map_to_list (tm_tunnels m))).

Definition summary_by_id (id : Uuid) (m : TunnelManager) : option TunnelSummary :=
  find_by_id id m ≫= summary m.

(** * Subdomains *)

(** [random_subdomain] from its eight samples of [Alphanumeric]. *)
Definition random_subdomain (samples : list ascii) : string :=
  String.string_of_list_ascii (char_lower <$> samples).

Fixpoint first_free (candidates : list string) (m : TunnelManager) : option string :=
  match candidates with
  | [] => None
  | candidate :: rest =>
      match tm_tunnels m !! candidate with
      | None => Some candidate
      | Some _ => first_free rest m
      end
  end.

(** [samples] is what the random generator yields on the successive attempts;
    at most five are made. *)
Definition allocate_subdomain (desired : option string) (samples : list (list ascii))
    (m : TunnelManager) : result string :=
  match desired with
  | Some raw =>
      sanitized ← ok_or (sanitize_subdomain raw)
                        (InvalidSubdomain raw "invalid subdomain requested");
      match tm_tunnels m !! sanitized with
      | Some _ => Err (SubdomainTaken sanitized)
      | None => Ok sanitized
      end
  | None =>
      ok_or (first_free (random_subdomain <$> take 5 samples) m)
            (CapacityExceeded "unable to allocate unique subdomain")
  end.

(** * Pending requests *)

(** The request that [register_pending_request] inserts, its channel and the
    clock reading being given. *)
Definition new_pending (tunnel_id request_id : Uuid) (timeout : option Duration)
    (now : Instant) (channel : Oneshot) (m : TunnelManager) : PendingRequest :=
  {| pr_sender := channel;
     pr_created_at := now;
     pr_deadline := now + default (pc_default_timeout (tm_pending_config m)) timeout;
     pr_request_id := request_id;
     pr_tunnel_id := tunnel_id |}.

Definition pending_checks (tunnel_id : Uuid) (m : TunnelManager) : result unit :=
  if pc_max_global (tm_pending_config m) <=? store_len (tm_pending_store m) then
    Err (CapacityExceeded "too many pending requests globally")
  else if pc_max_per_tunnel (tm_pending_config m)
            <=? count_for_tunnel tunnel_id (tm_pending_store m) then
    Err (CapacityExceeded "tunnel has too many pending requests")
  else Ok tt.

(** The receiver that is returned is the channel itself. *)
Definition register_pending_request (tunnel_id request_id : Uuid) (timeout : option Duration)
    (now : Instant) (channel : Oneshot) (m : TunnelManager) : result Oneshot * TunnelManager :=
  match pending_checks tunnel_id m with
  | Err e => (Err e, m)
  | Ok _ =>
      let pending := new_pending tunnel_id request_id timeout now channel m in
      let s1 := store_add pending (tm_pending_store m) in
      let s2 := store_insert tunnel_id s1 in
      (Ok channel, with_store m s2)
  end.

(** [ActiveTunnel::fulfill]. *)
Definition fulfill (t : ActiveTunnel) (response : Message) (m : TunnelManager) :
    TunnelManager * list Delivery :=
  match response with
  | HttpResponse id _ _ _ =>
      let '(s', removed) := store_remove id (tm_pending_store m) in
      match removed with
      | Some pending => (with_store m s', [(pr_sender pending, response)])
      | None => (with_store m s', [])
      end
  | _ => (m, [])
  end.

Definition disconnected_response (r : PendingRequest) : Message :=
  HttpResponse (pr_request_id r) 502 [("x-expose-error", "tunnel disconnected")] [].

(** [ActiveTunnel::close]. *)
Definition close (t : ActiveTunnel) (m : TunnelManager) : TunnelManager * list Delivery :=
  let '(s', drained) := drain_for_tunnel (at_id t) (tm_pending_store m) in
  (with_store m s', (fun r => (pr_sender r, disconnected_response r)) <$> drained).

(** The sweeper task, one tick. *)
Definition sweep (now : Instant) (m : TunnelManager) : TunnelManager * list Delivery :=
  let '(s', sent) := sweep_tick now (tm_pending_store m) in
  (with_store m s', sent).

Definition disconnect_tunnel (tunnel_id : Uuid) (m : TunnelManager) :
    bool * TunnelManager * list Delivery :=
  match fst <$> find_by_id tunnel_id m with
  | Some subdomain =>
      match tm_tunnels m !! subdomain with
      | Some tunnel =>
          let m1 := with_tunnels m (delete subdomain (tm_tunnels m)) in
          let '(m2, sent) := close tunnel m1 in
          (true, m2, sent)
      | None => (false, m, [])
      end
  | None => (false, m, [])
  end.

(** * Rate limiting *)

(** [ActiveTunnel::check_rate_limit]: [now] is when the limiter is consulted,
    [later] when the wait is computed.  The last case does not arise: a
    handle comes with its cells. *)
Definition check_rate_limit (t : ActiveTunnel) (now later : Instant) (m : TunnelManager) :
    result unit * TunnelManager :=
  match tm_cells m !! at_id t with
  | Some c =>
      match gov_check now (tl_rate_limiter c) with
      | (limiter, None) =>
          (Ok tt,
           with_cells m
             (<[at_id t := {| tl_rate_limiter := limiter;
                              tl_requests_forwarded :=
                                wrapping_add u64_max (tl_requests_forwarded c) 1;
                              tl_rate_limit_hits := tl_rate_limit_hits c |}]> (tm_cells m)))
      | (limiter, Some negative) =>
          let wait := gov_wait negative later in
          (Err (RateLimited (N.max (as_secs wait) 1)),
           with_cells m
             (<[at_id t := {| tl_rate_limiter := limiter;
                              tl_requests_forwarded := tl_requests_forwarded c;
                              tl_rate_limit_hits :=
                                wrapping_add u64_max (tl_rate_limit_hits c) 1 |}]> (tm_cells m)))
      end
  | None => (Err (Internal "tunnel without cells"), m)
  end.
End Manager.

Arguments TunnelCells {G}.
Arguments TunnelManager {G}.
