(* ===== verification/ManagerSpec.v ===== *)
(** What the operations of the tunnel manager guarantee, one by one: the
    invariant [manager_wf] and its preservation, and the behaviour of
    registration, allocation, answering and closing on every branch. *)

From Stdlib Require Import Ascii.
From S2P Require Import Prelude RustStr Types Errors Utils Protocol PendingStore Externals.
From S2P Require Import TunnelManager.

Local Open Scope N_scope.

Section Spec.
Context `{G : Governor, H : Sha256}.
Implicit Types m : TunnelManager.

(** * The invariant *)

(** Tunnels are filed under their own subdomain with distinct ids and live
    cells; the limits of the configuration hold (0 disables a tunnel limit);
    the pending store is consistent. *)
Record manager_wf (m : TunnelManager) : Prop := {
  mw_store : store_wf (tm_pending_store m);
  mw_key k t : tm_tunnels m !! k = Some t -> at_subdomain t = k;
  mw_ids k k' t t' :
    tm_tunnels m !! k = Some t -> tm_tunnels m !! k' = Some t' -> at_id t = at_id t' -> k = k';
  mw_cells k t : tm_tunnels m !! k = Some t -> is_Some (tm_cells m !! at_id t);
  mw_max : 0 < tm_max_tunnels m -> active_tunnel_count m <= tm_max_tunnels m;
  mw_per_key h :
    0 < tm_max_tunnels_per_key m -> count_tunnels_for_key h m <= tm_max_tunnels_per_key m;
  mw_global : pending_request_count m <= pc_max_global (tm_pending_config m);
  mw_tunnel t :
    count_for_tunnel t (tm_pending_store m) <= pc_max_per_tunnel (tm_pending_config m);
  mw_width : pc_max_global (tm_pending_config m) <= usize_max;
  mw_rate : 1 <= tm_rate_limit_per_minute m /\ 1 <= tm_rate_limit_burst m;
}.

Lemma manager_new_wf domain limits rate burst pc max_t max_k :
  pc_max_global pc <= usize_max ->
  manager_wf (manager_new domain limits rate burst pc max_t max_k).
Proof.
  intros Hw; constructor; cbn; try apply store_new_wf; try done; try lia.
  - intros _; apply N.le_0_l.
  - intros h _; apply N.le_0_l.
  - apply N.le_0_l.
  - intros t; apply N.le_0_l.
Qed.

(** ** Updates of one part *)

Lemma with_store_wf m s :
  manager_wf m -> store_wf s -> store_len s <= pc_max_global (tm_pending_config m) ->
  (forall t, count_for_tunnel t s <= pc_max_per_tunnel (tm_pending_config m)) ->
  manager_wf (with_store m s).
Proof. intros [] Hs Hl Hc; constructor; cbn; eauto. Qed.

(** A store that only lost requests. *)
Lemma store_shrink_wf m s :
  manager_wf m -> store_wf s ->
  (forall id r, ps_requests s !! id = Some r -> ps_requests (tm_pending_store m) !! id = Some r) ->
  manager_wf (with_store m s).
Proof.
  intros Hm Hs Hsub%map_subseteq_spec. apply with_store_wf; try done.
  - etransitivity; [by apply msize_mono | apply (mw_global _ Hm)].
  - intros t. rewrite (wf_count _ Hs). etransitivity; [by apply mcount_mono|].
    rewrite <- (wf_count _ (mw_store _ Hm)). apply (mw_tunnel _ Hm).
Qed.

Lemma with_cells_wf m cs :
  manager_wf m -> (forall i, is_Some (tm_cells m !! i) -> is_Some (cs !! i)) ->
  manager_wf (with_cells m cs).
Proof. intros [] Hc; constructor; cbn; eauto. Qed.

Lemma delete_tunnel_wf m k : manager_wf m -> manager_wf (with_tunnels m (delete k (tm_tunnels m))).
Proof.
  intros Hm; destruct Hm; constructor; cbn; try done.
  - intros k' t [_ Hk]%lookup_delete_Some; eauto.
  - intros k1 k2 t t' [_ H1]%lookup_delete_Some [_ H2]%lookup_delete_Some; eauto.
  - intros k' t [_ Hk]%lookup_delete_Some; eauto.
  - intros Hp. unfold active_tunnel_count in *; cbn.
    pose proof (msize_delete_le (tm_tunnels m) k). specialize (mw_max0 Hp). lia.
  - intros h Hp. specialize (mw_per_key0 h Hp). unfold count_tunnels_for_key in *; cbn.
    etransitivity; [apply mcount_delete_le | done].
Qed.
(** ** Registration *)

Definition below (limit count : N) : Prop := limit = 0 \/ count < limit.

Definition key_room (api_key : option string) m : Prop :=
  forall k, api_key = Some k ->
    below (tm_max_tunnels_per_key m) (count_tunnels_for_key (hash_api_key k) m).

(** The outcome of the checks: no error exactly when there is room in the
    server, room for the key and the name is free; else the first failure. *)
Lemma register_checks_cases (subdomain : string) (api_key : option string) m :
  match register_checks subdomain api_key m with
  | Ok _ => below (tm_max_tunnels m) (active_tunnel_count m) /\ key_room api_key m /\
            tm_tunnels m !! subdomain = None
  | Err e =>
      (~ below (tm_max_tunnels m) (active_tunnel_count m) /\
       e = server_full (active_tunnel_count m) (tm_max_tunnels m)) \/
      (below (tm_max_tunnels m) (active_tunnel_count m) /\ ~ key_room api_key m /\
       exists k, api_key = Some k /\
         e = key_full (count_tunnels_for_key (hash_api_key k) m) (tm_max_tunnels_per_key m)) \/
      (below (tm_max_tunnels m) (active_tunnel_count m) /\ key_room api_key m /\
       is_Some (tm_tunnels m !! subdomain) /\ e = SubdomainTaken subdomain)
  end.
Proof.
  unfold register_checks, key_room, below, active_tunnel_count.
  destruct ((0 <? tm_max_tunnels m) && (tm_max_tunnels m <=? msize (tm_tunnels m))) eqn:Hg.
  { left; split; [lia | done]. }
  assert (tm_max_tunnels m = 0 \/ msize (tm_tunnels m) < tm_max_tunnels m) as Hroom by lia.
  destruct (0 <? tm_max_tunnels_per_key m) eqn:Hk; cbn.
  - destruct api_key as [k|]; cbn.
    + destruct (tm_max_tunnels_per_key m <=? count_tunnels_for_key (hash_api_key k) m) eqn:Hc; cbn.
      * right; left; split_and!; [done | | by exists k].
        intros Hr; specialize (Hr k eq_refl); lia.
      * assert (forall k0, Some k = Some k0 -> tm_max_tunnels_per_key m = 0 \/
          count_tunnels_for_key (hash_api_key k0) m < tm_max_tunnels_per_key m)
          by (intros k0 [= <-]; lia).
        destruct (tm_tunnels m !! subdomain) eqn:Hs; [right; right; eauto | done].
    + destruct (tm_tunnels m !! subdomain) eqn:Hs; [right; right | split_and!; done].
      split_and!; first [done | by eauto].
  - destruct (tm_tunnels m !! subdomain) eqn:Hs; [right; right|]; split_and!; first [done | by eauto | intros; lia].
Qed.

Definition registered_handle (id : Uuid) (subdomain : string) (protocol : TunnelProtocol)
    (sender : Mpsc) (api_key : option string) m : ActiveTunnel :=
  {| at_id := id; at_subdomain := subdomain; at_protocol := protocol; at_sender := sender;
     at_rate_limit_per_minute := tm_rate_limit_per_minute m;
     at_rate_limit_burst := tm_rate_limit_burst m;
     at_api_key_hash := hash_api_key <$> api_key |}.

Lemma register_insert_wf (id : Uuid) (subdomain : string) (protocol : TunnelProtocol)
    (sender : Mpsc) (api_key : option string) m :
  manager_wf m ->
  below (tm_max_tunnels m) (active_tunnel_count m) -> key_room api_key m ->
  tm_tunnels m !! subdomain = None ->
  (forall k t, tm_tunnels m !! k = Some t -> at_id t <> id) ->
  manager_wf (register_insert id subdomain protocol sender api_key m).2.
Proof.
  intros Hm Hroom Hkey Hfree Hid; unfold key_room, below, active_tunnel_count in *.
  constructor; cbn; try apply Hm.
  - intros k t [[<- <-]|[_ Ht]]%lookup_insert_Some; [done | by eapply mw_key].
  - intros k k' t t' Ht Ht' He.
    apply lookup_insert_Some in Ht as [[<- <-]|[_ Ht]];
      apply lookup_insert_Some in Ht' as [[<- <-]|[_ Ht']]; try done; cbn in He.
    + by destruct (Hid _ _ Ht').
    + by destruct (Hid _ _ Ht).
    + by eapply mw_ids.
  - intros k t [[<- <-]|[_ Ht]]%lookup_insert_Some; cbn.
    + by rewrite lookup_insert_eq.
    + pose proof (Hid _ _ Ht). rewrite lookup_insert_ne by done. by eapply mw_cells.
  - intros Hp. unfold active_tunnel_count; cbn. rewrite msize_insert_None by done. lia.
  - intros h Hp. pose proof (mw_per_key _ Hm h Hp) as Hh. unfold count_tunnels_for_key in *; cbn.
    destruct (decide (hash_api_key <$> api_key = Some h)) as [He|He].
    + rewrite mcount_insert_True by done. destruct api_key as [k|]; [|done].
      injection He as <-. specialize (Hkey k eq_refl). lia.
    + by rewrite mcount_insert_False.
Qed.

Lemma register_wf (id : Uuid) (subdomain : string) (protocol : TunnelProtocol)
    (sender : Mpsc) (api_key : option string) m :
  manager_wf m -> (forall k t, tm_tunnels m !! k = Some t -> at_id t <> id) ->
  manager_wf (register_tunnel id subdomain protocol sender api_key m).2.
Proof.
  intros Hm Hid. unfold register_tunnel.
  pose proof (register_checks_cases subdomain api_key m) as Hc.
  destruct (register_checks subdomain api_key m); [|done].
  destruct Hc as (? & ? & ?).
  pose proof (register_insert_wf id subdomain protocol sender api_key m) as Hi.
  destruct (register_insert _ _ _ _ _ m); cbn in *; auto.
Qed.

(** ** Pending requests *)

Lemma pending_checks_cases (tunnel_id : Uuid) m :
  match pending_checks tunnel_id m with
  | Ok _ =>
      pending_request_count m < pc_max_global (tm_pending_config m) /\
      count_for_tunnel tunnel_id (tm_pending_store m) < pc_max_per_tunnel (tm_pending_config m)
  | Err e =>
      (pc_max_global (tm_pending_config m) <= pending_request_count m /\
       e = CapacityExceeded "too many pending requests globally") \/
      (pending_request_count m < pc_max_global (tm_pending_config m) /\
       pc_max_per_tunnel (tm_pending_config m) <=
         count_for_tunnel tunnel_id (tm_pending_store m) /\
       e = CapacityExceeded "tunnel has too many pending requests")
  end.
Proof.
  unfold pending_checks, pending_request_count.
  destruct (N.leb_spec (pc_max_global (tm_pending_config m)) (store_len (tm_pending_store m)));
    [by left|].
  destruct (N.leb_spec (pc_max_per_tunnel (tm_pending_config m))
              (count_for_tunnel tunnel_id (tm_pending_store m))); [by right | done].
Qed.

Definition channel_free (channel : Oneshot) (s : PendingStore) : Prop :=
  forall id r, ps_requests s !! id = Some r -> pr_sender r <> channel.

Lemma register_pending_wf (tunnel_id request_id : Uuid) (timeout : option Duration)
    (now : Instant) (channel : Oneshot) m :
  manager_wf m -> ps_requests (tm_pending_store m) !! request_id = None ->
  channel_free channel (tm_pending_store m) ->
  manager_wf (register_pending_request tunnel_id request_id timeout now channel m).2.
Proof.
  intros Hm Hnew Hch; unfold register_pending_request.
  pose proof (pending_checks_cases tunnel_id m) as Hc.
  destruct (pending_checks tunnel_id m); [|done]. destruct Hc as [Hg Ht]; cbn.
  unfold pending_request_count in Hg.
  set (p := new_pending tunnel_id request_id timeout now channel m).
  pose proof (mw_store _ Hm) as Hs; pose proof (mw_width _ Hm).
  assert (store_len (tm_pending_store m) < usize_max) as Hroom by lia.
  assert (ps_requests (tm_pending_store m) !! pr_request_id p = None) as Hp by done.
  apply with_store_wf; [done | by apply (add_wf p) | |].
  - change tunnel_id with (pr_tunnel_id p). rewrite (add_len p _ Hp). lia.
  - intros t. pose proof (mw_tunnel _ Hm t) as Hb.
    change tunnel_id with (pr_tunnel_id p). rewrite (add_count p _ Hs Hroom).
    case_decide; [subst; cbn in *; lia | done].
Qed.

Lemma remove_lookup_sub (s : PendingStore) (rid id : Uuid) (r : PendingRequest) :
  ps_requests (store_remove rid s).1 !! id = Some r -> ps_requests s !! id = Some r.
Proof. destruct (remove_requests s rid) as [-> _]. by intros [_ ?]%lookup_delete_Some. Qed.

(** ** Answering *)

(** What [fulfill] does, as one equation. *)
Lemma fulfill_eq (t : ActiveTunnel) (rid : Uuid) status headers (body : Bytes) m :
  fulfill t (HttpResponse rid status headers body) m =
    (with_store m (store_remove rid (tm_pending_store m)).1,
     match ps_requests (tm_pending_store m) !! rid with
     | Some p => [(pr_sender p, HttpResponse rid status headers body)]
     | None => []
     end).
Proof.
  unfold fulfill. destruct (remove_requests (tm_pending_store m) rid) as [_ Hr].
  destruct (store_remove rid (tm_pending_store m)) as [s' o]; cbn in *; subst o.
  by destruct (ps_requests (tm_pending_store m) !! rid).
Qed.

Lemma fulfill_other (t : ActiveTunnel) (msg : Message) m :
  (forall id status headers body, msg <> HttpResponse id status headers body) ->
  fulfill t msg m = (m, []).
Proof. intros Hn; destruct msg; try done. by destruct (Hn id status headers body). Qed.

Lemma fulfill_wf (t : ActiveTunnel) (msg : Message) m :
  manager_wf m -> manager_wf (fulfill t msg m).1.
Proof.
  intros Hm; destruct msg; try done. rewrite fulfill_eq; cbn.
  apply store_shrink_wf; [done | by apply remove_wf, mw_store | apply remove_lookup_sub].
Qed.

(** ** Closing a tunnel and sweeping *)

Lemma close_eq (t : ActiveTunnel) m :
  close t m =
    (with_store m (remove_all (keys_where (of_tunnel (at_id t)) (tm_pending_store m))
                     (tm_pending_store m)).1,
     (fun r => (pr_sender r, disconnected_response r)) <$>
       (remove_all (keys_where (of_tunnel (at_id t)) (tm_pending_store m))
          (tm_pending_store m)).2).
Proof. unfold close. rewrite drain_is_remove_where. by destruct (remove_all _ _). Qed.

Lemma close_wf (t : ActiveTunnel) m : manager_wf m -> manager_wf (close t m).1.
Proof.
  intros Hm; rewrite close_eq; cbn. apply store_shrink_wf; [done | by apply remove_all_wf, mw_store |].
  by intros id r [? _]%remove_where_lookup.
Qed.

Lemma sweep_eq (now : Instant) m :
  sweep now m = (with_store m (sweep_tick now (tm_pending_store m)).1,
                 (sweep_tick now (tm_pending_store m)).2).
Proof. unfold sweep. by destruct (sweep_tick _ _). Qed.

Lemma sweep_wf (now : Instant) m : manager_wf m -> manager_wf (sweep now m).1.
Proof.
  intros Hm; rewrite sweep_eq; cbn. pose proof (sweep_tick_eq now (tm_pending_store m)) as Hs.
  pose proof (remove_where_lookup (overdue now) (tm_pending_store m)) as Hl.
  destruct (remove_all _ _) as [s' removed]. destruct Hs as (_ & Hreq & Hwf).
  apply store_shrink_wf; [done | by apply Hwf, mw_store|].
  intros id r; rewrite Hreq. by intros [? _]%Hl.
Qed.

(** ** Disconnecting by id *)

Lemma find_by_id_Some (id : Uuid) m (k : string) (t : ActiveTunnel) :
  find_by_id id m = Some (k, t) -> tm_tunnels m !! k = Some t /\ at_id t = id.
Proof.
  unfold find_by_id. destruct (filter _ (map_to_list (tm_tunnels m))) as [|x l] eqn:E; [done|].
  intros [= ->]. assert ((k, t) ∈ (k, t) :: l) as Hin by set_solver.
  rewrite <- E in Hin. by apply list_elem_of_filter in Hin as [Hid Hin%elem_of_map_to_list].
Qed.

Lemma find_by_id_None (id : Uuid) m :
  find_by_id id m = None <-> forall k t, tm_tunnels m !! k = Some t -> at_id t <> id.
Proof.
  unfold find_by_id. destruct (filter _ (map_to_list (tm_tunnels m))) as [|[k t] l] eqn:E.
  - split; [|done]. intros _ k t Ht He.
    assert ((k, t) ∈ ([] : list (string * ActiveTunnel))) as Hin; [|by apply not_elem_of_nil in Hin].
    rewrite <- E. apply list_elem_of_filter; split; [done | by apply elem_of_map_to_list].
  - split; [done|]. intros Hn. assert ((k, t) ∈ (k, t) :: l) as Hin by set_solver.
    rewrite <- E in Hin. apply list_elem_of_filter in Hin as [Hid Hin%elem_of_map_to_list].
    by destruct (Hn _ _ Hin).
Qed.

(** With distinct ids the search finds the tunnel, whatever the order. *)
Lemma find_by_id_wf m (k : string) (t : ActiveTunnel) :
  manager_wf m -> tm_tunnels m !! k = Some t -> find_by_id (at_id t) m = Some (k, t).
Proof.
  intros Hm Ht. destruct (find_by_id (at_id t) m) as [[k' t']|] eqn:E.
  - apply find_by_id_Some in E as [Ht' Hid].
    assert (k' = k) as -> by (by eapply mw_ids). by simplify_eq.
  - by destruct (proj1 (find_by_id_None _ _) E _ _ Ht).
Qed.

Lemma disconnect_eq (id : Uuid) m :
  disconnect_tunnel id m =
    match find_by_id id m with
    | Some (k, t) =>
        (true, (close t (with_tunnels m (delete k (tm_tunnels m)))).1, (close t m).2)
    | None => (false, m, [])
    end.
Proof.
  unfold disconnect_tunnel. destruct (find_by_id id m) as [[k t]|] eqn:E; [|done]; cbn.
  apply find_by_id_Some in E as [-> _]. by rewrite !close_eq.
Qed.

Lemma disconnect_wf (id : Uuid) m : manager_wf m -> manager_wf (disconnect_tunnel id m).1.2.
Proof.
  intros Hm; rewrite disconnect_eq. destruct (find_by_id id m) as [[k t]|]; [|done].
  by apply close_wf, delete_tunnel_wf.
Qed.

(** ** Rate limiting *)

Lemma check_rate_limit_wf (t : ActiveTunnel) (now later : Instant) m :
  manager_wf m -> manager_wf (check_rate_limit t now later m).2.
Proof.
  intros Hm; unfold check_rate_limit. destruct (tm_cells m !! at_id t) as [c|] eqn:E; [|done].
  destruct (gov_check now (tl_rate_limiter c)) as [st [neg|]]; apply with_cells_wf; try done;
    intros i [x Hi]; (destruct (decide (i = at_id t)) as [->|];
      [rewrite lookup_insert_eq | rewrite lookup_insert_ne by done]); eauto.
Qed.

(** * What the operations promise *)

(** What no operation on tunnels or requests changes. *)
Definition settings m : string * RequestLimits * N * N * PendingRequestConfig * bool * N * N :=
  (tm_domain m, tm_limits m, tm_rate_limit_per_minute m, tm_rate_limit_burst m,
   tm_pending_config m, tm_sweeper_cancelled m, tm_max_tunnels m, tm_max_tunnels_per_key m).

(** C14: registration succeeds exactly when the server has room, the key has room
    and the subdomain is free; it then files a handle with the given fields and
    fresh counters under that subdomain and touches no other tunnel, no other
    limiter or counter, no pending request and no setting.  Otherwise nothing changes and the error is the first
    check that failed, in the order of the code. *)
Theorem register_tunnel_spec (id : Uuid) (subdomain : string) (protocol : TunnelProtocol)
    (sender : Mpsc) (api_key : option string) m :
  let '(res, m') := register_tunnel id subdomain protocol sender api_key m in
  match res with
  | Ok t =>
      below (tm_max_tunnels m) (active_tunnel_count m) /\ key_room api_key m /\
      manager_get subdomain m = None /\
      t = registered_handle id subdomain protocol sender api_key m /\
      (forall k, manager_get k m' = if decide (k = subdomain) then Some t else manager_get k m) /\
      (forall i, tm_cells m' !! i =
         if decide (i = id) then
           Some {| tl_rate_limiter := gov_direct (tm_rate_limit_per_minute m) (tm_rate_limit_burst m);
                   tl_requests_forwarded := 0; tl_rate_limit_hits := 0 |}
         else tm_cells m !! i) /\
      tm_pending_store m' = tm_pending_store m /\ settings m' = settings m
  | Err e =>
      m' = m /\
      ((~ below (tm_max_tunnels m) (active_tunnel_count m) /\
        e = server_full (active_tunnel_count m) (tm_max_tunnels m)) \/
       (below (tm_max_tunnels m) (active_tunnel_count m) /\ ~ key_room api_key m /\
        exists k, api_key = Some k /\
          e = key_full (count_tunnels_for_key (hash_api_key k) m) (tm_max_tunnels_per_key m)) \/
       (below (tm_max_tunnels m) (active_tunnel_count m) /\ key_room api_key m /\
        is_Some (manager_get subdomain m) /\ e = SubdomainTaken subdomain))
  end.
Proof.
  unfold register_tunnel. pose proof (register_checks_cases subdomain api_key m) as Hc.
  destruct (register_checks subdomain api_key m); cbn; [|done].
  destruct Hc as (Hroom & Hkey & Hfree). split_and!; try done.
  - intros k; unfold manager_get; cbn.
    case_decide; subst; [by rewrite lookup_insert_eq | by rewrite lookup_insert_ne].
  - intros i; cbn. case_decide; subst; [by rewrite lookup_insert_eq | by rewrite lookup_insert_ne].
Qed.

Lemma first_free_spec (candidates : list string) m :
  match first_free candidates m with
  | Some s => s ∈ candidates /\ tm_tunnels m !! s = None
  | None => forall s, s ∈ candidates -> is_Some (tm_tunnels m !! s)
  end.
Proof.
  induction candidates as [|c l IH]; cbn.
  - intros s Hs; by apply not_elem_of_nil in Hs.
  - destruct (tm_tunnels m !! c) eqn:E; [|split; [set_solver | done]].
    destruct (first_free l m); [set_solver|].
    intros s [->|Hs]%elem_of_cons; eauto.
Qed.

Definition alphanumeric_sample (sample : list ascii) : Prop :=
  length sample = 8%nat /\ Forall (fun c => is_ascii_alphanumeric c = true) sample.

Lemma alphanumeric_lower (c : ascii) :
  is_ascii_alphanumeric c = true ->
  label_lower_char (char_lower c) = true /\ char_lower c <> "-"%char.
Proof. destruct c as [[] [] [] [] [] [] [] []]; vm_compute; split; congruence. Qed.

(** The characters of a random subdomain, none of them a dash. *)
Lemma random_chars (sample : list ascii) :
  Forall (fun c => is_ascii_alphanumeric c = true) sample ->
  str_forall (fun c => label_lower_char c && negb (Ascii.eqb c "-"%char))
             (random_subdomain sample) = true.
Proof.
  induction 1 as [|c l Hc _ IH]; [done|]; unfold random_subdomain in *; cbn.
  destruct (alphanumeric_lower c Hc) as [-> Hd]. rewrite IH.
  destruct (Ascii.eqb_spec (char_lower c) "-"); done.
Qed.

Lemma random_len (sample : list ascii) : str_len (random_subdomain sample) = len sample.
Proof.
  unfold str_len, len, random_subdomain; f_equal.
  induction sample as [|c l IH]; cbn; [done | by rewrite IH].
Qed.

Lemma no_dash_ends (s : string) :
  str_forall (fun c => negb (Ascii.eqb c "-"%char)) s = true ->
  str_starts_with "-" s = false /\ str_ends_with "-" s = false.
Proof.
  intros Hs. split.
  - destruct (str_starts_with "-" s) eqn:E; [|done].
    apply prefix_true_iff in E as [t ->]. by rewrite str_app_cons in Hs.
  - destruct (str_ends_with "-" s) eqn:E; [|done].
    apply str_ends_with_iff in E as [t ->]. rewrite str_forall_app in Hs.
    by rewrite andb_true_iff in Hs; destruct Hs.
Qed.

Lemma random_subdomain_valid (sample : list ascii) :
  alphanumeric_sample sample -> valid_label (random_subdomain sample).
Proof.
  intros [Hl Hs]. pose proof (random_chars sample Hs) as Hc.
  assert (str_starts_with "-" (random_subdomain sample) = false /\
          str_ends_with "-" (random_subdomain sample) = false) as [Hf Hb].
  { apply no_dash_ends; revert Hc; apply str_forall_impl; intros c. by destruct (label_lower_char c). }
  split; try done.
  - revert Hc; apply str_forall_impl. intros c; by destruct (label_lower_char c).
  - rewrite random_len; unfold len; rewrite Hl; lia.
Qed.

(** C35: an allocated subdomain is a lower-case DNS label that no tunnel uses; a
    request for a label that is valid and free gets exactly that label; a
    taken or malformed request is refused with the matching error, and the
    server gives up only after five taken random names. *)
Theorem allocate_subdomain_spec (desired : option string) (samples : list (list ascii)) m :
  Forall alphanumeric_sample samples ->
  match allocate_subdomain desired samples m with
  | Ok s => valid_label s /\ manager_get s m = None /\
            (forall raw, desired = Some raw -> sanitize_subdomain raw = Some s /\
                                               (valid_label raw -> s = raw))
  | Err e =>
      (exists raw, desired = Some raw /\ sanitize_subdomain raw = None /\
         e = InvalidSubdomain raw "invalid subdomain requested") \/
      (exists raw s, desired = Some raw /\ sanitize_subdomain raw = Some s /\
         is_Some (manager_get s m) /\ e = SubdomainTaken s) \/
      (desired = None /\ e = CapacityExceeded "unable to allocate unique subdomain" /\
       forall sample, sample ∈ take 5 samples ->
         is_Some (manager_get (random_subdomain sample) m))
  end.
Proof.
  intros Hs; unfold allocate_subdomain, manager_get. destruct desired as [raw|].
  - destruct (sanitize_subdomain raw) as [s|] eqn:E; cbn; [|left; eauto].
    destruct (tm_tunnels m !! s) eqn:Et; [right; left; eauto 10|].
    split; [by eapply sanitize_valid|]. split; [done|].
    intros ? [= <-]; split; [done|]. intros Hv; rewrite (sanitize_fixed _ Hv) in E; congruence.
  - pose proof (first_free_spec (random_subdomain <$> take 5 samples) m) as Hf.
    destruct (first_free _ m) as [s|]; cbn.
    + destruct Hf as [(sample & -> & Hin)%list_elem_of_fmap Hfree]; split; [|done].
      apply random_subdomain_valid. rewrite Forall_forall in Hs; apply Hs.
      by eapply elem_of_take in Hin as (? & ?%list_elem_of_lookup_2 & _).
    + right; right; split_and!; try done.
      intros sample Hin; apply Hf, list_elem_of_fmap; eauto.
Qed.

(** C15: a pending request is accepted exactly when the store and the tunnel are
    below their limits; it is then waiting under its id with the deadline of
    its timeout (or the default one), counted for its tunnel and in the gauge,
    and every other request is as before.  A refused one changes nothing. *)
Theorem register_pending_spec (tunnel_id request_id : Uuid) (timeout : option Duration)
    (now : Instant) (channel : Oneshot) m :
  manager_wf m -> ps_requests (tm_pending_store m) !! request_id = None ->
  channel_free channel (tm_pending_store m) ->
  let '(res, m') := register_pending_request tunnel_id request_id timeout now channel m in
  manager_wf m' /\ tm_tunnels m' = tm_tunnels m /\
  match res with
  | Ok rx =>
      rx = channel /\
      (exists r, ps_requests (tm_pending_store m') !! request_id = Some r /\
         pr_sender r = channel /\ pr_tunnel_id r = tunnel_id /\ pr_request_id r = request_id /\
         pr_deadline r =
           now + match timeout with
                 | Some d => d
                 | None => pc_default_timeout (tm_pending_config m)
                 end) /\
      (forall id, id <> request_id ->
         ps_requests (tm_pending_store m') !! id = ps_requests (tm_pending_store m) !! id) /\
      pending_request_count m' = pending_request_count m + 1 /\
      pm_pending_gauge (ps_metrics (tm_pending_store m')) = pending_request_count m + 1 /\
      (forall t, count_for_tunnel t (tm_pending_store m') =
         count_for_tunnel t (tm_pending_store m) + (if decide (t = tunnel_id) then 1 else 0))
  | Err e =>
      m' = m /\
      ((pc_max_global (tm_pending_config m) <= pending_request_count m /\
        e = CapacityExceeded "too many pending requests globally") \/
       (pending_request_count m < pc_max_global (tm_pending_config m) /\
        pc_max_per_tunnel (tm_pending_config m) <=
          count_for_tunnel tunnel_id (tm_pending_store m) /\
        e = CapacityExceeded "tunnel has too many pending requests"))
  end.
Proof.
  intros Hm Hnew Hch.
  pose proof (register_pending_wf tunnel_id request_id timeout now channel m Hm Hnew Hch) as Hw.
  unfold register_pending_request in *. pose proof (pending_checks_cases tunnel_id m) as Hc.
  destruct (pending_checks tunnel_id m); cbn in *; [|done].
  destruct Hc as [Hg _]; unfold pending_request_count in Hg; pose proof (mw_width _ Hm).
  set (p := new_pending tunnel_id request_id timeout now channel m) in *.
  assert (ps_requests (tm_pending_store m) !! pr_request_id p = None) as Hp by done.
  assert (store_len (tm_pending_store m) < usize_max) as Hroom by lia.
  pose proof (add_len p _ Hp) as Hlen; unfold pending_request_count; cbn in *.
  split_and!; try done.
  - exists p; rewrite lookup_insert_eq; split_and!; try done.
  - intros id Hid; by rewrite lookup_insert_ne.
  - pose proof (wf_gauge _ (mw_store _ Hw)) as Hgg; cbn in Hgg. by rewrite Hgg, Hlen.
  - intros t. pose proof (add_count p _ (mw_store _ Hm) Hroom t) as Ht; cbn in Ht.
    rewrite Ht. case_decide; lia.
Qed.

(** a response from a client answers the request whose id it carries: the
    waiter's channel gets that very message, the request leaves the store, and
    nobody else is affected.  A response nobody waits for, and any other
    message, changes nothing and reaches nobody. *)
Theorem fulfill_spec (t : ActiveTunnel) (msg : Message) m :
  let '(m', sent) := fulfill t msg m in
  let waiting := ps_requests (tm_pending_store m) in
  (forall ch msg', (ch, msg') ∈ sent <->
     msg' = msg /\ exists id status headers body r,
       msg = HttpResponse id status headers body /\ waiting !! id = Some r /\ pr_sender r = ch) /\
  (length sent <= 1)%nat /\
  (forall id, ps_requests (tm_pending_store m') !! id =
     match msg with
     | HttpResponse id' _ _ _ => if decide (id = id') then None else waiting !! id
     | _ => waiting !! id
     end) /\
  tm_tunnels m' = tm_tunnels m.
Proof.
  assert ((exists id status headers body, msg = HttpResponse id status headers body) \/
          (forall id status headers body, msg <> HttpResponse id status headers body)) as Hd.
  { destruct msg; eauto 10. }
  destruct Hd as [(id & status & headers & body & ->)|Hn].
  - rewrite fulfill_eq; cbn. destruct (remove_requests (tm_pending_store m) id) as [-> _].
    split_and!; [| by destruct (_ !! id); cbn; lia | | done].
    + intros ch msg'. destruct (ps_requests (tm_pending_store m) !! id) as [r|] eqn:E.
      * rewrite list_elem_of_singleton. split; [intros [= -> ->]; eauto 10|].
        intros (-> & ? & ? & ? & ? & ? & [= -> -> -> ->] & ? & <-). by simplify_eq.
      * split; [intros Hs; by apply not_elem_of_nil in Hs|].
        intros (_ & ? & ? & ? & ? & ? & [= -> -> -> ->] & ? & _). congruence.
    + intros id'. case_decide; subst; [by rewrite lookup_delete_eq | by rewrite lookup_delete_ne].
  - rewrite fulfill_other by done. split_and!; [| cbn; lia | by destruct msg; try naive_solver | done].
    intros ch msg'. split; [intros Hs; by apply not_elem_of_nil in Hs|].
    intros (_ & ? & ? & ? & ? & ? & He & _). by destruct (Hn _ _ _ _ He).
Qed.

(** disconnecting a tunnel by id removes it and answers every request that
    waits for it, once, with a 502 carrying that request's id; requests of
    other tunnels and the other tunnels stay.  Without such a tunnel the
    answer is [false] and nothing changes. *)
Theorem disconnect_tunnel_spec (id : Uuid) m :
  manager_wf m ->
  let '(found, m', sent) := disconnect_tunnel id m in
  manager_wf m' /\
  (found = true <-> exists k t, manager_get k m = Some t /\ at_id t = id) /\
  (forall k t, manager_get k m' = Some t <-> manager_get k m = Some t /\ at_id t <> id) /\
  (found = true ->
     (forall rid r, ps_requests (tm_pending_store m') !! rid = Some r <->
        ps_requests (tm_pending_store m) !! rid = Some r /\ pr_tunnel_id r <> id) /\
     (forall ch msg, (ch, msg) ∈ sent <->
        exists rid r, ps_requests (tm_pending_store m) !! rid = Some r /\ pr_tunnel_id r = id /\
          ch = pr_sender r /\
          msg = HttpResponse rid 502 [("x-expose-error", "tunnel disconnected")] []) /\
     NoDup sent.*1) /\
  (found = false -> m' = m /\ sent = []).
Proof.
  intros Hm; pose proof (disconnect_wf id m Hm) as Hw. rewrite disconnect_eq in *; unfold manager_get.
  destruct (find_by_id id m) as [[k t]|] eqn:E.
  - rewrite !close_eq in *. apply find_by_id_Some in E as [Ht <-].
    pose proof (mw_store _ Hm) as Hs.
    pose proof (removed_where_senders (of_tunnel (at_id t)) _ Hs) as Hnd.
    split; [done|]. split; [split; eauto|]. split; [|split; [intros _|done]].
    + intros k' t'; cbn; rewrite lookup_delete_Some. split; intros [H1 H2]; split; try done.
      * intros He; apply H1; symmetry. by apply (mw_ids _ Hm _ _ t' t).
      * intros ->. by simplify_eq.
    + split_and!.
      * intros rid r. cbn. by rewrite remove_where_lookup.
      * intros ch msg. cbn [snd]. rewrite list_elem_of_fmap. unfold disconnected_response. split.
        -- intros (r & [= -> ->] & (rid & Hr & Hp)%elem_of_removed_where).
           exists rid, r. rewrite (wf_key _ Hs _ _ Hr). done.
        -- intros (rid & r & Hr & Hp & -> & ->). exists r. rewrite (wf_key _ Hs _ _ Hr).
           split; [done|]. apply elem_of_removed_where; eauto.
      * cbn [snd]. by rewrite <- list_fmap_compose.
  - rewrite find_by_id_None in E. split; [done|]. split; [split; [done | intros (k & t & Ht & He)]|].
    { by destruct (E _ _ Ht). }
    split; [|done]. intros k t; split; [|by intros [? _]]. eauto.
Qed.

(** A request that the limiter grants is counted as forwarded; a denied one
    is counted as a hit and reported with a retry delay of at least one
    second, so that it becomes a 429. *)
Theorem check_rate_limit_spec (t : ActiveTunnel) (now later : Instant) m (c : TunnelCells) :
  tm_cells m !! at_id t = Some c ->
  tl_requests_forwarded c < u64_max -> tl_rate_limit_hits c < u64_max ->
  let '(res, m') := check_rate_limit t now later m in
  exists c', tm_cells m' !! at_id t = Some c' /\
    tl_rate_limiter c' = (gov_check now (tl_rate_limiter c)).1 /\
    match (gov_check now (tl_rate_limiter c)).2 with
    | None => res = Ok tt /\ tl_requests_forwarded c' = tl_requests_forwarded c + 1 /\
              tl_rate_limit_hits c' = tl_rate_limit_hits c
    | Some _ => (exists secs, res = Err (RateLimited secs) /\ 1 <= secs /\
                   http_status (RateLimited secs) = 429) /\
                tl_requests_forwarded c' = tl_requests_forwarded c /\
                tl_rate_limit_hits c' = tl_rate_limit_hits c + 1
    end.
Proof.
  intros Hc Hf Hh; unfold check_rate_limit; rewrite Hc.
  destruct (gov_check now (tl_rate_limiter c)) as [st [neg|]]; cbn;
    (eexists; split; [by rewrite lookup_insert_eq|]); cbn;
    rewrite ?wrapping_add_small by lia; split_and!; try done.
  eexists; split_and!; [done | lia | done].
Qed.
End Spec.
