(* ===== verification/ManagerSystem.v ===== *)
(** The tunnel manager over time: its operations as the steps of a transition
    system, each step one whole operation, and what holds in every reachable
    state.  [Interleaving.v] takes the operations apart again and says what is
    left of this when tasks interleave inside them. *)

From S2P Require Import Prelude RustStr Types Errors Utils Protocol PendingStore Externals.
From S2P Require Import TunnelManager ManagerSpec.

Local Open Scope N_scope.

Section System.
Context `{G : Governor, H : Sha256}.

(** * The system *)

(** The manager, the request each channel was made for, and what has been sent
    on the channels, oldest first. *)
Record Sys : Type := {
  sy_manager : TunnelManager;
  sy_issued : gmap Oneshot Uuid;
  sy_log : list Delivery;
}.

Definition sys_init (m : TunnelManager) : Sys :=
  {| sy_manager := m; sy_issued := ∅; sy_log := [] |}.

Inductive sys_step (s : Sys) : Sys -> Prop :=
| step_register id subdomain protocol sender api_key :
    (forall k t, tm_tunnels (sy_manager s) !! k = Some t -> at_id t <> id) ->
    sys_step s {| sy_manager :=
                    (register_tunnel id subdomain protocol sender api_key (sy_manager s)).2;
                  sy_issued := sy_issued s; sy_log := sy_log s |}
| step_remove subdomain :
    sys_step s {| sy_manager := manager_remove subdomain (sy_manager s);
                  sy_issued := sy_issued s; sy_log := sy_log s |}
| step_request tunnel_id request_id timeout now channel :
    ps_requests (tm_pending_store (sy_manager s)) !! request_id = None ->
    sy_issued s !! channel = None ->
    sys_step s
      (match register_pending_request tunnel_id request_id timeout now channel (sy_manager s) with
       | (Ok rx, m) => {| sy_manager := m; sy_issued := <[rx := request_id]> (sy_issued s);
                          sy_log := sy_log s |}
       | (Err _, m) => {| sy_manager := m; sy_issued := sy_issued s; sy_log := sy_log s |}
       end)
| step_fulfill t msg :
    sys_step s {| sy_manager := (fulfill t msg (sy_manager s)).1; sy_issued := sy_issued s;
                  sy_log := sy_log s ++ (fulfill t msg (sy_manager s)).2 |}
| step_close t :
    sys_step s {| sy_manager := (close t (sy_manager s)).1; sy_issued := sy_issued s;
                  sy_log := sy_log s ++ (close t (sy_manager s)).2 |}
| step_sweep now :
    sys_step s {| sy_manager := (sweep now (sy_manager s)).1; sy_issued := sy_issued s;
                  sy_log := sy_log s ++ (sweep now (sy_manager s)).2 |}
| step_disconnect id :
    sys_step s {| sy_manager := (disconnect_tunnel id (sy_manager s)).1.2;
                  sy_issued := sy_issued s;
                  sy_log := sy_log s ++ (disconnect_tunnel id (sy_manager s)).2 |}
| step_rate t now later :
    sys_step s {| sy_manager := (check_rate_limit t now later (sy_manager s)).2;
                  sy_issued := sy_issued s; sy_log := sy_log s |}.

(** The states of a server that starts with an empty manager and whose operations
    run one after the other, each to its end: the serial executions.  The code
    takes no lock over an operation, so concurrent ones need not be serial. *)
Definition serially_reachable domain limits rate burst pc max_t max_k : Sys -> Prop :=
  reachable (fun s => s = sys_init (manager_new domain limits rate burst pc max_t max_k)) sys_step.

(** * The invariant *)

Definition answers (msg : Message) (id : Uuid) : Prop :=
  exists status headers body, msg = HttpResponse id status headers body.

Abbreviation waiting s := (ps_requests (tm_pending_store (sy_manager s))).

Record sys_wf (s : Sys) : Prop := {
  sw_manager : manager_wf (sy_manager s);
  sw_waiting id r : waiting s !! id = Some r -> sy_issued s !! pr_sender r = Some id;
  sw_log ch msg : (ch, msg) ∈ sy_log s -> exists id, sy_issued s !! ch = Some id /\ answers msg id;
  sw_once : NoDup (sy_log s).*1;
  sw_open id r : waiting s !! id = Some r -> pr_sender r ∉ (sy_log s).*1;
  sw_total ch id : sy_issued s !! ch = Some id ->
    ch ∈ (sy_log s).*1 \/ exists r, waiting s !! id = Some r /\ pr_sender r = ch;
}.

(** What every operation that answers does to the store: some waiting requests
    leave it, each with one answer on its own channel. *)
Definition answered_out (m m' : TunnelManager) (sent : list Delivery) : Prop :=
  let s := tm_pending_store m in let s' := tm_pending_store m' in
  (forall id r, ps_requests s' !! id = Some r -> ps_requests s !! id = Some r) /\
  (forall ch msg, (ch, msg) ∈ sent -> exists id r,
     ps_requests s !! id = Some r /\ ps_requests s' !! id = None /\ ch = pr_sender r /\
     answers msg id) /\
  (forall id r, ps_requests s !! id = Some r -> ps_requests s' !! id = None ->
     pr_sender r ∈ sent.*1) /\
  NoDup sent.*1.

Lemma answered_out_none m m' :
  tm_pending_store m' = tm_pending_store m -> answered_out m m' [].
Proof.
  intros He; unfold answered_out; rewrite He; split_and!; [done | | | constructor].
  - intros ch msg Hs; by apply not_elem_of_nil in Hs.
  - intros id r H1 H2; congruence.
Qed.

Lemma answered_out_where (P : Uuid * PendingRequest -> Prop) `{forall x, Decision (P x)}
    (answer : PendingRequest -> Message) m m' sent :
  store_wf (tm_pending_store m) ->
  (forall r, answers (answer r) (pr_request_id r)) ->
  ps_requests (tm_pending_store m') =
    ps_requests (remove_all (keys_where P (tm_pending_store m)) (tm_pending_store m)).1 ->
  sent = (fun r => (pr_sender r, answer r)) <$>
           (remove_all (keys_where P (tm_pending_store m)) (tm_pending_store m)).2 ->
  answered_out m m' sent.
Proof.
  intros Hs Ha He ->. pose proof (remove_where_lookup P (tm_pending_store m)) as Hl.
  pose proof (elem_of_removed_where P (tm_pending_store m)) as Hr.
  assert (forall id r, ps_requests (tm_pending_store m) !! id = Some r -> P (id, r) ->
            ps_requests (tm_pending_store m') !! id = None) as Hout.
  { intros id r Hid HP. rewrite He. apply eq_None_not_Some.
    intros [r' [? Hn]%Hl]; by simplify_eq. }
  unfold answered_out; split_and!.
  - intros id r Hid; rewrite He in Hid. by apply Hl in Hid as [? _].
  - intros ch msg (r & [= -> ->] & (id & Hid & HP)%Hr)%list_elem_of_fmap.
    exists id, r; split_and!; eauto. rewrite <- (wf_key _ Hs _ _ Hid). apply Ha.
  - intros id r Hid Hn. rewrite <- list_fmap_compose. apply list_elem_of_fmap.
    exists r; split; [done|]. apply Hr. exists id; split; [done|].
    destruct (decide (P (id, r))) as [|Hn']; [done|].
    assert (ps_requests (tm_pending_store m') !! id = Some r); [rewrite He; by apply Hl | congruence].
  - rewrite <- list_fmap_compose. by apply removed_where_senders.
Qed.

Lemma fulfill_answered (t : ActiveTunnel) (msg : Message) m :
  answered_out m (fulfill t msg m).1 (fulfill t msg m).2.
Proof.
  assert (forall m0 : TunnelManager, answered_out m0 m0 []) as Hid
    by (intros; by apply answered_out_none).
  destruct msg; try apply Hid. rewrite fulfill_eq; cbn [fst snd]. unfold answered_out; cbn.
  destruct (remove_requests (tm_pending_store m) id) as [-> _].
  destruct (ps_requests (tm_pending_store m) !! id) as [p|] eqn:E; split_and!.
  - by intros i r [_ ?]%lookup_delete_Some.
  - intros ch msg Hs%list_elem_of_singleton; injection Hs as -> ->.
    exists id, p; rewrite lookup_delete_eq; split_and!; try done. by do 3 eexists.
  - intros i r Hi Hn. apply lookup_delete_None in Hn as [->|Hn]; [|congruence].
    simplify_eq; cbn; set_solver.
  - cbn; apply NoDup_singleton.
  - by intros i r [_ ?]%lookup_delete_Some.
  - intros ch msg Hs; by apply not_elem_of_nil in Hs.
  - intros i r Hi Hn. apply lookup_delete_None in Hn as [->|Hn]; congruence.
  - constructor.
Qed.

Lemma close_answered (t : ActiveTunnel) m :
  manager_wf m -> answered_out m (close t m).1 (close t m).2.
Proof.
  intros Hm; rewrite close_eq.
  eapply (answered_out_where (of_tunnel (at_id t)) disconnected_response); try done.
  - apply mw_store, Hm.
  - intros r; by do 3 eexists.
Qed.

Lemma sweep_answered (now : Instant) m :
  manager_wf m -> answered_out m (sweep now m).1 (sweep now m).2.
Proof.
  intros Hm; rewrite sweep_eq. pose proof (sweep_tick_eq now (tm_pending_store m)) as Hs.
  pose proof (answered_out_where (overdue now) timed_out_response m
                (with_store m (sweep_tick now (tm_pending_store m)).1)
                (sweep_tick now (tm_pending_store m)).2) as Ha.
  destruct (remove_all _ _) as [s' removed]; destruct Hs as (Hsent & Hreq & _).
  apply Ha; try done.
  - apply mw_store, Hm.
  - intros r; by do 3 eexists.
Qed.

Lemma disconnect_answered (id : Uuid) m :
  manager_wf m ->
  answered_out m (disconnect_tunnel id m).1.2 (disconnect_tunnel id m).2.
Proof.
  intros Hm; rewrite disconnect_eq. destruct (find_by_id id m) as [[k t]|].
  - pose proof (close_answered t m Hm) as Ha. rewrite !close_eq in *. exact Ha.
  - by apply answered_out_none.
Qed.

(** * Every step keeps the invariant *)

Lemma answer_step (s : Sys) (m' : TunnelManager) (sent : list Delivery) :
  sys_wf s -> manager_wf m' -> answered_out (sy_manager s) m' sent ->
  sys_wf {| sy_manager := m'; sy_issued := sy_issued s; sy_log := sy_log s ++ sent |}.
Proof.
  intros Hs Hm' (Hsub & Hsent & Hout & Hnd); constructor; cbn; try done.
  - intros id r Hr; by apply (sw_waiting _ Hs), Hsub.
  - intros ch msg [Hl|Hn]%elem_of_app; [by apply (sw_log _ Hs)|].
    apply Hsent in Hn as (id & r & Hr & _ & -> & Ha). exists id; split; [|done].
    by apply (sw_waiting _ Hs).
  - rewrite fmap_app; apply NoDup_app; split_and!; [apply (sw_once _ Hs) | | done].
    intros ch Hl ((c & msg) & -> & Hn)%list_elem_of_fmap.
    apply Hsent in Hn as (id & r & Hr & _ & He & _); cbn in Hl; subst c.
    by apply (sw_open _ Hs _ _ Hr).
  - intros id r Hr. rewrite fmap_app, elem_of_app; intros [Hl|Hn].
    + by apply (sw_open _ Hs _ _ (Hsub _ _ Hr)).
    + apply list_elem_of_fmap in Hn as ((c & msg) & He & Hn); cbn in He.
      apply Hsent in Hn as (id' & r' & Hr' & Hgone & -> & _).
      assert (id = id'); [|congruence].
      by apply (wf_sender _ (mw_store _ (sw_manager _ Hs)) _ _ r r'); [apply Hsub | |].
  - intros ch id Hi; rewrite fmap_app, elem_of_app.
    destruct (sw_total _ Hs ch id Hi) as [Hl|(r & Hr & <-)]; [eauto|].
    destruct (ps_requests (tm_pending_store m') !! id) as [r'|] eqn:E.
    + right; exists r'; split; [done|]. apply Hsub in E; by simplify_eq.
    + left; right; eauto.
Qed.

(** A step that sends nothing and leaves the store alone. *)
Lemma silent_step (s : Sys) (m' : TunnelManager) :
  sys_wf s -> manager_wf m' -> tm_pending_store m' = tm_pending_store (sy_manager s) ->
  sys_wf {| sy_manager := m'; sy_issued := sy_issued s; sy_log := sy_log s |}.
Proof.
  intros Hs Hm' He; rewrite <- (app_nil_r (sy_log s)).
  by apply answer_step; [| | apply answered_out_none].
Qed.

Lemma request_step (s : Sys) tunnel_id request_id timeout now channel :
  sys_wf s -> waiting s !! request_id = None -> sy_issued s !! channel = None ->
  sys_wf
    (match register_pending_request tunnel_id request_id timeout now channel (sy_manager s) with
     | (Ok rx, m) => {| sy_manager := m; sy_issued := <[rx := request_id]> (sy_issued s);
                        sy_log := sy_log s |}
     | (Err _, m) => {| sy_manager := m; sy_issued := sy_issued s; sy_log := sy_log s |}
     end).
Proof.
  intros Hs Hnew Hch.
  assert (channel_free channel (tm_pending_store (sy_manager s))) as Hfree.
  { intros id r Hr He. rewrite <- He in Hch. by rewrite (sw_waiting _ Hs _ _ Hr) in Hch. }
  pose proof (register_pending_wf tunnel_id request_id timeout now channel _
                (sw_manager _ Hs) Hnew Hfree) as Hm.
  unfold register_pending_request in *. destruct (pending_checks _ _); [|by apply silent_step].
  cbn in Hm; constructor; cbn; try done.
  - intros id r [[<- <-]|[Hne Hr]]%lookup_insert_Some; cbn; [by rewrite lookup_insert_eq|].
    rewrite lookup_insert_ne; [by apply (sw_waiting _ Hs)|]. intros He.
    by apply (Hfree _ _ Hr).
  - intros ch msg Hl. apply (sw_log _ Hs) in Hl as (id & Hi & Ha). exists id; split; [|done].
    rewrite lookup_insert_ne; congruence.
  - apply (sw_once _ Hs).
  - intros id r [[<- <-]|[Hne Hr]]%lookup_insert_Some; cbn; [|by eapply (sw_open _ Hs)].
    intros ((c & msg) & -> & Hl)%list_elem_of_fmap. apply (sw_log _ Hs) in Hl as (? & Hi & _).
    cbn in Hch; congruence.
  - intros ch id [[<- <-]|[Hne Hi]]%lookup_insert_Some.
    + right; eexists; by rewrite lookup_insert_eq.
    + destruct (sw_total _ Hs ch id Hi) as [|(r & Hr & He)]; [by left|]. right; exists r.
      rewrite lookup_insert_ne; [done|]. congruence.
Qed.

Lemma sys_step_wf (s s' : Sys) : sys_wf s -> sys_step s s' -> sys_wf s'.
Proof.
  intros Hs Hstep; pose proof (sw_manager _ Hs) as Hm. destruct Hstep.
  - apply silent_step; [done | by apply register_wf|]. unfold register_tunnel.
    by destruct (register_checks _ _ _).
  - apply silent_step; [done | by apply delete_tunnel_wf | done].
  - by apply request_step.
  - apply answer_step; [done | by apply fulfill_wf | by apply fulfill_answered].
  - apply answer_step; [done | by apply close_wf | by apply close_answered].
  - apply answer_step; [done | by apply sweep_wf | by apply sweep_answered].
  - apply answer_step; [done | by apply disconnect_wf | by apply disconnect_answered].
  - apply silent_step; [done | by apply check_rate_limit_wf|]. unfold check_rate_limit.
    destruct (tm_cells _ !! _); [|done]. by destruct (gov_check _ _) as [? [?|]].
Qed.

(** ** The configuration never changes *)

Definition same_config (m m' : TunnelManager) : Prop :=
  tm_max_tunnels m' = tm_max_tunnels m /\
  tm_max_tunnels_per_key m' = tm_max_tunnels_per_key m /\
  tm_pending_config m' = tm_pending_config m.

Lemma sys_step_config (s s' : Sys) :
  sys_step s s' -> same_config (sy_manager s) (sy_manager s').
Proof.
  intros []; unfold same_config; cbn; try done.
  - unfold register_tunnel. by destruct (register_checks _ _ _).
  - unfold register_pending_request. by destruct (pending_checks _ _).
  - destruct msg; try done. by rewrite fulfill_eq.
  - by rewrite close_eq.
  - by rewrite sweep_eq.
  - rewrite disconnect_eq. destruct (find_by_id _ _) as [[k t]|]; [|done]. by rewrite !close_eq.
  - unfold check_rate_limit. destruct (tm_cells _ !! _); [|done].
    by destruct (gov_check _ _) as [? [?|]].
Qed.

Section Reach.
Context (domain : string) (limits : RequestLimits) (rate burst : N) (pc : PendingRequestConfig).
Context (max_t max_k : N).
Context (Hwidth : pc_max_global pc <= usize_max).

Lemma reach_wf (s : Sys) :
  serially_reachable domain limits rate burst pc max_t max_k s ->
  sys_wf s /\
  same_config (manager_new domain limits rate burst pc max_t max_k) (sy_manager s).
Proof using Hwidth.
  unfold serially_reachable.
  apply (invariant_holds _ _ (fun s => sys_wf s /\ same_config _ (sy_manager s))).
  - intros ? ->; split; [|done].
    constructor; cbn; try done; [by apply manager_new_wf | | constructor].
    intros ch msg Hl; by apply not_elem_of_nil in Hl.
  - intros s0 s1 [Hw (H1 & H2 & H3)] Hstep; split; [by eapply sys_step_wf|].
    apply sys_step_config in Hstep as (H4 & H5 & H6). unfold same_config.
    by rewrite H4, H5, H6.
Qed.
End Reach.

(** * What holds after every serial execution *)

(** C4: as long as no two operations overlap, whatever their sequence, the number
    of tunnels, the tunnels of each API key, the pending requests and the
    pending requests of each tunnel stay within the configured limits (0
    disables a tunnel limit), every tunnel is filed under its own subdomain, and
    no two tunnels share an id.  Operations that overlap can pass the limits:
    by how much is in [Interleaving] and [Registration]. *)
Theorem limits_hold domain limits rate burst pc max_t max_k (s : Sys) :
  pc_max_global pc <= usize_max ->
  serially_reachable domain limits rate burst pc max_t max_k s ->
  let m := sy_manager s in
  (0 < max_t -> active_tunnel_count m <= max_t) /\
  (0 < max_k -> forall key, count_tunnels_for_key (hash_api_key key) m <= max_k) /\
  pending_request_count m <= pc_max_global pc /\
  (forall t, mcount (of_tunnel t) (ps_requests (tm_pending_store m)) <= pc_max_per_tunnel pc) /\
  (forall k t, manager_get k m = Some t -> at_subdomain t = k) /\
  (forall k k' t t', manager_get k m = Some t -> manager_get k' m = Some t' ->
     at_id t = at_id t' -> k = k').
Proof.
  intros Hw Hr; apply reach_wf in Hr as [Hs (Ht & Hk & Hp)]; [|done]; cbn in Ht, Hk, Hp.
  pose proof (sw_manager _ Hs) as Hm; rewrite <- Ht, <- Hk, <- Hp; split_and!.
  - apply (mw_max _ Hm).
  - intros ? key; by apply (mw_per_key _ Hm).
  - apply (mw_global _ Hm).
  - intros t; rewrite <- (wf_count _ (mw_store _ Hm)). apply (mw_tunnel _ Hm).
  - apply (mw_key _ Hm).
  - apply (mw_ids _ Hm).
Qed.

(** C5: the counters of the pending store do not drift as long as no two operations
    overlap: in every serially reachable state the per-tunnel counter and the gauge are exactly the number of requests
    that wait, and a tunnel without requests has no counter left. *)
Theorem counters_exact domain limits rate burst pc max_t max_k (s : Sys) :
  pc_max_global pc <= usize_max ->
  serially_reachable domain limits rate burst pc max_t max_k s ->
  let st := tm_pending_store (sy_manager s) in
  (forall t, count_for_tunnel t st = mcount (of_tunnel t) (ps_requests st)) /\
  pm_pending_gauge (ps_metrics st) = pending_request_count (sy_manager s) /\
  (forall t, mcount (of_tunnel t) (ps_requests st) = 0 -> ps_per_tunnel st !! t = None).
Proof.
  intros Hw Hr; apply reach_wf in Hr as [Hs _]; [|done].
  pose proof (mw_store _ (sw_manager _ Hs)) as Hst; cbn; split_and!.
  - apply (wf_count _ Hst).
  - apply (wf_gauge _ Hst).
  - intros t Hz. rewrite <- (wf_count _ Hst) in Hz. unfold count_for_tunnel in Hz.
    pose proof (wf_no_zero _ Hst t).
    destruct (ps_per_tunnel _ !! t) as [c|]; cbn in *; [congruence | done].
Qed.

(** C1: every accepted request gets at most one answer, on its own channel, and
    the answer carries that request's id; a request without an answer is still
    in the store, so none is lost, whatever mix of responses, disconnections,
    sweeps and closings happens, one after the other; [Interleaving] has what is
    left of this when they overlap. *)
Theorem answered_at_most_once domain limits rate burst pc max_t max_k (s : Sys) :
  pc_max_global pc <= usize_max ->
  serially_reachable domain limits rate burst pc max_t max_k s ->
  NoDup (sy_log s).*1 /\
  (forall ch msg, (ch, msg) ∈ sy_log s -> (exists id status headers body,
     sy_issued s !! ch = Some id /\ msg = HttpResponse id status headers body)) /\
  (forall ch id, sy_issued s !! ch = Some id ->
     (ch ∈ (sy_log s).*1 /\ forall r, waiting s !! id = Some r -> pr_sender r <> ch) \/
     ((ch ∉ (sy_log s).*1) /\ exists r, waiting s !! id = Some r /\ pr_sender r = ch)).
Proof.
  intros Hw Hr; apply reach_wf in Hr as [Hs _]; [|done]. split_and!.
  - apply (sw_once _ Hs).
  - intros ch msg Hl. apply (sw_log _ Hs) in Hl as (id & Hi & st & hs & b & ->). by exists id, st, hs, b.
  - intros ch id Hi. destruct (sw_total _ Hs ch id Hi) as [Hl|(r & Hr & <-)].
    + left; split; [done|]. intros r Hr <-. by apply (sw_open _ Hs _ _ Hr).
    + right; split; [by eapply (sw_open _ Hs) | eauto].
Qed.
End System.
