(* ===== verification/TaskPool.v ===== *)
(** Tasks that share state and interleave.  A task makes its calls on the shared
    state one at a time; a worker thread runs a task from its start to its end,
    or to where it waits, so at most as many tasks are between two calls as
    there are workers.  The components instantiate the task, the state and the
    call of a task; here are the transition system, its schedules, and how far a
    limit that is checked in one call and used in a later one can be passed. *)

From S2P Require Import Prelude.

Local Open Scope N_scope.

Section Pool.
Context {Task Store Out : Type}.

Record Pool : Type := {
  pl_store : Store;
  pl_running : list Task;
  pl_log : list Out;
}.

(** One call of a task: what is left of it, the state, and what it put out. *)
Context (call : Task -> Store -> option Task * Store * list Out).
(** Which tasks may start. *)
Context (may_start : Pool -> Task -> bool).

Definition start_task (t : Task) (st : Pool) : Pool :=
  {| pl_store := pl_store st; pl_running := t :: pl_running st; pl_log := pl_log st |}.

Definition call_task (before : list Task) (t : Task) (after : list Task) (st : Pool) : Pool :=
  let '(t', s', out) := call t (pl_store st) in
  {| pl_store := s'; pl_running := before ++ option_list t' ++ after; pl_log := pl_log st ++ out |}.

Inductive pool_step (workers : nat) (st : Pool) : Pool -> Prop :=
| pool_start t :
    (length (pl_running st) < workers)%nat -> may_start st t = true ->
    pool_step workers st (start_task t st)
| pool_call before t after :
    pl_running st = before ++ t :: after -> pool_step workers st (call_task before t after st).

Definition pool_init (s : Store) : Pool := {| pl_store := s; pl_running := []; pl_log := [] |}.

Definition pool_reachable (workers : nat) (s : Store) : Pool -> Prop :=
  reachable (fun st => st = pool_init s) (pool_step workers).

(** A task that runs alone to its end. *)
Fixpoint run_task (fuel : nat) (t : Task) (s : Store) : option (Store * list Out) :=
  match fuel with
  | O => None
  | S fuel' =>
      match call t s with
      | (None, s', out) => Some (s', out)
      | (Some t', s', out) =>
          '(s'', rest) ← run_task fuel' t' s';
          Some (s'', out ++ rest)
      end
  end.

(** * Schedules *)

Inductive Choice : Type :=
| Start (t : Task)
| Run (position : nat).

Definition choose (workers : nat) (c : Choice) (st : Pool) : option Pool :=
  match c with
  | Start t =>
      if decide (length (pl_running st) < workers)%nat then
        if may_start st t then Some (start_task t st) else None
      else None
  | Run position =>
      t ← pl_running st !! position;
      Some (call_task (take position (pl_running st)) t (drop (S position) (pl_running st)) st)
  end.

Fixpoint schedule (workers : nat) (cs : list Choice) (st : Pool) : option Pool :=
  match cs with
  | [] => Some st
  | c :: cs' => choose workers c st ≫= schedule workers cs'
  end.

Lemma choose_step (workers : nat) (c : Choice) (st st' : Pool) :
  choose workers c st = Some st' -> pool_step workers st st'.
Proof.
  destruct c as [t|position]; cbn; intros Hc.
  - case_decide; [|done]. destruct (may_start st t) eqn:E; simplify_eq. by constructor.
  - destruct (pl_running st !! position) as [t|] eqn:E; simplify_eq/=. constructor.
    symmetry; by apply take_drop_middle.
Qed.

Lemma schedule_reachable (workers : nat) (s : Store) (cs : list Choice) (st st' : Pool) :
  pool_reachable workers s st -> schedule workers cs st = Some st' -> pool_reachable workers s st'.
Proof.
  revert st; induction cs as [|c cs IH]; cbn; intros st Hr Hs; [by injection Hs as <-|].
  destruct (choose workers c st) as [st1|] eqn:E; [|done]; cbn in Hs.
  apply (IH st1); [|done]. eapply reachable_step; [done | by eapply choose_step].
Qed.

Lemma scheduled (workers : nat) (s : Store) (cs : list Choice) (st : Pool) :
  schedule workers cs (pool_init s) = Some st -> pool_reachable workers s st.
Proof. apply schedule_reachable. by apply reachable_init. Qed.

(** * Limits checked early *)

(** [weight] says of a task whether it has passed the check and not yet used
    what it was admitted for. *)
Section Overshoot.
Context (weight : Task -> bool) (size : Store -> N) (limit : N) (workers : nat).

Fixpoint weights (l : list Task) : nat :=
  match l with
  | [] => 0
  | t :: l' => (if weight t then 1 else 0) + weights l'
  end.

Hypothesis starts_light : forall st t, may_start st t = true -> weight t = false.
(** A call adds at most what the task was admitted for, or admits it below the limit. *)
Hypothesis call_weight : forall t s,
  let '(t', s', _) := call t s in
  size s' + N.of_nat (weights (option_list t')) <= size s + N.of_nat (weights [t]) \/
  (size s < limit /\ size s' = size s).

Lemma weights_app (l k : list Task) : weights (l ++ k) = (weights l + weights k)%nat.
Proof. induction l as [|t l IH]; cbn; [done | lia]. Qed.

Lemma weights_le (l : list Task) : (weights l <= length l)%nat.
Proof. induction l as [|t l IH]; cbn; [done | destruct (weight t); lia]. Qed.

Definition within (st : Pool) : Prop :=
  (length (pl_running st) <= workers)%nat /\
  size (pl_store st) + N.of_nat (weights (pl_running st)) + 1 <= limit + N.of_nat workers.

Lemma pool_step_within (st st' : Pool) : within st -> pool_step workers st st' -> within st'.
Proof using starts_light call_weight.
  intros [Hlen Hb] [t Hw Hm|before t after Hrun]; unfold within.
  - cbn [start_task pl_running pl_store weights]. rewrite (starts_light st t Hm). cbn. split; [lia | done].
  - unfold call_task. pose proof (call_weight t (pl_store st)) as Hs.
    destruct (call t (pl_store st)) as [[t' s'] out]; cbn [pl_running pl_store].
    rewrite Hrun in Hlen, Hb. rewrite length_app in Hlen; cbn in Hlen.
    change (t :: after) with ([t] ++ after) in Hb. rewrite !weights_app in *.
    assert (length (option_list t') <= 1)%nat by (by destruct t'; cbn; lia).
    pose proof (weights_le before); pose proof (weights_le after).
    pose proof (weights_le (option_list t')).
    rewrite !length_app. split; [lia|]. destruct Hs as [Hs|[Hs1 Hs2]]; lia.
Qed.

Lemma pool_overshoot (s : Store) (st : Pool) :
  (1 <= workers)%nat -> size s <= limit -> pool_reachable workers s st ->
  size (pl_store st) <= limit + N.of_nat (workers - 1).
Proof using starts_light call_weight.
  intros Hw Hs Hr. assert (within st) as [_ Hb]; [|lia].
  revert st Hr. apply invariant_holds; [|apply pool_step_within].
  intros ? ->; split; cbn; lia.
Qed.
End Overshoot.
End Pool.

Arguments Pool : clear implicits.
Arguments Choice : clear implicits.
