(* ===== verification/Interleaving.v ===== *)
(** The pending store under interleaving.  The store is shared by every
    connection task, the HTTP handlers and the sweeper, and only single calls
    on its [DashMap]s and atomics are atomic.  Here
    [TunnelManager::register_pending_request] and [PendingStore::remove] are
    tasks that make those calls one at a time, in the order of the code, run by
    the pool of [TaskPool]. *)

From S2P Require Import Prelude RustStr Types Errors Utils Protocol PendingStore Externals.
From S2P Require Import TunnelManager TaskPool.

Local Open Scope N_scope.

(** * Tasks *)

(** Where a task stands.  A registration carries the request it will insert; a
    removal carries the id it looks for and the answer it will send. *)
Inductive Task : Type :=
| RegGlobal (p : PendingRequest)     (* before [pending_store.len()] *)
| RegTunnel (p : PendingRequest)     (* before [count_for_tunnel] *)
| RegInsert (p : PendingRequest)     (* before [requests.insert] *)
| RegGauge (tunnel_id : Uuid)        (* before [metrics.increment] *)
| RegCount (tunnel_id : Uuid)        (* before [per_tunnel.entry] *)
| RemTake (id : Uuid) (answer : Message)            (* before [requests.remove] *)
| RemGauge (p : PendingRequest) (answer : Message)  (* before [metrics.decrement] *)
| RemCount (p : PendingRequest) (answer : Message)  (* before [per_tunnel.get_mut] *)
| RemEntry (p : PendingRequest) (answer : Message)  (* before [per_tunnel.remove] *)
| RemSend (p : PendingRequest) (answer : Message).  (* before [sender.send] *)

Definition set_requests (s : PendingStore) (r : gmap Uuid PendingRequest) : PendingStore :=
  {| ps_requests := r; ps_per_tunnel := ps_per_tunnel s; ps_metrics := ps_metrics s |}.
Definition set_per_tunnel (s : PendingStore) (c : gmap Uuid N) : PendingStore :=
  {| ps_requests := ps_requests s; ps_per_tunnel := c; ps_metrics := ps_metrics s |}.
Definition set_metrics (s : PendingStore) (m : PendingRequestMetrics) : PendingStore :=
  {| ps_requests := ps_requests s; ps_per_tunnel := ps_per_tunnel s; ps_metrics := m |}.

(** One call of a task: what is left of it, the store, and what was sent. *)
Definition task_step (cfg : PendingRequestConfig) (t : Task) (s : PendingStore) :
    option Task * PendingStore * list Delivery :=
  match t with
  | RegGlobal p =>
      (if pc_max_global cfg <=? store_len s then None else Some (RegTunnel p), s, [])
  | RegTunnel p =>
      (if pc_max_per_tunnel cfg <=? count_for_tunnel (pr_tunnel_id p) s then None
       else Some (RegInsert p), s, [])
  | RegInsert p =>
      (Some (RegGauge (pr_tunnel_id p)),
       set_requests s (<[pr_request_id p := p]> (ps_requests s)), [])
  | RegGauge tunnel_id =>
      (Some (RegCount tunnel_id), set_metrics s (metrics_increment (ps_metrics s)), [])
  | RegCount tunnel_id =>
      (None,
       set_per_tunnel s
         match ps_per_tunnel s !! tunnel_id with
         | Some count => <[tunnel_id := wrapping_add usize_max count 1]> (ps_per_tunnel s)
         | None => <[tunnel_id := 1]> (ps_per_tunnel s)
         end, [])
  | RemTake id answer =>
      match ps_requests s !! id with
      | Some p => (Some (RemGauge p answer), set_requests s (delete id (ps_requests s)), [])
      | None => (None, s, [])
      end
  | RemGauge p answer =>
      (Some (RemCount p answer), set_metrics s (metrics_decrement (ps_metrics s)), [])
  | RemCount p answer =>
      match ps_per_tunnel s !! pr_tunnel_id p with
      | Some entry =>
          let entry' := if 0 <? entry then entry - 1 else entry in
          (Some (if entry' =? 0 then RemEntry p answer else RemSend p answer),
           set_per_tunnel s (<[pr_tunnel_id p := entry']> (ps_per_tunnel s)), [])
      | None => (Some (RemSend p answer), s, [])
      end
  | RemEntry p answer =>
      (Some (RemSend p answer),
       set_per_tunnel s (delete (pr_tunnel_id p) (ps_per_tunnel s)), [])
  | RemSend p answer => (None, s, [(pr_sender p, answer)])
  end.

(** A task that runs alone to its end; six calls are the most a task makes. *)
Definition run_alone (fuel : nat) (cfg : PendingRequestConfig) :
    Task -> PendingStore -> option (PendingStore * list Delivery) :=
  run_task (task_step cfg) fuel.

(** * The system *)

Abbreviation Tasks := (Pool Task PendingStore Delivery).

(** The channel a task holds and has not yet handed over. *)
Definition task_channel (t : Task) : list Oneshot :=
  match t with
  | RegGlobal p | RegTunnel p | RegInsert p => [pr_sender p]
  | RemGauge p _ | RemCount p _ | RemEntry p _ | RemSend p _ => [pr_sender p]
  | RegGauge _ | RegCount _ | RemTake _ _ => []
  end.

Definition stored_channels (s : PendingStore) : list Oneshot :=
  (fun kv => pr_sender kv.2) <$> map_to_list (ps_requests s).

(** Every channel that is held by a task, stored, or used. *)
Definition channels (st : Tasks) : list Oneshot :=
  (pl_running st ≫= task_channel) ++ stored_channels (pl_store st) ++ (pl_log st).*1.

(** A registration starts with a fresh channel, a removal with an id and an
    answer.  Neither operation awaits, so a task that runs occupies a worker
    thread until it ends. *)
Definition task_may_start (st : Tasks) (t : Task) : bool :=
  match t with
  | RegGlobal p => bool_decide (pr_sender p ∉ channels st)
  | RemTake _ _ => true
  | _ => false
  end.

Definition tasks_step (workers : nat) (cfg : PendingRequestConfig) : Tasks -> Tasks -> Prop :=
  pool_step (task_step cfg) task_may_start workers.

Definition tasks_init : Tasks := pool_init store_new.

Definition tasks_reachable (workers : nat) (cfg : PendingRequestConfig) : Tasks -> Prop :=
  pool_reachable (task_step cfg) task_may_start workers store_new.

(** * A task that is not interrupted is the operation *)

Section Alone.
Context `{G : Governor}.

(** run without interleaving, the registration task is
    [register_pending_request] and the removal task is [PendingStore::remove]
    followed by the send, on every store: the calls were split faithfully, and
    six calls are enough. *)
Theorem alone_is_atomic (m : TunnelManager) (tunnel_id request_id : Uuid)
    (timeout : option Duration) (now : Instant) (channel : Oneshot) (id : Uuid)
    (answer : Message) :
  run_alone 6 (tm_pending_config m)
    (RegGlobal (new_pending tunnel_id request_id timeout now channel m)) (tm_pending_store m) =
    Some (tm_pending_store
            (register_pending_request tunnel_id request_id timeout now channel m).2, []) /\
  exists s',
    run_alone 6 (tm_pending_config m) (RemTake id answer) (tm_pending_store m) =
      Some (s', match (store_remove id (tm_pending_store m)).2 with
                | Some p => [(pr_sender p, answer)]
                | None => []
                end) /\
    s' = (store_remove id (tm_pending_store m)).1.
Proof.
  split.
  - unfold register_pending_request, pending_checks; cbn -[wrapping_add].
    destruct (pc_max_global _ <=? _); [done|]; cbn -[wrapping_add].
    destruct (pc_max_per_tunnel _ <=? _); [done|]. reflexivity.
  - eexists; split; [|done]. unfold store_remove. cbn -[N.sub].
    destruct (ps_requests (tm_pending_store m) !! id) as [p|] eqn:E; [|done]; cbn -[N.sub].
    unfold release_count. destruct (ps_per_tunnel (tm_pending_store m) !! pr_tunnel_id p)
      as [c|] eqn:Ec; [|done]; cbn -[N.sub].
    destruct ((if 0 <? c then c - 1 else c) =? 0); [|done]; cbn.
    by rewrite delete_insert_eq.
Qed.
End Alone.

(** * Channels are handed over, never copied *)

Lemma stored_insert_fresh (s : PendingStore) (p : PendingRequest) :
  ps_requests s !! pr_request_id p = None ->
  stored_channels (set_requests s (<[pr_request_id p := p]> (ps_requests s))) ≡ₚ
    pr_sender p :: stored_channels s.
Proof. intros Hn; unfold stored_channels; cbn. by rewrite map_to_list_insert. Qed.

Lemma stored_delete (s : PendingStore) (id : Uuid) (p : PendingRequest) :
  ps_requests s !! id = Some p ->
  stored_channels s ≡ₚ
    pr_sender p :: stored_channels (set_requests s (delete id (ps_requests s))).
Proof.
  intros Hp; unfold stored_channels; cbn.
  by rewrite <- (map_to_list_delete (ps_requests s) id p Hp).
Qed.

(** Inserting drops the channel of a request that had the same id. *)
Lemma stored_insert (s : PendingStore) (p : PendingRequest) :
  stored_channels (set_requests s (<[pr_request_id p := p]> (ps_requests s))) ⊆+
    pr_sender p :: stored_channels s.
Proof.
  destruct (ps_requests s !! pr_request_id p) as [q|] eqn:E.
  - rewrite (stored_delete s _ q E), <- insert_delete_eq.
    etransitivity; [|by apply submseteq_skip, submseteq_cons].
    change (<[pr_request_id p := p]> (delete (pr_request_id p) (ps_requests s))) with
      (<[pr_request_id p := p]>
         (ps_requests (set_requests s (delete (pr_request_id p) (ps_requests s))))).
    erewrite <- stored_insert_fresh; [done|]. cbn. by rewrite lookup_delete_eq.
  - by rewrite stored_insert_fresh.
Qed.

Lemma NoDup_submultiset {A : Type} (l k : list A) : l ⊆+ k -> NoDup k -> NoDup l.
Proof. intros [r ->]%submseteq_Permutation. by intros [? _]%NoDup_app. Qed.

(** A call moves channels between the task, the store and the log. *)
Lemma task_step_channels (cfg : PendingRequestConfig) (t : Task) (s : PendingStore) :
  let '(t', s', sent) := task_step cfg t s in
  (option_list t' ≫= task_channel) ++ stored_channels s' ++ sent.*1 ⊆+
    task_channel t ++ stored_channels s.
Proof.
  destruct t; cbn -[N.sub N.eqb N.ltb].
  - destruct (_ <=? _); cbn; rewrite ?app_nil_r; [by apply submseteq_cons | done].
  - destruct (_ <=? _); cbn; rewrite ?app_nil_r; [by apply submseteq_cons | done].
  - rewrite app_nil_r; apply stored_insert.
  - by rewrite app_nil_r.
  - by rewrite app_nil_r.
  - destruct (ps_requests s !! id) as [p|] eqn:E; cbn; rewrite app_nil_r; [|done].
    by rewrite (stored_delete s id p E).
  - by rewrite app_nil_r.
  - destruct (ps_per_tunnel s !! pr_tunnel_id p) as [c|]; cbn -[N.sub N.eqb N.ltb]; [|by rewrite app_nil_r].
    destruct (_ =? _); cbn; by rewrite app_nil_r.
  - by rewrite app_nil_r.
  - by rewrite Permutation_app_comm.
Qed.

Lemma tasks_step_channels (workers : nat) (cfg : PendingRequestConfig) (st st' : Tasks) :
  NoDup (channels st) -> tasks_step workers cfg st st' -> NoDup (channels st').
Proof.
  intros Hnd [t Hw Hm|before t after Hrun]; unfold channels in *.
  - destruct t; try done. apply bool_decide_eq_true in Hm. by apply NoDup_cons.
  - unfold call_task. pose proof (task_step_channels cfg t (pl_store st)) as Hc.
    destruct (task_step cfg t (pl_store st)) as [[t' s'] sent]; cbn.
    rewrite Hrun in Hnd. revert Hnd. apply NoDup_submultiset.
    rewrite !bind_app, bind_cons, fmap_app.
    set (b := before ≫= task_channel) in *. set (a := after ≫= task_channel) in *.
    set (l := (pl_log st).*1) in *.
    assert ((option_list t' ≫= task_channel) ++ stored_channels s' ++ sent.*1 ++ (b ++ a ++ l)
            ⊆+ (task_channel t ++ stored_channels (pl_store st)) ++ (b ++ a ++ l)) as Hx.
    { rewrite !app_assoc. rewrite !app_assoc in Hc. do 3 apply submseteq_skips_r. done. }
    etransitivity; [|etransitivity; [exact Hx|]]; apply Permutation_submseteq; solve_Permutation.
Qed.

(** C2: however the tasks interleave, no channel is answered twice, and a
    request that still waits has not been answered: a request that a response,
    a disconnection and the sweeper all reach for has one winner. *)
Theorem interleaved_at_most_once (workers : nat) (cfg : PendingRequestConfig) (st : Tasks) :
  tasks_reachable workers cfg st ->
  NoDup (pl_log st).*1 /\
  (forall id r, ps_requests (pl_store st) !! id = Some r -> ~ pr_sender r ∈ (pl_log st).*1) /\
  (forall t ch, t ∈ pl_running st -> ch ∈ task_channel t -> ~ ch ∈ (pl_log st).*1).
Proof.
  intros Hr. assert (NoDup (channels st)) as Hnd.
  { revert st Hr. apply invariant_holds; [by intros ? ->; constructor|].
    intros s s' Hs Hstep. by eapply tasks_step_channels. }
  unfold channels in Hnd. rewrite !NoDup_app in Hnd.
  destruct Hnd as (_ & Hrun & _ & Hstore & Hlog). split_and!; [done | |].
  - intros id r Hid. apply Hstore. unfold stored_channels. apply list_elem_of_fmap.
    exists (id, r); split; [done | by apply elem_of_map_to_list].
  - intros t ch Ht Hch Hl. apply (Hrun ch); [apply list_elem_of_bind; eauto|].
    apply elem_of_app; by right.
Qed.

(** * How far the global limit can be overshot *)

(** A registration that has passed the check of the global limit. *)
Definition admitted (t : Task) : bool :=
  match t with RegTunnel _ | RegInsert _ => true | _ => false end.

Lemma msize_insert_le {A K : Type} `{Countable K} (m : gmap K A) (k : K) (v : A) :
  msize (<[k := v]> m) <= msize m + 1.
Proof. unfold msize. rewrite map_size_insert. destruct (m !! k); cbn; lia. Qed.

(** A call adds at most the request it was admitted for. *)
Lemma task_step_len (cfg : PendingRequestConfig) (t : Task) (s : PendingStore) :
  let '(t', s', _) := task_step cfg t s in
  store_len s' + N.of_nat (weights admitted (option_list t')) <=
    store_len s + N.of_nat (weights admitted [t]) \/
  (store_len s < pc_max_global cfg /\ store_len s' = store_len s).
Proof.
  destruct t; cbn -[N.sub N.eqb N.ltb msize]; try (left; reflexivity).
  - destruct (N.leb_spec (pc_max_global cfg) (store_len s)); [left; cbn; lia | by right].
  - left. destruct (_ <=? _); cbn; lia.
  - left. unfold store_len; cbn -[msize]. pose proof (msize_insert_le (ps_requests s) (pr_request_id p) p).
    lia.
  - destruct (ps_requests s !! id); left; [|reflexivity]. unfold store_len; cbn -[msize].
    pose proof (msize_delete_le (ps_requests s) id). lia.
  - destruct (ps_per_tunnel s !! _); left; [|reflexivity]. by destruct (_ =? 0).
Qed.

(** C31: the checks and the insertion of [register_pending_request] are not one
    atomic action, yet with [workers] worker threads the pending requests never
    exceed the global limit by more than [workers - 1]. *)
Theorem global_limit_overshoot (workers : nat) (cfg : PendingRequestConfig) (st : Tasks) :
  (1 <= workers)%nat -> tasks_reachable workers cfg st ->
  store_len (pl_store st) <= pc_max_global cfg + N.of_nat (workers - 1).
Proof.
  intros Hw. apply (pool_overshoot (task_step cfg) task_may_start admitted); [|..|done|].
  - by intros ? [].
  - intros t s. apply task_step_len.
  - change (store_len store_new) with 0. lia.
Qed.

(** * What interleaving costs *)

(** Two requests of tunnel 1, and the limits of the races below. *)
Definition race_request (n : N) : PendingRequest :=
  {| pr_sender := n; pr_created_at := 0; pr_deadline := 0; pr_request_id := n; pr_tunnel_id := 1 |}.
Definition race_config (limit : N) : PendingRequestConfig :=
  {| pc_max_per_tunnel := 1; pc_max_global := limit; pc_sweep_interval := 1;
     pc_default_timeout := 0 |}.

Definition race (workers : nat) (cfg : PendingRequestConfig) (cs : list (Choice Task)) :
    option Tasks :=
  schedule (task_step cfg) task_may_start workers cs tasks_init.

(** A request is inserted, drained by a disconnection and only then counted. *)
Definition drift_schedule : list (Choice Task) :=
  [Start (RegGlobal (race_request 7)); Run 0; Run 0; Run 0;
   Start (RemTake 7 (timed_out_response (race_request 7))); Run 0; Run 0; Run 0; Run 0; Run 0; Run 0].

(** A counter that reached zero is removed after another request was counted. *)
Definition lost_count_schedule : list (Choice Task) :=
  [Start (RegGlobal (race_request 7)); Run 0; Run 0; Run 0; Run 0; Run 0;
   Start (RemTake 7 (timed_out_response (race_request 7))); Run 0; Run 0; Run 0;
   Start (RegGlobal (race_request 8)); Run 0; Run 0; Run 0; Run 0; Run 0; Run 0; Run 0].

Definition overshoot_schedule : list (Choice Task) :=
  [Start (RegGlobal (race_request 7)); Run 0; Run 0; Start (RegGlobal (race_request 8)); Run 0; Run 0;
   Run 0; Run 0; Run 0; Run 0; Run 0; Run 0].

(** C32: with two workers the interleavings do what the sequential code never
    does: a drained request can leave a counter of one behind although nothing
    waits (the tunnel is then refused for good when its limit is one); a
    counter can be lost while a request waits, so that the tunnel's limit no
    longer holds; and the global limit of one can be passed by one. *)
Theorem interleaving_anomalies :
  (exists st, tasks_reachable 2 (race_config 10) st /\ pl_running st = [] /\
     ps_requests (pl_store st) = ∅ /\ count_for_tunnel 1 (pl_store st) = 1 /\
     pm_pending_gauge (ps_metrics (pl_store st)) = 1 /\
     forall p, pr_tunnel_id p = 1 ->
       run_alone 6 (race_config 10) (RegGlobal p) (pl_store st) = Some (pl_store st, [])) /\
  (exists st, tasks_reachable 2 (race_config 10) st /\ pl_running st = [] /\
     ps_requests (pl_store st) !! 8 = Some (race_request 8) /\
     count_for_tunnel 1 (pl_store st) = 0) /\
  (exists st, tasks_reachable 2 (race_config 1) st /\ store_len (pl_store st) = 2).
Proof.
  assert (forall n cfg cs st, race n cfg cs = Some st ->
            tasks_reachable n cfg st) as Hrun.
  { intros n cfg cs st; apply scheduled. }
  split_and!.
  - destruct (race 2 (race_config 10) drift_schedule) as [st|] eqn:E;
      [|by vm_compute in E].
    exists st; split; [by eapply Hrun|]. vm_compute in E; injection E as <-.
    split_and!; try done. intros [? ? ? ? ?] Hp; cbn in Hp; subst. by vm_compute.
  - destruct (race 2 (race_config 10) lost_count_schedule) as [st|] eqn:E;
      [|by vm_compute in E].
    exists st; split; [by eapply Hrun|]. vm_compute in E; injection E as <-. done.
  - destruct (race 2 (race_config 1) overshoot_schedule) as [st|] eqn:E;
      [|by vm_compute in E].
    exists st; split; [by eapply Hrun|]. vm_compute in E; injection E as <-. done.
Qed.
