(* ===== verification/Registration.v ===== *)
(** Registration under interleaving.  Sessions of different clients run on
    different worker threads, and [TunnelManager::register_tunnel] reads the map
    of tunnels three times before it inserts.  Here its calls are the calls of a
    task of [TaskPool], beside the removal at the end of a session. *)

From S2P Require Import Prelude RustStr Types Errors Utils Protocol PendingStore Externals.
From S2P Require Import TunnelManager ManagerSpec TaskPool.

Local Open Scope N_scope.

(** A registration carries the tunnel it will insert. *)
Inductive RegTask : Type :=
| RtGlobal (t : ActiveTunnel)      (* before [tunnels.len()] *)
| RtKey (t : ActiveTunnel)         (* before [count_tunnels_for_key] *)
| RtFree (t : ActiveTunnel)        (* before [contains_key] *)
| RtInsert (t : ActiveTunnel)      (* before [tunnels.insert] *)
| RtRemove (subdomain : string).   (* before [tunnels.remove] *)

Record RegLimits : Type := {
  rg_max_tunnels : N;
  rg_max_tunnels_per_key : N;
}.

Abbreviation Tunnels := (gmap string ActiveTunnel).

(** One call; the result of a registration is put out at its end. *)
Definition reg_call (l : RegLimits) (t : RegTask) (s : Tunnels) :
    option RegTask * Tunnels * list (ActiveTunnel * result unit) :=
  match t with
  | RtGlobal t =>
      if (0 <? rg_max_tunnels l) && (rg_max_tunnels l <=? msize s) then
        (None, s, [(t, Err (server_full (msize s) (rg_max_tunnels l)))])
      else (Some (RtKey t), s, [])
  | RtKey t =>
      match at_api_key_hash t with
      | Some hash =>
          let per_key := mcount (fun kv => at_api_key_hash kv.2 = Some hash) s in
          if (0 <? rg_max_tunnels_per_key l) && (rg_max_tunnels_per_key l <=? per_key) then
            (None, s, [(t, Err (key_full per_key (rg_max_tunnels_per_key l)))])
          else (Some (RtFree t), s, [])
      | None => (Some (RtFree t), s, [])
      end
  | RtFree t =>
      match s !! at_subdomain t with
      | Some _ => (None, s, [(t, Err (SubdomainTaken (at_subdomain t)))])
      | None => (Some (RtInsert t), s, [])
      end
  | RtInsert t => (None, <[at_subdomain t := t]> s, [(t, Ok tt)])
  | RtRemove subdomain => (None, delete subdomain s, [])
  end.

Abbreviation Sessions := (Pool RegTask Tunnels (ActiveTunnel * result unit)).

Definition reg_may_start (st : Sessions) (t : RegTask) : bool :=
  match t with RtGlobal _ | RtRemove _ => true | _ => false end.

Definition reg_reachable (workers : nat) (l : RegLimits) : Sessions -> Prop :=
  pool_reachable (reg_call l) reg_may_start workers ∅.

Definition reg_run (workers : nat) (l : RegLimits) (cs : list (Choice RegTask)) : option Sessions :=
  schedule (reg_call l) reg_may_start workers cs (pool_init ∅).

(** Past the check of the global limit and not yet inserted. *)
Definition reg_admitted (t : RegTask) : bool :=
  match t with RtKey _ | RtFree _ | RtInsert _ => true | _ => false end.

Section Alone.
Context `{G : Governor, H : Sha256}.

Definition limits_of (m : TunnelManager) : RegLimits :=
  {| rg_max_tunnels := tm_max_tunnels m; rg_max_tunnels_per_key := tm_max_tunnels_per_key m |}.

Lemma registration_alone (id : Uuid) (subdomain : string) (p : TunnelProtocol) (sender : Mpsc)
    (key : option string) (m : TunnelManager) :
  let t := registered_handle id subdomain p sender key m in
  let '(r, m') := register_tunnel id subdomain p sender key m in
  run_task (reg_call (limits_of m)) 4 (RtGlobal t) (tm_tunnels m) =
    Some (tm_tunnels m', [(t, (fun _ => tt) <$> r)]).
Proof.
  cbn zeta. unfold register_tunnel, register_checks, register_insert, registered_handle.
  cbn -[msize mcount N.ltb N.leb].
  destruct ((0 <? tm_max_tunnels m) && (tm_max_tunnels m <=? msize (tm_tunnels m)));
    [done|]. cbn -[msize mcount N.ltb N.leb].
  destruct key as [k|]; cbn -[msize mcount N.ltb N.leb].
  - unfold count_tunnels_for_key. destruct (0 <? tm_max_tunnels_per_key m); cbn -[msize mcount N.ltb N.leb].
    + destruct (tm_max_tunnels_per_key m <=? _); [done|]. cbn -[msize mcount N.ltb N.leb].
      by destruct (tm_tunnels m !! subdomain).
    + by destruct (tm_tunnels m !! subdomain).
  - destruct (0 <? tm_max_tunnels_per_key m); cbn -[lookup]; by destruct (tm_tunnels m !! subdomain).
Qed.
End Alone.

Lemma reg_call_size (l : RegLimits) (t : RegTask) (s : Tunnels) :
  0 < rg_max_tunnels l ->
  let '(t', s', _) := reg_call l t s in
  msize s' + N.of_nat (weights reg_admitted (option_list t')) <=
    msize s + N.of_nat (weights reg_admitted [t]) \/
  (msize s < rg_max_tunnels l /\ msize s' = msize s).
Proof.
  intros Hpos. destruct t; cbn -[msize mcount N.ltb N.leb].
  - destruct (N.ltb_spec 0 (rg_max_tunnels l)); [|lia]. cbn [andb].
    destruct (N.leb_spec (rg_max_tunnels l) (msize s)); cbn -[msize]; [left; lia | by right].
  - destruct (at_api_key_hash t); [|left; cbn -[msize]; lia].
    destruct (_ && _); left; cbn -[msize]; lia.
  - destruct (s !! at_subdomain t); left; cbn -[msize]; lia.
  - left. unfold msize. rewrite map_size_insert. destruct (s !! at_subdomain t); cbn; lia.
  - left. pose proof (msize_delete_le s subdomain). lia.
Qed.

(** C33: a registration that is not interrupted is [register_tunnel], with its
    result and its effect on the map, so its calls were taken apart
    faithfully; interleaved, with [workers] worker threads, the tunnels exceed
    the global limit by at most [workers - 1]. *)
Theorem registration_overshoot `{G : Governor, H : Sha256} (workers : nat) (m : TunnelManager)
    (st : Sessions) :
  0 < tm_max_tunnels m -> (1 <= workers)%nat ->
  reg_reachable workers (limits_of m) st ->
  (forall id subdomain p sender key,
     let t := registered_handle id subdomain p sender key m in
     let '(r, m') := register_tunnel id subdomain p sender key m in
     run_task (reg_call (limits_of m)) 4 (RtGlobal t) (tm_tunnels m) =
       Some (tm_tunnels m', [(t, (fun _ => tt) <$> r)])) /\
  msize (pl_store st) <= tm_max_tunnels m + N.of_nat (workers - 1).
Proof.
  intros Hpos Hw Hr. split; [intros; apply registration_alone|].
  revert Hr. apply (pool_overshoot (reg_call (limits_of m)) reg_may_start reg_admitted); [|..|done|].
  - by intros ? [].
  - intros t s. by apply reg_call_size.
  - change (msize ∅) with 0. lia.
Qed.

(** * Two clients, one name *)

Definition race_tunnel (id : Uuid) (subdomain : string) : ActiveTunnel :=
  {| at_id := id; at_subdomain := subdomain; at_protocol := Http; at_sender := id;
     at_rate_limit_per_minute := 60; at_rate_limit_burst := 5; at_api_key_hash := Some "key" |}.

Definition two_registrations (a b : ActiveTunnel) : list (Choice RegTask) :=
  [Start (RtGlobal a); Start (RtGlobal b); Run 0; Run 1; Run 0; Run 1; Run 0; Run 1; Run 1; Run 0].

Definition unlimited : RegLimits := {| rg_max_tunnels := 0; rg_max_tunnels_per_key := 0 |}.

(** Where a schedule of two workers ends. *)
Definition race_end (l : RegLimits) (cs : list (Choice RegTask)) : Sessions :=
  default (pool_init ∅) (reg_run 2 l cs).

Lemma race_end_reachable (l : RegLimits) (cs : list (Choice RegTask)) :
  match reg_run 2 l cs with Some _ => true | None => false end = true -> reg_reachable 2 l (race_end l cs).
Proof.
  unfold race_end. destruct (reg_run 2 l cs) as [st|] eqn:E; [intros _|done].
  by eapply scheduled.
Qed.

(** C34: two clients that ask for the same name at once can both be told that they
    have it: the second insertion replaces the first, whose client then serves a
    name that leads to somebody else; when the first session ends it removes
    the name of the second, whose client is still connected.  And with a limit
    of one, globally or per key, two tunnels of one key can be up. *)
Theorem names_can_be_given_twice :
  let a := race_tunnel 1 "demo" in
  let b := race_tunnel 2 "demo" in
  (exists st, reg_reachable 2 unlimited st /\ pl_running st = [] /\
     (a, Ok tt) ∈ pl_log st /\ (b, Ok tt) ∈ pl_log st /\ pl_store st = {[ "demo" := b ]}) /\
  (exists st, reg_reachable 2 unlimited st /\ (b, Ok tt) ∈ pl_log st /\ pl_store st = ∅ /\
     exists before, reg_run 2 unlimited before = Some st /\ Start (RtRemove "demo") ∈ before) /\
  (exists st, reg_reachable 2 {| rg_max_tunnels := 1; rg_max_tunnels_per_key := 1 |} st /\
     pl_running st = [] /\ msize (pl_store st) = 2 /\
     mcount (fun kv => at_api_key_hash kv.2 = Some "key") (pl_store st) = 2).
Proof.
  cbn zeta. split_and!.
  - exists (race_end unlimited (two_registrations (race_tunnel 1 "demo") (race_tunnel 2 "demo"))).
    split; [by apply race_end_reachable; vm_compute|].
    split; [by vm_compute|]. split; [|split].
    + apply (list_elem_of_lookup_2 _ 0). by vm_compute.
    + apply (list_elem_of_lookup_2 _ 1). by vm_compute.
    + by vm_compute.
  - set (cs := two_registrations (race_tunnel 1 "demo") (race_tunnel 2 "demo")
                 ++ [Start (RtRemove "demo"); Run 0]).
    exists (race_end unlimited cs).
    split; [by apply race_end_reachable; vm_compute|]. split; [|split].
    + apply (list_elem_of_lookup_2 _ 1). by vm_compute.
    + by vm_compute.
    + exists cs; split; [by vm_compute | apply (list_elem_of_lookup_2 _ 10); by vm_compute].
  - exists (race_end {| rg_max_tunnels := 1; rg_max_tunnels_per_key := 1 |}
              (two_registrations (race_tunnel 1 "one") (race_tunnel 2 "two"))).
    split; [by apply race_end_reachable; vm_compute|].
    by split_and!; vm_compute.
Qed.
