(* ===== verification/WebSocket.v ===== *)
(** Websocket frames, as both peers see them ([tungstenite] on the client and
    [axum] on the server). *)

From S2P Require Import Prelude Errors.

(** A message; a close frame with the reason it carries. *)
Inductive WsMessage : Type :=
| WsText (text : string)
| WsBinary (data : Bytes)
| WsPing (payload : Bytes)
| WsPong (payload : Bytes)
| WsClose (reason : option string)
| WsFrame.

(** What reading a websocket yields; a reader is the list of it, whose end is
    the end of the stream. *)
Inductive Incoming : Type :=
| InFrame (frame : WsMessage)
| InError (text : string).

(** The network error both sides build from a text. *)
Definition network (text : string) : ExposeError := Network (other_io_error text).
