(* ===== verification/Http.v ===== *)
(** HTTP as the proxies see it: requests and responses of the [http] and
    [hyper] crates as data, the conversions of those crates as a class, and the
    bounded channel on which frames leave for a peer. *)

From S2P Require Import Prelude RustStr Errors Protocol.

Local Open Scope N_scope.

(** * Requests and responses *)

(** What [body.frame().await] yields, and the body's size hint. *)
Inductive BodyFrame : Type :=
| Data (data : Bytes)
| Trailers
| BodyError (text : string).

Record Body : Type := {
  body_upper : option N;
  body_frames : list BodyFrame;
}.

(** [http::request::Parts]: header names with the raw bytes of their values. *)
Record Parts : Type := {
  pt_method : string;
  pt_path_and_query : option string;
  pt_path : string;
  pt_headers : list (string * string);
}.

Record Response : Type := {
  rs_status : N;
  rs_headers : list (string * string);
  rs_body : Bytes;
}.

(** Conversions of the [http] crate; each fails on some inputs. *)
Class HttpLib : Type := {
  header_value_to_str : string -> option string;
  header_name_parse : string -> option string;
  header_value_parse : string -> option string;
  status_from_u16 : N -> option N;
}.

(** What the [http] crate documents: a value that reads as text parses back to
    itself, and every status of three digits is valid. *)
Class HttpLaws (L : HttpLib) : Prop := {
  text_parses v s : header_value_to_str v = Some s -> header_value_parse s = Some v;
  status_valid n : 100 <= n < 1000 -> status_from_u16 n = Some n;
}.

(** [HeaderMap::get]: the first value of a header. *)
Definition header_get (name : string) (headers : list (string * string)) : option string :=
  snd <$> head (filter (fun h => h.1 = name) headers).

(** The data of a body whose frames are all readable. *)
Fixpoint frames_data (frames : list BodyFrame) : option Bytes :=
  match frames with
  | [] => Some []
  | Data d :: rest => rest' ← frames_data rest; Some (d ++ rest')
  | Trailers :: rest => frames_data rest
  | BodyError _ :: _ => None
  end.

Definition body_data (b : Body) : option Bytes := frames_data (body_frames b).

(** * The outgoing channel *)

(** The messages queued so far, and after how many of them the writer at the
    other end is gone, if ever. *)
Record Outbox : Type := {
  ob_sent : list Message;
  ob_capacity : option nat;
}.

Definition outbox_open (ob : Outbox) : bool :=
  match ob_capacity ob with
  | None => true
  | Some n => (length (ob_sent ob) <? n)%nat
  end.

Definition outbox_push (m : Message) (ob : Outbox) : Outbox :=
  {| ob_sent := ob_sent ob ++ [m]; ob_capacity := ob_capacity ob |}.

(** * Splitting a slice: [slice::chunks] for a positive size *)

Fixpoint chunks_go (fuel : nat) (size : nat) (data : Bytes) : list Bytes :=
  match fuel, data with
  | _, [] => []
  | O, _ => []
  | S fuel', _ => take size data :: chunks_go fuel' size (drop size data)
  end.

Definition chunks (size : N) (data : Bytes) : list Bytes :=
  chunks_go (length data) (N.to_nat size) data.

Section Chunks.
Context (size : nat) (Hsize : (0 < size)%nat).

Lemma chunks_go_concat (fuel : nat) (data : Bytes) :
  (length data <= fuel)%nat -> concat (chunks_go fuel size data) = data.
Proof using Hsize.
  revert data; induction fuel as [|fuel IH]; intros [|b data] Hl; cbn in *; try done; [lia|].
  rewrite <- (take_drop size (b :: data)) at 3. rewrite IH; [done|].
  rewrite length_drop; cbn; lia.
Qed.

Lemma chunks_go_bound (fuel : nat) (data : Bytes) :
  Forall (fun c => (0 < length c <= size)%nat) (chunks_go fuel size data).
Proof using Hsize.
  revert data; induction fuel as [|fuel IH]; intros [|b data]; cbn; try constructor; [|apply IH].
  rewrite length_take; cbn; lia.
Qed.
End Chunks.

Lemma chunks_concat (size : N) (data : Bytes) : 0 < size -> concat (chunks size data) = data.
Proof. intros Hs; apply chunks_go_concat; lia. Qed.

Lemma chunks_bound (size : N) (data : Bytes) :
  0 < size -> Forall (fun c : Bytes => 0 < len c <= size) (chunks size data).
Proof.
  intros Hs. eapply Forall_impl; [apply (chunks_go_bound (N.to_nat size)); lia|].
  intros c; unfold len; cbn; lia.
Qed.

Lemma len_app {A : Type} (a b : list A) : len (a ++ b) = len a + len b.
Proof. unfold len; rewrite length_app; lia. Qed.

(** A library for concrete runs: every value is readable and valid. *)
Module PlainHttp.
#[export] Instance plain_http : HttpLib := {|
  header_value_to_str := Some;
  header_name_parse := Some;
  header_value_parse := Some;
  status_from_u16 n := if (100 <=? n) && (n <? 1000) then Some n else None;
|}.

#[export] Instance plain_http_laws : HttpLaws plain_http.
Proof.
  constructor; cbn; [by intros v s [= ->]|]. intros n Hn.
  destruct (N.leb_spec 100 n), (N.ltb_spec n 1000); cbn; (done || lia).
Qed.
End PlainHttp.

(** * Headers between the two sides *)

Section Headers.
Context `{L : HttpLib, HL : !HttpLaws L}.

(** Headers whose value is text; the others are not forwarded. *)
Definition text_headers (headers : list (string * string)) : list (string * string) :=
  filter (fun h => is_Some (header_value_to_str h.2)) headers.

(** A name that stands in a [HeaderMap]. *)
Definition proper_name (h : string * string) : Prop := header_name_parse h.1 = Some h.1.

(** Headers written as text and parsed again. *)
Lemma headers_across (headers : list (string * string)) :
  Forall proper_name headers ->
  omap (fun h => n ← header_name_parse h.1; v ← header_value_parse h.2; Some (n, v))
    (omap (fun h => v ← header_value_to_str h.2; Some (h.1, v)) headers) = text_headers headers.
Proof using HL.
  induction 1 as [|[name value] headers Hname _ IH]; [done|]. unfold text_headers in *.
  rewrite filter_cons; cbn in *. unfold proper_name in Hname; cbn in Hname.
  destruct (header_value_to_str value) as [s|] eqn:E; cbn.
  - rewrite Hname; cbn. rewrite (text_parses _ _ E); cbn.
    destruct (decide (is_Some (Some s))) as [_|Hn]; [by f_equal | by destruct Hn].
  - destruct (decide (is_Some None)) as [[? ?]|_]; [done | apply IH].
Qed.

Lemma text_header_get (name value : string) (headers : list (string * string)) :
  header_get name headers = Some value -> is_Some (header_value_to_str value) ->
  header_get name (text_headers headers) = Some value.
Proof using Type.
  unfold header_get, text_headers. intros Hh Ht. revert Hh.
  induction headers as [|[n v] headers IH]; [done|]. rewrite !filter_cons. cbn [fst snd].
  destruct (decide (n = name)) as [->|Hn].
  - intros [= ->]. destruct (decide (is_Some _)) as [_|Hx]; [|done].
    rewrite filter_cons. cbn [fst]. by destruct (decide (name = name)).
  - intros Hh. specialize (IH Hh). destruct (decide (is_Some _)); [|done].
    rewrite filter_cons. cbn [fst]. by destruct (decide (n = name)).
Qed.
End Headers.
