(* ===== verification/ServerConfig.v ===== *)
(** [expose-server/src/config.rs]: API keys, the configuration blocks, what
    [ServerConfig::load] does after the file was read and parsed, and the
    checks the server makes against the configuration.

    Reading and parsing the TOML file is the caller's: [load] takes its result.
    Parsing a socket address is a class. *)

From S2P Require Import Prelude RustStr Types Errors PendingStore Externals.

Local Open Scope N_scope.

(** * API keys *)

Record SecureApiKey : Type := {
  key_bytes : string;
  key_hash : string;
}.

Definition MIN_LENGTH : N := 16.

Section Keys.
Context `{H : Sha256, X : HexEncode, C : ConstantTimeEq}.

Definition SecureApiKey_new (key : string) : Result ConfigError SecureApiKey :=
  if str_len key <? MIN_LENGTH then
    Err (Validation ("API key must be at least " +:+ fmt_uint MIN_LENGTH
                     +:+ " characters, got " +:+ fmt_uint (str_len key)))
  else Ok {| key_bytes := key; key_hash := sha256 key |}.

Definition verify (k : SecureApiKey) (candidate : string) : bool :=
  if negb (str_len candidate =? str_len (key_bytes k)) then false
  else ct_eq (key_bytes k) candidate.

Definition hash_prefix (k : SecureApiKey) : string := hex_encode (str_take 8 (key_hash k)).

(** [deserialize_api_keys]: the first bad key stops the collection. *)
Fixpoint deserialize_api_keys (raw : list string) : Result string (list SecureApiKey) :=
  match raw with
  | [] => Ok []
  | value :: rest =>
      k ← map_err (SecureApiKey_new value) ConfigError_to_string;
      ks ← deserialize_api_keys rest;
      Ok (k :: ks)
  end.

Definition deserialize_optional_secure_key (value : option string) :
    Result string (option SecureApiKey) :=
  match value with
  | Some key => k ← map_err (SecureApiKey_new key) ConfigError_to_string; Ok (Some k)
  | None => Ok None
  end.
End Keys.

(** * Configuration blocks *)

Record SocketAddr : Type := {
  sa_ip : string;
  sa_port : N;
}.

(** [str::parse::<SocketAddr>]. *)
Class ParseSocketAddr : Type := parse_socket_addr : string -> option SocketAddr.

Record StreamingConfig : Type := {
  sc_enabled : bool;
  sc_threshold_bytes : N;
  sc_chunk_size_bytes : N;
  sc_max_body_bytes : N;
}.

Definition StreamingConfig_default : StreamingConfig := {|
  sc_enabled := true;
  sc_threshold_bytes := 1024 * 1024;
  sc_chunk_size_bytes := 64 * 1024;
  sc_max_body_bytes := 100 * 1024 * 1024;
|}.

Record MetricsConfig : Type := {
  mc_enabled : bool;
  mc_bind_address : SocketAddr;
}.

Definition MetricsConfig_default : MetricsConfig := {|
  mc_enabled := false;
  mc_bind_address := {| sa_ip := "127.0.0.1"; sa_port := 9090 |};
|}.

Record AdminConfig : Type := {
  ac_token : option SecureApiKey;
  ac_insecure_admin : bool;
  ac_bind_address : option SocketAddr;
  ac_rate_limit_per_minute : N;
}.

Definition AdminConfig_default : AdminConfig := {|
  ac_token := None;
  ac_insecure_admin := false;
  ac_bind_address := None;
  ac_rate_limit_per_minute := 60;
|}.

Definition is_enabled (c : AdminConfig) : bool :=
  match ac_token c with Some _ => true | None => false end || ac_insecure_admin c.

Definition AdminConfig_validate (c : AdminConfig) (is_production : bool) :
    Result ConfigError unit :=
  if is_production && ac_insecure_admin c then
    Err (Validation "insecure_admin=true is not allowed in production")
  else Ok tt.

Record ResourceLimits : Type := {
  li_max_tunnels : N;
  li_max_tunnels_per_key : N;
  li_max_pending_requests : N;
}.

Definition default_max_tunnels : N := 1000.
Definition default_max_pending : N := 10000.

Definition ResourceLimits_default : ResourceLimits := {|
  li_max_tunnels := default_max_tunnels;
  li_max_tunnels_per_key := 0;
  li_max_pending_requests := default_max_pending;
|}.

Record ServerConfig : Type := {
  sv_bind_address : option string;
  sv_https_bind_address : option string;
  sv_tls_enabled : bool;
  sv_tls_cert_path : option string;
  sv_tls_key_path : option string;
  sv_admin_bind : option string;
  sv_domain : string;
  sv_rate_limit_requests_per_minute : N;
  sv_rate_limit_burst_size : N;
  sv_api_keys : list SecureApiKey;
  sv_request_body_limit_bytes : N;
  sv_request_timeout_secs : N;
  sv_tcp_tuning : TcpTuningConfig;
  sv_admin : AdminConfig;
  sv_pending_requests : PendingRequestConfig;
  sv_streaming : StreamingConfig;
  sv_metrics : MetricsConfig;
  sv_bind_host : string;
  sv_limits : ResourceLimits;
  sv_legacy_max_tunnels : option N;
}.

Definition ServerConfig_default : ServerConfig := {|
  sv_bind_address := Some "127.0.0.1:8080";
  sv_https_bind_address := None;
  sv_tls_enabled := false;
  sv_tls_cert_path := None;
  sv_tls_key_path := None;
  sv_admin_bind := Some "127.0.0.1:9090";
  sv_domain := "tunnel.localhost";
  sv_rate_limit_requests_per_minute := 120;
  sv_rate_limit_burst_size := 10;
  sv_api_keys := [];
  sv_request_body_limit_bytes := 10 * 1024 * 1024;
  sv_request_timeout_secs := 30;
  sv_tcp_tuning := TcpTuningConfig_default;
  sv_admin := AdminConfig_default;
  sv_pending_requests := PendingRequestConfig_default;
  sv_streaming := StreamingConfig_default;
  sv_metrics := MetricsConfig_default;
  sv_bind_host := "0.0.0.0";
  sv_limits := ResourceLimits_default;
  sv_legacy_max_tunnels := None;
|}.

(** Field updates of a mutable configuration. *)
Definition with_admin (c : ServerConfig) (a : AdminConfig) : ServerConfig :=
  {| sv_bind_address := sv_bind_address c; sv_https_bind_address := sv_https_bind_address c;
     sv_tls_enabled := sv_tls_enabled c; sv_tls_cert_path := sv_tls_cert_path c;
     sv_tls_key_path := sv_tls_key_path c; sv_admin_bind := sv_admin_bind c;
     sv_domain := sv_domain c;
     sv_rate_limit_requests_per_minute := sv_rate_limit_requests_per_minute c;
     sv_rate_limit_burst_size := sv_rate_limit_burst_size c; sv_api_keys := sv_api_keys c;
     sv_request_body_limit_bytes := sv_request_body_limit_bytes c;
     sv_request_timeout_secs := sv_request_timeout_secs c; sv_tcp_tuning := sv_tcp_tuning c;
     sv_admin := a; sv_pending_requests := sv_pending_requests c;
     sv_streaming := sv_streaming c; sv_metrics := sv_metrics c; sv_bind_host := sv_bind_host c;
     sv_limits := sv_limits c; sv_legacy_max_tunnels := sv_legacy_max_tunnels c |}.

Definition with_limits (c : ServerConfig) (l : ResourceLimits) (p : PendingRequestConfig)
    (legacy : option N) : ServerConfig :=
  {| sv_bind_address := sv_bind_address c; sv_https_bind_address := sv_https_bind_address c;
     sv_tls_enabled := sv_tls_enabled c; sv_tls_cert_path := sv_tls_cert_path c;
     sv_tls_key_path := sv_tls_key_path c; sv_admin_bind := sv_admin_bind c;
     sv_domain := sv_domain c;
     sv_rate_limit_requests_per_minute := sv_rate_limit_requests_per_minute c;
     sv_rate_limit_burst_size := sv_rate_limit_burst_size c; sv_api_keys := sv_api_keys c;
     sv_request_body_limit_bytes := sv_request_body_limit_bytes c;
     sv_request_timeout_secs := sv_request_timeout_secs c; sv_tcp_tuning := sv_tcp_tuning c;
     sv_admin := sv_admin c; sv_pending_requests := p;
     sv_streaming := sv_streaming c; sv_metrics := sv_metrics c; sv_bind_host := sv_bind_host c;
     sv_limits := l; sv_legacy_max_tunnels := legacy |}.

(** * Reading the configuration *)

(** An address that is there and not blank. *)
Definition nonblank (addr : option string) : option string :=
  a ← addr; if String.eqb (str_trim a) EmptyString then None else Some a.

Definition http_bind_address (c : ServerConfig) : option string := nonblank (sv_bind_address c).
Definition https_bind_address (c : ServerConfig) : option string :=
  nonblank (sv_https_bind_address c).

Definition tls_paths (c : ServerConfig) : result (string * string) :=
  cert ← ok_or (sv_tls_cert_path c)
               (Config (Validation "tls_cert_path must be set when tls_enabled = true"));
  key ← ok_or (sv_tls_key_path c)
              (Config (Validation "tls_key_path must be set when tls_enabled = true"));
  Ok (cert, key).

Section Load.
Context `{A : ParseSocketAddr}.

Definition effective_public_port (c : ServerConfig) : option N :=
  addr ← (if sv_tls_enabled c then https_bind_address c else http_bind_address c);
  sa_port <$> parse_socket_addr addr.

(** [admin.bind_address] falls back on the older [admin_bind]. *)
Definition fill_admin_bind (c : ServerConfig) : ServerConfig :=
  match ac_bind_address (sv_admin c), sv_admin_bind c with
  | None, Some bind =>
      match parse_socket_addr bind with
      | Some addr =>
          with_admin c {| ac_token := ac_token (sv_admin c);
                          ac_insecure_admin := ac_insecure_admin (sv_admin c);
                          ac_bind_address := Some addr;
                          ac_rate_limit_per_minute := ac_rate_limit_per_minute (sv_admin c) |}
      | None => c
      end
  | _, _ => c
  end.

(** The older [max_tunnels] wins, then [limits.max_pending_requests] overrides
    an unchanged [pending_requests.max_global]. *)
Definition fill_limits (c : ServerConfig) : ServerConfig :=
  let l := sv_limits c in
  let l' := {| li_max_tunnels := default (li_max_tunnels l) (sv_legacy_max_tunnels c);
               li_max_tunnels_per_key := li_max_tunnels_per_key l;
               li_max_pending_requests := li_max_pending_requests l |} in
  let p := sv_pending_requests c in
  let p' :=
    if negb (li_max_pending_requests l' =? default_max_pending)
       && (pc_max_global p =? pc_max_global PendingRequestConfig_default) then
      {| pc_max_per_tunnel := pc_max_per_tunnel p;
         pc_max_global := li_max_pending_requests l';
         pc_sweep_interval := pc_sweep_interval p;
         pc_default_timeout := pc_default_timeout p |}
    else p in
  with_limits c l' p' None.

(** [ServerConfig::load]: [parsed] is what reading and parsing the file gave,
    [None] without a path; [expose_env] is the variable [EXPOSE_ENV]. *)
Definition load (parsed : option (result ServerConfig)) (expose_env : option string) :
    result ServerConfig :=
  cfg ← match parsed with Some r => r | None => Ok ServerConfig_default end;
  _ ← (if sv_tls_enabled cfg then
         match https_bind_address cfg with
         | None => Err (Config (Validation
                     "https_bind_address must be set when tls_enabled = true"))
         | Some _ => _ ← tls_paths cfg; Ok tt
         end
       else Ok tt);
  let cfg := fill_limits (fill_admin_bind cfg) in
  let is_production :=
    match expose_env with
    | Some value => eq_ignore_ascii_case value "production"
    | None => false
    end in
  _ ← map_err (AdminConfig_validate (sv_admin cfg) is_production) Config;
  Ok cfg.
End Load.

(** * Using the configuration *)

Section Validate.
Context `{C : ConstantTimeEq}.

Definition validate_api_key (c : ServerConfig) (key : option string) : bool :=
  match sv_api_keys c with
  | [] => true
  | keys =>
      match key with
      | Some candidate => existsb (fun k => verify k candidate) keys
      | None => false
      end
  end.

Definition validate_admin_token (c : ServerConfig) (candidate : string) : bool :=
  match ac_token (sv_admin c) with
  | Some token => verify token candidate
  | None => false
  end.
End Validate.

Definition is_admin_enabled (c : ServerConfig) : bool := is_enabled (sv_admin c).

Definition config_limits (c : ServerConfig) : RequestLimits :=
  {| rl_max_body_bytes := sv_request_body_limit_bytes c; rl_max_headers := 64 |}.

Definition rate_limit_config (c : ServerConfig) : N * N :=
  (N.max (sv_rate_limit_requests_per_minute c) 1, N.max (sv_rate_limit_burst_size c) 1).

(** * Properties *)

Section KeyProperties.
Context `{H : Sha256, X : HexEncode, C : ConstantTimeEq, CL : !ConstantTimeEqLaws C}.

Lemma verify_iff (k : SecureApiKey) (candidate : string) :
  verify k candidate = true <-> candidate = key_bytes k.
Proof using CL.
  unfold verify, str_len.
  destruct (N.eqb_spec (N.of_nat (String.length candidate))
              (N.of_nat (String.length (key_bytes k)))) as [He|Hne]; cbn.
  - rewrite ct_eq_spec by lia. split; congruence.
  - split; [done|]. intros ->; congruence.
Qed.

Lemma deserialize_keys_bytes (raw : list string) (keys : list SecureApiKey) :
  deserialize_api_keys raw = Ok keys ->
  key_bytes <$> keys = raw /\ Forall (fun k => 16 <= str_len k) raw.
Proof.
  revert keys; induction raw as [|value raw IH]; cbn; intros keys.
  - intros [= <-]; done.
  - rewrite bind_Ok; intros (k & Hk & (ks & Hks & [= <-])%bind_Ok).
    destruct (IH ks Hks) as [Hb Hf]. unfold SecureApiKey_new in Hk.
    destruct (N.ltb_spec (str_len value) MIN_LENGTH); [done|]; injection Hk as <-.
    cbn; rewrite Hb; split; [done|]. constructor; [unfold MIN_LENGTH in *; lia | done].
Qed.

(** with the keys of the configuration file, a client is let in exactly when
    no key is configured or it presents one of them; every configured key has
    at least 16 bytes, so an empty or short key never opens the server. *)
Theorem validate_api_key_spec (raw : list string) (keys : list SecureApiKey)
    (c : ServerConfig) (key : option string) :
  deserialize_api_keys raw = Ok keys -> sv_api_keys c = keys ->
  (validate_api_key c key = true <-> raw = [] \/ exists k, key = Some k /\ k ∈ raw) /\
  (raw <> [] -> validate_api_key c key = true -> exists k, key = Some k /\ 16 <= str_len k).
Proof using CL.
  intros [Hb Hlen]%deserialize_keys_bytes Hc.
  assert (validate_api_key c key = true <-> raw = [] \/ exists k, key = Some k /\ k ∈ raw) as Hv.
  { unfold validate_api_key; rewrite Hc, <- Hb. destruct keys as [|k0 keys]; [by split; [left|]|].
    destruct key as [candidate|]; [|by split; [|intros [|(?&?&?)]]].
    rewrite existsb_exists; split.
    - intros (k & Hin & ->%verify_iff); right. exists (key_bytes k); split; [done|].
      apply list_elem_of_fmap_2, list_elem_of_In, Hin.
    - intros [|(k & [= <-] & (k' & -> & Hin)%list_elem_of_fmap)]; [done|].
      exists k'; split; [by apply list_elem_of_In | by apply verify_iff]. }
  split; [done|]. intros Hne [|(k & Hk & Hin)]%Hv; [done|]. exists k; split; [done|].
  by rewrite Forall_forall in Hlen; apply Hlen.
Qed.
End KeyProperties.

Section LoadProperties.
Context `{A : ParseSocketAddr}.

Definition production (expose_env : option string) : Prop :=
  exists value, expose_env = Some value /\ eq_ignore_ascii_case value "production" = true.

(** A configuration that was loaded is safe to run: no unauthenticated admin
    API in production, TLS only with an address, a certificate and a key; the
    older [max_tunnels] takes precedence over the new one, and the number of
    pending requests follows [limits] unless it was set on its own. *)
Theorem load_spec (parsed : result ServerConfig) (expose_env : option string)
    (c : ServerConfig) :
  load (Some parsed) expose_env = Ok c ->
  exists c0, parsed = Ok c0 /\
    (production expose_env -> ac_insecure_admin (sv_admin c) = false) /\
    (sv_tls_enabled c = true -> is_Some (https_bind_address c) /\ is_Some (sv_tls_cert_path c) /\
                                is_Some (sv_tls_key_path c)) /\
    li_max_tunnels (sv_limits c) =
      match sv_legacy_max_tunnels c0 with
      | Some n => n
      | None => li_max_tunnels (sv_limits c0)
      end /\
    (pc_max_global (sv_pending_requests c0) <> 10000 ->
     pc_max_global (sv_pending_requests c) = pc_max_global (sv_pending_requests c0)) /\
    (pc_max_global (sv_pending_requests c0) = 10000 ->
     pc_max_global (sv_pending_requests c) = li_max_pending_requests (sv_limits c)).
Proof.
  unfold load; intros (c0 & Hp & ([] & Htls & ([] & Hadm & [= <-])%bind_Ok)%bind_Ok)%bind_Ok.
  exists c0; split; [done|].
  assert (fill_admin_bind c0 = c0 \/ exists a, fill_admin_bind c0 = with_admin c0 a) as Hb.
  { unfold fill_admin_bind. repeat case_match; eauto. }
  split_and!.
  - intros (value & -> & Hv). rewrite Hv in Hadm. unfold AdminConfig_validate in Hadm.
    by destruct (ac_insecure_admin _).
  - assert (sv_tls_enabled (fill_limits (fill_admin_bind c0)) = sv_tls_enabled c0) as ->
      by (by destruct Hb as [->|[a ->]]).
    intros Ht; rewrite Ht in Htls.
    destruct (https_bind_address c0) as [addr|] eqn:Ea; [|done].
    unfold tls_paths in Htls. destruct (sv_tls_cert_path c0) as [cert|] eqn:Ec; [|done].
    destruct (sv_tls_key_path c0) as [key|] eqn:Ek; [|done].
    destruct Hb as [->|[a ->]];
      (split; [exists addr; exact Ea | split; [exists cert; exact Ec | exists key; exact Ek]]).
  - destruct Hb as [->|[a ->]]; cbn; by destruct (sv_legacy_max_tunnels c0).
  - intros Hne. destruct Hb as [->|[a ->]]; cbn; (destruct (_ && _) eqn:E; [|done]); cbn; lia.
  - intros He. destruct Hb as [->|[a ->]]; cbn;
      (destruct (_ && _) eqn:E; cbn; [done|]); unfold default_max_pending in *; lia.
Qed.
End LoadProperties.
