(* ===== verification/Metrics.v ===== *)
(** Metrics: [expose-server/src/metrics.rs], what the tunnel manager reports, and
    whether the gauges say the truth.

    A metric macro is an emission, in the order the code makes them; what the
    exporter does with it is the library's. *)

From S2P Require Import Prelude RustStr Types Errors Utils Protocol PendingStore Externals.
From S2P Require Import TunnelManager ManagerSpec ServerConfig.

Local Open Scope N_scope.

(** * Emissions *)

Inductive Emission : Type :=
| Gauge (name : string) (value : N)
| Counter (name : string) (amount : N) (labels : list (string * string))
| Histogram (name : string) (value : Duration) (labels : list (string * string)).

(** [describe_counter!] and its like. *)
Inductive Description : Type :=
| DescribeCounter (name text : string)
| DescribeGauge (name text : string)
| DescribeHistogram (name text : string).

Definition register_descriptions : list Description :=
  [DescribeCounter "expose_requests_total" "Total HTTP requests proxied";
   DescribeCounter "expose_requests_failed_total"
     "Total proxied HTTP requests that resulted in errors";
   DescribeCounter "expose_rate_limit_hits_total" "Rate limit denials";
   DescribeCounter "expose_bytes_sent_total" "Bytes forwarded to tunnel clients";
   DescribeCounter "expose_bytes_received_total" "Bytes received from tunnel clients";
   DescribeGauge "expose_tunnels_active" "Number of active tunnels";
   DescribeGauge "expose_pending_requests" "Pending HTTP requests waiting on clients";
   DescribeHistogram "expose_request_duration_seconds"
     "Duration required to proxy a single HTTP request"].

(** [init_metrics]: the descriptions it registers, and the outcome of installing
    the exporter on the address of the configuration. *)
Definition init_metrics (install : SocketAddr -> Result string unit) (config : MetricsConfig) :
    Result string unit * list Description :=
  if negb (mc_enabled config) then (Ok tt, [])
  else
    (map_err (install (mc_bind_address config))
       (fun err => "failed to start metrics exporter: " +:+ err),
     register_descriptions).

(** ** [ServerMetrics] *)

Definition tunnels_active (count : N) : Emission := Gauge "expose_tunnels_active" count.

Definition request_started (subdomain : string) : Emission :=
  Counter "expose_requests_total" 1 [("subdomain", subdomain)].

Definition status_class (status : N) : string := fmt_uint (status / 100) +:+ "xx".

Definition request_completed (subdomain : string) (status : N) (duration : Duration) : Emission :=
  Histogram "expose_request_duration_seconds" duration
    [("subdomain", subdomain); ("status_class", status_class status)].

Definition request_failed (subdomain : string) (error : ExposeError) : Emission :=
  Counter "expose_requests_failed_total" 1
    [("subdomain", subdomain); ("reason", fmt_uint (ErrorCode_as_u16 (error_code error)))].

Definition rate_limit_hit (subdomain : string) : Emission :=
  Counter "expose_rate_limit_hits_total" 1 [("subdomain", subdomain)].

Definition pending_requests_changed (count : N) : Emission :=
  Gauge "expose_pending_requests" count.

Definition bytes_sent (subdomain : string) (bytes : N) : Emission :=
  Counter "expose_bytes_sent_total" bytes [("subdomain", subdomain)].

Definition bytes_received (subdomain : string) (bytes : N) : Emission :=
  Counter "expose_bytes_received_total" bytes [("subdomain", subdomain)].

(** ** What a dashboard adds up *)

Definition emission_name (e : Emission) : string :=
  match e with Gauge name _ | Counter name _ _ | Histogram name _ _ => name end.

(** The last value of a gauge. *)
Definition gauge_value (name : string) (e : Emission) : option N :=
  match e with Gauge n v => if String.eqb n name then Some v else None | _ => None end.
Definition reported (name : string) (es : list Emission) : option N :=
  last (omap (gauge_value name) es).

(** The sum of a counter over its labels, and the samples of a histogram. *)
Definition counted (name : string) (e : Emission) : N :=
  match e with Counter n v _ => if String.eqb n name then v else 0 | _ => 0 end.
Definition total (name : string) (es : list Emission) : N :=
  foldr (fun e acc => counted name e + acc) 0 es.
Definition sample_of (name : string) (e : Emission) : bool :=
  match e with Histogram n _ _ => String.eqb n name | _ => false end.
Definition samples (name : string) (es : list Emission) : N := len (filter (sample_of name) es).

Lemma reported_app (name : string) (a b : list Emission) :
  reported name (a ++ b) =
    match reported name b with Some v => Some v | None => reported name a end.
Proof.
  unfold reported. rewrite omap_app, last_app. by destruct (last (omap (gauge_value name) b)).
Qed.

Lemma total_app (name : string) (a b : list Emission) :
  total name (a ++ b) = total name a + total name b.
Proof.
  induction a as [|e a IH]; [done|].
  change (counted name e + total name (a ++ b) = counted name e + total name a + total name b).
  rewrite IH. lia.
Qed.

Lemma samples_app (name : string) (a b : list Emission) :
  samples name (a ++ b) = samples name a + samples name b.
Proof. unfold samples, len. rewrite filter_app, length_app. lia. Qed.

(** * The manager's operations with what they report *)

Section Manager.
Context `{G : Governor, H : Sha256}.
Implicit Types m : TunnelManager.

Definition pending_gauge (s : PendingStore) : N := pm_pending_gauge (ps_metrics s).

(** [PendingStore::remove] and its loops: each request that is removed changes
    the gauge. *)
Definition store_remove_emits (request_id : Uuid) (s : PendingStore) : list Emission :=
  match store_remove request_id s with
  | (s', Some _) => [pending_requests_changed (pending_gauge s')]
  | (_, None) => []
  end.

Fixpoint remove_all_emits (ids : list Uuid) (s : PendingStore) : list Emission :=
  match ids with
  | [] => []
  | id :: ids' => store_remove_emits id s ++ remove_all_emits ids' (store_remove id s).1
  end.

(** The methods that are not interleaved with others. *)
Inductive ManagerOp : Type :=
| OpRegister (id : Uuid) (subdomain : string) (protocol : TunnelProtocol) (sender : Mpsc)
    (api_key : option string)
| OpRemove (subdomain : string)
| OpRequest (tunnel_id request_id : Uuid) (timeout : option Duration) (now : Instant)
    (channel : Oneshot)
| OpFulfill (t : ActiveTunnel) (msg : Message)
| OpClose (t : ActiveTunnel)
| OpSweep (now : Instant)
| OpDisconnect (id : Uuid)
| OpRate (t : ActiveTunnel) (now later : Instant).

Definition op_run (op : ManagerOp) m : TunnelManager :=
  match op with
  | OpRegister id subdomain protocol sender key =>
      (register_tunnel id subdomain protocol sender key m).2
  | OpRemove subdomain => manager_remove subdomain m
  | OpRequest tunnel_id request_id timeout now channel =>
      (register_pending_request tunnel_id request_id timeout now channel m).2
  | OpFulfill t msg => (fulfill t msg m).1
  | OpClose t => (close t m).1
  | OpSweep now => (sweep now m).1
  | OpDisconnect id => (disconnect_tunnel id m).1.2
  | OpRate t now later => (check_rate_limit t now later m).2
  end.

Definition op_emits (op : ManagerOp) m : list Emission :=
  let store := tm_pending_store m in
  match op with
  | OpRegister id subdomain protocol sender key =>
      match register_tunnel id subdomain protocol sender key m with
      | (Ok _, m') => [tunnels_active (active_tunnel_count m')]
      | (Err _, _) => []
      end
  | OpRemove subdomain => [tunnels_active (active_tunnel_count (manager_remove subdomain m))]
  | OpRequest tunnel_id request_id timeout now channel =>
      match register_pending_request tunnel_id request_id timeout now channel m with
      | (Ok _, m') => [pending_requests_changed (pending_gauge (tm_pending_store m'))]
      | (Err _, _) => []
      end
  | OpFulfill _ (HttpResponse id _ _ _) => store_remove_emits id store
  | OpFulfill _ _ => []
  | OpClose t => remove_all_emits (keys_for_tunnel (at_id t) store) store
  | OpSweep now => remove_all_emits (expired_ids now store) store
  | OpDisconnect id =>
      match find_by_id id m with
      | Some (_, t) => remove_all_emits (keys_for_tunnel (at_id t) store) store
      | None => []
      end
  | OpRate t now later =>
      match check_rate_limit t now later m with
      | (Err (RateLimited _), _) => [rate_limit_hit (at_subdomain t)]
      | _ => []
      end
  end.

(** Fresh identifiers are fresh. *)
Definition op_fresh (op : ManagerOp) m : Prop :=
  match op with
  | OpRegister id _ _ _ _ => forall k t, tm_tunnels m !! k = Some t -> at_id t <> id
  | OpRequest _ request_id _ _ channel =>
      ps_requests (tm_pending_store m) !! request_id = None /\
      channel_free channel (tm_pending_store m)
  | _ => True
  end.

(** * The gauges *)

(** A server that reports: its manager, what it has emitted, and how many tunnels
    were disconnected since the number of tunnels was last reported. *)
Record Meter : Type := {
  me_manager : TunnelManager;
  me_emitted : list Emission;
  me_unreported : N;
}.

(** [Server::new] reports after building the manager, whose store has reported
    that nothing is pending. *)
Definition meter_init m : Meter :=
  {| me_manager := m;
     me_emitted := [pending_requests_changed 0; tunnels_active (active_tunnel_count m)];
     me_unreported := 0 |}.

Definition unreported_after (op : ManagerOp) m (n : N) : N :=
  match op with
  | OpDisconnect id => match find_by_id id m with Some _ => n + 1 | None => n end
  | _ => match reported "expose_tunnels_active" (op_emits op m) with Some _ => 0 | None => n end
  end.

Definition meter_step (s s' : Meter) : Prop :=
  exists op, op_fresh op (me_manager s) /\
    s' = {| me_manager := op_run op (me_manager s);
            me_emitted := me_emitted s ++ op_emits op (me_manager s);
            me_unreported := unreported_after op (me_manager s) (me_unreported s) |}.

Definition meter_serially_reachable domain limits rate burst pc max_t max_k : Meter -> Prop :=
  reachable (fun s => s = meter_init (manager_new domain limits rate burst pc max_t max_k))
    meter_step.

(** Removals report the gauge of the store they end in, if they report. *)
Lemma remove_emits_pending (id : Uuid) (s : PendingStore) :
  match reported "expose_pending_requests" (store_remove_emits id s) with
  | Some v => v = pending_gauge (store_remove id s).1
  | None => (store_remove id s).1 = s
  end /\
  reported "expose_tunnels_active" (store_remove_emits id s) = None.
Proof.
  unfold store_remove_emits, store_remove. by destruct (ps_requests s !! id).
Qed.

Lemma remove_all_emits_pending (ids : list Uuid) (s : PendingStore) :
  match reported "expose_pending_requests" (remove_all_emits ids s) with
  | Some v => v = pending_gauge (remove_all ids s).1
  | None => (remove_all ids s).1 = s
  end /\
  reported "expose_tunnels_active" (remove_all_emits ids s) = None.
Proof.
  revert s; induction ids as [|id ids IH]; intros s; [done|]. cbn [remove_all_emits remove_all].
  destruct (remove_emits_pending id s) as [Hp Ht].
  destruct (IH (store_remove id s).1) as [IHp IHt]. rewrite !reported_app, IHt. split; [|done].
  destruct (store_remove id s) as [s1 removed] eqn:E. cbn [fst] in *.
  assert ((let '(s2, rest) := remove_all ids s1 in
           match removed with Some request => (s2, request :: rest) | None => (s2, rest) end).1 =
          (remove_all ids s1).1) as -> by (by destruct (remove_all ids s1), removed).
  destruct (reported "expose_pending_requests" (remove_all_emits ids s1)); [done|]. rewrite IHp.
  done.
Qed.

(** After every operation the gauge of pending requests is the store's. *)
Lemma op_emits_pending (op : ManagerOp) m :
  match reported "expose_pending_requests" (op_emits op m) with
  | Some v => v = pending_gauge (tm_pending_store (op_run op m))
  | None => pending_gauge (tm_pending_store (op_run op m)) = pending_gauge (tm_pending_store m)
  end.
Proof.
  destruct op as [id sub protocol sender key|sub|tid rid timeout now ch|t msg|t|now|id|t now later];
    cbn [op_emits op_run].
  - unfold register_tunnel. by destruct (register_checks sub key m).
  - done.
  - unfold register_pending_request. by destruct (pending_checks tid m).
  - destruct msg; try done. rewrite fulfill_eq.
    pose proof (remove_emits_pending id (tm_pending_store m)) as [Hp _]. cbn in *.
    destruct (reported _ _); [done | by rewrite Hp].
  - rewrite close_eq, <- drain_is_remove_where. unfold drain_for_tunnel.
    pose proof (remove_all_emits_pending (keys_for_tunnel (at_id t) (tm_pending_store m))
      (tm_pending_store m)) as [Hp _]. cbn in *.
    destruct (reported _ _); [done | by rewrite Hp].
  - unfold sweep, sweep_tick.
    pose proof (remove_all_emits_pending (expired_ids now (tm_pending_store m))
      (tm_pending_store m)) as [Hp _].
    destruct (expired_ids now (tm_pending_store m)) as [|i ids]; [done|].
    destruct (remove_all (i :: ids) (tm_pending_store m)) as [s' removed]. cbn [fst snd] in *.
    destruct (reported _ _); [done | by subst s'].
  - rewrite disconnect_eq. destruct (find_by_id id m) as [[k t]|]; [|done].
    rewrite close_eq, <- drain_is_remove_where. unfold drain_for_tunnel.
    pose proof (remove_all_emits_pending (keys_for_tunnel (at_id t) (tm_pending_store m))
      (tm_pending_store m)) as [Hp _]. cbn in *.
    destruct (reported _ _); [done | by rewrite Hp].
  - unfold check_rate_limit. destruct (tm_cells m !! at_id t); [|done].
    by destruct (gov_check _ _) as [? [?|]].
Qed.

(** The number of tunnels is reported by registration and removal, and only by
    them; a disconnect changes it in silence. *)
Lemma op_emits_tunnels (op : ManagerOp) m (n : N) :
  match reported "expose_tunnels_active" (op_emits op m) with
  | Some v => v = active_tunnel_count (op_run op m) /\ unreported_after op m n = 0
  | None => active_tunnel_count m + n =
              active_tunnel_count (op_run op m) + unreported_after op m n
  end.
Proof.
  assert (forall ids, reported "expose_tunnels_active"
            (remove_all_emits ids (tm_pending_store m)) = None) as Hrem
    by (intros ids; apply remove_all_emits_pending).
  destruct op as [id sub protocol sender key|sub|tid rid timeout now ch|t msg|t|now|id|t now later];
    cbn [op_emits op_run unreported_after].
  - unfold register_tunnel. by destruct (register_checks sub key m).
  - done.
  - unfold register_pending_request. by destruct (pending_checks tid m).
  - destruct msg; try done. rewrite fulfill_eq.
    by destruct (remove_emits_pending id (tm_pending_store m)) as [_ ->].
  - rewrite Hrem, close_eq. done.
  - rewrite Hrem. unfold sweep. by destruct (sweep_tick now _).
  - rewrite disconnect_eq. destruct (find_by_id id m) as [[k t]|] eqn:E; [|done].
    rewrite Hrem, close_eq. unfold active_tunnel_count; cbn.
    apply find_by_id_Some in E as [Ht _]. rewrite (msize_delete_Some _ _ _ Ht).
    pose proof (size_pos_lookup _ _ _ Ht). unfold msize in *. lia.
  - unfold check_rate_limit. destruct (tm_cells m !! at_id t); [|done].
    by destruct (gov_check _ _) as [? [?|]].
Qed.

Lemma op_run_wf (op : ManagerOp) m : manager_wf m -> op_fresh op m -> manager_wf (op_run op m).
Proof.
  destruct op as [id sub protocol sender key|sub|tid rid timeout now ch|t msg|t|now|id|t now later];
    cbn [op_fresh op_run]; intros Hm Hf.
  - by apply register_wf.
  - by apply delete_tunnel_wf.
  - destruct Hf. by apply register_pending_wf.
  - by apply fulfill_wf.
  - by apply close_wf.
  - by apply sweep_wf.
  - by apply disconnect_wf.
  - by apply check_rate_limit_wf.
Qed.

Record meter_ok (s : Meter) : Prop := {
  mk_wf : manager_wf (me_manager s);
  mk_pending : reported "expose_pending_requests" (me_emitted s) =
    Some (pending_gauge (tm_pending_store (me_manager s)));
  mk_tunnels : reported "expose_tunnels_active" (me_emitted s) =
    Some (active_tunnel_count (me_manager s) + me_unreported s);
}.

Lemma meter_step_ok (s s' : Meter) : meter_ok s -> meter_step s s' -> meter_ok s'.
Proof.
  intros [Hm Hp Ht] (op & Hf & ->). constructor; cbn.
  - by apply op_run_wf.
  - rewrite reported_app. pose proof (op_emits_pending op (me_manager s)) as Ho.
    destruct (reported _ (op_emits _ _)); [by subst | by rewrite Hp, Ho].
  - rewrite reported_app. pose proof (op_emits_tunnels op (me_manager s) (me_unreported s)) as Ho.
    destruct (reported _ (op_emits _ _)); [destruct Ho as [-> ->]; f_equal; lia | rewrite Ht; by rewrite Ho].
Qed.

(** C25: what the gauges say as long as no two operations of the manager overlap.  In
    every such execution the last value of [expose_pending_requests] is the number
    of requests that wait.  The last value of [expose_tunnels_active] exceeds
    the number of tunnels by exactly the disconnects since it was last reported:
    registration and removal report it, [disconnect_tunnel] does not, so after
    an administrator's disconnect the gauge counts tunnels that are gone. *)
Theorem gauges_tell domain limits rate burst pc max_t max_k (s : Meter) :
  pc_max_global pc <= usize_max ->
  meter_serially_reachable domain limits rate burst pc max_t max_k s ->
  reported "expose_pending_requests" (me_emitted s) = Some (pending_request_count (me_manager s)) /\
  reported "expose_tunnels_active" (me_emitted s) =
    Some (active_tunnel_count (me_manager s) + me_unreported s) /\
  (forall op,
     me_unreported s < unreported_after op (me_manager s) (me_unreported s) <->
     exists id k t, op = OpDisconnect id /\ find_by_id id (me_manager s) = Some (k, t)).
Proof.
  intros Hw Hs.
  assert (meter_ok s) as [Hm Hp Ht].
  { revert Hs. apply invariant_holds; [|apply meter_step_ok].
    intros s0 ->. constructor; [by apply manager_new_wf | done..]. }
  split_and!.
  - rewrite Hp. f_equal. by apply wf_gauge, mw_store.
  - done.
  - intros op. unfold unreported_after. split.
    + intros Hn. destruct op; try (destruct (reported _ _) in Hn; exfalso; lia).
      destruct (find_by_id id (me_manager s)) as [[k t]|] eqn:E; [|exfalso; lia]. eauto 10.
    + intros (id & k & t & -> & ->). lia.
Qed.
End Manager.
