(* ===== verification/ServerProxy.v ===== *)
(** The server's HTTP path, [expose-server/src/proxy]: from a public request to
    the messages on a tunnel and back to a response.

    A body is the sequence of frames it will yield.  Time, fresh ids and what
    arrives on the response channel are arguments. *)

From Stdlib Require Import Ascii.
From S2P Require Import Prelude RustStr Types Errors Utils Protocol PendingStore Externals.
From S2P Require Import TunnelManager Http ServerConfig.

Local Open Scope N_scope.

(** * [host.rs] *)

Section Host.
Context `{L : HttpLib}.

Definition host_header (parts : Parts) : result string :=
  ok_or (header_get "host" (pt_headers parts) ≫= header_value_to_str)
        (InvalidMessage "missing Host header").

(** [HostResolver::resolve] for the domain of the server. *)
Definition resolve (domain : string) (parts : Parts) : result string :=
  host ← host_header parts;
  let host := str_split_first ":"%char host in
  let suffix := "." +:+ domain in
  if negb (str_ends_with suffix host) then
    Err (TunnelNotFound ("host '" +:+ host +:+ "' doesn't match domain '" +:+ domain +:+ "'"))
  else
    let subdomain := str_take (String.length host - String.length suffix) host in
    if String.eqb subdomain EmptyString then
      Err (InvalidSubdomain subdomain "empty subdomain")
    else Ok subdomain.
End Host.

(** * [body.rs] *)

Fixpoint collect_frames (limit : N) (frames : list BodyFrame) (collected : Bytes) : result Bytes :=
  match frames with
  | [] => Ok collected
  | BodyError text :: _ => Err (Internal text)
  | Trailers :: rest => collect_frames limit rest collected
  | Data data :: rest =>
      if limit <? len collected + len data then
        Err (PayloadTooLarge (len collected + len data) limit)
      else collect_frames limit rest (collected ++ data)
  end.

(** [BodyCollector::collect]. *)
Definition collect (limit : N) (body : Body) : result Bytes :=
  _ ← match body_upper body with
      | Some upper => if limit <? upper then Err (PayloadTooLarge upper limit) else Ok tt
      | None => Ok tt
      end;
  collect_frames limit (body_frames body) [].

(** * [encoder.rs] *)

Section Encode.
Context `{L : HttpLib}.

Definition forwarded_headers (parts : Parts) : Headers :=
  omap (fun h => v ← header_value_to_str h.2; Some (h.1, v)) (pt_headers parts).

Definition request_path (parts : Parts) : string :=
  default (pt_path parts) (pt_path_and_query parts).

Definition encode_request (id : Uuid) (parts : Parts) (body : Bytes) : result Message :=
  Ok (HttpRequest id (pt_method parts) (request_path parts) (forwarded_headers parts) body).
End Encode.

(** * Sending on a tunnel *)

(** [ActiveTunnel::send]. *)
Definition send (m : Message) (ob : Outbox) : result unit * Outbox :=
  if outbox_open ob then (Ok tt, outbox_push m ob)
  else (Err (TunnelDisconnected (Some "tunnel writer closed")), ob).

(** * [streaming.rs] *)

Section Stream.
Context `{L : HttpLib}.

(** The loop over the chunks of one frame. *)
Fixpoint send_chunks (id : Uuid) (parts_of_data : list Bytes) (sequence : N) (ob : Outbox) :
    result N * Outbox :=
  match parts_of_data with
  | [] => (Ok sequence, ob)
  | chunk :: rest =>
      match send (HttpRequestChunk id chunk sequence) ob with
      | (Ok _, ob') => send_chunks id rest (wrapping_add u32_max sequence 1) ob'
      | (Err e, ob') => (Err e, ob')
      end
  end.

(** The loop over the frames; [None] is the panic of [slice::chunks] for a
    chunk size of zero. *)
Fixpoint stream_frames (cfg : StreamingConfig) (id : Uuid) (frames : list BodyFrame)
    (total sequence : N) (ob : Outbox) : option (result unit * Outbox) :=
  match frames with
  | [] => Some (Ok tt, ob)
  | BodyError text :: _ => Some (Err (Internal text), ob)
  | Trailers :: rest => stream_frames cfg id rest total sequence ob
  | Data data :: rest =>
      let total := saturating_add usize_max total (len data) in
      if sc_max_body_bytes cfg <? total then
        Some (Err (PayloadTooLarge total (sc_max_body_bytes cfg)), ob)
      else if sc_chunk_size_bytes cfg =? 0 then None
      else
        match send_chunks id (chunks (sc_chunk_size_bytes cfg) data) sequence ob with
        | (Ok sequence', ob') => stream_frames cfg id rest total sequence' ob'
        | (Err e, ob') => Some (Err e, ob')
        end
  end.

(** [RequestStreamer::stream_with_path]. *)
Definition stream_with_path (cfg : StreamingConfig) (id : Uuid) (parts : Parts) (body : Body)
    (content_length : option N) (forwarded_path : option string) (ob : Outbox) :
    option (result unit * Outbox) :=
  let path := default (request_path parts) forwarded_path in
  match send (HttpRequestStart id (pt_method parts) path (forwarded_headers parts)
                content_length) ob with
  | (Err e, ob1) => Some (Err e, ob1)
  | (Ok _, ob1) =>
      r ← stream_frames cfg id (body_frames body) 0 0 ob1;
      match r with
      | (Ok _, ob2) => Some (send (HttpRequestEnd id) ob2)
      | (Err e, ob2) => Some (Err e, ob2)
      end
  end.

Definition stream (cfg : StreamingConfig) (id : Uuid) (parts : Parts) (body : Body)
    (content_length : option N) (ob : Outbox) : option (result unit * Outbox) :=
  stream_with_path cfg id parts body content_length None ob.
End Stream.

(** * [response.rs] *)

(** [{:?}] of a message. *)
Class DebugMessage : Type := debug_message : Message -> string.

Section Respond.
Context `{L : HttpLib, D : DebugMessage}.

Definition from_message (message : Message) : result Response :=
  match message with
  | HttpResponse _ status headers body =>
      Ok {| rs_status := default 200 (status_from_u16 status);
            rs_headers := omap (fun h => n ← header_name_parse h.1;
                                         v ← header_value_parse h.2; Some (n, v)) headers;
            rs_body := body |}
  | other => Err (InvalidMessage ("expected HttpResponse, got " +:+ debug_message other))
  end.
End Respond.

(** * [limiter.rs] and [mod.rs] *)

(** What ends the wait for the tunnel's response. *)
Inductive WaitOutcome : Type :=
| Answered (response : Message)
| Elapsed
| SenderDropped.

(** What the run of one request takes from its surroundings. *)
Record RequestRun : Type := {
  rr_limiter_now : Instant;
  rr_limiter_later : Instant;
  rr_request_id : Uuid;
  rr_now : Instant;
  rr_channel : Oneshot;
  rr_wait : WaitOutcome;
}.

Section Proxy.
Context `{G : Governor, H : Sha256, L : HttpLib, D : DebugMessage}.

Definition limiter_check (t : ActiveTunnel) (now later : Instant) (m : TunnelManager) :
    result unit * TunnelManager :=
  check_rate_limit t now later m.

Definition content_length (parts : Parts) : option N :=
  value ← header_get "content-length" (pt_headers parts);
  text ← header_value_to_str value;
  parse_uint u64_max text.

Definition should_stream (cfg : StreamingConfig) (parts : Parts) (body : Body) : bool :=
  sc_enabled cfg &&
  match content_length parts with
  | Some n => sc_threshold_bytes cfg <=? n
  | None =>
      match body_upper body with
      | Some upper => sc_threshold_bytes cfg <=? upper
      | None => false
      end
  end.

(** What a request puts on the tunnel, streamed or whole. *)
Definition forward (cfg : ServerConfig) (id : Uuid) (parts : Parts) (body : Body)
    (ob : Outbox) : option (result unit * Outbox) :=
  if should_stream (sv_streaming cfg) parts body then
    stream (sv_streaming cfg) id parts body (content_length parts) ob
  else
    match collect (sv_request_body_limit_bytes cfg) body with
    | Err e => Some (Err e, ob)
    | Ok collected =>
        match encode_request id parts collected with
        | Err e => Some (Err e, ob)
        | Ok message => Some (send message ob)
        end
    end.

Definition await_response (cfg : ServerConfig) (w : WaitOutcome) : result Response :=
  match w with
  | Elapsed => Err (Timeout "tunnel response" (sv_request_timeout_secs cfg))
  | SenderDropped => Err (TunnelDisconnected None)
  | Answered response => from_message response
  end.

Record ProxyState : Type := {
  px_manager : TunnelManager;
  px_outboxes : gmap Mpsc Outbox;
}.

(** [proxy_with_state]; the manager of the result is the one the handler leaves
    when it starts to wait.  [None] is a panic. *)
Definition proxy_with_state (cfg : ServerConfig) (run : RequestRun) (parts : Parts) (body : Body)
    (st : ProxyState) : option (result Response * ProxyState) :=
  match resolve (sv_domain cfg) parts with
  | Err e => Some (Err e, st)
  | Ok subdomain =>
      match manager_get subdomain (px_manager st) with
      | None => Some (Err (TunnelNotFound subdomain), st)
      | Some tunnel =>
          match limiter_check tunnel (rr_limiter_now run) (rr_limiter_later run)
                  (px_manager st) with
          | (Err e, m1) => Some (Err e, {| px_manager := m1; px_outboxes := px_outboxes st |})
          | (Ok _, m1) =>
              match register_pending_request (at_id tunnel) (rr_request_id run)
                      (Some (from_secs (sv_request_timeout_secs cfg))) (rr_now run)
                      (rr_channel run) m1 with
              | (Err e, m2) => Some (Err e, {| px_manager := m2; px_outboxes := px_outboxes st |})
              | (Ok _, m2) =>
                  let ob := default {| ob_sent := []; ob_capacity := Some O |}
                              (px_outboxes st !! at_sender tunnel) in
                  '(res, ob') ← forward cfg (rr_request_id run) parts body ob;
                  let st' := {| px_manager := m2;
                                px_outboxes := <[at_sender tunnel := ob']> (px_outboxes st) |} in
                  match res with
                  | Err e => Some (Err e, st')
                  | Ok _ => Some (await_response cfg (rr_wait run), st')
                  end
              end
          end
      end
  end.
End Proxy.
