(* ===== verification/IoUring.v ===== *)
(** The io_uring helpers of the server, [expose-server/src/platform/io_uring.rs].

    Nothing in the program calls the two stream helpers; [stream.read] and
    [stream.write] are tokio-uring's, which give the buffer back with the outcome. *)

From S2P Require Import Prelude RustStr Types Errors PendingStore Externals TunnelManager.
From S2P Require Import Http ServerConfig ServerProxy.

Local Open Scope N_scope.

Section Uring.
Context (read : Bytes -> Result string N * Bytes) (write : Bytes -> Result string N * Bytes).

Definition read_request_uring (buf : Bytes) : result (N * Bytes) :=
  let '(res, buf) := read buf in
  n ← map_err res (fun err => Network (other_io_error err));
  Ok (n, buf).

Definition write_response_uring (data : Bytes) : result N :=
  let '(res, _) := write data in
  n ← map_err res (fun err => Network (other_io_error err));
  Ok n.

(** What a write has written is a prefix; the helper writes once, so after a
    short write the rest is up to its caller. *)
Lemma write_response_uring_spec (data : Bytes) :
  match write_response_uring data with
  | Ok n => (write data).1 = Ok n
  | Err e => is_retriable e = true /\ exists text, (write data).1 = Err text
  end.
Proof.
  unfold write_response_uring. destruct (write data) as [[n|text] buf]; cbn; [done|]. split; [done|].
  by exists text.
Qed.
End Uring.

(** [proxy_with_io_uring]: the standard path, whatever the [Host] extractor gave. *)
Definition proxy_with_io_uring `{G : Governor, H : Sha256, L : HttpLib, D : DebugMessage}
    (cfg : ServerConfig) (run : RequestRun) (_host : string) (parts : Parts) (body : Body)
    (st : ProxyState) : option (result Response * ProxyState) :=
  proxy_with_state cfg run parts body st.
