(* ===== verification/LocalProxy.v ===== *)
(** The client's HTTP side, [expose-client/src/proxy.rs]: buffers of streamed
    requests, and a request forwarded to the local service. *)

From S2P Require Import Prelude RustStr Types Errors Protocol Http.

Local Open Scope N_scope.

Definition STREAM_BUFFER_LIMIT : N := 50 * 1024 * 1024.

(** * Streamed requests *)

Record StreamingRequest : Type := {
  sr_method : string;
  sr_path : string;
  sr_headers : Headers;
  sr_body : Bytes;
}.

Record LocalProxy : Type := {
  lp_upstream_host : string;
  lp_upstream_port : N;
  lp_pending_streams : gmap Uuid StreamingRequest;
}.

Definition LocalProxy_new (host : string) (port : N) : LocalProxy :=
  {| lp_upstream_host := host; lp_upstream_port := port; lp_pending_streams := ∅ |}.

Definition with_streams (p : LocalProxy) (s : gmap Uuid StreamingRequest) : LocalProxy :=
  {| lp_upstream_host := lp_upstream_host p; lp_upstream_port := lp_upstream_port p;
     lp_pending_streams := s |}.

Definition begin_streaming_request (id : Uuid) (method path : string) (headers : Headers)
    (p : LocalProxy) : LocalProxy :=
  with_streams p
    (<[id := {| sr_method := method; sr_path := path; sr_headers := headers; sr_body := [] |}]>
       (lp_pending_streams p)).

(** [Display for Uuid]. *)
Class UuidDisplay : Type := uuid_to_string : Uuid -> string.

Section Push.
Context `{U : UuidDisplay}.

Definition push_streaming_chunk (id : Uuid) (data : Bytes) (p : LocalProxy) :
    result unit * LocalProxy :=
  match lp_pending_streams p !! id with
  | None =>
      (Err (InvalidMessage ("chunk received for unknown request " +:+ uuid_to_string id)), p)
  | Some entry =>
      if STREAM_BUFFER_LIMIT <? len (sr_body entry) + len data then
        (Err (PayloadTooLarge (len (sr_body entry) + len data) STREAM_BUFFER_LIMIT), p)
      else
        (Ok tt, with_streams p
           (<[id := {| sr_method := sr_method entry; sr_path := sr_path entry;
                       sr_headers := sr_headers entry; sr_body := sr_body entry ++ data |}]>
              (lp_pending_streams p)))
  end.
End Push.

Definition finish_streaming_request (id : Uuid) (p : LocalProxy) :
    option (string * string * Headers * Bytes) * LocalProxy :=
  match lp_pending_streams p !! id with
  | Some r =>
      (Some (sr_method r, sr_path r, sr_headers r, sr_body r),
       with_streams p (delete id (lp_pending_streams p)))
  | None => (None, p)
  end.

(** * Forwarding to the local service *)

(** What is handed to the HTTP client. *)
Record OutboundRequest : Type := {
  or_method : string;
  or_uri : string;
  or_headers : list (string * string);
  or_body : Bytes;
}.

(** [hyper]: parsing of the method and of the URI, and the exchange with the
    service, response body included; each can fail with an error of its own. *)
Class Upstream : Type := {
  parse_method : string -> Result string string;
  parse_uri : string -> Result string string;
  exchange : OutboundRequest -> result Response;
}.

Section Forward.
Context `{L : HttpLib, U : Upstream}.

(** [ensure_host_header]. *)
Definition ensure_host_header (headers : list (string * string)) (host : string) :
    list (string * string) :=
  match header_get "host" headers with
  | Some _ => headers
  | None =>
      match header_value_parse host with
      | Some value => headers ++ [("host", value)]
      | None => headers
      end
  end.

Definition valid_headers (headers : Headers) : list (string * string) :=
  omap (fun h => n ← header_name_parse h.1; v ← header_value_parse h.2; Some (n, v)) headers.

Definition handle_http_request (p : LocalProxy) (id : Uuid) (method path : string)
    (headers : Headers) (body : Bytes) : result Message :=
  method ← map_err (parse_method method)
             (fun err => Config (Validation ("invalid HTTP method: " +:+ err)));
  let authority := lp_upstream_host p +:+ ":" +:+ fmt_uint (lp_upstream_port p) in
  uri ← map_err (parse_uri ("http://" +:+ authority +:+ path))
          (fun err => Config (Validation ("invalid request URI: " +:+ err)));
  response ← exchange {| or_method := method; or_uri := uri;
                         or_headers := ensure_host_header (valid_headers headers) authority;
                         or_body := body |};
  Ok (HttpResponse id (rs_status response)
        (omap (fun h => v ← header_value_to_str h.2; Some (h.1, v)) (rs_headers response))
        (rs_body response)).

(** The message a proxy task sends back. *)
Definition proxy_task_response (p : LocalProxy) (id : Uuid) (method path : string)
    (headers : Headers) (body : Bytes) : Message :=
  match handle_http_request p id method path headers body with
  | Ok resp => resp
  | Err err => HttpResponse id 502 [("x-expose-error", ExposeError_to_string err)] []
  end.
End Forward.
