(* ===== verification/Backoff.v ===== *)
(** Reconnection in [expose-client/src/tunnel.rs]: [ReconnectBackoff] and the
    loop of [run_with_token] over the sessions it runs. *)

From S2P Require Import Prelude RustStr Types Errors.

Local Open Scope N_scope.

(** * [ReconnectBackoff] *)

Record ReconnectBackoff : Type := {
  bo_attempt : N;
  bo_max_attempts : option N;
  bo_base_delay : Duration;
}.

Definition ReconnectBackoff_new (base_delay_ms max_attempts : N) : ReconnectBackoff :=
  {| bo_attempt := 0;
     bo_max_attempts := if max_attempts =? 0 then None else Some max_attempts;
     bo_base_delay := from_millis (N.max base_delay_ms 100) |}.

Definition reset (b : ReconnectBackoff) : ReconnectBackoff :=
  {| bo_attempt := 0; bo_max_attempts := bo_max_attempts b; bo_base_delay := bo_base_delay b |}.

(** [Duration::MAX]: [u64::MAX] seconds and 999_999_999 nanoseconds. *)
Definition duration_max : Duration := u64_max * 1000000000 + 999999999.

Definition exhausted (b : ReconnectBackoff) : bool :=
  match bo_max_attempts b with Some max => max <=? bo_attempt b | None => false end.

Definition next_delay (b : ReconnectBackoff) : option Duration * ReconnectBackoff :=
  if exhausted b then (None, b)
  else
    let exponent := N.min (bo_attempt b) 5 in
    let multiplier := N.shiftl 1 exponent in
    let b' := {| bo_attempt := saturating_add u32_max (bo_attempt b) 1;
                 bo_max_attempts := bo_max_attempts b; bo_base_delay := bo_base_delay b |} in
    let delay := default (from_secs 32) (checked_mul duration_max (bo_base_delay b) multiplier) in
    let cap := from_secs 32 in
    (Some (if cap <? delay then cap else delay), b').

(** * The reconnection loop *)

Inductive SessionResult : Type :=
| Shutdown (had_connection : bool)
| Reconnect (error : ExposeError) (had_connection : bool).

(** What one turn of the loop meets: whether the token is cancelled at its
    start, the session, and whether the token is cancelled after the session or
    during the delay. *)
Record Turn : Type := {
  tn_cancelled_before : bool;
  tn_session : bool -> SessionResult;
  tn_cancelled_after : bool;
  tn_cancelled_sleeping : bool;
}.

(** The result of the loop, [None] while it still runs, the delays it slept and
    the arguments [reconnecting] of its sessions. *)
Record LoopTrace : Type := {
  lt_result : option (result unit);
  lt_delays : list Duration;
  lt_sessions : list bool;
}.

Definition trace_sleep (d : Duration) (t : LoopTrace) : LoopTrace :=
  {| lt_result := lt_result t; lt_delays := d :: lt_delays t; lt_sessions := lt_sessions t |}.
Definition trace_session (r : bool) (t : LoopTrace) : LoopTrace :=
  {| lt_result := lt_result t; lt_delays := lt_delays t; lt_sessions := r :: lt_sessions t |}.
Definition trace_end (r : option (result unit)) : LoopTrace :=
  {| lt_result := r; lt_delays := []; lt_sessions := [] |}.

Fixpoint run_loop (turns : list Turn) (backoff : ReconnectBackoff) (has_connected : bool) :
    LoopTrace :=
  match turns with
  | [] => trace_end None
  | t :: rest =>
      if tn_cancelled_before t then trace_end (Some (Ok tt))
      else
        trace_session has_connected
          match tn_session t has_connected with
          | Shutdown _ => trace_end (Some (Ok tt))
          | Reconnect error had_connection =>
              if tn_cancelled_after t then trace_end (Some (Ok tt))
              else
                let has_connected := has_connected || had_connection in
                let backoff := if had_connection then reset backoff else backoff in
                match next_delay backoff with
                | (Some delay, backoff) =>
                    trace_sleep delay
                      (if tn_cancelled_sleeping t then trace_end (Some (Ok tt))
                       else run_loop rest backoff has_connected)
                | (None, _) => trace_end (Some (Err error))
                end
          end
  end.

Definition run_with_token (config : TunnelConfig) (turns : list Turn) : LoopTrace :=
  run_loop turns
    (ReconnectBackoff_new (tc_reconnect_base_delay_ms config)
       (tc_reconnect_max_attempts config)) false.

(** * Delays *)

(** The delay before the retry number [n], counted from zero. *)
Definition nth_delay (base : Duration) (n : N) : Duration :=
  N.min (base * 2 ^ N.min n 5) (from_secs 32).

Lemma next_delay_eq (b : ReconnectBackoff) :
  exhausted b = false ->
  next_delay b =
    (Some (nth_delay (bo_base_delay b) (bo_attempt b)),
     {| bo_attempt := saturating_add u32_max (bo_attempt b) 1;
        bo_max_attempts := bo_max_attempts b; bo_base_delay := bo_base_delay b |}).
Proof.
  intros He; unfold next_delay, nth_delay; rewrite He, N.shiftl_1_l. f_equal; f_equal.
  unfold checked_mul. case_decide as Hd; cbn [default].
  - unfold id. destruct (N.ltb_spec (from_secs 32) (bo_base_delay b * 2 ^ N.min (bo_attempt b) 5)); lia.
  - assert (from_secs 32 <= duration_max) by (vm_compute; congruence).
    rewrite N.ltb_irrefl. lia.
Qed.

Lemma nth_delay_bounds (ms n : N) :
  from_millis 100 <= nth_delay (from_millis (N.max ms 100)) n <= from_secs 32.
Proof.
  unfold nth_delay, from_millis, from_secs.
  assert (1 <= 2 ^ N.min n 5) by (apply N.lt_pred_le, N.neq_0_lt_0, N.pow_nonzero; done).
  nia.
Qed.

(** The schedule of delays of [k] failures in a row. *)
Fixpoint delays (k : nat) (b : ReconnectBackoff) : list (option Duration) :=
  match k with
  | O => []
  | S k' => let '(d, b') := next_delay b in d :: delays k' b'
  end.

Definition at_attempt (ms max_attempts n : N) : ReconnectBackoff :=
  {| bo_attempt := n;
     bo_max_attempts := if max_attempts =? 0 then None else Some max_attempts;
     bo_base_delay := from_millis (N.max ms 100) |}.

Lemma at_attempt_step (ms max_attempts n : N) :
  n < u32_max -> (max_attempts = 0 \/ n < max_attempts) ->
  next_delay (at_attempt ms max_attempts n) =
    (Some (nth_delay (from_millis (N.max ms 100)) n), at_attempt ms max_attempts (n + 1)).
Proof.
  intros Hn Hm. rewrite next_delay_eq; cbn.
  - unfold saturating_add. rewrite N.min_l by lia. done.
  - unfold exhausted; cbn. destruct (N.eqb_spec max_attempts 0); [done|]. apply N.leb_gt. lia.
Qed.

(** The backoff gives the delays base * 2^n, at least 100 ms and at most 32
    seconds, non-decreasing, for as many retries as configured and then no
    more; with [max_attempts] zero it never stops. *)
Theorem backoff_schedule (ms max_attempts : N) (k : nat) :
  N.of_nat k < u32_max ->
  let b := ReconnectBackoff_new ms max_attempts in
  (max_attempts = 0 \/ N.of_nat k <= max_attempts ->
   delays k b =
     (fun n => Some (nth_delay (from_millis (N.max ms 100)) (N.of_nat n))) <$> seq 0 k) /\
  (max_attempts <> 0 -> N.of_nat k = max_attempts ->
   last (delays (S k) b) = Some None) /\
  (forall n, from_millis 100 <= nth_delay (from_millis (N.max ms 100)) n <= from_secs 32) /\
  (forall n n', n <= n' -> nth_delay (from_millis (N.max ms 100)) n
                             <= nth_delay (from_millis (N.max ms 100)) n').
Proof.
  intros Hk b.
  assert (forall j n, n + N.of_nat j < u32_max ->
            max_attempts = 0 \/ n + N.of_nat j <= max_attempts ->
            delays j (at_attempt ms max_attempts n) =
              (fun i => Some (nth_delay (from_millis (N.max ms 100)) (N.of_nat i)))
                <$> seq (N.to_nat n) j) as Hd.
  { induction j as [|j IH]; intros n Hn Hm; [done|]; cbn [delays seq fmap list_fmap].
    rewrite at_attempt_step by lia. rewrite IH by lia. rewrite N2Nat.id.
    do 3 f_equal; lia. }
  split_and!.
  - intros Hm. apply (Hd k 0); lia.
  - intros Hne He.
    assert (forall j n, n + N.of_nat j = max_attempts -> max_attempts < u32_max ->
              last (delays (S j) (at_attempt ms max_attempts n)) = Some None) as Hl;
      [|apply (Hl k 0); lia].
    induction j as [|j IH]; intros n Hn Hlt.
    + cbn [delays]. unfold next_delay, exhausted; cbn.
      destruct (N.eqb_spec max_attempts 0); [done|]. destruct (N.leb_spec max_attempts n); [done | lia].
    + cbn [delays]. rewrite at_attempt_step by lia. specialize (IH (n + 1)).
      cbn [delays] in IH. destruct (next_delay (at_attempt ms max_attempts (n + 1))) as [d b'].
      rewrite last_cons_cons. apply IH; lia.
  - intros n; apply nth_delay_bounds.
  - intros n n' Hn. unfold nth_delay. apply N.min_le_compat_r, N.mul_le_mono_l, N.pow_le_mono_r; lia.
Qed.

(** * The loop *)

(** A turn in which the server could not be reached and nobody cancels. *)
Definition unreachable (error : ExposeError) (t : Turn) : Prop :=
  tn_cancelled_before t = false /\ tn_cancelled_after t = false /\
  tn_cancelled_sleeping t = false /\
  forall reconnecting, tn_session t reconnecting = Reconnect error false.

Lemma loop_fails (ms max_attempts : N) (has_connected : bool) :
  max_attempts <> 0 -> max_attempts < u32_max ->
  forall turns errors n,
    Forall2 unreachable errors turns ->
    n + len errors = max_attempts + 1 -> n <= max_attempts ->
    let t := run_loop turns (at_attempt ms max_attempts n) has_connected in
    (exists e, last errors = Some e /\ lt_result t = Some (Err e)) /\
    len (lt_sessions t) = len errors /\ len (lt_delays t) + 1 = len errors.
Proof.
  intros Hne Hlt turns errors n Hf; revert n.
  induction Hf as [|e t errors turns (H1 & H2 & H3 & H4) Hf IH]; intros n Hn Hle;
    [unfold len in Hn; cbn in Hn; lia|].
  assert (len (e :: errors) = len errors + 1) as Hlen by (unfold len; cbn; lia).
  rewrite Hlen in Hn. cbn [run_loop]. rewrite H1, H4, H2, orb_false_r.
  destruct (N.eqb_spec n max_attempts) as [->|Hnm].
  - assert (len errors = 0) as Hz by lia. destruct errors; [|unfold len in Hz; cbn in Hz; lia].
    unfold next_delay, exhausted; cbn. destruct (N.eqb_spec max_attempts 0); [done|].
    rewrite N.leb_refl; cbn. split; [eauto | done].
  - rewrite at_attempt_step by lia. rewrite H3; cbn.
    destruct (IH (n + 1)) as ((e' & Hl & Hr) & Hs & Hd); [lia..|].
    split; [|unfold len in *; cbn; lia].
    exists e'; split; [|done]. destruct errors; [done|]. by rewrite last_cons_cons.
Qed.

(** C36: with a limit of [n] attempts and a server that cannot be reached, the
    client runs exactly [n + 1] sessions and sleeps [n] times, then gives up
    with the last error; it never spins and never stops early.  A session that
    was connected starts the backoff afresh, so the limit counts failures in a
    row. *)
Theorem run_with_token_spec (config : TunnelConfig) (turns : list Turn)
    (errors : list ExposeError) :
  let n := tc_reconnect_max_attempts config in
  n <> 0 -> n < u32_max -> Forall2 unreachable errors turns -> len errors = n + 1 ->
  let t := run_with_token config turns in
  (exists e, last errors = Some e /\ lt_result t = Some (Err e)) /\
  len (lt_sessions t) = n + 1 /\ len (lt_delays t) = n /\
  (forall connected error has_connected rest k,
     tn_cancelled_before connected = false -> tn_cancelled_after connected = false ->
     tn_cancelled_sleeping connected = false ->
     tn_session connected has_connected = Reconnect error true ->
     run_loop (connected :: rest)
       (at_attempt (tc_reconnect_base_delay_ms config) n k) has_connected =
     trace_session has_connected
       (trace_sleep (from_millis (N.max (tc_reconnect_base_delay_ms config) 100)
                     `min` from_secs 32)%N
          (run_loop rest (at_attempt (tc_reconnect_base_delay_ms config) n 1) true))).
Proof.
  intros n Hne Hlt Hf Hlen.
  destruct (loop_fails (tc_reconnect_base_delay_ms config) n false Hne Hlt turns errors 0 Hf)
    as (He & Hs & Hd); [lia..|].
  split_and!; [exact He | by rewrite <- Hlen | unfold run_with_token; change (ReconnectBackoff_new
    (tc_reconnect_base_delay_ms config) (tc_reconnect_max_attempts config)) with
    (at_attempt (tc_reconnect_base_delay_ms config) n 0); lia |].
  intros connected error has_connected rest k H1 H2 H3 H4. cbn [run_loop].
  rewrite H1, H4, H2, orb_true_r.
  change (reset (at_attempt (tc_reconnect_base_delay_ms config) n k)) with
    (at_attempt (tc_reconnect_base_delay_ms config) n 0).
  rewrite at_attempt_step by lia. rewrite H3. unfold nth_delay. by rewrite N.mul_1_r.
Qed.
