(* ===== verification/ClientConfig.v ===== *)
(** The client's command line and configuration, [expose-client/src/cli.rs],
    [config.rs] and [client.rs]: the arguments that were parsed, the file
    settings, and the runtime configuration made of both.

    Reading a file, parsing TOML and parsing a URL are functions given to the
    definitions, with the error text of the library. *)

From S2P Require Import Prelude RustStr Types Errors Utils.

Local Open Scope N_scope.

(** * Command line *)

(** What [clap] made of the arguments; the host of a command is its default
    value when the argument is not given. *)
Inductive Command : Type :=
| CmdHttp (port : N) (host : string)
| CmdTcp (port : N) (host : string)
| CmdMulti (config : string).

Definition default_host : string := "127.0.0.1".

Record Cli : Type := {
  cli_config : option string;
  cli_server : option string;
  cli_api_key : option string;
  cli_subdomain : option string;
  cli_reconnect_attempts : option N;
  cli_reconnect_base_delay_ms : option N;
  cli_command : Command;
}.

Inductive CliError : Type :=
| InvalidPort (message : string)
| InvalidConfig (message : string).

Definition CliError_fmt (e : CliError) : string :=
  match e with
  | InvalidPort msg => "Invalid port: " +:+ msg
  | InvalidConfig msg => "Configuration error: " +:+ msg
  end.

(** [Command::validate]; [exists_file] is [Path::exists]. *)
Definition command_validate (exists_file : string -> bool) (c : Command) : Result CliError unit :=
  match c with
  | CmdHttp port _ => if port =? 0 then Err (InvalidPort "port cannot be 0") else Ok tt
  | CmdTcp port _ => if port =? 0 then Err (InvalidPort "port cannot be 0") else Ok tt
  | CmdMulti config =>
      if negb (exists_file config) then
        Err (InvalidConfig ("multi config file '" +:+ config +:+ "' not found"))
      else Ok tt
  end.

(** * Configuration files *)

Record FileConfig : Type := {
  fc_server_url : option string;
  fc_api_key : option string;
  fc_local_host : option string;
  fc_local_port : option N;
  fc_protocol : option TunnelProtocol;
  fc_subdomain : option string;
  fc_reconnect_max_attempts : option N;
  fc_reconnect_base_delay_ms : option N;
  fc_tcp_tuning : option TcpTuningConfig;
}.

Definition FileConfig_default : FileConfig :=
  {| fc_server_url := None; fc_api_key := None; fc_local_host := None; fc_local_port := None;
     fc_protocol := None; fc_subdomain := None; fc_reconnect_max_attempts := None;
     fc_reconnect_base_delay_ms := None; fc_tcp_tuning := None |}.

Record MultiFileTunnel : Type := {
  mf_name : option string;
  mf_protocol : option TunnelProtocol;
  mf_local_host : option string;
  mf_local_port : N;
  mf_subdomain : option string;
}.

Record MultiFileConfig : Type := {
  mfc_server_url : option string;
  mfc_api_key : option string;
  mfc_reconnect_max_attempts : option N;
  mfc_reconnect_base_delay_ms : option N;
  mfc_tunnels : list MultiFileTunnel;
}.

Record MultiRuntimeConfig : Type := {
  mrc_server_url : string;
  mrc_api_key : option string;
  mrc_reconnect_max_attempts : N;
  mrc_reconnect_base_delay_ms : N;
  mrc_tunnels : list TunnelConfig;
}.

Definition validation_error (msg : string) : ExposeError := Config (Validation msg).

(** The file system, [toml] and [url], as the client uses them. *)
Class ClientLibs : Type := {
  read_to_string : string -> Result IoError string;
  parse_file_config : string -> Result string FileConfig;
  parse_multi_config : string -> Result string MultiFileConfig;
  parse_url : string -> Result string unit;
}.

Section Config.
Context `{F : ClientLibs}.

Definition load_file (path : option string) : result FileConfig :=
  match path with
  | Some path =>
      contents ← map_err (read_to_string path) (fun err => Config (FileRead err));
      map_err (parse_file_config contents) (fun err => Config (Parse err))
  | None => Ok FileConfig_default
  end.

(** [a.or(b)]. *)
Definition or_else {A : Type} (a b : option A) : option A :=
  match a with Some x => Some x | None => b end.

(** The host of the command, unless it is the default and the file names one. *)
Definition choose_host (command_host : string) (file_host : option string) : string :=
  if String.eqb command_host default_host then default command_host file_host
  else command_host.

Definition invalid_subdomain (subdomain : string) : ExposeError :=
  validation_error ("Subdomain '" +:+ subdomain +:+ "' is invalid. Use lowercase letters, numbers, and hyphens (e.g., 'my-app').").

(** Protocol, port and host of the command. *)
Definition command_settings (c : Command) : result (TunnelProtocol * N * string) :=
  match c with
  | CmdHttp port host => Ok (Http, port, host)
  | CmdTcp port host => Ok (Tcp, port, host)
  | CmdMulti _ =>
      Err (validation_error "multi command relies on --config file; use that instead of single-tunnel options")
  end.

Definition requested_subdomain (requested : option string) : result (option string) :=
  match requested with
  | Some subdomain =>
      s ← ok_or (sanitize_subdomain subdomain) (invalid_subdomain subdomain); Ok (Some s)
  | None => Ok (tc_subdomain TunnelConfig_default)
  end.

Definition build_runtime_config (cli : Cli) : result TunnelConfig :=
  file_cfg ← load_file (cli_config cli);
  let server_url :=
    default (tc_server_url TunnelConfig_default)
      (or_else (cli_server cli) (fc_server_url file_cfg)) in
  let api_key := or_else (cli_api_key cli) (fc_api_key file_cfg) in
  '(protocol, port, command_host) ← command_settings (cli_command cli);
  subdomain ← requested_subdomain (or_else (cli_subdomain cli) (fc_subdomain file_cfg));
  _ ← map_err (parse_url server_url)
        (fun err => validation_error ("Invalid server URL: " +:+ err));
  Ok {| tc_protocol := protocol;
        tc_local_host := choose_host command_host (fc_local_host file_cfg);
        tc_local_port := port;
        tc_subdomain := subdomain;
        tc_server_url := server_url;
        tc_api_key := api_key;
        tc_reconnect_max_attempts :=
          default (tc_reconnect_max_attempts TunnelConfig_default)
            (or_else (cli_reconnect_attempts cli) (fc_reconnect_max_attempts file_cfg));
        tc_reconnect_base_delay_ms :=
          match or_else (cli_reconnect_base_delay_ms cli) (fc_reconnect_base_delay_ms file_cfg) with
          | Some base_delay => N.max base_delay 100
          | None => tc_reconnect_base_delay_ms TunnelConfig_default
          end;
        tc_tcp_tuning := default (tc_tcp_tuning TunnelConfig_default) (fc_tcp_tuning file_cfg) |}.

(** * Several tunnels *)

Definition invalid_multi_subdomain (raw : string) : ExposeError :=
  validation_error ("Subdomain '" +:+ raw +:+ "' is invalid. Use lowercase letters, numbers, and hyphens.").

Definition multi_tunnel (server_url : string) (api_key : option string)
    (entry : MultiFileTunnel) : result TunnelConfig :=
  subdomain ←
    match mf_subdomain entry with
    | Some raw =>
        s ← ok_or (sanitize_subdomain raw) (invalid_multi_subdomain raw); Ok (Some s)
    | None => Ok None
    end;
  Ok {| tc_protocol := default Http (mf_protocol entry);
        tc_local_host := default "127.0.0.1" (mf_local_host entry);
        tc_local_port := mf_local_port entry;
        tc_subdomain := subdomain;
        tc_server_url := server_url;
        tc_api_key := api_key;
        tc_reconnect_max_attempts := tc_reconnect_max_attempts TunnelConfig_default;
        tc_reconnect_base_delay_ms := tc_reconnect_base_delay_ms TunnelConfig_default;
        tc_tcp_tuning := tc_tcp_tuning TunnelConfig_default |}.

(** The loop over the entries: the first bad one ends it. *)
Fixpoint multi_tunnels (server_url : string) (api_key : option string)
    (entries : list MultiFileTunnel) : result (list TunnelConfig) :=
  match entries with
  | [] => Ok []
  | entry :: rest =>
      cfg ← multi_tunnel server_url api_key entry;
      cfgs ← multi_tunnels server_url api_key rest;
      Ok (cfg :: cfgs)
  end.

Definition load_multi_runtime_config (path : string) : result MultiRuntimeConfig :=
  contents ← map_err (read_to_string path) (fun err => Config (FileRead err));
  file_cfg ← map_err (parse_multi_config contents) (fun err => Config (Parse err));
  server_url ← ok_or (mfc_server_url file_cfg)
                     (validation_error "server_url must be set for multi tunnels");
  tunnels ← multi_tunnels server_url (mfc_api_key file_cfg) (mfc_tunnels file_cfg);
  match tunnels with
  | [] => Err (validation_error "multi config must list at least one tunnel")
  | _ :: _ =>
      Ok {| mrc_server_url := server_url;
            mrc_api_key := mfc_api_key file_cfg;
            mrc_reconnect_max_attempts := default 0 (mfc_reconnect_max_attempts file_cfg);
            mrc_reconnect_base_delay_ms := default 1000 (mfc_reconnect_base_delay_ms file_cfg);
            mrc_tunnels := tunnels |}
  end.

(** * [client::run] and [main]: what is run, or the text on stderr *)

Inductive ClientRuntime : Type :=
| RunSingle (config : TunnelConfig)
| RunMulti (config : MultiRuntimeConfig).

Definition client_run (cli : Cli) : result ClientRuntime :=
  match cli_command cli with
  | CmdMulti path => RunMulti <$> load_multi_runtime_config path
  | _ => RunSingle <$> build_runtime_config cli
  end.

Definition client_main (exists_file : string -> bool) (cli : Cli) : Result string ClientRuntime :=
  match command_validate exists_file (cli_command cli) with
  | Err err => Err ("Error: " +:+ CliError_fmt err)
  | Ok _ => map_err (client_run cli) (fun err => "error: " +:+ ExposeError_to_string err)
  end.
End Config.

(** * What the configuration guarantees *)

Section ConfigSpec.
Context `{F : ClientLibs}.

(** A setting with a value on the command line, one in the file and a default:
    the first there is wins. *)
Definition layered {A : Type} (cli file : option A) (dflt value : A) : Prop :=
  match cli, file with
  | Some x, _ => value = x
  | None, Some y => value = y
  | None, None => value = dflt
  end.

Lemma layered_default {A : Type} (cli file : option A) (dflt : A) :
  layered cli file dflt (default dflt (or_else cli file)).
Proof. by destruct cli, file. Qed.

Definition command_target (c : Command) : option (TunnelProtocol * N * string) :=
  match c with
  | CmdHttp port host => Some (Http, port, host)
  | CmdTcp port host => Some (Tcp, port, host)
  | CmdMulti _ => None
  end.

(** What the configuration file says: nothing without a file, else what its
    text parses to. *)
Definition file_says (path : option string) (file : FileConfig) : Prop :=
  match path with
  | None => file = FileConfig_default
  | Some path => exists contents, read_to_string path = Ok contents /\
                   parse_file_config contents = Ok file
  end.

(** Why it cannot be loaded. *)
Definition file_fails (path : option string) (e : ConfigError) : Prop :=
  exists p, path = Some p /\
    ((exists err, read_to_string p = Err err /\ e = FileRead err) \/
     exists contents text, read_to_string p = Ok contents /\ parse_file_config contents = Err text /\
       e = Parse text).

Lemma load_file_spec (path : option string) :
  match load_file path with
  | Ok file => file_says path file
  | Err e => exists ce, e = Config ce /\ file_fails path ce
  end.
Proof.
  unfold load_file, file_says, file_fails. destruct path as [path|]; [|done].
  destruct (read_to_string path) as [contents|err] eqn:Hr; cbn;
    [|eexists; split; [done|]; by eauto 8].
  destruct (parse_file_config contents) eqn:Hp; cbn; [by eauto|].
  eexists; split; [done|]. by eauto 10.
Qed.

(** The subdomain that is asked for, and its sanitized form, if it has one. *)
Definition subdomain_asked (cli file asked : option string) : Prop :=
  layered (Some <$> cli) (Some <$> file) None asked.

Definition subdomain_granted (asked granted : option string) : Prop :=
  match asked with
  | None => granted = None
  | Some raw => exists s, sanitize_subdomain raw = Some s /\ granted = Some s /\ valid_label s
  end.

Lemma or_else_asked (cli file : option string) : subdomain_asked cli file (or_else cli file).
Proof. by destruct cli, file. Qed.

Lemma requested_subdomain_spec (asked : option string) :
  match requested_subdomain asked with
  | Ok sub => subdomain_granted asked sub
  | Err e => exists raw, asked = Some raw /\ sanitize_subdomain raw = None /\ e = invalid_subdomain raw
  end.
Proof.
  unfold requested_subdomain, subdomain_granted. destruct asked as [raw|]; [|done].
  destruct (sanitize_subdomain raw) as [s|] eqn:Hs; cbn; [by eauto 6 with expose | by eauto].
Qed.

Lemma command_settings_spec (c : Command) :
  match command_settings c with
  | Ok target => command_target c = Some target
  | Err e => command_target c = None /\
      e = Config (Validation "multi command relies on --config file; use that instead of single-tunnel options")
  end.
Proof. by destruct c. Qed.

(** C22: the runtime configuration: protocol and port come from the command alone;
    the server, the key, the subdomain and the reconnection settings from the
    command line, else the file, else the default; a subdomain that is asked
    for is given in its sanitized form, a valid DNS label; the delay is at least
    100 ms when one is given; the URL parses.  A host given as the default
    127.0.0.1 does not override the file.  Otherwise the error is the first of
    these, in this order: the file cannot be read or parsed, the command is
    [multi], the subdomain that is asked for has no sanitized form, the URL does
    not parse; each with its text. *)
Theorem build_runtime_config_spec (cli : Cli) :
  match build_runtime_config cli with
  | Ok cfg =>
      exists file host asked, file_says (cli_config cli) file /\
        command_target (cli_command cli) = Some (tc_protocol cfg, tc_local_port cfg, host) /\
        tc_local_host cfg =
          (if decide (host = "127.0.0.1") then default "127.0.0.1" (fc_local_host file) else host) /\
        layered (cli_server cli) (fc_server_url file) "wss://tunnel.example.com" (tc_server_url cfg) /\
        parse_url (tc_server_url cfg) = Ok tt /\
        layered (Some <$> cli_api_key cli) (Some <$> fc_api_key file) None (tc_api_key cfg) /\
        subdomain_asked (cli_subdomain cli) (fc_subdomain file) asked /\
        subdomain_granted asked (tc_subdomain cfg) /\
        layered (cli_reconnect_attempts cli) (fc_reconnect_max_attempts file) 10
          (tc_reconnect_max_attempts cfg) /\
        layered (N.max 100 <$> cli_reconnect_base_delay_ms cli)
          (N.max 100 <$> fc_reconnect_base_delay_ms file) 1000 (tc_reconnect_base_delay_ms cfg) /\
        layered None (fc_tcp_tuning file) TcpTuningConfig_default (tc_tcp_tuning cfg)
  | Err e =>
      exists ce, e = Config ce /\
      (file_fails (cli_config cli) ce \/
       exists file, file_says (cli_config cli) file /\
         ((command_target (cli_command cli) = None /\
           ce = Validation "multi command relies on --config file; use that instead of single-tunnel options") \/
          is_Some (command_target (cli_command cli)) /\
          exists asked, subdomain_asked (cli_subdomain cli) (fc_subdomain file) asked /\
            ((exists raw, asked = Some raw /\ sanitize_subdomain raw = None /\
                ce = Validation ("Subdomain '" +:+ raw +:+ "' is invalid. Use lowercase letters, numbers, and hyphens (e.g., 'my-app').")) \/
             (exists granted, subdomain_granted asked granted) /\
             exists url text,
               layered (cli_server cli) (fc_server_url file) "wss://tunnel.example.com" url /\
               parse_url url = Err text /\ ce = Validation ("Invalid server URL: " +:+ text))))
  end.
Proof.
  unfold build_runtime_config. pose proof (load_file_spec (cli_config cli)) as Hf.
  destruct (load_file (cli_config cli)) as [file|e];
    cbn -[default command_settings requested_subdomain];
    [|destruct Hf as (ce & -> & Hf); exists ce; split; [done | by left]].
  pose proof (command_settings_spec (cli_command cli)) as Ht.
  destruct (command_settings _) as [[[protocol port] host]|e];
    cbn -[default requested_subdomain];
    [|destruct Ht as [Ht ->]; eexists; split; [done|]; right; by eauto 6].
  pose proof (or_else_asked (cli_subdomain cli) (fc_subdomain file)) as Ha.
  pose proof (requested_subdomain_spec (or_else (cli_subdomain cli) (fc_subdomain file))) as Hs.
  set (asked := or_else (cli_subdomain cli) (fc_subdomain file)) in *.
  pose proof (layered_default (cli_server cli) (fc_server_url file) "wss://tunnel.example.com") as Hurl.
  destruct (requested_subdomain _) as [sub|e]; cbn -[default sanitize_subdomain];
    [|destruct Hs as (raw & ? & ? & ->); eexists; split; [done|]; right; exists file;
      split; [done|]; right; by eauto 10].
  destruct (parse_url _) as [[]|text] eqn:Hu; cbn -[default sanitize_subdomain];
    [|eexists; split; [done|]; right; exists file; split; [done|]; right;
      split; [by eauto|]; exists asked; split; [done|]; right; by eauto 10].
  exists file, host, asked. split_and!; try done; try apply layered_default.
  - unfold choose_host, default_host. destruct (String.eqb_spec host "127.0.0.1") as [->|Hn];
      case_decide; done.
  - by destruct (cli_api_key cli), (fc_api_key file).
  - destruct (cli_reconnect_base_delay_ms cli), (fc_reconnect_base_delay_ms file);
      cbn -[N.max]; by rewrite ?(N.max_comm 100).
  - by destruct (fc_tcp_tuning file).
Qed.

(** * Several tunnels *)

Lemma multi_tunnels_Ok (url : string) (key : option string) (entries : list MultiFileTunnel)
    (cfgs : list TunnelConfig) :
  multi_tunnels url key entries = Ok cfgs <->
  Forall2 (fun entry cfg => multi_tunnel url key entry = Ok cfg) entries cfgs.
Proof.
  revert cfgs; induction entries as [|entry entries IH]; intros cfgs; cbn.
  - split; [by intros [= <-] | intros Hn; by inversion Hn].
  - rewrite bind_Ok. split.
    + intros (cfg & Hc & (rest & Hr & [= <-])%bind_Ok). constructor; [done | by apply IH].
    + intros Hf; inversion Hf as [|? cfg ? rest Hc Hr]; subst. exists cfg; split; [done|].
      apply bind_Ok. exists rest; split; [by apply IH | done].
Qed.

(** The first entry that fails decides the error. *)
Lemma multi_tunnels_Err (url : string) (key : option string) (entries : list MultiFileTunnel)
    (e : ExposeError) :
  multi_tunnels url key entries = Err e <->
  exists before entry rest cfgs, entries = before ++ entry :: rest /\
    Forall2 (fun entry cfg => multi_tunnel url key entry = Ok cfg) before cfgs /\
    multi_tunnel url key entry = Err e.
Proof.
  induction entries as [|entry entries IH]; cbn.
  - split; [done|]. intros (before & entry & rest & cfgs & Hn & _). by destruct before.
  - rewrite bind_Err. split.
    + intros [He|(cfg & Hc & [He|(? & _ & ?)]%bind_Err)]; [by exists [], entry, entries, [] | | done].
      apply IH in He as (before & x & rest & cfgs & -> & Hb & Hx).
      exists (entry :: before), x, rest, (cfg :: cfgs). split_and!; [done | by constructor | done].
    + intros (before & x & rest & cfgs & Hn & Hb & Hx). destruct Hb as [|b c before cfgs Hbc Hb].
      * injection Hn as -> _. by left.
      * injection Hn as -> ->. right. exists c; split; [done|]. apply bind_Err. left.
        apply IH. by exists before, x, rest, cfgs.
Qed.

Lemma multi_tunnel_Ok (url : string) (key : option string) (entry : MultiFileTunnel)
    (cfg : TunnelConfig) :
  multi_tunnel url key entry = Ok cfg ->
  tc_server_url cfg = url /\ tc_api_key cfg = key /\ tc_local_port cfg = mf_local_port entry /\
  tc_protocol cfg = default Http (mf_protocol entry) /\
  tc_local_host cfg = default "127.0.0.1" (mf_local_host entry) /\
  tc_subdomain cfg = mf_subdomain entry ≫= sanitize_subdomain /\
  (is_Some (mf_subdomain entry) -> is_Some (tc_subdomain cfg)) /\
  (forall s, tc_subdomain cfg = Some s -> valid_label s).
Proof.
  unfold multi_tunnel. destruct (mf_subdomain entry) as [raw|]; cbn -[sanitize_subdomain].
  - destruct (sanitize_subdomain raw) as [s|] eqn:Hs; cbn; [|done]. intros [= <-]; cbn.
    split_and!; try done. intros ? [= <-]; eauto with expose.
  - intros [= <-]; cbn. by split_and!.
Qed.

(** A multi-tunnel file is loaded whole or not at all.  When it is, there is
    at least one tunnel, exactly one per entry and in order, each with the
    common server and key, the entry's port and a valid DNS label for the
    subdomain the entry asks for; one unacceptable subdomain rejects the file
    with the first such name, also when nothing else is wrong; and a file
    without a server or without entries is rejected. *)
Theorem load_multi_spec (path contents : string) (file : MultiFileConfig) :
  read_to_string path = Ok contents -> parse_multi_config contents = Ok file ->
  match load_multi_runtime_config path with
  | Ok cfg =>
      mfc_server_url file = Some (mrc_server_url cfg) /\ mrc_tunnels cfg <> [] /\
      mrc_reconnect_max_attempts cfg = default 0 (mfc_reconnect_max_attempts file) /\
      Forall2 (fun entry t =>
        tc_server_url t = mrc_server_url cfg /\ tc_api_key t = mfc_api_key file /\
        tc_local_port t = mf_local_port entry /\
        tc_protocol t = default Http (mf_protocol entry) /\
        tc_local_host t = default "127.0.0.1" (mf_local_host entry) /\
        tc_subdomain t = mf_subdomain entry ≫= sanitize_subdomain /\
        (is_Some (mf_subdomain entry) -> is_Some (tc_subdomain t)) /\
        (forall s, tc_subdomain t = Some s -> valid_label s))
        (mfc_tunnels file) (mrc_tunnels cfg)
  | Err e =>
      mfc_server_url file = None \/ mfc_tunnels file = [] \/
      exists before entry rest raw, mfc_tunnels file = before ++ entry :: rest /\
        Forall (fun b => forall r, mf_subdomain b = Some r -> is_Some (sanitize_subdomain r)) before /\
        mf_subdomain entry = Some raw /\ sanitize_subdomain raw = None /\
        e = invalid_multi_subdomain raw
  end.
Proof.
  intros Hr Hp. unfold load_multi_runtime_config. rewrite Hr; cbn. rewrite Hp; cbn.
  destruct (mfc_server_url file) as [url|]; cbn; [|by left].
  destruct (multi_tunnels url (mfc_api_key file) (mfc_tunnels file)) as [cfgs|e] eqn:Ht; cbn.
  - apply multi_tunnels_Ok in Ht. destruct Ht as [|entry cfg entries cfgs Hc Ht]; cbn; [by right; left|].
    split_and!; try done. constructor; [by apply multi_tunnel_Ok|].
    eapply (Forall2_impl _ _ _ _ Ht). intros; by apply multi_tunnel_Ok.
  - right; right. apply multi_tunnels_Err in Ht as (before & entry & rest & cfgs & Heq & Hb & He).
    unfold multi_tunnel in He. destruct (mf_subdomain entry) as [raw|] eqn:Hs; cbn -[sanitize_subdomain] in He; [|done].
    destruct (sanitize_subdomain raw) as [s|] eqn:Hn; cbn in He; [done|].
    exists before, entry, rest, raw. split_and!; [done | | done | done | by injection He].
    clear Heq. induction Hb as [|b c before cfgs Hbc Hb IH]; constructor; [|done].
    intros r Hbr. apply multi_tunnel_Ok in Hbc as (_ & _ & _ & _ & _ & Hsub & His & _).
    rewrite Hbr in Hsub, His; cbn in Hsub. rewrite <- Hsub. apply His. by eexists.
Qed.
End ConfigSpec.
