(* ===== verification/ClientTunnel.v ===== *)
(** The client's tunnel of [expose-client/src/tunnel.rs] and
    [expose-client/src/tcp_proxy.rs]: the handshake, the handling of frames and
    the loop of one session.

    A websocket is the sequence of what its reader yields and of what was sent;
    tasks that are spawned are effects of the step that spawns them, and the
    messages they later send are functions of their own. *)

From Stdlib Require Import Ascii.
From S2P Require Import Prelude RustStr Types Errors Utils Protocol WebSocket Http LocalProxy.

Local Open Scope N_scope.

(** * Outgoing frames *)

Inductive Outgoing : Type :=
| OutProtocol (message : Message)
| OutRaw (frame : WsMessage).

(** * Errors reported by the server *)

(** The text from a byte offset on that [find] returned. *)
Definition version_needle : string := "server version ".

Definition parse_server_version (message : string) : option N :=
  at_needle ← str_find version_needle message;
  let start := (at_needle + String.length version_needle)%nat in
  let digits := str_take_while is_ascii_digit (str_drop start message) in
  if String.eqb digits EmptyString then None else parse_uint u16_max digits.

Definition version_mismatch_error (message : string) : ExposeError :=
  VersionMismatch PROTOCOL_VERSION (default PROTOCOL_VERSION (parse_server_version message)).

Definition protocol_error_from_message (code : ErrorCode) (message : string) : ExposeError :=
  match code with
  | AuthenticationFailed => Authentication message
  | SubdomainUnavailable => SubdomainTaken message
  | RateLimitExceeded => CapacityExceeded message
  | ProtocolMismatch => version_mismatch_error message
  | _ => Internal message
  end.

(** * The banner's URL *)

Definition display_scheme (r : ConnectResponse) : string :=
  if String.eqb (ca_public_scheme r) EmptyString then
    match ca_tunnel_protocol r with Http => "http" | Tcp => "tcp" end
  else ca_public_scheme r.

Definition display_port_suffix (scheme : string) (port : option N) : string :=
  match port with
  | Some port =>
      if String.eqb scheme "https" && negb (port =? 443) then ":" +:+ fmt_uint port
      else if String.eqb scheme "http" && negb (port =? 80) then ":" +:+ fmt_uint port
      else if String.eqb scheme "tcp" then ":" +:+ fmt_uint port
      else EmptyString
  | None => EmptyString
  end.

Definition compute_display_url (r : ConnectResponse) : string :=
  if negb (String.eqb (ca_public_url r) EmptyString) then ca_public_url r
  else
    let scheme := display_scheme r in
    scheme +:+ "://" +:+ ca_assigned_subdomain r +:+ "." +:+ ca_domain r
      +:+ display_port_suffix scheme (ca_public_port r).

(** * The handshake *)

(** How far a handshake got, and the frames it sent. *)
Record Handshake : Type := {
  hs_result : option (result ConnectResponse);
  hs_sent : list WsMessage;
}.

Definition hs_done (r : result ConnectResponse) (sent : list WsMessage) : Handshake :=
  {| hs_result := Some r; hs_sent := sent |}.

Definition close_reason (reason : option string) : string :=
  match reason with
  | Some r => if String.eqb r EmptyString then "no reason provided" else r
  | None => "no reason provided"
  end.

Section Handshake.
Context `{B : BincodeCodec}.

(** [write] is the outcome of sending the n-th frame. *)
Context (write : nat -> Result string unit).

Fixpoint await_ack (incoming : list Incoming) (sent : list WsMessage) : Handshake :=
  match incoming with
  | [] => hs_done (Err (network "Connection closed before the server acknowledged the tunnel")) sent
  | InError err :: _ => hs_done (Err (network ("Failed to read handshake response: " +:+ err))) sent
  | InFrame frame :: rest =>
      match frame with
      | WsBinary payload =>
          match decode payload with
          | Err e => hs_done (Err e) sent
          | Ok (ConnectAck ack) => hs_done (Ok ack) sent
          | Ok (Error ProtocolMismatch message) =>
              hs_done (Err (version_mismatch_error message)) sent
          | Ok (Error code message) =>
              hs_done (Err (protocol_error_from_message code message)) sent
          | Ok _ => await_ack rest sent
          end
      | WsPing payload =>
          match write (length sent) with
          | Err err =>
              hs_done (Err (network ("Failed to respond to WebSocket ping: " +:+ err))) sent
          | Ok _ => await_ack rest (sent ++ [WsPong payload])
          end
      | WsClose reason =>
          hs_done (Err (network ("Server closed connection during handshake: "
                                 +:+ close_reason reason
                                 +:+ ". Verify your API key and requested subdomain."))) sent
      | _ => await_ack rest sent
      end
  end.

Definition perform_handshake (request : ConnectRequest) (incoming : list Incoming) : Handshake :=
  match encode (Connect request) with
  | Err e => hs_done (Err e) []
  | Ok bytes =>
      match write 0 with
      | Err err => hs_done (Err (network ("Failed to send handshake request: " +:+ err))) []
      | Ok _ => await_ack incoming [WsBinary bytes]
      end
  end.
End Handshake.

(** * Local TCP connections: [tcp_proxy.rs] *)

(** The writing half of a local connection: what was written, and the error
    the next write meets, if any. *)
Record TcpConnectionHandle : Type := {
  th_written : Bytes;
  th_broken : option string;
}.

Record TcpLocalProxy : Type := {
  tp_host : string;
  tp_port : N;
  tp_connections : gmap Uuid TcpConnectionHandle;
}.

Definition TcpLocalProxy_new (host : string) (port : N) : TcpLocalProxy :=
  {| tp_host := host; tp_port := port; tp_connections := ∅ |}.

Definition with_connections (p : TcpLocalProxy) (c : gmap Uuid TcpConnectionHandle) :
    TcpLocalProxy :=
  {| tp_host := tp_host p; tp_port := tp_port p; tp_connections := c |}.

(** [handle_connect] with the outcome of the connection attempt; the channel to
    the writer task is open when [tx_open]. *)
Definition handle_connect (connection_id : Uuid) (attempt : Result string unit)
    (tx_error : option string) (p : TcpLocalProxy) :
    result unit * TcpLocalProxy * list Outgoing :=
  match attempt with
  | Ok _ =>
      let p' := with_connections p
                  (<[connection_id := {| th_written := []; th_broken := None |}]>
                     (tp_connections p)) in
      match tx_error with
      | None => (Ok tt, p', [OutProtocol (TcpConnectAck connection_id true None)])
      | Some err => (Err (TunnelDisconnected (Some err)), p', [])
      end
  | Err err =>
      (Err (network err), p,
       match tx_error with
       | None => [OutProtocol (TcpConnectAck connection_id false (Some err))]
       | Some _ => []
       end)
  end.

Section TcpData.
Context `{U : UuidDisplay}.

Definition handle_data (id : Uuid) (data : Bytes) (p : TcpLocalProxy) :
    result unit * TcpLocalProxy :=
  match tp_connections p !! id with
  | None => (Err (InvalidMessage ("TCP data for unknown connection " +:+ uuid_to_string id)), p)
  | Some entry =>
      match th_broken entry with
      | Some err => (Err (network err), p)
      | None =>
          (Ok tt, with_connections p
             (<[id := {| th_written := th_written entry ++ data; th_broken := None |}]>
                (tp_connections p)))
      end
  end.
End TcpData.

Definition handle_close (id : Uuid) (p : TcpLocalProxy) : TcpLocalProxy :=
  with_connections p (delete id (tp_connections p)).

(** [TcpLocalProxy::read_loop]: [reads] is what reading the local socket yields,
    an empty read being its end; [tx_open] sends succeed. *)
Fixpoint read_loop (connection_id : Uuid) (reads : list (Result string Bytes)) (sequence : N)
    (tx_open : nat) : option (result unit) * list Outgoing :=
  match reads with
  | [] => (None, [])
  | Err err :: _ => (Some (Err (network err)), [])
  | Ok [] :: _ =>
      (Some (Ok tt),
       match tx_open with
       | O => []
       | S _ => [OutProtocol (TcpClose connection_id CloseNormal)]
       end)
  | Ok payload :: rest =>
      match tx_open with
      | O => (Some (Ok tt), [])
      | S tx_open' =>
          let '(r, out) := read_loop connection_id rest (wrapping_add u64_max sequence 1) tx_open' in
          (r, OutProtocol (TcpData connection_id payload sequence) :: out)
      end
  end.

(** * Handling a frame *)

Inductive FrameControl : Type :=
| Continue
| Close.

(** Tasks that a frame starts and frames it sends itself. *)
Inductive Effect : Type :=
| SpawnProxy (id : Uuid) (method path : string) (headers : Headers) (body : Bytes)
| SpawnConnect (connection_id : Uuid) (remote_addr : string)
| SendRaw (frame : WsMessage).

Record ClientState : Type := {
  cs_http : option LocalProxy;
  cs_tcp : option TcpLocalProxy;
}.

Definition with_http (s : ClientState) (p : LocalProxy) : ClientState :=
  {| cs_http := Some p; cs_tcp := cs_tcp s |}.
Definition with_tcp (s : ClientState) (p : TcpLocalProxy) : ClientState :=
  {| cs_http := cs_http s; cs_tcp := Some p |}.

(** The proxies of a session, by the protocol the server granted. *)
Definition session_state (config : TunnelConfig) (ack : ConnectResponse) : ClientState :=
  {| cs_http := if decide (ca_tunnel_protocol ack = Http)
                then Some (LocalProxy_new (tc_local_host config) (tc_local_port config)) else None;
     cs_tcp := if decide (ca_tunnel_protocol ack = Tcp)
               then Some (TcpLocalProxy_new (tc_local_host config) (tc_local_port config))
               else None |}.

Section Frames.
Context `{B : BincodeCodec, U : UuidDisplay}.

Definition handle_message (m : Message) (s : ClientState) :
    result FrameControl * ClientState * list Effect :=
  match m with
  | HttpRequest id method path headers body =>
      (Ok Continue, s,
       match cs_http s with
       | Some _ => [SpawnProxy id method path headers body]
       | None => []
       end)
  | HttpRequestStart id method path headers _ =>
      match cs_http s with
      | Some proxy =>
          (Ok Continue, with_http s (begin_streaming_request id method path headers proxy), [])
      | None => (Ok Continue, s, [])
      end
  | HttpRequestChunk id data _ =>
      match cs_http s with
      | Some proxy =>
          match push_streaming_chunk id data proxy with
          | (Ok _, proxy') => (Ok Continue, with_http s proxy', [])
          | (Err e, proxy') => (Err e, with_http s proxy', [])
          end
      | None => (Ok Continue, s, [])
      end
  | HttpRequestEnd id =>
      match cs_http s with
      | Some proxy =>
          match finish_streaming_request id proxy with
          | (Some (method, path, headers, body), proxy') =>
              (Ok Continue, with_http s proxy', [SpawnProxy id method path headers body])
          | (None, proxy') => (Ok Continue, with_http s proxy', [])
          end
      | None => (Ok Continue, s, [])
      end
  | TcpConnect connection_id remote_addr =>
      (Ok Continue, s,
       match cs_tcp s with
       | Some _ => [SpawnConnect connection_id remote_addr]
       | None => []
       end)
  | TcpData connection_id data _ =>
      match cs_tcp s with
      | Some proxy =>
          match handle_data connection_id data proxy with
          | (Ok _, proxy') => (Ok Continue, with_tcp s proxy', [])
          | (Err e, proxy') => (Err e, with_tcp s proxy', [])
          end
      | None => (Ok Continue, s, [])
      end
  | TcpClose connection_id _ =>
      match cs_tcp s with
      | Some proxy => (Ok Continue, with_tcp s (handle_close connection_id proxy), [])
      | None => (Ok Continue, s, [])
      end
  | Disconnect reason => (Err (TunnelDisconnected reason), s, [])
  | Error code message => (Err (protocol_error_from_message code message), s, [])
  | _ => (Ok Continue, s, [])
  end.

Definition handle_frame (frame : WsMessage) (s : ClientState) :
    result FrameControl * ClientState * list Effect :=
  match frame with
  | WsBinary data =>
      match decode data with
      | Ok m => handle_message m s
      | Err e => (Err e, s, [])
      end
  | WsPing payload => (Ok Continue, s, [SendRaw (WsPong payload)])
  | WsPong _ => (Ok Continue, s, [])
  | WsClose _ => (Ok Close, s, [])
  | _ => (Ok Continue, s, [])
  end.

(** * The loop of [run_single_session] *)

(** What the [select!] of the loop picks next. *)
Inductive SessionEvent : Type :=
| EvShutdown
| EvIncoming (i : Incoming)
| EvEnd.

Inductive Termination : Type :=
| TermShutdown
| TermError (error : ExposeError).

Record LoopState : Type := {
  ls_client : ClientState;
  ls_effects : list Effect;
  ls_outgoing : list Outgoing;
}.

Definition is_shutdown (e : SessionEvent) : bool :=
  match e with EvShutdown => true | _ => false end.

Definition client_shutdown : Outgoing := OutProtocol (Disconnect (Some "client shutdown")).

(** Once the reader has ended its branch is disabled and only the shutdown
    branch is left: the [else] branch needs every branch disabled. *)
Fixpoint session_loop (events : list SessionEvent) (st : LoopState) :
    option Termination * LoopState :=
  let shut := (Some TermShutdown,
               {| ls_client := ls_client st; ls_effects := ls_effects st;
                  ls_outgoing := ls_outgoing st ++ [client_shutdown] |}) in
  match events with
  | [] => (None, st)
  | EvShutdown :: _ => shut
  | EvEnd :: rest => if existsb is_shutdown rest then shut else (None, st)
  | EvIncoming (InError err) :: _ =>
      (Some (TermError (network ("WebSocket read error: " +:+ err))), st)
  | EvIncoming (InFrame frame) :: rest =>
      let '(r, client, effects) := handle_frame frame (ls_client st) in
      let st' := {| ls_client := client; ls_effects := ls_effects st ++ effects;
                    ls_outgoing := ls_outgoing st |} in
      match r with
      | Ok Continue => session_loop rest st'
      | Ok Close =>
          (Some (TermError (TunnelDisconnected (Some "Server closed tunnel"))), st')
      | Err e => (Some (TermError e), st')
      end
  end.
End Frames.
