(* ===== verification/Streaming.v ===== *)
(** A large request body from the server to the client: what
    [RequestStreamer] sends, what the client's frames do with it, and that the
    local service gets the request the public client made. *)

From S2P Require Import Prelude RustStr Types Errors Utils Protocol PendingStore Externals.
From S2P Require Import TunnelManager Http ServerConfig ServerProxy LocalProxy ClientTunnel.

Local Open Scope N_scope.

(** * What is sent *)

Fixpoint chunk_messages (id : Uuid) (cs : list Bytes) (sequence : N) : list Message :=
  match cs with
  | [] => []
  | c :: cs' =>
      HttpRequestChunk id c sequence :: chunk_messages id cs' (wrapping_add u32_max sequence 1)
  end.

(** The sequence number after [cs]. *)
Fixpoint sequence_after (cs : list Bytes) (sequence : N) : N :=
  match cs with
  | [] => sequence
  | _ :: cs' => sequence_after cs' (wrapping_add u32_max sequence 1)
  end.

(** The chunks of all the data frames of a body, in order. *)
Definition frame_chunks (size : N) (frames : list BodyFrame) : list Bytes :=
  frames ≫= fun f => match f with Data d => chunks size d | _ => [] end.

Definition push_all (ms : list Message) (ob : Outbox) : Outbox :=
  {| ob_sent := ob_sent ob ++ ms; ob_capacity := ob_capacity ob |}.

Lemma push_all_app (ms ms' : list Message) (ob : Outbox) :
  push_all ms' (push_all ms ob) = push_all (ms ++ ms') ob.
Proof. unfold push_all; cbn. by rewrite (assoc (++)). Qed.

Lemma send_open (m : Message) (ob : Outbox) :
  ob_capacity ob = None -> send m ob = (Ok tt, push_all [m] ob).
Proof. intros Hc; unfold send, outbox_open; by rewrite Hc. Qed.

Lemma chunk_messages_app (id : Uuid) (a b : list Bytes) (sequence : N) :
  chunk_messages id (a ++ b) sequence =
    chunk_messages id a sequence ++ chunk_messages id b (sequence_after a sequence).
Proof. revert sequence; induction a as [|c a IH]; intros sequence; cbn; [done | by rewrite IH]. Qed.

Lemma sequence_after_app (a b : list Bytes) (sequence : N) :
  sequence_after (a ++ b) sequence = sequence_after b (sequence_after a sequence).
Proof. revert sequence; induction a as [|c a IH]; intros sequence; cbn; [done | by rewrite IH]. Qed.

Lemma send_chunks_open (id : Uuid) (cs : list Bytes) (sequence : N) (ob : Outbox) :
  ob_capacity ob = None ->
  send_chunks id cs sequence ob =
    (Ok (sequence_after cs sequence), push_all (chunk_messages id cs sequence) ob).
Proof.
  revert sequence ob; induction cs as [|c cs IH]; intros sequence ob Hc; cbn.
  - unfold push_all; rewrite app_nil_r. by destruct ob.
  - rewrite send_open by done. rewrite IH by done. by rewrite push_all_app.
Qed.

Section Frames.
Context `{L : HttpLib}.
Context (cfg : StreamingConfig) (Hsize : 0 < sc_chunk_size_bytes cfg).

(** The loop sends the chunks of a body that fits and ends well. *)
Lemma stream_frames_fits (id : Uuid) (frames : list BodyFrame) (data : Bytes)
    (total sequence : N) (ob : Outbox) :
  ob_capacity ob = None -> frames_data frames = Some data ->
  total + len data <= sc_max_body_bytes cfg -> sc_max_body_bytes cfg <= usize_max ->
  stream_frames cfg id frames total sequence ob =
    Some (Ok tt, push_all (chunk_messages id (frame_chunks (sc_chunk_size_bytes cfg) frames)
                             sequence) ob).
Proof using Hsize.
  revert data total sequence ob.
  induction frames as [|[d| |text] frames IH]; intros data total sequence ob Hc Hd Hm Hu; cbn in *.
  - unfold push_all; rewrite app_nil_r. by destruct ob.
  - destruct (frames_data frames) as [data'|] eqn:E; cbn in Hd; [|done]. injection Hd as <-.
    rewrite len_app in Hm. unfold saturating_add.
    rewrite N.min_l by lia. destruct (N.ltb_spec (sc_max_body_bytes cfg) (total + len d)); [lia|].
    destruct (N.eqb_spec (sc_chunk_size_bytes cfg) 0); [lia|].
    rewrite send_chunks_open by done. erewrite IH; [|done|done|lia|done].
    by rewrite push_all_app, <- chunk_messages_app.
  - eapply IH; eauto.
  - done.
Qed.

Lemma frame_chunks_data (frames : list BodyFrame) (data : Bytes) :
  frames_data frames = Some data ->
  concat (frame_chunks (sc_chunk_size_bytes cfg) frames) = data.
Proof using Hsize.
  revert data; induction frames as [|[d| |text] frames IH]; intros data Hd; cbn in *.
  - by injection Hd as <-.
  - destruct (frames_data frames) as [data'|]; cbn in Hd; [|done]. injection Hd as <-.
    rewrite concat_app, chunks_concat by done. f_equal; by apply IH.
  - by apply IH.
  - done.
Qed.

Lemma frame_chunks_bound (frames : list BodyFrame) :
  Forall (fun c : Bytes => 0 < len c <= sc_chunk_size_bytes cfg)
    (frame_chunks (sc_chunk_size_bytes cfg) frames).
Proof using Hsize.
  induction frames as [|[d| |text] frames IH]; cbn; [constructor | | done | done].
  apply Forall_app; split; [by apply chunks_bound | done].
Qed.
End Frames.

(** * What the client makes of it *)

Section Deliver.
Context `{U : UuidDisplay}.

(** The client handles the messages of a tunnel one after another. *)
Fixpoint deliver (ms : list Message) (s : ClientState) :
    result unit * ClientState * list Effect :=
  match ms with
  | [] => (Ok tt, s, [])
  | m :: ms' =>
      match handle_message m s with
      | (Ok _, s1, e1) =>
          let '(r, s2, e2) := deliver ms' s1 in (r, s2, e1 ++ e2)
      | (Err e, s1, e1) => (Err e, s1, e1)
      end
  end.

Lemma deliver_app (ms ms' : list Message) (s s1 : ClientState) (e1 : list Effect) :
  deliver ms s = (Ok tt, s1, e1) ->
  deliver (ms ++ ms') s = let '(r, s2, e2) := deliver ms' s1 in (r, s2, e1 ++ e2).
Proof.
  revert s e1; induction ms as [|m ms IH]; intros s e1; cbn.
  - intros [= <- <-]. by destruct (deliver ms' s) as [[? ?] ?].
  - destruct (handle_message m s) as [[[c|e] s0] e0]; [|done].
    destruct (deliver ms s0) as [[r s2] e2] eqn:E. intros [= -> <- <-].
    rewrite (IH s0 e2 E). destruct (deliver ms' s2) as [[? ?] ?]. by rewrite (assoc (++)).
Qed.

Definition append_body (r : StreamingRequest) (data : Bytes) : StreamingRequest :=
  {| sr_method := sr_method r; sr_path := sr_path r; sr_headers := sr_headers r;
     sr_body := sr_body r ++ data |}.

Lemma deliver_chunks (id : Uuid) (cs : list Bytes) (sequence : N) (s : ClientState)
    (p : LocalProxy) (r : StreamingRequest) :
  cs_http s = Some p -> lp_pending_streams p !! id = Some r ->
  len (sr_body r) + len (concat cs) <= STREAM_BUFFER_LIMIT ->
  deliver (chunk_messages id cs sequence) s =
    (Ok tt, with_http s (with_streams p (<[id := append_body r (concat cs)]>
                                           (lp_pending_streams p))), []).
Proof.
  revert sequence s p r; induction cs as [|c cs IH]; intros sequence s p r Hs Hp Hl; cbn in *.
  - rewrite insert_id.
    + destruct s as [h t]; cbn in *; subst. by destruct p.
    + rewrite Hp. destruct r; unfold append_body; cbn. by rewrite app_nil_r.
  - rewrite Hs. unfold push_streaming_chunk. rewrite Hp.
    rewrite len_app in Hl. destruct (N.ltb_spec STREAM_BUFFER_LIMIT (len (sr_body r) + len c)); [lia|].
    erewrite IH; [| done | cbn; by rewrite lookup_insert_eq | cbn; rewrite len_app; lia].
    cbn. rewrite insert_insert_eq. unfold append_body; cbn. by rewrite <- (assoc (++)).
Qed.

Definition start_message (id : Uuid) (method path : string) (headers : Headers)
    (content_length : option N) : Message :=
  HttpRequestStart id method path headers content_length.

(** A whole streamed request, delivered. *)
Lemma deliver_request (id : Uuid) (method path : string) (headers : Headers)
    (content_length : option N) (cs : list Bytes) (s : ClientState) (p : LocalProxy) :
  cs_http s = Some p -> len (concat cs) <= STREAM_BUFFER_LIMIT ->
  deliver (HttpRequestStart id method path headers content_length
             :: chunk_messages id cs 0 ++ [HttpRequestEnd id]) s =
    (Ok tt, with_http s (with_streams p (delete id (lp_pending_streams p))),
     [SpawnProxy id method path headers (concat cs)]).
Proof.
  intros Hs Hl; cbn [deliver handle_message]. rewrite Hs. unfold begin_streaming_request.
  erewrite deliver_app; [| eapply deliver_chunks; [done | cbn; by rewrite lookup_insert_eq |]].
  - cbn. unfold finish_streaming_request; cbn. rewrite !lookup_insert_eq; cbn.
    by rewrite insert_insert_eq, delete_insert_eq.
  - cbn. done.
Qed.
End Deliver.

(** * End to end *)

Section EndToEnd.
Context `{L : HttpLib, U : UuidDisplay}.

(** a request body that is streamed arrives: when the body's frames are
    readable and fit the limits of the server and of the client, the server
    sends a start, chunks of at most the configured size and an end; every
    message passes the size check of the encoder; and the client that gets
    them makes exactly one local request, with the method, path, headers and
    body of the public one, and keeps no buffer for it. *)
Theorem streamed_request_arrives (cfg : StreamingConfig) (id : Uuid) (parts : Parts)
    (body : Body) (content_length : option N) (ob : Outbox) (data : Bytes) :
  0 < sc_chunk_size_bytes cfg <= DEFAULT_MAX_BODY_SIZE ->
  sc_max_body_bytes cfg <= usize_max -> ob_capacity ob = None ->
  body_data body = Some data ->
  len data <= sc_max_body_bytes cfg -> len data <= STREAM_BUFFER_LIMIT ->
  exists ms,
    stream cfg id parts body content_length ob =
      Some (Ok tt, {| ob_sent := ob_sent ob ++ ms; ob_capacity := None |}) /\
    Forall (fun m => validate m DEFAULT_MAX_BODY_SIZE = Ok tt) ms /\
    forall s p, cs_http s = Some p ->
      exists s', deliver ms s =
        (Ok tt, s', [SpawnProxy id (pt_method parts) (request_path parts)
                       (forwarded_headers parts) data]) /\
      exists p', cs_http s' = Some p' /\
        lp_pending_streams p' = delete id (lp_pending_streams p).
Proof.
  intros [Hsize Hchunk] Hu Hc Hd Hmax Hbuf.
  set (cs := frame_chunks (sc_chunk_size_bytes cfg) (body_frames body)).
  assert (concat cs = data) as Hcs by (by apply frame_chunks_data).
  exists (HttpRequestStart id (pt_method parts) (request_path parts) (forwarded_headers parts)
            content_length :: chunk_messages id cs 0 ++ [HttpRequestEnd id]).
  split_and!.
  - unfold stream, stream_with_path; cbn [default]. rewrite send_open by done.
    rewrite (stream_frames_fits cfg Hsize id (body_frames body) data) by done. cbn.
    rewrite send_open by done. rewrite !push_all_app. unfold push_all. by rewrite Hc.
  - constructor; [done|]. apply Forall_app; split; [|by constructor].
    assert (Forall (fun c : Bytes => len c <= DEFAULT_MAX_BODY_SIZE) cs) as Hb.
    { eapply Forall_impl; [by apply frame_chunks_bound|]. cbn; intros c ?; lia. }
    clearbody cs; generalize 0; clear -Hb. induction Hb as [|c cs Hb Hf IH]; intros q; cbn [chunk_messages];
      [constructor|]. constructor; [|apply IH]. cbn. apply validate_body_size_Ok in Hb. by rewrite Hb.
  - intros s p Hs. rewrite (deliver_request id _ _ _ _ cs s p Hs) by (by rewrite Hcs).
    rewrite Hcs. eexists; split; [done|]. eexists; split; [done|]. done.
Qed.

(** The chunks sent before the limit is passed. *)
Lemma stream_frames_aborts (cfg : StreamingConfig) (id : Uuid) (frames : list BodyFrame)
    (data : Bytes) (total sequence : N) (ob : Outbox) :
  0 < sc_chunk_size_bytes cfg -> ob_capacity ob = None -> frames_data frames = Some data ->
  total <= sc_max_body_bytes cfg -> sc_max_body_bytes cfg < total + len data ->
  total + len data <= usize_max ->
  exists cs size, stream_frames cfg id frames total sequence ob =
    Some (Err (PayloadTooLarge size (sc_max_body_bytes cfg)),
          push_all (chunk_messages id cs sequence) ob) /\
    total + len (concat cs) <= sc_max_body_bytes cfg < size.
Proof.
  intros Hsize. revert data total sequence ob.
  induction frames as [|[d| |text] frames IH]; intros data total sequence ob Hc Hd Ht Hm Hu; cbn in *.
  - injection Hd as <-. unfold len in Hm; cbn in Hm; lia.
  - destruct (frames_data frames) as [data'|] eqn:E; cbn in Hd; [|done]. injection Hd as <-.
    rewrite len_app in Hm, Hu. unfold saturating_add. rewrite N.min_l by (unfold usize_max in *; lia).
    destruct (N.ltb_spec (sc_max_body_bytes cfg) (total + len d)) as [Hlt|Hle].
    + exists [], (total + len d). unfold push_all; cbn; rewrite app_nil_r. split; [by destruct ob|].
      unfold len at 1; cbn; lia.
    + destruct (N.eqb_spec (sc_chunk_size_bytes cfg) 0); [lia|].
      rewrite send_chunks_open by done.
      destruct (IH data' (total + len d)
                  (sequence_after (chunks (sc_chunk_size_bytes cfg) d) sequence)
                  (push_all (chunk_messages id (chunks (sc_chunk_size_bytes cfg) d) sequence) ob))
        as (cs & size & Hs & Hb); [done | done | lia | lia | lia |].
      exists (chunks (sc_chunk_size_bytes cfg) d ++ cs), size.
      rewrite Hs, push_all_app, <- chunk_messages_app. split; [done|].
      rewrite concat_app, chunks_concat, len_app by done. lia.
  - eauto.
  - done.
Qed.

(** A body above the server's limit is refused with the limit in the error
    and no more than the limit is ever forwarded; but what was sent ends
    without any message that says so, and the client keeps the partial body
    buffered under the request's id. *)
Theorem oversized_stream_left_open (cfg : StreamingConfig) (id : Uuid) (parts : Parts)
    (body : Body) (content_length : option N) (ob : Outbox) (data : Bytes) :
  0 < sc_chunk_size_bytes cfg -> ob_capacity ob = None -> body_data body = Some data ->
  sc_max_body_bytes cfg < len data -> len data <= usize_max ->
  sc_max_body_bytes cfg <= STREAM_BUFFER_LIMIT ->
  exists ms size sent,
    stream cfg id parts body content_length ob =
      Some (Err (PayloadTooLarge size (sc_max_body_bytes cfg)),
            {| ob_sent := ob_sent ob ++ ms; ob_capacity := None |}) /\
    sc_max_body_bytes cfg < size /\ len sent <= sc_max_body_bytes cfg /\
    forall s p, cs_http s = Some p ->
      exists s' p', deliver ms s = (Ok tt, s', []) /\ cs_http s' = Some p' /\
        lp_pending_streams p' !! id =
          Some {| sr_method := pt_method parts; sr_path := request_path parts;
                  sr_headers := forwarded_headers parts; sr_body := sent |}.
Proof.
  intros Hsize Hc Hd Hm Hu Hbuf.
  set (start := HttpRequestStart id (pt_method parts) (request_path parts)
                  (forwarded_headers parts) content_length).
  destruct (stream_frames_aborts cfg id (body_frames body) data 0 0 (push_all [start] ob))
    as (cs & size & Hs & Hb); [done | done | done | lia | lia | lia |].
  exists (start :: chunk_messages id cs 0), size, (concat cs). split_and!; [| lia | lia |].
  - unfold stream, stream_with_path; cbn [default]. rewrite send_open by done.
    fold start. rewrite Hs; cbn. rewrite push_all_app. unfold push_all. by rewrite Hc.
  - intros s p Hp. cbn [deliver handle_message start]. unfold start; cbn [handle_message].
    rewrite Hp. unfold begin_streaming_request.
    erewrite deliver_chunks; [| done | cbn; by rewrite lookup_insert_eq | cbn [sr_body]; change (len (@nil N)) with 0; lia].
    eexists _, _; split; [done|]. split; [done|]. cbn. by rewrite lookup_insert_eq.
Qed.
End EndToEnd.
