(* ===== verification/ProxyMetrics.v ===== *)
(** The proxy with the metrics it emits, [proxy_with_state] and
    [RequestStreamer] of [expose-server/src/proxy]: emitting changes nothing of
    what they do, and the counters account for every request and every byte. *)

From S2P Require Import Prelude RustStr Types Errors Utils Protocol PendingStore Externals.
From S2P Require Import TunnelManager Http ServerConfig ServerProxy Streaming Metrics.

Local Open Scope N_scope.

(** * The metered proxy *)

Section Metered.
Context `{G : Governor, H : Sha256, L : HttpLib, D : DebugMessage}.

Fixpoint send_chunks_metered (subdomain : string) (id : Uuid) (parts_of_data : list Bytes)
    (sequence : N) (ob : Outbox) : result N * Outbox * list Emission :=
  match parts_of_data with
  | [] => (Ok sequence, ob, [])
  | chunk :: rest =>
      match send (HttpRequestChunk id chunk sequence) ob with
      | (Ok _, ob') =>
          let '(r, ob2, es) :=
            send_chunks_metered subdomain id rest (wrapping_add u32_max sequence 1) ob' in
          (r, ob2, bytes_sent subdomain (len chunk) :: es)
      | (Err e, ob') => (Err e, ob', [])
      end
  end.

Fixpoint stream_frames_metered (cfg : StreamingConfig) (subdomain : string) (id : Uuid)
    (frames : list BodyFrame) (total sequence : N) (ob : Outbox) :
    option (result unit * Outbox * list Emission) :=
  match frames with
  | [] => Some (Ok tt, ob, [])
  | BodyError text :: _ => Some (Err (Internal text), ob, [])
  | Trailers :: rest => stream_frames_metered cfg subdomain id rest total sequence ob
  | Data data :: rest =>
      let total := saturating_add usize_max total (len data) in
      if sc_max_body_bytes cfg <? total then
        Some (Err (PayloadTooLarge total (sc_max_body_bytes cfg)), ob, [])
      else if sc_chunk_size_bytes cfg =? 0 then None
      else
        match send_chunks_metered subdomain id (chunks (sc_chunk_size_bytes cfg) data)
                sequence ob with
        | (Ok sequence', ob', es) =>
            '(r, ob2, es2) ← stream_frames_metered cfg subdomain id rest total sequence' ob';
            Some (r, ob2, es ++ es2)
        | (Err e, ob', es) => Some (Err e, ob', es)
        end
  end.

Definition stream_metered (cfg : StreamingConfig) (subdomain : string) (id : Uuid) (parts : Parts)
    (body : Body) (content_length : option N) (ob : Outbox) :
    option (result unit * Outbox * list Emission) :=
  match send (HttpRequestStart id (pt_method parts) (request_path parts) (forwarded_headers parts)
                content_length) ob with
  | (Err e, ob1) => Some (Err e, ob1, [])
  | (Ok _, ob1) =>
      '(r, ob2, es) ← stream_frames_metered cfg subdomain id (body_frames body) 0 0 ob1;
      match r with
      | Ok _ => let '(r', ob3) := send (HttpRequestEnd id) ob2 in Some (r', ob3, es)
      | Err e => Some (Err e, ob2, es)
      end
  end.

Definition forward_metered (cfg : ServerConfig) (subdomain : string) (id : Uuid) (parts : Parts)
    (body : Body) (ob : Outbox) : option (result unit * Outbox * list Emission) :=
  if should_stream (sv_streaming cfg) parts body then
    stream_metered (sv_streaming cfg) subdomain id parts body (content_length parts) ob
  else
    match collect (sv_request_body_limit_bytes cfg) body with
    | Err e => Some (Err e, ob, [])
    | Ok collected =>
        match encode_request id parts collected with
        | Err e => Some (Err e, ob, [])
        | Ok message =>
            match send message ob with
            | (Ok _, ob') => Some (Ok tt, ob', [bytes_sent subdomain (len collected)])
            | (Err e, ob') => Some (Err e, ob', [])
            end
        end
    end.

(** The outcome of the inner block is reported under the subdomain of the host. *)
Definition outcome_emission (subdomain : string) (elapsed : Duration) (r : result Response) :
    Emission :=
  match r with
  | Ok response => request_completed subdomain (rs_status response) elapsed
  | Err e => request_failed subdomain e
  end.

(** From the registered request to the outcome, with the manager it leaves. *)
Definition handle_metered (cfg : ServerConfig) (run : RequestRun) (tunnel : ActiveTunnel)
    (parts : Parts) (body : Body) (m1 : TunnelManager) (outboxes : gmap Mpsc Outbox) :
    option (result Response * ProxyState * list Emission) :=
  match register_pending_request (at_id tunnel) (rr_request_id run)
          (Some (from_secs (sv_request_timeout_secs cfg))) (rr_now run) (rr_channel run) m1 with
  | (Err e, m2) => Some (Err e, {| px_manager := m2; px_outboxes := outboxes |}, [])
  | (Ok _, m2) =>
      let ob := default {| ob_sent := []; ob_capacity := Some O |} (outboxes !! at_sender tunnel) in
      '(res, ob', es) ← forward_metered cfg (at_subdomain tunnel) (rr_request_id run) parts body ob;
      let st' := {| px_manager := m2; px_outboxes := <[at_sender tunnel := ob']> outboxes |} in
      let es := pending_requests_changed (pending_gauge (tm_pending_store m2)) :: es in
      match res with
      | Err e => Some (Err e, st', es)
      | Ok _ => Some (await_response cfg (rr_wait run), st', es)
      end
  end.

Definition proxy_metered (cfg : ServerConfig) (run : RequestRun) (elapsed : Duration)
    (parts : Parts) (body : Body) (st : ProxyState) :
    option (result Response * ProxyState * list Emission) :=
  match resolve (sv_domain cfg) parts with
  | Err e => Some (Err e, st, [])
  | Ok subdomain =>
      match manager_get subdomain (px_manager st) with
      | None => Some (Err (TunnelNotFound subdomain), st, [])
      | Some tunnel =>
          let limit := OpRate tunnel (rr_limiter_now run) (rr_limiter_later run) in
          let limited := op_emits limit (px_manager st) in
          match limiter_check tunnel (rr_limiter_now run) (rr_limiter_later run)
                  (px_manager st) with
          | (Err e, m1) =>
              Some (Err e, {| px_manager := m1; px_outboxes := px_outboxes st |}, limited)
          | (Ok _, m1) =>
              '(r, st', es) ← handle_metered cfg run tunnel parts body m1 (px_outboxes st);
              Some (r, st', request_started subdomain :: es ++ [outcome_emission subdomain elapsed r])
          end
      end
  end.
End Metered.

(** * What the emissions say *)

(** The bytes of a body that a message carries. *)
Definition carried (m : Message) : N :=
  match m with HttpRequest _ _ _ _ body => len body | HttpRequestChunk _ data _ => len data | _ => 0 end.
Definition carried_all (ms : list Message) : N := foldr (fun m acc => carried m + acc) 0 ms.

Lemma carried_all_app (a b : list Message) : carried_all (a ++ b) = carried_all a + carried_all b.
Proof.
  induction a as [|m a IH]; [done|].
  change (carried m + carried_all (a ++ b) = carried m + carried_all a + carried_all b). lia.
Qed.

Definition only_bytes (es : list Emission) : Prop :=
  Forall (fun e => exists subdomain n, e = bytes_sent subdomain n) es.

Lemma only_bytes_silent (es : list Emission) (name : string) :
  only_bytes es -> name <> "expose_bytes_sent_total" -> total name es = 0 /\ samples name es = 0.
Proof.
  intros Hes Hn. induction Hes as [|e es (subdomain & n & ->) _ [IHt IHs]]; [done|]. split.
  - change (counted name (bytes_sent subdomain n) + total name es = 0). rewrite IHt. unfold counted, bytes_sent.
    destruct (String.eqb_spec "expose_bytes_sent_total" name); [by subst | done].
  - done.
Qed.

(** A metered step: it does what the plain one does, and the bytes it reports are
    those of the messages it put on the channel. *)
Definition metered (ob : Outbox) (ob' : Outbox) (es : list Emission) : Prop :=
  exists ms, ob' = push_all ms ob /\ total "expose_bytes_sent_total" es = carried_all ms /\
    only_bytes es.

Lemma push_nil (ob : Outbox) : push_all [] ob = ob.
Proof. unfold push_all. rewrite app_nil_r. by destruct ob. Qed.

Lemma metered_refl (ob : Outbox) : metered ob ob [].
Proof. exists []. rewrite push_nil. by split_and!; [|done|constructor]. Qed.

Lemma metered_trans (ob ob1 ob2 : Outbox) (a b : list Emission) :
  metered ob ob1 a -> metered ob1 ob2 b -> metered ob ob2 (a ++ b).
Proof.
  intros (ms1 & -> & H1 & Ha) (ms2 & -> & H2 & Hb). exists (ms1 ++ ms2).
  rewrite push_all_app, total_app, carried_all_app, H1, H2. split_and!; [done..|].
  by apply Forall_app.
Qed.

(** A send reports the bytes its message carries, if it is accepted. *)
Lemma metered_send (m : Message) (ob : Outbox) (subdomain : string) :
  match send m ob with
  | (Ok _, ob') => metered ob ob' [bytes_sent subdomain (carried m)] /\
      (carried m = 0 -> metered ob ob' [])
  | (Err _, ob') => ob' = ob
  end.
Proof.
  unfold send. destruct (outbox_open ob); [|done]. split.
  - exists [m]. split_and!; [done| |]; [|by repeat econstructor].
    change (carried m + 0 = carried m + 0). done.
  - intros Hm. exists [m]. split_and!; [done| |constructor]. unfold carried_all; cbn. by rewrite Hm.
Qed.

Lemma send_chunks_metered_spec (subdomain : string) (id : Uuid) (parts : list Bytes) (sequence : N)
    (ob : Outbox) r ob' es :
  send_chunks_metered subdomain id parts sequence ob = (r, ob', es) ->
  send_chunks id parts sequence ob = (r, ob') /\ metered ob ob' es.
Proof.
  revert sequence ob r ob' es; induction parts as [|c parts IH]; intros sequence ob r ob' es; cbn.
  - intros [= <- <- <-]. split; [done | apply metered_refl].
  - pose proof (metered_send (HttpRequestChunk id c sequence) ob subdomain) as Hs.
    destruct (send _ ob) as [[u|e] ob1]; [|intros [= <- <- <-]; subst; split; [done | apply metered_refl]].
    destruct (send_chunks_metered subdomain id parts _ ob1) as [[r1 ob2] es1] eqn:E.
    intros [= <- <- <-]. apply IH in E as [-> Hm]. split; [done|].
    change (bytes_sent subdomain (len c) :: es1) with ([bytes_sent subdomain (len c)] ++ es1).
    destruct Hs as [Hs _]. by eapply metered_trans.
Qed.

Section Spec.
Context `{L : HttpLib}.

Lemma stream_frames_metered_spec (cfg : StreamingConfig) (subdomain : string) (id : Uuid)
    (frames : list BodyFrame) (total sequence : N) (ob : Outbox) :
  match stream_frames_metered cfg subdomain id frames total sequence ob with
  | Some (r, ob', es) =>
      stream_frames cfg id frames total sequence ob = Some (r, ob') /\ metered ob ob' es
  | None => stream_frames cfg id frames total sequence ob = None
  end.
Proof.
  revert total sequence ob; induction frames as [|[d| |text] frames IH]; intros total sequence ob;
    cbn [stream_frames_metered stream_frames].
  - split; [done | apply metered_refl].
  - set (size := saturating_add usize_max total (len d)). destruct (_ <? size);
      [split; [done | apply metered_refl]|].
    destruct (_ =? 0); [done|].
    destruct (send_chunks_metered subdomain id _ sequence ob) as [[[q|e] ob1] es1] eqn:E;
      apply send_chunks_metered_spec in E as [-> Hm]; [|done].
    specialize (IH size q ob1).
    destruct (stream_frames_metered cfg subdomain id frames size q ob1) as [[[r ob2] es2]|];
      [|done]. destruct IH as [-> Hm2]. split; [done|]. by eapply metered_trans.
  - apply IH.
  - split; [done | apply metered_refl].
Qed.

Lemma forward_metered_spec (cfg : ServerConfig) (subdomain : string) (id : Uuid) (parts : Parts)
    (body : Body) (ob : Outbox) :
  match forward_metered cfg subdomain id parts body ob with
  | Some (r, ob', es) => forward cfg id parts body ob = Some (r, ob') /\ metered ob ob' es
  | None => forward cfg id parts body ob = None
  end.
Proof.
  unfold forward_metered, forward. destruct (should_stream _ _ _).
  - unfold stream_metered, stream, stream_with_path; cbn [default].
    set (start := HttpRequestStart _ _ _ _ _).
    pose proof (metered_send start ob subdomain) as Hs.
    destruct (send start ob) as [[u|e] ob1]; [|subst; split; [done | apply metered_refl]].
    destruct Hs as [_ Hs]. specialize (Hs eq_refl).
    pose proof (stream_frames_metered_spec (sv_streaming cfg) subdomain id (body_frames body) 0 0 ob1) as Hf.
    destruct (stream_frames_metered _ _ _ _ _ _ ob1) as [[[r ob2] es]|]; cbn [mbind option_bind];
      [|by rewrite Hf]. destruct Hf as [-> Hf]. cbn [mbind option_bind].
    pose proof (metered_trans _ _ _ _ _ Hs Hf) as Hall; cbn [app] in Hall.
    destruct r as [u'|e]; [|done].
    pose proof (metered_send (HttpRequestEnd id) ob2 subdomain) as He.
    destruct (send (HttpRequestEnd id) ob2) as [[u2|e] ob3]; (split; [done|]); [|by subst].
    destruct He as [_ He]. specialize (He eq_refl). rewrite <- (app_nil_r es).
    by eapply metered_trans.
  - destruct (collect _ body) as [data|e]; [|split; [done | apply metered_refl]].
    cbn [encode_request]. set (m := HttpRequest _ _ _ _ _).
    pose proof (metered_send m ob subdomain) as Hs.
    destruct (send m ob) as [[[]|e] ob1]; [|subst; split; [done | apply metered_refl]].
    by destruct Hs as [Hs _].
Qed.
End Spec.

Section Account.
Context `{G : Governor, H : Sha256, L : HttpLib, D : DebugMessage}.

(** A request that found its tunnel and passed the tunnel's limiter. *)
Definition admitted (cfg : ServerConfig) (run : RequestRun) (parts : Parts) (st : ProxyState) : Prop :=
  exists s t m1, resolve (sv_domain cfg) parts = Ok s /\ manager_get s (px_manager st) = Some t /\
    check_rate_limit t (rr_limiter_now run) (rr_limiter_later run) (px_manager st) = (Ok tt, m1).

(** The bytes reported are those that were put on one tunnel's channel. *)
Definition bytes_accounted (before after : gmap Mpsc Outbox) (es : list Emission) : Prop :=
  (after = before /\ total "expose_bytes_sent_total" es = 0) \/
  exists ch ob ms, ob = default {| ob_sent := []; ob_capacity := Some O |} (before !! ch) /\
    after = <[ch := push_all ms ob]> before /\
    total "expose_bytes_sent_total" es = carried_all ms.

(** The inner block reports bytes and the gauge, nothing else. *)
Lemma handle_metered_spec (cfg : ServerConfig) (run : RequestRun) (tunnel : ActiveTunnel)
    (parts : Parts) (body : Body) (m1 : TunnelManager) (outboxes : gmap Mpsc Outbox) res st' es :
  handle_metered cfg run tunnel parts body m1 outboxes = Some (res, st', es) ->
  bytes_accounted outboxes (px_outboxes st') es /\
  forall name, name <> "expose_bytes_sent_total" -> total name es = 0 /\ samples name es = 0.
Proof.
  unfold handle_metered. destruct (register_pending_request _ _ _ _ _ m1) as [[rx|e] m2];
    [|intros [= <- <- <-]; split; [by left | done]].
  set (ob := default _ _).
  pose proof (forward_metered_spec cfg (at_subdomain tunnel) (rr_request_id run) parts body ob) as Hf.
  destruct (forward_metered _ _ _ _ _ ob) as [[[r ob'] fs]|]; cbn [mbind option_bind]; [|done].
  destruct Hf as [_ (ms & -> & Ht & Hb)]. set (gauge := pending_requests_changed _).
  assert (forall name, total name (gauge :: fs) = total name fs) as Htot by done.
  assert (forall name, samples name (gauge :: fs) = samples name fs) as Hsam by done.
  assert (bytes_accounted outboxes (<[at_sender tunnel := push_all ms ob]> outboxes) (gauge :: fs))
    as Hacc by (right; exists (at_sender tunnel), ob, ms; by rewrite Htot).
  destruct r as [u|e]; intros [= <- <- <-]; (split; [done|]); intros name Hn;
    rewrite Htot, Hsam; by apply only_bytes_silent.
Qed.

(** Without its emissions the metered proxy is the proxy. *)
Lemma proxy_metered_erases (cfg : ServerConfig) (run : RequestRun) (elapsed : Duration)
    (parts : Parts) (body : Body) (st : ProxyState) :
  fst <$> proxy_metered cfg run elapsed parts body st = proxy_with_state cfg run parts body st.
Proof.
  unfold proxy_metered, proxy_with_state, handle_metered. destruct (resolve _ _) as [s|e]; [|done].
  destruct (manager_get s _) as [t|]; [|done].
  destruct (limiter_check _ _ _ _) as [[u|e] m1]; [|done].
  destruct (register_pending_request _ _ _ _ _ m1) as [[rx|e] m2]; [|done].
  set (ob := default _ _).
  pose proof (forward_metered_spec cfg (at_subdomain t) (rr_request_id run) parts body ob) as Hf.
  destruct (forward_metered _ _ _ _ _ ob) as [[[r ob'] es]|]; cbn [mbind option_bind];
    [destruct Hf as [-> _]; by destruct r | by rewrite Hf].
Qed.

(** C10: the counters account for every request that is not dropped half way.  With
    its emissions taken away the metered proxy is the proxy.  A request is
    counted exactly when it found its tunnel and passed the limiter, once, and
    then it is sampled as completed when it succeeded and counted as failed
    otherwise, so requests are completed plus failed; a limited one is counted
    as such instead.  The bytes reported are exactly the body bytes of the
    messages put on the tunnel's channel. *)
Theorem requests_accounted (cfg : ServerConfig) (run : RequestRun) (elapsed : Duration)
    (parts : Parts) (body : Body) (st st' : ProxyState) (res : result Response)
    (es : list Emission) :
  proxy_metered cfg run elapsed parts body st = Some (res, st', es) ->
  proxy_with_state cfg run parts body st = Some (res, st') /\
  total "expose_requests_total" es =
    samples "expose_request_duration_seconds" es + total "expose_requests_failed_total" es /\
  total "expose_requests_total" es + total "expose_rate_limit_hits_total" es <= 1 /\
  (total "expose_requests_total" es = 1 <-> admitted cfg run parts st) /\
  (total "expose_requests_total" es = 1 ->
     samples "expose_request_duration_seconds" es = if is_ok res then 1 else 0) /\
  bytes_accounted (px_outboxes st) (px_outboxes st') es.
Proof.
  intros Hrun. split.
  { rewrite <- (proxy_metered_erases cfg run elapsed). by rewrite Hrun. }
  unfold proxy_metered in Hrun. unfold admitted.
  destruct (resolve (sv_domain cfg) parts) as [s|e];
    [|injection Hrun as <- <- <-; split_and!; [done..| |done|by left];
      split; [done | by intros (? & ? & ? & ? & _)]].
  destruct (manager_get s (px_manager st)) as [t|] eqn:Et;
    [|injection Hrun as <- <- <-; split_and!; [done..| |done|by left]; split; [done|];
      intros (s' & t' & ? & [= <-] & ? & _); congruence].
  unfold limiter_check in Hrun. cbn [op_emits] in Hrun.
  destruct (check_rate_limit t _ _ (px_manager st)) as [[[]|e] m1] eqn:El.
  - destruct (handle_metered _ _ _ _ _ _ _) as [[[r st1] fs]|] eqn:Eh; cbn [mbind option_bind] in Hrun;
      [|done]. injection Hrun as <- <- <-.
    apply handle_metered_spec in Eh as [Hacc Hsil].
    assert (forall name, name <> "expose_bytes_sent_total" ->
      total name (request_started s :: fs ++ [outcome_emission s elapsed r]) =
        total name [request_started s; outcome_emission s elapsed r] /\
      samples name (request_started s :: fs ++ [outcome_emission s elapsed r]) =
        samples name [request_started s; outcome_emission s elapsed r]) as Hname.
    { intros name Hn. destruct (Hsil name Hn) as [Ht Hs].
      change (request_started s :: fs ++ [outcome_emission s elapsed r]) with
        ([request_started s] ++ fs ++ [outcome_emission s elapsed r]).
      change [request_started s; outcome_emission s elapsed r] with
        ([request_started s] ++ [outcome_emission s elapsed r]).
      by rewrite !total_app, !samples_app, Ht, Hs. }
    destruct (Hname "expose_requests_total" ltac:(done)) as [-> _].
    destruct (Hname "expose_requests_failed_total" ltac:(done)) as [-> _].
    destruct (Hname "expose_rate_limit_hits_total" ltac:(done)) as [-> _].
    destruct (Hname "expose_request_duration_seconds" ltac:(done)) as [_ ->].
    split_and!; [by destruct r | by destruct r | | by destruct r |].
    + split; [by exists s, t, m1 | by destruct r].
    + assert (total "expose_bytes_sent_total"
        (request_started s :: fs ++ [outcome_emission s elapsed r]) =
        total "expose_bytes_sent_total" fs) as Hb.
      { change (request_started s :: fs ++ [outcome_emission s elapsed r]) with
          ([request_started s] ++ fs ++ [outcome_emission s elapsed r]).
        rewrite !total_app. replace (total _ [outcome_emission s elapsed r]) with 0 by (by destruct r).
        change (total _ [request_started s]) with 0. lia. }
      unfold bytes_accounted in *. by rewrite Hb.
  - injection Hrun as <- <- <-.
    set (es := match e with RateLimited _ => _ | _ => _ end).
    assert (es = [] \/ es = [rate_limit_hit (at_subdomain t)]) as [-> | ->]
      by (unfold es; destruct e; auto); cbn; split_and!; try done; try (by left);
      (split; [done|]); intros (s' & t' & m' & [= <-] & Ht' & Hm); congruence.
Qed.
End Account.
