(* ===== verification/ServerProxySpec.v ===== *)
(** What the server's HTTP path guarantees: host resolution, bounded collection
    of bodies, and the outcome of a proxied request on every branch. *)

From Stdlib Require Import Ascii.
From S2P Require Import Prelude RustStr Types Errors Utils Protocol PendingStore Externals.
From S2P Require Import TunnelManager ManagerSpec Http ServerConfig ServerProxy.

Local Open Scope N_scope.

(** * Hosts *)

Section Host.
Context `{L : HttpLib}.

(** The subdomain of a request is what stands before the server's domain in
    its Host header, port aside: resolution succeeds with [s] exactly when the
    host is [s.domain] for a non-empty [s].  Another host, no host or an empty
    subdomain give the three errors of the code. *)
Theorem resolve_spec (domain : string) (parts : Parts) :
  match resolve domain parts with
  | Ok s => s <> EmptyString /\
      exists host, host_header parts = Ok host /\
        str_split_first ":"%char host = s +:+ "." +:+ domain
  | Err e =>
      (host_header parts = Err e /\ e = InvalidMessage "missing Host header") \/
      exists host, host_header parts = Ok host /\
        ((str_split_first ":"%char host = "." +:+ domain /\
          e = InvalidSubdomain EmptyString "empty subdomain") \/
         ((forall s, str_split_first ":"%char host <> s +:+ "." +:+ domain) /\
          http_status e = 404))
  end.
Proof.
  unfold resolve. destruct (host_header parts) as [host|e] eqn:Eh; cbn [mbind Result_bind].
  2:{ left; split; [done|]. unfold host_header in Eh. destruct (_ ≫= _); cbn in Eh; by simplify_eq. }
  set (h := str_split_first ":"%char host).
  destruct (str_ends_with ("." +:+ domain) h) eqn:Es; cbn [negb].
  - apply str_ends_with_iff in Es as [s Hs]. rewrite Hs, str_length_app.
    replace (String.length s + String.length ("." +:+ domain) - String.length ("." +:+ domain))%nat
      with (String.length s) by lia.
    rewrite str_take_app. destruct (String.eqb_spec s EmptyString) as [->|Hne].
    + right; exists host; split; [done|]. left; split; [|done].
      fold h; by rewrite Hs, str_app_nil_l.
    + split; [done|]. eauto.
  - right; exists host; split; [done|]. right; split; [|done].
    intros s Hs; fold h in Hs. assert (str_ends_with ("." +:+ domain) h = true); [|congruence].
    apply str_ends_with_iff. eauto.
Qed.
End Host.

(** * Bodies *)

Lemma collect_frames_spec (limit : N) (frames : list BodyFrame) (collected : Bytes) :
  len collected <= limit ->
  match collect_frames limit frames collected with
  | Ok b => exists d, frames_data frames = Some d /\ b = collected ++ d /\ len b <= limit
  | Err (PayloadTooLarge size l) => l = limit /\ limit < size /\
      forall d, frames_data frames = Some d -> limit < len collected + len d
  | Err (Internal text) => frames_data frames = None
  | Err _ => False
  end.
Proof.
  revert collected; induction frames as [|[d| |text] frames IH]; intros collected Hl; cbn.
  - exists []; by rewrite app_nil_r.
  - destruct (N.ltb_spec limit (len collected + len d)) as [Hlt|Hle].
    + split_and!; [done | done|]. intros d' Hd.
      destruct (frames_data frames) as [rest|]; cbn in Hd; [|done]. injection Hd as <-.
      rewrite Http.len_app; lia.
    + specialize (IH (collected ++ d)). rewrite Http.len_app in IH. specialize (IH Hle).
      destruct (collect_frames limit frames (collected ++ d)) as [b|e].
      * destruct IH as (d' & -> & -> & Hb). exists (d ++ d'); by rewrite (assoc (++)).
      * destruct e; try done.
        -- destruct IH as (-> & ? & Hf); split_and!; [done | done|]. intros d' Hd.
           destruct (frames_data frames) as [rest|]; cbn in Hd; [|done]. injection Hd as <-.
           specialize (Hf rest eq_refl). rewrite Http.len_app; lia.
        -- by rewrite IH.
  - by apply IH.
  - done.
Qed.

(** A collected body is the concatenation of the body's data and never
    larger than the limit; a body that is readable and within the limit, size
    hint included, is always collected; otherwise the error tells whether the
    body was too large (with the limit) or unreadable. *)
Theorem collect_spec (limit : N) (body : Body) :
  (forall b, collect limit body = Ok b -> body_data body = Some b /\ len b <= limit) /\
  (forall b, body_data body = Some b -> len b <= limit ->
     (forall upper, body_upper body = Some upper -> upper <= limit) -> collect limit body = Ok b) /\
  (forall e, collect limit body = Err e ->
     (exists size, e = PayloadTooLarge size limit /\ limit < size) \/
     (exists text, e = Internal text /\ body_data body = None)).
Proof.
  unfold collect, body_data.
  assert (len (@nil N) <= limit) as Hz by (unfold len; cbn; lia).
  pose proof (collect_frames_spec limit (body_frames body) [] Hz) as Hs.
  destruct (body_upper body) as [upper|] eqn:Eu;
    [destruct (N.ltb_spec limit upper) as [Hlt|Hle]; cbn [mbind Result_bind]|cbn [mbind Result_bind]].
  1:{ split_and!; [done | | intros e [= <-]; eauto]. intros b _ _ Hup.
      specialize (Hup upper eq_refl); lia. }
  all: destruct (collect_frames limit (body_frames body) []) as [b|e]; split_and!.
  all: try (intros; discriminate).
  all: try (destruct Hs as (d & Hd & -> & Hb); rewrite app_nil_l in *; intros; by simplify_eq).
  all: try (intros ? [= <-]; destruct e; try done;
            [destruct Hs as (-> & ? & _); left; by eauto | right; by eauto]).
  all: intros b Hb Hle' _; destruct e; try done; [|congruence].
  all: destruct Hs as (_ & _ & Hs); specialize (Hs b Hb); change (len (@nil N)) with 0 in Hs; lia.
Qed.

(** * A proxied request *)

Section Proxy.
Context `{G : Governor, H : Sha256, L : HttpLib, D : DebugMessage}.

Lemma check_rate_limit_frame (t : ActiveTunnel) (now later : Instant) (m : TunnelManager) :
  let m' := (check_rate_limit t now later m).2 in
  tm_tunnels m' = tm_tunnels m /\ tm_pending_store m' = tm_pending_store m /\
  tm_pending_config m' = tm_pending_config m.
Proof.
  unfold check_rate_limit. destruct (tm_cells m !! at_id t); [|done].
  by destruct (gov_check _ _) as [? [?|]].
Qed.

Lemma register_pending_tunnels (t rid : Uuid) timeout now ch (m : TunnelManager) :
  tm_tunnels (register_pending_request t rid timeout now ch m).2 = tm_tunnels m.
Proof. unfold register_pending_request. by destruct (pending_checks _ _). Qed.

(** The request that waits while the handler does. *)
Definition waits_for (cfg : ServerConfig) (run : RequestRun) (t : ActiveTunnel)
    (m : TunnelManager) : Prop :=
  exists r, ps_requests (tm_pending_store m) !! rr_request_id run = Some r /\
    pr_sender r = rr_channel run /\ pr_tunnel_id r = at_id t /\
    pr_deadline r = rr_now run + from_secs (sv_request_timeout_secs cfg).

(** The run of a request up to the wait: the handler stops early, without any
    effect on a tunnel's channel, or it has registered the request and puts on
    the channel of the tunnel that owns the subdomain what [forward] says. *)
Lemma proxy_cases (cfg : ServerConfig) (run : RequestRun) (parts : Parts) (body : Body)
    (st : ProxyState) (res : result Response) (st' : ProxyState) :
  proxy_with_state cfg run parts body st = Some (res, st') ->
  (px_outboxes st' = px_outboxes st /\ ~ is_ok res) \/
  (exists s t ob fwd ob',
     resolve (sv_domain cfg) parts = Ok s /\ manager_get s (px_manager st) = Some t /\
     ob = default {| ob_sent := []; ob_capacity := Some O |} (px_outboxes st !! at_sender t) /\
     forward cfg (rr_request_id run) parts body ob = Some (fwd, ob') /\
     px_outboxes st' = <[at_sender t := ob']> (px_outboxes st) /\
     waits_for cfg run t (px_manager st') /\
     res = match fwd with Ok _ => await_response cfg (rr_wait run) | Err e => Err e end).
Proof.
  unfold proxy_with_state. destruct (resolve (sv_domain cfg) parts) as [s|e]; [|naive_solver].
  destruct (manager_get s (px_manager st)) as [t|] eqn:Et; [|naive_solver].
  unfold limiter_check. pose proof (check_rate_limit_frame t (rr_limiter_now run)
    (rr_limiter_later run) (px_manager st)) as Hf.
  destruct (check_rate_limit _ _ _ _) as [[u|e] m1]; [|naive_solver].
  unfold register_pending_request. destruct (pending_checks (at_id t) m1); [|naive_solver].
  cbn -[store_insert store_add]. set (ob := default _ _).
  destruct (forward cfg (rr_request_id run) parts body ob) as [[fwd ob']|] eqn:Ef; [|done].
  cbn -[store_insert store_add]. intros Hres; right; exists s, t, ob, fwd, ob'.
  destruct fwd as [u'|e]; injection Hres as <- <-; split_and!; try done;
    (eexists; split; [cbn; by rewrite lookup_insert_eq|]; done).
Qed.

(** C18: a public request reaches at most one tunnel, the one registered under
    the subdomain of its Host header, whatever happens: no other tunnel's
    channel is touched.  It succeeds only with the [HttpResponse] that came
    for it, status and body as they came, with the headers that are valid (an
    invalid status is 200),
    and while it waits it is in the store with its deadline. *)
Theorem proxied_request_spec (cfg : ServerConfig) (run : RequestRun) (parts : Parts)
    (body : Body) (st : ProxyState) (res : result Response) (st' : ProxyState) :
  proxy_with_state cfg run parts body st = Some (res, st') ->
  (forall ch, px_outboxes st' !! ch <> px_outboxes st !! ch ->
     exists s t, resolve (sv_domain cfg) parts = Ok s /\
       manager_get s (px_manager st) = Some t /\ ch = at_sender t) /\
  (forall resp, res = Ok resp ->
     exists s t id status headers bytes,
       resolve (sv_domain cfg) parts = Ok s /\ manager_get s (px_manager st) = Some t /\
       waits_for cfg run t (px_manager st') /\
       rr_wait run = Answered (HttpResponse id status headers bytes) /\
       rs_status resp = match status_from_u16 status with Some c => c | None => 200 end /\
       rs_headers resp = omap (fun h => n ← header_name_parse h.1;
                                        v ← header_value_parse h.2; Some (n, v)) headers /\
       rs_body resp = bytes).
Proof.
  intros Hrun%proxy_cases. split_and!.
  - intros ch Hne. destruct Hrun as [[He _]|(s & t & ob & fwd & ob' & Hs & Ht & _ & _ & Ho & _)];
      [by rewrite He in Hne|]. exists s, t; split_and!; try done.
    rewrite Ho in Hne. destruct (decide (ch = at_sender t)) as [|Hn]; [done|].
    by rewrite lookup_insert_ne in Hne.
  - intros resp ->. destruct Hrun as [[_ Hno]|(s & t & ob & fwd & ob' & Hs & Ht & _ & _ & _ & Hw & Hr)];
      [by destruct Hno|].
    destruct fwd as [u|e]; [|done]. unfold await_response in Hr.
    destruct (rr_wait run) as [msg| |]; [|done|done].
    unfold from_message in Hr; destruct msg; try done. injection Hr as ->.
    exists s, t, id, status, headers, body0. split_and!; try done.
Qed.

(** A small request is forwarded whole, as one [HttpRequest] under its id
    with all of the body; when the body cannot be collected nothing is sent,
    but the request that was registered before stays in the pending store,
    where only the sweeper will remove it. *)
Theorem buffered_request_spec (cfg : ServerConfig) (run : RequestRun) (parts : Parts)
    (body : Body) (st : ProxyState) (s : string) (t : ActiveTunnel) (ob : Outbox)
    (m1 : TunnelManager) :
  resolve (sv_domain cfg) parts = Ok s -> manager_get s (px_manager st) = Some t ->
  check_rate_limit t (rr_limiter_now run) (rr_limiter_later run) (px_manager st) = (Ok tt, m1) ->
  pending_checks (at_id t) m1 = Ok tt ->
  should_stream (sv_streaming cfg) parts body = false ->
  px_outboxes st !! at_sender t = Some ob -> ob_capacity ob = None ->
  exists res st', proxy_with_state cfg run parts body st = Some (res, st') /\
    waits_for cfg run t (px_manager st') /\
    match collect (sv_request_body_limit_bytes cfg) body with
    | Ok data =>
        px_outboxes st' = <[at_sender t := outbox_push
          (HttpRequest (rr_request_id run) (pt_method parts) (request_path parts)
             (forwarded_headers parts) data) ob]> (px_outboxes st) /\
        res = await_response cfg (rr_wait run)
    | Err e => px_outboxes st' = px_outboxes st /\ res = Err e
    end.
Proof.
  intros Hs Ht Hrate Hp Hstream Hob Hc.
  assert (exists res st', proxy_with_state cfg run parts body st = Some (res, st')) as (res & st' & Hrun).
  { unfold proxy_with_state, limiter_check, register_pending_request, forward.
    rewrite Hs, Ht, Hrate, Hp, Hstream. destruct (collect _ body); cbn; [|by eauto].
    destruct (send _ _) as [[?|?] ?]; eauto. }
  exists res, st'; split; [done|].
  unfold proxy_with_state, limiter_check, register_pending_request, forward in Hrun.
  rewrite Hs, Ht, Hrate, Hp, Hstream, Hob in Hrun. cbn -[store_insert store_add] in Hrun.
  destruct (collect (sv_request_body_limit_bytes cfg) body) as [data|e];
    unfold send, outbox_open in Hrun; rewrite ?Hc in Hrun; cbn -[store_insert store_add] in Hrun;
    injection Hrun as <- <-; (split; [eexists; split; [cbn; by rewrite lookup_insert_eq|]; done|]);
    split; try done.
  cbn. by rewrite insert_id.
Qed.
End Proxy.
