(* ===== verification/Abandoned.v ===== *)
(** A public client that goes away: the server drops the future of
    [proxy_with_state] in [expose-server/src/proxy/mod.rs] where it waits, and
    what runs after that point never runs.

    The handler waits for the body (in [BodyCollector] or [RequestStreamer]) or
    for the tunnel's response.  Nothing of the program notices: the pending
    request it has registered has no guard. *)

From S2P Require Import Prelude RustStr Types Errors Utils Protocol PendingStore Externals.
From S2P Require Import TunnelManager ManagerSpec Http ServerConfig ServerProxy ServerProxySpec.

Local Open Scope N_scope.

(** * Dropping a handler *)

(** Where it waits. *)
Inductive WaitPoint : Type :=
| ForBody (seen : list BodyFrame)   (* with these frames taken, for the next *)
| ForAnswer.

Section Abandoned.
Context `{G : Governor, H : Sha256, L : HttpLib, D : DebugMessage}.

(** The channel of the tunnel when a handler waits there; [None] when it does not
    get there, having ended before. *)
Definition sent_before (cfg : ServerConfig) (id : Uuid) (parts : Parts) (body : Body)
    (w : WaitPoint) (ob : Outbox) : option Outbox :=
  match w with
  | ForAnswer =>
      '(r, ob') ← forward cfg id parts body ob;
      match r with Ok _ => Some ob' | Err _ => None end
  | ForBody seen =>
      if should_stream (sv_streaming cfg) parts body then
        match send (HttpRequestStart id (pt_method parts) (request_path parts)
                      (forwarded_headers parts) (content_length parts)) ob with
        | (Ok _, ob1) =>
            '(r, ob2) ← stream_frames (sv_streaming cfg) id seen 0 0 ob1;
            match r with Ok _ => Some ob2 | Err _ => None end
        | (Err _, _) => None
        end
      else
        match collect (sv_request_body_limit_bytes cfg)
                {| body_upper := body_upper body; body_frames := seen |} with
        | Ok _ => Some ob
        | Err _ => None
        end
  end.

(** [proxy_with_state] up to the point where it is dropped. *)
Definition proxy_dropped (cfg : ServerConfig) (run : RequestRun) (parts : Parts) (body : Body)
    (w : WaitPoint) (st : ProxyState) : option ProxyState :=
  match resolve (sv_domain cfg) parts with
  | Err _ => None
  | Ok subdomain =>
      tunnel ← manager_get subdomain (px_manager st);
      match limiter_check tunnel (rr_limiter_now run) (rr_limiter_later run) (px_manager st) with
      | (Err _, _) => None
      | (Ok _, m1) =>
          match register_pending_request (at_id tunnel) (rr_request_id run)
                  (Some (from_secs (sv_request_timeout_secs cfg))) (rr_now run)
                  (rr_channel run) m1 with
          | (Err _, _) => None
          | (Ok _, m2) =>
              let ob := default {| ob_sent := []; ob_capacity := Some O |}
                          (px_outboxes st !! at_sender tunnel) in
              ob' ← sent_before cfg (rr_request_id run) parts body w ob;
              Some {| px_manager := m2; px_outboxes := <[at_sender tunnel := ob']> (px_outboxes st) |}
          end
      end
  end.

(** A request whose handler is dropped. *)
Record Visit : Type := {
  vi_run : RequestRun;
  vi_parts : Parts;
  vi_body : Body;
  vi_point : WaitPoint;
}.

Fixpoint drop_all (cfg : ServerConfig) (vs : list Visit) (st : ProxyState) : option ProxyState :=
  match vs with
  | [] => Some st
  | v :: rest =>
      proxy_dropped cfg (vi_run v) (vi_parts v) (vi_body v) (vi_point v) st ≫= drop_all cfg rest
  end.

(** * What stays behind *)

(** Ids and channels are fresh. *)
Definition fresh_visits (vs : list Visit) (s : PendingStore) : Prop :=
  NoDup ((fun v => rr_request_id (vi_run v)) <$> vs) /\
  NoDup ((fun v => rr_channel (vi_run v)) <$> vs) /\
  forall v, v ∈ vs -> ps_requests s !! rr_request_id (vi_run v) = None /\
                      channel_free (rr_channel (vi_run v)) s.

Definition deadline (cfg : ServerConfig) (v : Visit) : Instant :=
  rr_now (vi_run v) + from_secs (sv_request_timeout_secs cfg).

Lemma proxy_dropped_keeps (cfg : ServerConfig) (run : RequestRun) (parts : Parts) (body : Body)
    (w : WaitPoint) (st st' : ProxyState) (s : string) (t : ActiveTunnel) :
  proxy_dropped cfg run parts body w st = Some st' ->
  resolve (sv_domain cfg) parts = Ok s -> manager_get s (px_manager st) = Some t ->
  manager_wf (px_manager st) ->
  ps_requests (tm_pending_store (px_manager st)) !! rr_request_id run = None ->
  channel_free (rr_channel run) (tm_pending_store (px_manager st)) ->
  manager_wf (px_manager st') /\ waits_for cfg run t (px_manager st') /\
  tm_tunnels (px_manager st') = tm_tunnels (px_manager st) /\
  tm_pending_config (px_manager st') = tm_pending_config (px_manager st) /\
  exists p, pr_request_id p = rr_request_id run /\ pr_sender p = rr_channel run /\
    ps_requests (tm_pending_store (px_manager st')) =
      <[rr_request_id run := p]> (ps_requests (tm_pending_store (px_manager st))).
Proof.
  unfold proxy_dropped. intros Hrun Hs Ht Hm Hid Hch. rewrite Hs, Ht in Hrun.
  cbn [mbind option_bind] in Hrun. unfold limiter_check in Hrun.
  destruct (check_rate_limit_frame t (rr_limiter_now run) (rr_limiter_later run) (px_manager st))
    as (Hts & Hst & Hpc).
  pose proof (check_rate_limit_wf t (rr_limiter_now run) (rr_limiter_later run) _ Hm) as Hm1.
  destruct (check_rate_limit _ _ _ _) as [[u|] m1]; [|done]. cbn [snd] in *.
  rewrite <- Hst in Hid, Hch. rewrite <- Hts, <- Hpc, <- Hst.
  pose proof (register_pending_wf (at_id t) (rr_request_id run)
    (Some (from_secs (sv_request_timeout_secs cfg))) (rr_now run) (rr_channel run) m1 Hm1 Hid Hch) as Hw.
  unfold register_pending_request in *. destruct (pending_checks (at_id t) m1); [|done].
  destruct (sent_before _ _ _ _ _ _) as [ob'|]; [|done]. injection Hrun as <-.
  cbn [px_manager]. split_and!; [done | |done..|].
  - eexists; split; [cbn; by rewrite lookup_insert_eq | done].
  - eexists; split_and!; [..|reflexivity]; done.
Qed.

(** Every one of them still waits. *)
Definition all_wait (cfg : ServerConfig) (t : ActiveTunnel) (vs : list Visit) (m : TunnelManager) :
    Prop := forall v, v ∈ vs -> waits_for cfg (vi_run v) t m.

Lemma drop_all_waits (cfg : ServerConfig) (vs : list Visit) (st st' : ProxyState) (s : string)
    (t : ActiveTunnel) :
  drop_all cfg vs st = Some st' ->
  (forall v, v ∈ vs -> resolve (sv_domain cfg) (vi_parts v) = Ok s) ->
  manager_get s (px_manager st) = Some t -> manager_wf (px_manager st) ->
  fresh_visits vs (tm_pending_store (px_manager st)) ->
  manager_wf (px_manager st') /\ manager_get s (px_manager st') = Some t /\
  tm_pending_config (px_manager st') = tm_pending_config (px_manager st) /\
  (forall id, id ∉ (fun v => rr_request_id (vi_run v)) <$> vs ->
     ps_requests (tm_pending_store (px_manager st')) !! id =
     ps_requests (tm_pending_store (px_manager st)) !! id) /\
  all_wait cfg t vs (px_manager st').
Proof.
  revert st; induction vs as [|v vs IH]; intros st; cbn [drop_all].
  { intros [= <-] _ ? ? _. split_and!; try done. by intros v ?%not_elem_of_nil. }
  destruct (proxy_dropped cfg _ _ _ _ st) as [st1|] eqn:Ed; [|done]. cbn [mbind option_bind].
  intros Hrun Hres Ht Hm (Hids & Hchs & Hfresh).
  rewrite fmap_cons in Hids, Hchs. apply NoDup_cons in Hids as [Hid Hids].
  apply NoDup_cons in Hchs as [Hch Hchs].
  destruct (Hfresh v) as [Hnew Hfree]; [by left|].
  destruct (proxy_dropped_keeps _ _ _ _ _ _ _ s t Ed) as (Hm1 & Hw1 & Hts & Hpc & p & Hpid & Hps & Hmap);
    [apply Hres; by left | done..|].
  destruct (IH st1 Hrun) as (Hm' & Ht' & Hpc' & Hother & Hall).
  - intros w Hw. apply Hres. by right.
  - unfold manager_get in *. by rewrite Hts.
  - done.
  - split_and!; [done..|]. intros w Hw. destruct (Hfresh w) as [Hwid Hwch]; [by right|].
    unfold channel_free in *. rewrite Hmap. split.
    + rewrite lookup_insert_ne; [done|]. intros He. apply Hid.
      apply list_elem_of_fmap. by exists w.
    + intros id r [[<- <-]|[_ Hr]]%lookup_insert_Some; [|by eapply Hwch].
      rewrite Hps. intros He. apply Hch. apply list_elem_of_fmap. by exists w.
  - split_and!; [done | done | by rewrite Hpc' | |].
    + intros id [Hne Hnot]%not_elem_of_cons. by rewrite Hother, Hmap, lookup_insert_ne.
    + intros w [->|Hw]%elem_of_cons; [|by apply Hall].
      destruct Hw1 as (r & Hr & Hrest). exists r. by rewrite Hother.
Qed.

(** A sweep before their deadlines leaves them. *)
Lemma sweep_keeps_waiting (cfg : ServerConfig) (t : ActiveTunnel) (vs : list Visit) (now : Instant)
    (m : TunnelManager) :
  all_wait cfg t vs m -> (forall v, v ∈ vs -> now < deadline cfg v) ->
  all_wait cfg t vs (sweep now m).1.
Proof.
  intros Hall Hnow v Hv. destruct (Hall v Hv) as (r & Hr & Hch & Hid & Hd).
  exists r. split; [|done]. rewrite sweep_eq; cbn.
  pose proof (sweep_tick_eq now (tm_pending_store m)) as Hs.
  pose proof (remove_where_lookup (overdue now) (tm_pending_store m) (rr_request_id (vi_run v)) r) as Hl.
  destruct (remove_all _ _) as [s' removed]. destruct Hs as (_ & -> & _). apply Hl.
  split; [done|]. cbn. rewrite Hd. apply N.lt_nge, Hnow, Hv.
Qed.

Definition sweeps (nows : list Instant) (m : TunnelManager) : TunnelManager :=
  fold_left (fun m now => (sweep now m).1) nows m.

Lemma sweeps_keep (cfg : ServerConfig) (t : ActiveTunnel) (s : string) (vs : list Visit)
    (nows : list Instant) (m : TunnelManager) :
  all_wait cfg t vs m -> manager_wf m -> manager_get s m = Some t ->
  (forall now v, now ∈ nows -> v ∈ vs -> now < deadline cfg v) ->
  all_wait cfg t vs (sweeps nows m) /\ manager_wf (sweeps nows m) /\
  manager_get s (sweeps nows m) = Some t /\ tm_pending_config (sweeps nows m) = tm_pending_config m.
Proof.
  revert m; induction nows as [|now nows IH]; intros m Hall Hm Ht Hnow; [done|]. cbn [sweeps fold_left].
  destruct (IH (sweep now m).1) as (H1 & H2 & H3 & H4).
  - apply sweep_keeps_waiting; [done|]. intros v Hv. apply Hnow; [by left | done].
  - by apply sweep_wf.
  - by rewrite sweep_eq.
  - intros now' v Hn Hv. apply Hnow; [by right | done].
  - split_and!; try done. unfold sweeps in H4. by rewrite H4, sweep_eq.
Qed.

(** As many requests as wait for a tunnel are counted for it. *)
Lemma all_wait_counted (cfg : ServerConfig) (t : ActiveTunnel) (vs : list Visit) (m : TunnelManager) :
  manager_wf m -> NoDup ((fun v => rr_request_id (vi_run v)) <$> vs) -> all_wait cfg t vs m ->
  len vs <= count_for_tunnel (at_id t) (tm_pending_store m).
Proof.
  intros Hm Hnd Hall. rewrite (wf_count _ (mw_store _ Hm)). unfold mcount, msize, len.
  rewrite <- (length_fmap (fun v => rr_request_id (vi_run v)) vs), <- (size_list_to_set (C := gset Uuid)) by done.
  rewrite <- size_dom. apply N2Z.inj_le. rewrite !nat_N_Z. apply inj_le, subseteq_size.
  intros id (v & -> & Hv)%elem_of_list_to_set%list_elem_of_fmap.
  destruct (Hall v Hv) as (r & Hr & _ & Hid & _). apply elem_of_dom. exists r.
  by apply map_lookup_filter_Some.
Qed.

(** C30: abandoned requests block a tunnel.  When public clients go away while
    their handlers wait, the requests stay in the store, and no sweep before
    their deadlines removes them.  With as many as [max_per_tunnel], every
    further request to the tunnel is refused, as limited or for want of
    capacity, reaches nobody, and changes no waiting request, although nobody
    waits for an answer to those. *)
Theorem abandoned_requests_block_tunnel (cfg : ServerConfig) (vs : list Visit)
    (st st' : ProxyState) (s : string) (t : ActiveTunnel) (nows : list Instant) :
  manager_wf (px_manager st) -> manager_get s (px_manager st) = Some t ->
  (forall v, v ∈ vs -> resolve (sv_domain cfg) (vi_parts v) = Ok s) ->
  fresh_visits vs (tm_pending_store (px_manager st)) ->
  drop_all cfg vs st = Some st' ->
  pc_max_per_tunnel (tm_pending_config (px_manager st)) <= len vs ->
  (forall now v, now ∈ nows -> v ∈ vs -> now < deadline cfg v) ->
  let m := sweeps nows (px_manager st') in
  all_wait cfg t vs m /\
  forall run parts body outboxes, resolve (sv_domain cfg) parts = Ok s ->
    exists e m',
      proxy_with_state cfg run parts body {| px_manager := m; px_outboxes := outboxes |} =
        Some (Err e, {| px_manager := m'; px_outboxes := outboxes |}) /\
      ((exists reason, e = CapacityExceeded reason) \/
       (check_rate_limit t (rr_limiter_now run) (rr_limiter_later run) m).1 = Err e) /\
      tm_pending_store m' = tm_pending_store m.
Proof.
  intros Hm Ht Hres Hfresh Hrun Hmax Hnow m.
  destruct (drop_all_waits _ _ _ _ _ _ Hrun Hres Ht Hm Hfresh) as (Hm' & Ht' & Hpc & _ & Hall).
  destruct (sweeps_keep cfg t s vs nows _ Hall Hm' Ht' Hnow) as (Hall2 & Hm2 & Ht2 & Hpc2).
  fold m in Hall2, Hm2, Ht2, Hpc2. split; [done|]. intros run parts body outboxes Hparts.
  unfold proxy_with_state, limiter_check. rewrite Hparts; cbn [px_manager px_outboxes]. rewrite Ht2.
  pose proof (check_rate_limit_frame t (rr_limiter_now run) (rr_limiter_later run) m) as (_ & Hst & Hpc3).
  destruct (check_rate_limit _ _ _ _) as [[u|e] m1]; cbn [snd fst] in *.
  - unfold register_pending_request. pose proof (pending_checks_cases (at_id t) m1) as Hc.
    destruct (pending_checks (at_id t) m1) as [?|e] eqn:Ec.
    + destruct Hc as [_ Hc]. rewrite Hst, Hpc3, Hpc2, Hpc in Hc.
      pose proof (all_wait_counted cfg t vs m Hm2 (proj1 Hfresh) Hall2). lia.
    + exists e, m1. split_and!; [done | | done]. left. destruct Hc as [[_ ->]|(_ & _ & ->)]; eauto.
  - exists e, m1. split_and!; [done | by right | done].
Qed.

(** ** What the client has *)

(** The messages put on a channel satisfy [P]. *)
Definition puts (P : Message -> Prop) (ob ob' : Outbox) : Prop :=
  exists ms, ob_sent ob' = ob_sent ob ++ ms /\ Forall P ms.

Lemma puts_refl (P : Message -> Prop) (ob : Outbox) : puts P ob ob.
Proof. exists []. by rewrite app_nil_r. Qed.

Lemma puts_trans (P : Message -> Prop) (ob ob1 ob2 : Outbox) :
  puts P ob ob1 -> puts P ob1 ob2 -> puts P ob ob2.
Proof.
  intros (a & Ha & HPa) (b & Hb & HPb). exists (a ++ b). rewrite Hb, Ha, (assoc (++)).
  split; [done | by apply Forall_app].
Qed.

Lemma puts_send (P : Message -> Prop) (m : Message) (ob : Outbox) :
  P m -> puts P ob (send m ob).2.
Proof.
  intros Hm. unfold send. destruct (outbox_open ob); [|apply puts_refl].
  exists [m]. by split; [|constructor].
Qed.

(** A message that does not complete a request. *)
Definition incomplete (m : Message) : Prop :=
  match m with HttpRequestStart _ _ _ _ _ | HttpRequestChunk _ _ _ => True | _ => False end.

Lemma puts_chunks (id : Uuid) (cs : list Bytes) (sequence : N) (ob : Outbox) :
  puts incomplete ob (send_chunks id cs sequence ob).2.
Proof.
  revert sequence ob; induction cs as [|c cs IH]; intros sequence ob; cbn; [apply puts_refl|].
  pose proof (puts_send incomplete (HttpRequestChunk id c sequence) ob I) as Hs.
  destruct (send _ ob) as [[u|e] ob1]; [by eapply puts_trans | done].
Qed.

Lemma puts_frames (cfg : StreamingConfig) (id : Uuid) (frames : list BodyFrame)
    (total sequence : N) (ob : Outbox) r (ob' : Outbox) :
  stream_frames cfg id frames total sequence ob = Some (r, ob') -> puts incomplete ob ob'.
Proof.
  revert total sequence ob; induction frames as [|[d| |text] frames IH];
    intros total sequence ob; cbn; try (intros [= <- <-]; apply puts_refl); [|by apply IH].
  destruct (_ <? _); [intros [= <- <-]; apply puts_refl|]. destruct (_ =? _); [done|].
  pose proof (puts_chunks id (chunks (sc_chunk_size_bytes cfg) d) sequence ob) as Hc.
  destruct (send_chunks _ _ _ _) as [[n|e] ob1].
  - intros Hr%IH. by eapply puts_trans.
  - by intros [= <- <-].
Qed.

(** What the client has of a request that was dropped while its body came is never
    the end of it: its local call is not made, and nothing takes the part that
    came out of the client's buffer. *)
Lemma dropped_body_unfinished (cfg : ServerConfig) (id : Uuid) (parts : Parts) (body : Body)
    (seen : list BodyFrame) (ob ob' : Outbox) :
  sent_before cfg id parts body (ForBody seen) ob = Some ob' -> puts incomplete ob ob'.
Proof.
  unfold sent_before. destruct (should_stream _ _ _).
  - pose proof (puts_send incomplete (HttpRequestStart id (pt_method parts) (request_path parts)
      (forwarded_headers parts) (content_length parts)) ob I) as Hs.
    destruct (send _ ob) as [[u|e] ob1]; [|done].
    destruct (stream_frames _ id seen 0 0 ob1) as [[[u'|e] ob2]|] eqn:Ef; cbn; try done. intros [= <-].
    apply puts_frames in Ef. by eapply puts_trans.
  - destruct (collect _ _); [|done]. intros [= <-]. apply puts_refl.
Qed.
End Abandoned.
