(* ===== verification/ClientSession.v ===== *)
(** What the client's session guarantees, and how a session ends: the handshake
    and the texts the two sides exchange, frames that end a session, and the
    teardown after the loop of [run_single_session], as a transition system. *)

From Stdlib Require Import Ascii.
From S2P Require Import Prelude RustStr Types Errors Utils Protocol WebSocket Http LocalProxy.
From S2P Require Import Backoff ClientTunnel.

Local Open Scope N_scope.

(** * The end of a session *)

(** [writer_result] is what joining the writer task gave: an error of the join
    itself, or the task's result. *)
Definition session_result (t : Termination) (writer_result : Result string (result unit)) :
    SessionResult :=
  match writer_result with
  | Err err => Reconnect (network ("Writer task failed: " +:+ err)) true
  | Ok (Err err) => Reconnect err true
  | Ok (Ok _) =>
      match t with
      | TermShutdown => Shutdown true
      | TermError error => Reconnect error true
      end
  end.

(** * Teardown *)

(** After the loop the session drops its sender and joins the writer task.  The
    writer ends when the channel is empty and nobody holds a sender any more,
    or when a write fails.  The ping task and the proxy tasks hold senders. *)
Record Teardown : Type := {
  td_ping : bool;              (* the ping task runs *)
  td_tasks : nat;              (* proxy tasks that hold a sender *)
  td_queue : list Outgoing;    (* frames the writer has not taken *)
  td_writer : option (result unit);  (* what the writer ended with *)
  td_shutdown : bool;          (* the cancellation token *)
  td_writable : bool;          (* writes on the websocket succeed *)
}.

Section Steps.
Context `{B : BincodeCodec}.

(** What the writer does with a frame. *)
Definition write_frame (writable : bool) (o : Outgoing) : result unit :=
  match o with
  | OutProtocol message =>
      _ ← encode message;
      if writable then Ok tt else Err (network "WebSocket send error: ")
  | OutRaw _ => if writable then Ok tt else Err (network "WebSocket control send error: ")
  end.

Inductive Event : Type :=
| Tick                      (* the ping interval elapses *)
| PingStops                 (* the ping task sees the token *)
| TaskEnds (o : Outgoing)   (* a proxy task sends its response and ends *)
| WriterTakes               (* the writer takes a frame *)
| WriterEnds                (* the writer sees the closed channel *)
| CancelToken               (* the user stops the client *)
| Breaks.                   (* the websocket stops accepting writes *)

Definition td_step (e : Event) (s : Teardown) : option Teardown :=
  match e with
  | Tick =>
      if td_ping s then
        match td_writer s with
        | None => Some {| td_ping := true; td_tasks := td_tasks s;
                          td_queue := td_queue s ++ [OutRaw (WsPing [])]; td_writer := None;
                          td_shutdown := td_shutdown s; td_writable := td_writable s |}
        | Some r => Some {| td_ping := false; td_tasks := td_tasks s; td_queue := td_queue s;
                            td_writer := Some r; td_shutdown := td_shutdown s;
                            td_writable := td_writable s |}
        end
      else None
  | PingStops =>
      if td_ping s && td_shutdown s then
        Some {| td_ping := false; td_tasks := td_tasks s; td_queue := td_queue s;
                td_writer := td_writer s; td_shutdown := true; td_writable := td_writable s |}
      else None
  | TaskEnds o =>
      match td_tasks s with
      | O => None
      | S n => Some {| td_ping := td_ping s; td_tasks := n;
                       td_queue := match td_writer s with
                                   | None => td_queue s ++ [o]
                                   | Some _ => td_queue s
                                   end;
                       td_writer := td_writer s; td_shutdown := td_shutdown s;
                       td_writable := td_writable s |}
      end
  | WriterTakes =>
      match td_writer s, td_queue s with
      | None, o :: rest =>
          Some {| td_ping := td_ping s; td_tasks := td_tasks s; td_queue := rest;
                  td_writer := match write_frame (td_writable s) o with
                               | Ok _ => None
                               | Err e => Some (Err e)
                               end;
                  td_shutdown := td_shutdown s; td_writable := td_writable s |}
      | _, _ => None
      end
  | WriterEnds =>
      match td_writer s, td_queue s, td_ping s, td_tasks s with
      | None, [], false, O =>
          Some {| td_ping := false; td_tasks := O; td_queue := []; td_writer := Some (Ok tt);
                  td_shutdown := td_shutdown s; td_writable := td_writable s |}
      | _, _, _, _ => None
      end
  | CancelToken =>
      Some {| td_ping := td_ping s; td_tasks := td_tasks s; td_queue := td_queue s;
              td_writer := td_writer s; td_shutdown := true; td_writable := td_writable s |}
  | Breaks =>
      Some {| td_ping := td_ping s; td_tasks := td_tasks s; td_queue := td_queue s;
              td_writer := td_writer s; td_shutdown := td_shutdown s; td_writable := false |}
  end.

Fixpoint td_run (es : list Event) (s : Teardown) : option Teardown :=
  match es with
  | [] => Some s
  | e :: es' => td_step e s ≫= td_run es'
  end.

(** The loop ended with an error; [tasks] proxy tasks are still at work. *)
Definition teardown_init (tasks : nat) (queue : list Outgoing) : Teardown :=
  {| td_ping := true; td_tasks := tasks; td_queue := queue; td_writer := None;
     td_shutdown := false; td_writable := true |}.

(** Nobody stops the client, the websocket works, and every response the proxy
    tasks produce can be encoded. *)
Definition quiet (e : Event) : Prop :=
  match e with
  | CancelToken | Breaks => False
  | TaskEnds o => is_ok (write_frame true o) = true
  | _ => True
  end.

Definition stuck (s : Teardown) : Prop :=
  td_ping s = true /\ td_writer s = None /\ td_shutdown s = false /\ td_writable s = true /\
  Forall (fun o => is_ok (write_frame true o) = true) (td_queue s).

Lemma quiet_step_stuck (e : Event) (s s' : Teardown) :
  stuck s -> quiet e -> td_step e s = Some s' -> stuck s'.
Proof.
  intros (Hp & Hw & Hs & Hb & Hq) He Hstep. destruct e; cbn in Hstep, He; try done;
    rewrite ?Hp, ?Hw, ?Hs, ?Hb in Hstep; cbn in Hstep; try done.
  - injection Hstep as <-; unfold stuck; cbn; split_and!; try done.
    apply Forall_app; split; [done | by constructor].
  - destruct (td_tasks s); [done|]. injection Hstep as <-; unfold stuck; cbn; split_and!; try done.
    apply Forall_app; split; [done | by constructor].
  - destruct (td_queue s) as [|o rest]; [done|]. apply Forall_cons in Hq as [Ho Hq].
    injection Hstep as <-; unfold stuck; cbn; split_and!; try done.
    by destruct (write_frame true o).
  - destruct (td_queue s); [|done]. by destruct (td_ping s).
Qed.

Lemma quiet_run_stuck (es : list Event) (s s' : Teardown) :
  Forall quiet es -> stuck s -> td_run es s = Some s' -> stuck s'.
Proof.
  intros Hq; revert s; induction Hq as [|e es He Hq IH]; cbn; intros s Hs Hrun; [by injection Hrun as <-|].
  destruct (td_step e s) as [s1|] eqn:E; [|done]; cbn in Hrun.
  eapply IH; [|done]. by eapply quiet_step_stuck.
Qed.

(** Without the ping task the writer can always end. *)
Lemma writer_finishes (s : Teardown) :
  td_ping s = false -> td_writer s = None -> td_writable s = true ->
  Forall (fun o => is_ok (write_frame true o) = true) (td_queue s) ->
  exists rest s', td_run rest s = Some s' /\ td_writer s' = Some (Ok tt).
Proof.
  destruct s as [ping tasks queue writer shut writable]; cbn; intros -> -> -> Hq.
  revert queue Hq; induction tasks as [|n IH]; intros queue Hq.
  - induction Hq as [|o queue Ho Hq IHq]; [by exists [WriterEnds]; eexists|].
    destruct IHq as (rest & s' & Hrun & Hw). exists (WriterTakes :: rest), s'; split; [|done].
    cbn. destruct (write_frame true o); [exact Hrun | done].
  - destruct (IH (queue ++ [OutRaw WsFrame])) as (rest & s' & Hrun & Hw).
    { apply Forall_app; split; [done | by constructor]. }
    exists (TaskEnds (OutRaw WsFrame) :: rest), s'; split; [exact Hrun | done].
Qed.

(** C38: after an error that leaves the websocket writable (a protocol error, a
    body above the buffer limit, data for an unknown connection) the session
    does not end: the writer task it joins is kept alive by the ping task, for
    as long as nobody cancels and no write fails, so the client neither reads
    nor reconnects.  Cancelling lets it end. *)
Theorem teardown_waits_for_ping (tasks : nat) (queue : list Outgoing) (es : list Event)
    (s : Teardown) :
  Forall (fun o => is_ok (write_frame true o) = true) queue -> Forall quiet es ->
  td_run es (teardown_init tasks queue) = Some s ->
  td_writer s = None /\
  exists rest s', td_run (CancelToken :: rest) s = Some s' /\ td_writer s' = Some (Ok tt).
Proof.
  intros Hq Hquiet Hrun. assert (stuck s) as (Hp & Hw & Hs & Hb & Hqs).
  { eapply quiet_run_stuck; [done | | done]. by unfold stuck. }
  split; [done|].
  destruct s as [ping n q writer shut writable]; cbn in *; subst.
  destruct (writer_finishes {| td_ping := false; td_tasks := n; td_queue := q; td_writer := None;
                               td_shutdown := true; td_writable := true |})
    as (rest & s' & Hrest & Hend); try done.
  exists (PingStops :: rest), s'; split; [exact Hrest | done].
Qed.

End Steps.

(** * What the two sides tell each other *)

Lemma parse_after_needle (a rest : string) (v : N) (c : ascii) :
  no_match version_needle a = true -> is_ascii_digit c = false -> v <= u16_max ->
  parse_server_version (a +:+ version_needle +:+ fmt_uint v +:+ String c rest) = Some v.
Proof.
  intros Ha Hc Hv. unfold parse_server_version.
  rewrite str_find_past, str_find_here by done. cbn [fmap option_fmap option_map mbind option_bind].
  rewrite Nat.add_0_r, str_drop_add, str_drop_app.
  rewrite str_take_while_app by (by try apply fmt_uint_digits).
  destruct (String.eqb_spec (fmt_uint v) EmptyString) as [He|_]; [by apply fmt_uint_nonempty in He|].
  by apply parse_fmt_uint.
Qed.

Lemma no_match_app (needle a b : string) :
  no_match needle a = true -> no_match needle b = true -> no_match needle (a +:+ b) = true.
Proof.
  intros Ha Hb; induction a as [|x a IH]; [done|].
  rewrite str_app_cons; cbn [no_match] in *. apply andb_true_iff in Ha as [Hm Ha].
  apply andb_true_iff; split; [|by apply IH]. clear -Hm. revert Hm.
  rewrite <- str_app_cons. generalize (String x a); clear x a.
  induction needle as [|x needle IH]; intros [|y a]; cbn [mismatch]; try done.
  rewrite str_app_cons; cbn [mismatch]. destruct (Ascii.eqb x y); [apply IH | done].
Qed.

Lemma no_match_digits (s : string) :
  str_forall is_ascii_digit s = true -> no_match version_needle s = true.
Proof.
  induction s as [|c s IH]; [done|]; cbn [str_forall no_match]. rewrite andb_true_iff; intros [Hc Hs].
  rewrite IH, andb_true_r by done. unfold version_needle; cbn [mismatch].
  destruct (Ascii.eqb_spec "s"%char c) as [<-|]; [by vm_compute in Hc | done].
Qed.

Lemma version_check_versions (c s : N) :
  match version_check c s with
  | Compatible => True
  | ClientTooOld c' s' _ | ClientTooNew c' s' => c' = c /\ s' = s
  end.
Proof. unfold version_check. by repeat case_match; simplify_eq. Qed.

(** The client reads the server's version back from the refusal the server
    wrote, whichever of the two is older, so the error it shows names both
    versions correctly. *)
Theorem version_refusal_roundtrip (client_version server_version : N) (message : string) :
  server_version <= u16_max ->
  error_message (version_check client_version server_version) = Some message ->
  parse_server_version message = Some server_version /\
  protocol_error_from_message ProtocolMismatch message =
    VersionMismatch PROTOCOL_VERSION server_version.
Proof.
  intros Hs Hm.
  assert (parse_server_version message = Some server_version) as Hp.
  { pose proof (no_match_digits _ (fmt_uint_digits client_version)) as Hd.
    pose proof (version_check_versions client_version server_version) as Hv.
    destruct (version_check client_version server_version) as [|c s m|c s]; [done|..];
      destruct Hv as (-> & ->); injection Hm as <-.
    - rewrite <- (parse_after_needle
        ("Client version " +:+ fmt_uint client_version +:+ " is incompatible with ")
        (" Upgrade the client to version " +:+ fmt_uint m +:+ " or newer.")
        server_version "."); [| |done|done].
      + f_equal. rewrite !str_app_assoc. done.
      + by repeat apply no_match_app.
    - rewrite <- (parse_after_needle
        ("Client version " +:+ fmt_uint client_version +:+ " is newer than ")
        " Upgrade the server to a compatible build." server_version "."); [| |done|done].
      + f_equal. rewrite !str_app_assoc. done.
      + by repeat apply no_match_app. }
  split; [done|]. unfold protocol_error_from_message, version_mismatch_error. by rewrite Hp.
Qed.

(** The public URL the client shows is the server's; and when the server left
    it out the client rebuilds the same URL, default ports omitted, from the
    other fields it was given. *)
Theorem display_url_agrees (id : Uuid) (subdomain domain : string) (p : TunnelProtocol)
    (tls : bool) (port : option N) (limits : RequestLimits) :
  let r := ConnectResponse_build id subdomain domain p tls port limits in
  let cleared url scheme :=
    {| ca_protocol_version := ca_protocol_version r; ca_tunnel_id := ca_tunnel_id r;
       ca_assigned_subdomain := ca_assigned_subdomain r; ca_domain := ca_domain r;
       ca_tunnel_protocol := ca_tunnel_protocol r; ca_message := ca_message r;
       ca_limits := ca_limits r; ca_public_scheme := scheme;
       ca_public_port := ca_public_port r; ca_public_url := url |} in
  compute_display_url r = ca_public_url r /\
  compute_display_url (cleared EmptyString (ca_public_scheme r)) = ca_public_url r /\
  (p = Tcp \/ tls = false ->
   compute_display_url (cleared EmptyString EmptyString) = ca_public_url r).
Proof.
  cbn zeta.
  assert (forall n, String.eqb (":" +:+ fmt_uint n) EmptyString = false) as Hport by done.
  assert (forall x, String.eqb ("http" +:+ x) EmptyString = false /\
                    String.eqb ("https" +:+ x) EmptyString = false /\
                    String.eqb ("tcp" +:+ x) EmptyString = false) as Hne by done.
  unfold compute_display_url, display_scheme, display_port_suffix, ConnectResponse_build.
  destruct p, tls, port as [n|]; cbn -[String.eqb fmt_uint N.eqb];
    try destruct (n =? 443) eqn:E1; try destruct (n =? 80) eqn:E2;
    cbn -[String.eqb fmt_uint N.eqb]; rewrite ?Hport; cbn -[String.eqb fmt_uint N.eqb];
    rewrite ?E1, ?E2; split_and!; try done; by intros [?|?].
Qed.

(** * The handshake *)

Section HandshakeSpec.
Context `{B : BincodeCodec}.

(** What a frame means to the client while it waits for the acknowledgement. *)
Definition decisive (i : Incoming) : option (result ConnectResponse) :=
  match i with
  | InError err => Some (Err (network ("Failed to read handshake response: " +:+ err)))
  | InFrame (WsBinary payload) =>
      match decode payload with
      | Err e => Some (Err e)
      | Ok (ConnectAck ack) => Some (Ok ack)
      | Ok (Error code message) => Some (Err (protocol_error_from_message code message))
      | Ok _ => None
      end
  | InFrame (WsClose reason) =>
      Some (Err (network ("Server closed connection during handshake: " +:+ close_reason reason
                          +:+ ". Verify your API key and requested subdomain.")))
  | InFrame _ => None
  end.

Definition pongs (incoming : list Incoming) : list WsMessage :=
  omap (fun i => match i with InFrame (WsPing p) => Some (WsPong p) | _ => None end) incoming.

Lemma await_ack_skip (write : nat -> Result string unit) (incoming rest : list Incoming)
    (sent : list WsMessage) :
  (forall n, write n = Ok tt) -> Forall (fun i => decisive i = None) incoming ->
  await_ack write (incoming ++ rest) sent = await_ack write rest (sent ++ pongs incoming).
Proof.
  intros Hw Hf; revert sent; induction Hf as [|i incoming Hi Hf IH]; intros sent.
  - by rewrite app_nil_r.
  - destruct i as [frame|err]; [|done]. destruct frame; cbn in Hi |- *; try by apply IH.
    + destruct (decode data) as [m|]; [|done]. destruct m; try done; by apply IH.
    + rewrite Hw, IH. by rewrite <- (assoc (++)).
    + done.
Qed.

Lemma await_ack_decisive (write : nat -> Result string unit) (i : Incoming)
    (rest : list Incoming) (sent : list WsMessage) (r : result ConnectResponse) :
  decisive i = Some r -> await_ack write (i :: rest) sent = hs_done r sent.
Proof.
  destruct i as [frame|err]; cbn; [|by intros [= <-]]. destruct frame; cbn; try done.
  - destruct (decode data) as [m|]; [|by intros [= <-]].
    destruct m; try done; intros [= <-]; [done|]. by destruct code.
  - by intros [= <-].
Qed.

(** the handshake ends at the first frame that decides it, an acknowledgement
    or an error, with exactly that outcome; until then it answers every ping
    with a pong of the same payload, ignores the rest, and sends nothing but
    the one connect request. *)
Theorem handshake_spec (write : nat -> Result string unit) (request : ConnectRequest)
    (bytes : Bytes) (before rest : list Incoming) (i : Incoming) (r : result ConnectResponse) :
  (forall n, write n = Ok tt) -> encode (Connect request) = Ok bytes ->
  Forall (fun j => decisive j = None) before -> decisive i = Some r ->
  perform_handshake write request (before ++ i :: rest) =
    {| hs_result := Some r; hs_sent := WsBinary bytes :: pongs before |} /\
  (hs_result (perform_handshake write request before) =
     Some (Err (network "Connection closed before the server acknowledged the tunnel"))).
Proof.
  intros Hw He Hb Hi; unfold perform_handshake. rewrite He, Hw.
  rewrite await_ack_skip by done. rewrite (await_ack_decisive _ _ _ _ _ Hi).
  split; [done|]. rewrite <- (app_nil_r before), await_ack_skip by done. done.
Qed.
End HandshakeSpec.

(** * What ends the loop of a session *)

Section LoopSpec.
Context `{B : BincodeCodec, L : !BincodeLaws B, U : UuidDisplay}.

(** Data that the server forwards right behind the connect of a new TCP
    connection, before the task that opens the local socket has run, is data
    for an unknown connection, and that error ends the whole session: every
    other connection of the tunnel goes with it. *)
Theorem early_tcp_data_ends_session (id : Uuid) (addr : string) (data : Bytes) (sequence : N)
    (b1 b2 : Bytes) (st : LoopState) (p : TcpLocalProxy) (rest : list SessionEvent) :
  cs_tcp (ls_client st) = Some p -> tp_connections p !! id = None ->
  encode (TcpConnect id addr) = Ok b1 -> encode (TcpData id data sequence) = Ok b2 ->
  exists st', session_loop (EvIncoming (InFrame (WsBinary b1))
                              :: EvIncoming (InFrame (WsBinary b2)) :: rest) st =
    (Some (TermError (InvalidMessage ("TCP data for unknown connection " +:+ uuid_to_string id))),
     st') /\
  SpawnConnect id addr ∈ ls_effects st' /\
  forall w, exists e, session_result (TermError (InvalidMessage
              ("TCP data for unknown connection " +:+ uuid_to_string id))) w = Reconnect e true.
Proof using L.
  intros Hp Hid H1%decode_encoded H2%decode_encoded.
  eexists; split; [cbn; rewrite H1; cbn; rewrite Hp; cbn; rewrite H2; cbn; rewrite Hp;
                   unfold handle_data; rewrite Hid; cbn; reflexivity|].
  split; [cbn; set_solver|]. intros [[?|?]|?]; cbn; eauto.
Qed.

(** A frame that the session survives. *)
Definition harmless (frame : WsMessage) : Prop :=
  forall s, exists s' effects, handle_frame frame s = (Ok Continue, s', effects).

Lemma harmless_prefix (frames : list WsMessage) (events : list SessionEvent) (st : LoopState) :
  Forall harmless frames ->
  exists st', ls_outgoing st' = ls_outgoing st /\
    session_loop (((fun f => EvIncoming (InFrame f)) <$> frames) ++ events) st =
    session_loop events st'.
Proof.
  intros Hf; revert st; induction Hf as [|f frames Hh Hf IH]; intros st; [by exists st|].
  destruct (Hh (ls_client st)) as (s' & effects & Hs).
  destruct (IH {| ls_client := s'; ls_effects := ls_effects st ++ effects;
                  ls_outgoing := ls_outgoing st |}) as (st' & Ho & Hr).
  exists st'; split; [done|]. cbn. rewrite Hs. exact Hr.
Qed.

(** A user who stops the client always ends the session: after frames the
    session survives, the shutdown event is the end, and the last thing queued
    is the disconnect message.  The end of the reader alone is not noticed:
    only a shutdown gets the loop out of that state. *)
Theorem shutdown_ends_session (frames : list WsMessage) (rest : list SessionEvent)
    (st : LoopState) :
  Forall harmless frames ->
  let before := ((fun f => EvIncoming (InFrame f)) <$> frames) in
  (exists st', session_loop (before ++ EvShutdown :: rest) st = (Some TermShutdown, st') /\
     ls_outgoing st' = ls_outgoing st ++ [OutProtocol (Disconnect (Some "client shutdown"))]) /\
  ((session_loop (before ++ EvEnd :: rest) st).1 = Some TermShutdown <-> EvShutdown ∈ rest) /\
  (~ EvShutdown ∈ rest -> (session_loop (before ++ EvEnd :: rest) st).1 = None).
Proof.
  cbn zeta; intros Hf.
  assert (existsb is_shutdown rest = true <-> EvShutdown ∈ rest) as Hx.
  { rewrite existsb_exists. split.
    - intros ([| |] & Hin & He); try done. by apply list_elem_of_In.
    - intros Hin; exists EvShutdown; split; [by apply list_elem_of_In | done]. }
  split_and!.
  - destruct (harmless_prefix frames (EvShutdown :: rest) st Hf) as (st' & Ho & ->).
    eexists; split; [done|]. cbn. by rewrite Ho.
  - destruct (harmless_prefix frames (EvEnd :: rest) st Hf) as (st' & Ho & ->). rewrite <- Hx.
    cbn. by destruct (existsb is_shutdown rest).
  - destruct (harmless_prefix frames (EvEnd :: rest) st Hf) as (st' & Ho & ->). rewrite <- Hx.
    cbn. by destruct (existsb is_shutdown rest).
Qed.
End LoopSpec.
