(* ===== verification/SocketTuning.v ===== *)
(** The TCP options of a socket, [expose-server/src/tcp_tuning.rs] and
    [expose-client/src/tcp_tuning.rs].

    A socket is the list of the options set on it so far; whether the system
    accepts an option is given to the definitions. *)

From S2P Require Import Prelude RustStr Types Errors.

Local Open Scope N_scope.

Inductive SocketOption : Type :=
| SetNodelay (on : bool)
| SetKeepalive (time interval : Duration)
| SetSendBuffer (size : N)
| SetRecvBuffer (size : N).

Abbreviation Socket := (list SocketOption).

Section Tuning.
Context (accepts : SocketOption -> Result IoError unit).

Definition set_option (o : SocketOption) (s : Socket) : Result IoError unit * Socket :=
  match accepts o with
  | Ok _ => (Ok tt, s ++ [o])
  | Err e => (Err e, s)
  end.

(** [first?; then] *)
Definition and_then (first then_ : Socket -> Result IoError unit * Socket) (s : Socket) :
    Result IoError unit * Socket :=
  match first s with
  | (Ok _, s') => then_ s'
  | (Err e, s') => (Err e, s')
  end.

Definition when (set : option SocketOption) (s : Socket) : Result IoError unit * Socket :=
  match set with
  | Some o => set_option o s
  | None => (Ok tt, s)
  end.

Definition apply_tcp_tuning (config : TcpTuningConfig) :
    Socket -> Result IoError unit * Socket :=
  and_then (when (if tt_nodelay config then Some (SetNodelay true) else None))
  (and_then (when (if tt_keepalive_enabled config then
                     Some (SetKeepalive (from_secs (tt_keepalive_time_secs config))
                                        (from_secs (tt_keepalive_interval_secs config)))
                   else None))
  (and_then (when (SetSendBuffer <$> tt_send_buffer_size config))
            (when (SetRecvBuffer <$> tt_recv_buffer_size config)))).

(** On the client, [apply_sockref_tuning] has this body itself. *)
Definition apply_sockref_tuning : TcpTuningConfig -> Socket -> Result IoError unit * Socket :=
  apply_tcp_tuning.

Definition apply_stream_tuning : TcpTuningConfig -> Socket -> Result IoError unit * Socket :=
  apply_sockref_tuning.

(** The transport of a websocket: a TCP stream, alone or under TLS by [rustls]
    (the default feature). *)
Inductive MaybeTlsStream : Type :=
| PlainStream (s : Socket)
| RustlsStream (s : Socket).

Definition tcp_of (stream : MaybeTlsStream) : Socket :=
  match stream with PlainStream s | RustlsStream s => s end.

Definition apply_ws_stream_tuning (config : TcpTuningConfig) (stream : MaybeTlsStream) :
    Result IoError unit * MaybeTlsStream :=
  match stream with
  | PlainStream tcp =>
      let '(r, tcp') := apply_stream_tuning config tcp in (r, PlainStream tcp')
  | RustlsStream tcp =>
      let '(r, tcp') := apply_stream_tuning config tcp in (r, RustlsStream tcp')
  end.

(** * What is set *)

(** The options a configuration asks for, in the order they are set. *)
Definition wanted (config : TcpTuningConfig) : list SocketOption :=
  (if tt_nodelay config then [SetNodelay true] else []) ++
  (if tt_keepalive_enabled config then
     [SetKeepalive (from_secs (tt_keepalive_time_secs config))
                   (from_secs (tt_keepalive_interval_secs config))] else []) ++
  option_list (SetSendBuffer <$> tt_send_buffer_size config) ++
  option_list (SetRecvBuffer <$> tt_recv_buffer_size config).

(** The outcome of setting a list of options: all of them, or those before the
    first that is refused. *)
Definition sets (os : list SocketOption) (f : Socket -> Result IoError unit * Socket) : Prop :=
  forall s, (Forall (fun o => accepts o = Ok tt) os /\ f s = (Ok tt, s ++ os)) \/
    exists before o after e, os = before ++ o :: after /\
      Forall (fun o => accepts o = Ok tt) before /\ accepts o = Err e /\ f s = (Err e, s ++ before).

Lemma sets_when (set : option SocketOption) : sets (option_list set) (when set).
Proof.
  intros s. destruct set as [o|]; cbn; [unfold set_option|left; by rewrite app_nil_r].
  destruct (accepts o) as [[]|e] eqn:E; [left; by repeat constructor|].
  right. exists [], o, [], e. rewrite app_nil_r. by repeat constructor.
Qed.

Lemma sets_and_then (os os' : list SocketOption) (f g : Socket -> Result IoError unit * Socket) :
  sets os f -> sets os' g -> sets (os ++ os') (and_then f g).
Proof.
  intros Hf Hg s. unfold and_then.
  destruct (Hf s) as [[Ha ->]|(b & o & a & e & -> & Hb & He & ->)].
  - destruct (Hg (s ++ os)) as [[Hb ->]|(b & o & a & e & -> & Hb & He & ->)].
    + left. rewrite <- (assoc (++)). split; [by apply Forall_app | done].
    + right. exists (os ++ b), o, a, e. rewrite <- !(assoc (++)).
      split_and!; [done | by apply Forall_app | done | done].
  - right. exists b, o, (a ++ os'), e. by rewrite <- (assoc (++)).
Qed.

(** Both sides of a tunnel set the options their configuration asks for, in this
    order, and stop at the first one the system refuses. *)
Lemma apply_tcp_tuning_sets (config : TcpTuningConfig) :
  sets (wanted config) (apply_tcp_tuning config).
Proof.
  unfold wanted, apply_tcp_tuning. repeat apply sets_and_then; try apply sets_when.
  - destruct (tt_nodelay config); apply (sets_when (Some _)) || apply (sets_when None).
  - destruct (tt_keepalive_enabled config); apply (sets_when (Some _)) || apply (sets_when None).
Qed.
End Tuning.
