(* ===== verification/ServerTcp.v ===== *)
(** TCP tunnels on the server, [expose-server/src/tcp_proxy.rs]: a listener per
    tunnel, and the connections accepted on it.

    Binding, accepting and the sockets' reads and writes are outcomes given to
    the operations. *)

From S2P Require Import Prelude RustStr Types Errors Protocol WebSocket Http LocalProxy Externals.
From S2P Require Import PendingStore TunnelManager ServerProxy.

Local Open Scope N_scope.

(** The writing half of an accepted connection: what was written, and the error
    the next write meets, if any. *)
Record TcpConnection : Type := {
  tcn_written : Bytes;
  tcn_broken : option string;
}.

Record TcpTunnelHandle : Type := {
  tth_tunnel : ActiveTunnel;
  tth_connections : gmap Uuid TcpConnection;
  tth_port : N;
}.

(** [TcpTunnelRegistry::tunnels]. *)
Abbreviation TcpTunnelRegistry := (gmap Uuid TcpTunnelHandle).

Definition registry_new : TcpTunnelRegistry := ∅.

(** [register_tunnel] with the outcome of binding a listener on port 0. *)
Definition registry_register (tunnel : ActiveTunnel) (bound : Result string N)
    (r : TcpTunnelRegistry) : result N * TcpTunnelRegistry :=
  match bound with
  | Err err => (Err (network err), r)
  | Ok port =>
      (Ok port, <[at_id tunnel := {| tth_tunnel := tunnel; tth_connections := ∅;
                                     tth_port := port |}]> r)
  end.

Definition registry_remove (tunnel_id : Uuid) (r : TcpTunnelRegistry) : TcpTunnelRegistry :=
  delete tunnel_id r.

Definition with_tcp_connections (h : TcpTunnelHandle) (c : gmap Uuid TcpConnection) :
    TcpTunnelHandle :=
  {| tth_tunnel := tth_tunnel h; tth_connections := c; tth_port := tth_port h |}.

Section Registry.
Context `{U : UuidDisplay}.

Definition handle_client_data (tunnel_id connection_id : Uuid) (data : Bytes)
    (r : TcpTunnelRegistry) : result unit * TcpTunnelRegistry :=
  match r !! tunnel_id with
  | None => (Err (TunnelNotFound (uuid_to_string tunnel_id)), r)
  | Some h =>
      match tth_connections h !! connection_id with
      | None => (Err (TunnelNotFound ("tcp-conn-" +:+ uuid_to_string connection_id)), r)
      | Some conn =>
          match tcn_broken conn with
          | Some err => (Err (network err), r)
          | None =>
              (Ok tt, <[tunnel_id := with_tcp_connections h
                          (<[connection_id := {| tcn_written := tcn_written conn ++ data;
                                                 tcn_broken := None |}]>
                             (tth_connections h))]> r)
          end
      end
  end.
End Registry.

Definition handle_client_close (tunnel_id connection_id : Uuid) (r : TcpTunnelRegistry) :
    TcpTunnelRegistry :=
  match r !! tunnel_id with
  | Some h =>
      <[tunnel_id := with_tcp_connections h (delete connection_id (tth_connections h))]> r
  | None => r
  end.

Definition handle_client_ack (tunnel_id connection_id : Uuid) (success : bool)
    (r : TcpTunnelRegistry) : TcpTunnelRegistry :=
  if success then r else handle_client_close tunnel_id connection_id r.

(** [handle_connection]: the client is told before the connection is stored. *)
Definition handle_connection (tunnel_id connection_id : Uuid) (remote_addr : string)
    (ob : Outbox) (r : TcpTunnelRegistry) : result unit * Outbox * TcpTunnelRegistry :=
  match send (TcpConnect connection_id remote_addr) ob with
  | (Err e, ob') => (Err e, ob', r)
  | (Ok _, ob') =>
      (Ok tt, ob',
       match r !! tunnel_id with
       | Some h =>
           <[tunnel_id := with_tcp_connections h
               (<[connection_id := {| tcn_written := []; tcn_broken := None |}]>
                  (tth_connections h))]> r
       | None => r
       end)
  end.

(** [read_loop] of an accepted connection: [reads] is what the socket yields,
    an empty read being its end.  The result says whether the connection was
    removed from its tunnel. *)
Fixpoint connection_loop (connection_id : Uuid) (reads : list (Result string Bytes))
    (sequence : N) (ob : Outbox) : option bool * Outbox :=
  match reads with
  | [] => (None, ob)
  | Ok [] :: _ => (Some true, (send (TcpClose connection_id CloseNormal) ob).2)
  | Ok data :: rest =>
      match send (TcpData connection_id data sequence) ob with
      | (Err _, ob') => (Some false, ob')
      | (Ok _, ob') => connection_loop connection_id rest (wrapping_add u64_max sequence 1) ob'
      end
  | Err err :: _ => (Some true, (send (TcpClose connection_id (CloseError err)) ob).2)
  end.
