(* ===== verification/ServerRun.v ===== *)
(** The start of the server: [Server::new] and [Server::run] of
    [expose-server/src/server.rs], the capabilities of [platform/mod.rs], the TLS
    files of [tls.rs] and the concurrency limit of the router.

    Binding, serving and the file system are outcomes given to the definitions;
    a listener that never stops serving has none.  The socket options of a
    listener ([SocketTuning.v]) are set without consequence: a failure is only
    logged. *)

From Stdlib Require Import Ascii.
From S2P Require Import Prelude RustStr Types Errors PendingStore Externals TunnelManager.
From S2P Require Import ServerConfig WebSocket ServerTcp.

Local Open Scope N_scope.

(** * The platform *)

Record PlatformCapabilities : Type := {
  io_uring_available : bool;
  io_uring_version : option string;
}.

(** [detect_capabilities]; [uring] is the outcome of building a small ring, none
    in a build without the [io_uring] feature or on another system. *)
Definition detect_capabilities (uring : option (Result string unit)) : PlatformCapabilities :=
  match uring with
  | Some built => {| io_uring_available := is_ok built; io_uring_version := None |}
  | None => {| io_uring_available := false; io_uring_version := None |}
  end.

(** * The server *)

Section Server.
Context `{G : Governor, A : ParseSocketAddr}.

Record AppState : Type := {
  as_config : ServerConfig;
  as_manager : TunnelManager;
  as_tcp_registry : TcpTunnelRegistry;
  as_platform_caps : PlatformCapabilities;
  as_started_at : Instant;
}.

Definition Server_new (uring : option (Result string unit)) (config : ServerConfig)
    (now : Instant) : AppState :=
  let '(per_minute, burst) := rate_limit_config config in
  {| as_config := config;
     as_manager := manager_new (sv_domain config) (config_limits config) per_minute burst
                     (sv_pending_requests config)
                     (li_max_tunnels (sv_limits config))
                     (li_max_tunnels_per_key (sv_limits config));
     as_tcp_registry := registry_new;
     as_platform_caps := detect_capabilities uring;
     as_started_at := now |}.

(** The permits of the router's concurrency limit; the product wraps in a
    release build. *)
Definition router_concurrency (config : ServerConfig) : N :=
  let limit := li_max_tunnels (sv_limits config) in
  if limit =? 0 then 1024 else (limit * 4) mod (usize_max + 1).

(** ** TLS files *)

Section Tls.
Context (metadata : string -> Result string unit).
Context (from_pem_file : string -> string -> Result string unit).

Definition ensure_exists (path label : string) : result unit :=
  map_err (metadata path) (fun err =>
    Config (Validation ("failed to read " +:+ label +:+ " file (" +:+ path +:+ "): " +:+ err))).

Definition load_rustls_config (config : ServerConfig) : result unit :=
  paths ← tls_paths config;
  ensure_exists paths.1 "certificate" ≫= fun _ =>
  ensure_exists paths.2 "private key" ≫= fun _ =>
  map_err (from_pem_file paths.1 paths.2) (fun err =>
    Config (Validation ("failed to parse TLS materials: " +:+ err))).
End Tls.

(** ** Listeners *)

(** What the surroundings decide: binding an address, serving on a listener
    (none while it serves), the conversions of an HTTPS listener, and the
    outcome of a task, which fails when it panicked. *)
Record Surroundings : Type := {
  su_bind : SocketAddr -> Result string unit;
  su_serve : bool -> option (Result string unit);
  su_into_std : Result string unit;
  su_from_tcp_rustls : Result string unit;
  su_task : bool -> Result string unit;
  su_metadata : string -> Result string unit;
  su_from_pem_file : string -> string -> Result string unit;
  su_addr_to_string : SocketAddr -> string;
}.

(** [AddrParseError] of a socket address. *)
Definition addr_parse_error : string := "invalid socket address syntax".

Definition parse_bind (what : string -> string) (addr : string) : result SocketAddr :=
  match parse_socket_addr addr with
  | Some a => Ok a
  | None => Err (Config (Validation (what addr)))
  end.

(** The two tasks [run] spawns, with their outcome once they end. *)
Inductive ServeTask : Type :=
| HttpServer (addr : SocketAddr)
| HttpsServer (addr : SocketAddr).

Definition http_task (w : Surroundings) (addr : SocketAddr) : option (result unit) :=
  match su_bind w addr with
  | Err err => Some (Err (network ("failed to bind HTTP listener on " +:+ su_addr_to_string w addr
                                   +:+ ": " +:+ err)))
  | Ok _ =>
      r ← su_serve w false;
      Some (map_err r (fun err => network ("HTTP server error: " +:+ err)))
  end.

Definition https_task (w : Surroundings) (addr : SocketAddr) : option (result unit) :=
  match su_bind w addr with
  | Err err => Some (Err (network ("failed to bind HTTPS listener on " +:+ su_addr_to_string w addr
                                   +:+ ": " +:+ err)))
  | Ok _ =>
      match su_into_std w with
      | Err err => Some (Err (network ("failed to convert HTTPS listener for rustls: " +:+ err)))
      | Ok _ =>
          match su_from_tcp_rustls w with
          | Err err => Some (Err (network ("failed to configure HTTPS server: " +:+ err)))
          | Ok _ =>
              r ← su_serve w true;
              Some (map_err r (fun err => network ("HTTPS server error: " +:+ err)))
          end
      end
  end.

(** What awaiting the handle of a task gives, if it ever ends. *)
Definition task_outcome (w : Surroundings) (t : ServeTask) :
    option (Result string (result unit)) :=
  match t with
  | HttpServer addr =>
      match su_task w false with
      | Err panic => Some (Err panic)
      | Ok _ => Ok <$> http_task w addr
      end
  | HttpsServer addr =>
      match su_task w true with
      | Err panic => Some (Err panic)
      | Ok _ => Ok <$> https_task w addr
      end
  end.

(** The tasks are awaited one after the other. *)
Fixpoint await_servers (w : Surroundings) (servers : list ServeTask) : option (result unit) :=
  match servers with
  | [] => Some (Ok tt)
  | server :: rest =>
      match task_outcome w server with
      | None => None
      | Some (Err err) => Some (Err (network ("server task failed: " +:+ err)))
      | Some (Ok (Err e)) => Some (Err e)
      | Some (Ok (Ok _)) => await_servers w rest
      end
  end.

Definition http_servers (config : ServerConfig) : result (list ServeTask) :=
  match http_bind_address config with
  | None => Ok []
  | Some http_addr =>
      addr ← parse_bind (fun a => "invalid bind_address '" +:+ a +:+ "': " +:+ addr_parse_error)
               http_addr;
      Ok [HttpServer addr]
  end.

Definition https_servers (w : Surroundings) (config : ServerConfig) : result (list ServeTask) :=
  if sv_tls_enabled config then
    https_addr ← ok_or (https_bind_address config)
      (Config (Validation "https_bind_address must be set when tls_enabled = true"));
    addr ← parse_bind (fun _ => "invalid https_bind_address: " +:+ addr_parse_error) https_addr;
    load_rustls_config (su_metadata w) (su_from_pem_file w) config ≫= fun _ =>
    Ok [HttpsServer addr]
  else Ok [].

(** [Server::run]: the tasks it spawned, and its result if it returns. *)
Definition run (w : Surroundings) (config : ServerConfig) :
    list ServeTask * option (result unit) :=
  match http_servers config with
  | Err e => ([], Some (Err e))
  | Ok servers =>
      match https_servers w config with
      | Err e => (servers, Some (Err e))
      | Ok more =>
          let servers := servers ++ more in
          (servers,
           match servers with
           | [] => Some (Err (Config (Validation "no HTTP or HTTPS listener configured")))
           | _ => await_servers w servers
           end)
      end
  end.
End Server.

(** * Properties *)

Section RunSpec.
Context `{G : Governor, A : ParseSocketAddr}.
Implicit Types (w : Surroundings) (config : ServerConfig).

(** ** What is to be started *)

(** The HTTP listener of the configuration, if it names one that parses. *)
Inductive http_listed config : list ServeTask -> Prop :=
| hl_none : http_bind_address config = None -> http_listed config []
| hl_some text addr :
    http_bind_address config = Some text -> parse_socket_addr text = Some addr ->
    http_listed config [HttpServer addr].

(** The HTTPS address is there and parses; the two files are named. *)
Definition https_at config (addr : SocketAddr) : Prop :=
  exists text, https_bind_address config = Some text /\ parse_socket_addr text = Some addr.
Definition tls_named config (cert key : string) : Prop :=
  sv_tls_cert_path config = Some cert /\ sv_tls_key_path config = Some key.

(** The HTTPS listener, if TLS is enabled and its address and files are usable. *)
Inductive https_listed w config : list ServeTask -> Prop :=
| sl_off : sv_tls_enabled config = false -> https_listed w config []
| sl_on addr cert key :
    sv_tls_enabled config = true -> https_at config addr -> tls_named config cert key ->
    su_metadata w cert = Ok tt -> su_metadata w key = Ok tt -> su_from_pem_file w cert key = Ok tt ->
    https_listed w config [HttpsServer addr].

(** What is wrong with the TLS configuration: the first of its faults. *)
Inductive tls_fault w config : string -> Prop :=
| tf_no_address :
    https_bind_address config = None ->
    tls_fault w config "https_bind_address must be set when tls_enabled = true"
| tf_bad_address text :
    https_bind_address config = Some text -> parse_socket_addr text = None ->
    tls_fault w config "invalid https_bind_address: invalid socket address syntax"
| tf_no_cert addr :
    https_at config addr -> sv_tls_cert_path config = None ->
    tls_fault w config "tls_cert_path must be set when tls_enabled = true"
| tf_no_key addr cert :
    https_at config addr -> sv_tls_cert_path config = Some cert -> sv_tls_key_path config = None ->
    tls_fault w config "tls_key_path must be set when tls_enabled = true"
| tf_cert_file addr cert key err :
    https_at config addr -> tls_named config cert key -> su_metadata w cert = Err err ->
    tls_fault w config ("failed to read certificate file (" +:+ cert +:+ "): " +:+ err)
| tf_key_file addr cert key err :
    https_at config addr -> tls_named config cert key -> su_metadata w cert = Ok tt ->
    su_metadata w key = Err err ->
    tls_fault w config ("failed to read private key file (" +:+ key +:+ "): " +:+ err)
| tf_materials addr cert key err :
    https_at config addr -> tls_named config cert key -> su_metadata w cert = Ok tt ->
    su_metadata w key = Ok tt -> su_from_pem_file w cert key = Err err ->
    tls_fault w config ("failed to parse TLS materials: " +:+ err).

(** What is started, and the fault of the configuration that ends the start.  An
    HTTP listener is started before TLS is looked at. *)
Inductive start_up w config : list ServeTask -> option string -> Prop :=
| st_bad_address text :
    http_bind_address config = Some text -> parse_socket_addr text = None ->
    start_up w config []
      (Some ("invalid bind_address '" +:+ text +:+ "': invalid socket address syntax"))
| st_bad_tls hs fault :
    http_listed config hs -> sv_tls_enabled config = true -> tls_fault w config fault ->
    start_up w config hs (Some fault)
| st_nothing :
    http_listed config [] -> https_listed w config [] ->
    start_up w config [] (Some "no HTTP or HTTPS listener configured")
| st_started hs ss :
    http_listed config hs -> https_listed w config ss -> hs ++ ss <> [] ->
    start_up w config (hs ++ ss) None.

Lemma http_servers_spec config :
  match http_servers config with
  | Ok servers => http_listed config servers
  | Err e => exists text, http_bind_address config = Some text /\ parse_socket_addr text = None /\
      e = Config (Validation ("invalid bind_address '" +:+ text +:+ "': invalid socket address syntax"))
  end.
Proof.
  unfold http_servers, parse_bind. destruct (http_bind_address config) as [text|] eqn:Ht;
    [|by constructor].
  destruct (parse_socket_addr text) as [addr|] eqn:Hp; cbn; [by econstructor | by eauto].
Qed.

Lemma https_servers_spec w config :
  match https_servers w config with
  | Ok servers => https_listed w config servers
  | Err e => sv_tls_enabled config = true /\
      exists fault, tls_fault w config fault /\ e = Config (Validation fault)
  end.
Proof.
  unfold https_servers, load_rustls_config, ensure_exists, tls_paths.
  destruct (sv_tls_enabled config) eqn:Ht; [|by constructor].
  assert (forall fault, tls_fault w config fault -> true = true /\
    exists f, tls_fault w config f /\ Config (Validation fault) = Config (Validation f)) as Hf
    by by eauto.
  destruct (https_bind_address config) as [text|] eqn:Hb; cbn; [|by apply Hf; constructor].
  unfold parse_bind. destruct (parse_socket_addr text) as [addr|] eqn:Hp; cbn;
    [|by apply Hf; econstructor].
  assert (https_at config addr) as Hat by by exists text.
  destruct (sv_tls_cert_path config) as [cert|] eqn:Hc; cbn; [|by apply Hf; eapply tf_no_cert].
  destruct (sv_tls_key_path config) as [key|] eqn:Hk; cbn; [|by apply Hf; eapply tf_no_key].
  assert (tls_named config cert key) as Hn by done.
  destruct (su_metadata w cert) as [[]|err] eqn:Hmc; cbn; [|by apply Hf; eapply tf_cert_file].
  destruct (su_metadata w key) as [[]|err] eqn:Hmk; cbn; [|by apply Hf; eapply tf_key_file].
  destruct (su_from_pem_file w cert key) as [[]|err] eqn:Hm; cbn; [|by apply Hf; eapply tf_materials].
  by econstructor.
Qed.

(** ** How a task ends *)

Definition is_https (t : ServeTask) : bool :=
  match t with HttpServer _ => false | HttpsServer _ => true end.
Definition address (t : ServeTask) : SocketAddr :=
  match t with HttpServer addr | HttpsServer addr => addr end.
Definition label (t : ServeTask) : string := if is_https t then "HTTPS" else "HTTP".

(** The task got its listener, and on HTTPS what turns it into a TLS server. *)
Definition listens w (t : ServeTask) : Prop :=
  su_task w (is_https t) = Ok tt /\ su_bind w (address t) = Ok tt /\
  (is_https t = true -> su_into_std w = Ok tt /\ su_from_tcp_rustls w = Ok tt).

(** The result that awaiting the task gives: [Ok] for a server that was stopped. *)
Inductive ends w (t : ServeTask) : result unit -> Prop :=
| en_panic err :
    su_task w (is_https t) = Err err -> ends w t (Err (network ("server task failed: " +:+ err)))
| en_unbound err :
    su_task w (is_https t) = Ok tt -> su_bind w (address t) = Err err ->
    ends w t (Err (network ("failed to bind " +:+ label t +:+ " listener on " +:+
                            su_addr_to_string w (address t) +:+ ": " +:+ err)))
| en_unconverted err :
    su_task w (is_https t) = Ok tt -> su_bind w (address t) = Ok tt -> is_https t = true ->
    su_into_std w = Err err ->
    ends w t (Err (network ("failed to convert HTTPS listener for rustls: " +:+ err)))
| en_unconfigured err :
    su_task w (is_https t) = Ok tt -> su_bind w (address t) = Ok tt -> is_https t = true ->
    su_into_std w = Ok tt -> su_from_tcp_rustls w = Err err ->
    ends w t (Err (network ("failed to configure HTTPS server: " +:+ err)))
| en_failed err :
    listens w t -> su_serve w (is_https t) = Some (Err err) ->
    ends w t (Err (network (label t +:+ " server error: " +:+ err)))
| en_stopped :
    listens w t -> su_serve w (is_https t) = Some (Ok tt) -> ends w t (Ok tt).

Definition serves w (t : ServeTask) : Prop := listens w t /\ su_serve w (is_https t) = None.

Lemma task_outcome_spec w (t : ServeTask) :
  match task_outcome w t with
  | None => serves w t
  | Some (Err err) => ends w t (Err (network ("server task failed: " +:+ err)))
  | Some (Ok r) => ends w t r
  end.
Proof.
  destruct t as [addr|addr]; cbn; unfold http_task, https_task.
  - destruct (su_task w false) as [[]|err] eqn:Ht; [|by constructor].
    destruct (su_bind w addr) as [[]|err] eqn:Hb; [|by apply (en_unbound w (HttpServer addr))].
    assert (listens w (HttpServer addr)) as Hl by done.
    destruct (su_serve w false) as [[[]|err]|] eqn:Hs; cbn; [by constructor | | done].
    by apply (en_failed w (HttpServer addr)).
  - destruct (su_task w true) as [[]|err] eqn:Ht; [|by constructor].
    destruct (su_bind w addr) as [[]|err] eqn:Hb; [|by apply (en_unbound w (HttpsServer addr))].
    destruct (su_into_std w) as [[]|err] eqn:Hi; [|by apply en_unconverted].
    destruct (su_from_tcp_rustls w) as [[]|err] eqn:Hf; [|by apply en_unconfigured].
    assert (listens w (HttpsServer addr)) as Hl by by split_and!.
    destruct (su_serve w true) as [[[]|err]|] eqn:Hs; cbn; [by constructor | | done].
    by apply (en_failed w (HttpsServer addr)).
Qed.

(** Tasks awaited one after the other: the first that fails decides, and one that
    serves on hides those behind it. *)
Inductive awaited w : list ServeTask -> option (result unit) -> Prop :=
| aw_stopped servers : Forall (fun t => ends w t (Ok tt)) servers -> awaited w servers (Some (Ok tt))
| aw_failed before t after e :
    Forall (fun t => ends w t (Ok tt)) before -> ends w t (Err e) ->
    awaited w (before ++ t :: after) (Some (Err e))
| aw_serving before t after :
    Forall (fun t => ends w t (Ok tt)) before -> serves w t ->
    awaited w (before ++ t :: after) None.

Lemma awaited_cons w (t : ServeTask) (servers : list ServeTask) (r : option (result unit)) :
  ends w t (Ok tt) -> awaited w servers r -> awaited w (t :: servers) r.
Proof.
  intros Ht [ss Hs|before x after e Hb Hx|before x after Hb Hx].
  - constructor. by constructor.
  - apply (aw_failed w (t :: before)); [by constructor | done].
  - apply (aw_serving w (t :: before)); [by constructor | done].
Qed.

Lemma await_servers_spec w (servers : list ServeTask) : awaited w servers (await_servers w servers).
Proof.
  induction servers as [|t servers IH]; cbn; [by constructor|].
  pose proof (task_outcome_spec w t) as Ht.
  destruct (task_outcome w t) as [[[[]|e]|err]|].
  - by apply awaited_cons.
  - by apply (aw_failed w []).
  - by apply (aw_failed w []).
  - by apply (aw_serving w []).
Qed.

(** C23: the server starts exactly the listeners that are configured, HTTP first:
    HTTP, HTTPS or both.  A fault of the configuration is its result, with the
    text of the first fault there is: an address that does not parse, TLS whose
    address or files are missing or unusable (the HTTP listener is then already
    started), or no listener at all.  Otherwise the listeners are awaited in
    order and the first that fails decides, with the reason it failed for.  So
    while the HTTP listener serves it never returns, whatever becomes of the
    HTTPS listener: one that cannot be bound or has died is not noticed. *)
Theorem run_spec w config :
  let '(servers, r) := run w config in
  exists fault, start_up w config servers fault /\
    match fault with
    | Some text => r = Some (Err (Config (Validation text)))
    | None => awaited w servers r /\
        (forall t rest, servers = t :: rest -> serves w t -> r = None)
    end.
Proof.
  unfold run. pose proof (http_servers_spec config) as Hh.
  destruct (http_servers config) as [hs|e];
    [|destruct Hh as (text & Ht & Hp & ->); eexists; split; [by eapply st_bad_address | done]].
  pose proof (https_servers_spec w config) as Hs.
  destruct (https_servers w config) as [ss|e];
    [|destruct Hs as (Ht & fault & Hf & ->); exists (Some fault); by split; [constructor|]].
  destruct (hs ++ ss) as [|t rest] eqn:E.
  - apply app_eq_nil in E as [-> ->]. eexists; by split; [constructor|].
  - rewrite <- E. exists None. split; [constructor; by rewrite ?E|]. rewrite E. split.
    + apply await_servers_spec.
    + intros ? ? [= <- <-] [(Hp & Hb & Htls) Hserve]. cbn. destruct t as [addr|addr]; cbn in *.
      * unfold http_task. by rewrite Hp, Hb, Hserve.
      * destruct (Htls eq_refl) as [Hi Hf]. unfold https_task. by rewrite Hp, Hb, Hi, Hf, Hserve.
Qed.
End RunSpec.
