(* ===== verification/Startup.v ===== *)
(** The server's program, [expose-server/src/main.rs], with the tracing it sets up,
    [expose-server/src/tracing.rs]. *)

From S2P Require Import Prelude RustStr Types Errors PendingStore Externals TunnelManager.
From S2P Require Import ServerConfig ServerRun Metrics.

Local Open Scope N_scope.

(** * Tracing *)

Record TracingConfig : Type := {
  tr_default_level : string;
  tr_json_output : bool;
}.

Definition TracingConfig_default : TracingConfig :=
  {| tr_default_level := "info"; tr_json_output := false |}.

(** [init_tracing]: [from_env] is the filter of the environment when there is a
    valid one, [try_init] the outcome of installing a subscriber with a filter
    and with or without JSON. *)
Definition init_tracing (from_env : Result string string) (try_init : string -> bool -> Result string unit)
    (config : TracingConfig) : Result string unit :=
  let env_filter := match from_env with Ok filter => filter | Err _ => tr_default_level config end in
  map_err (try_init env_filter (tr_json_output config))
    (fun err => "failed to initialize tracing: " +:+ err).

(** * The program *)

(** What it meets besides the surroundings of the server. *)
Record Launch : Type := {
  la_filter : Result string string;
  la_try_init : string -> bool -> Result string unit;
  la_loaded : result ServerConfig;
  la_install : SocketAddr -> Result string unit;
  la_uring : option (Result string unit);
  la_now : Instant;
}.

(** [main]: tracing, the configuration, the metrics exporter, the server; each
    failure ends it with its text, and [None] is a server that runs. *)
Definition main `{G : Governor, A : ParseSocketAddr} (l : Launch) (w : Surroundings) :
    option (Result string unit) :=
  match init_tracing (la_filter l) (la_try_init l) TracingConfig_default with
  | Err e => Some (Err e)
  | Ok _ =>
      match la_loaded l with
      | Err e => Some (Err (ExposeError_to_string e))
      | Ok config =>
          match (init_metrics (la_install l) (sv_metrics config)).1 with
          | Err e => Some (Err e)
          | Ok _ =>
              let state := Server_new (la_uring l) config (la_now l) in
              (fun r => map_err r ExposeError_to_string) <$> (run w (as_config state)).2
          end
      end
  end.

(** The server only runs once tracing, configuration and, where it is enabled,
    the exporter are there; without metrics the exporter does not matter. *)
Lemma main_runs `{G : Governor, A : ParseSocketAddr} (l : Launch) (w : Surroundings) :
  main l w = None ->
  exists config filter, la_loaded l = Ok config /\ la_try_init l filter false = Ok tt /\
    (filter = "info" \/ la_filter l = Ok filter) /\
    (mc_enabled (sv_metrics config) = true -> la_install l (mc_bind_address (sv_metrics config)) = Ok tt) /\
    (run w config).2 = None.
Proof.
  unfold main, init_tracing. cbn [tr_default_level tr_json_output TracingConfig_default].
  set (filter := match la_filter l with Ok f => f | Err _ => _ end).
  destruct (la_try_init l filter false) as [[]|] eqn:Ei; cbn; [|done].
  destruct (la_loaded l) as [config|]; [|done]. unfold init_metrics, Server_new.
  destruct (mc_enabled (sv_metrics config)) eqn:Em; cbn.
  - destruct (la_install l _) as [[]|] eqn:Ex; cbn; [|done].
    destruct (rate_limit_config config); cbn. destruct (run w config).2 eqn:Er; [done|]. intros _.
    exists config, filter. split_and!; try done. unfold filter. destruct (la_filter l); auto.
  - destruct (rate_limit_config config); cbn. destruct (run w config).2 eqn:Er; [done|]. intros _.
    exists config, filter. split_and!; try done; [|by rewrite Em].
    unfold filter. destruct (la_filter l); auto.
Qed.
