(* ===== verification/ServerSession.v ===== *)
(** A tunnel connection on the server, [handle_socket] of
    [expose-server/src/server.rs]: handshake, registration, the frames of the
    client, and the end of the session.

    The socket's reader is the list of what it yields; frames for the writer
    task are a queue.  Fresh values and outcomes of the system are arguments. *)

From Stdlib Require Import Ascii.
From S2P Require Import Prelude RustStr Types Errors Utils Protocol WebSocket Http LocalProxy.
From S2P Require Import PendingStore Externals TunnelManager ServerConfig ServerProxy ServerTcp.

Local Open Scope N_scope.

Inductive OutgoingFrame : Type :=
| FrameProtocol (message : Message)
| FrameControl (frame : WsMessage).

(** What the session takes from its surroundings. *)
Record SessionRun : Type := {
  sr_tunnel_id : Uuid;
  sr_sender : Mpsc;
  sr_samples : list (list ascii);
  sr_bound : Result string N;
  sr_accepts : nat -> bool;   (* whether the writer takes the n-th frame *)
  sr_incoming : list Incoming;
}.

Section Session.
Context `{G : Governor, H : Sha256, C : ConstantTimeEq, B : BincodeCodec, U : UuidDisplay,
          A : ParseSocketAddr}.

Record ServerState : Type := {
  ss_manager : TunnelManager;
  ss_registry : TcpTunnelRegistry;
  ss_queue : list OutgoingFrame;
  ss_answers : list Delivery;
}.

Definition with_manager (s : ServerState) (m : TunnelManager) (sent : list Delivery) :
    ServerState :=
  {| ss_manager := m; ss_registry := ss_registry s; ss_queue := ss_queue s;
     ss_answers := ss_answers s ++ sent |}.
Definition with_registry (s : ServerState) (r : TcpTunnelRegistry) : ServerState :=
  {| ss_manager := ss_manager s; ss_registry := r; ss_queue := ss_queue s;
     ss_answers := ss_answers s |}.

(** [tx.send(frame).await]: whether it was accepted. *)
Definition tx_send (accepts : nat -> bool) (f : OutgoingFrame) (s : ServerState) :
    bool * ServerState :=
  if accepts (length (ss_queue s)) then
    (true, {| ss_manager := ss_manager s; ss_registry := ss_registry s;
              ss_queue := ss_queue s ++ [f]; ss_answers := ss_answers s |})
  else (false, s).

(** [{:?}] of an optional close frame. *)
Context (debug_close : option string -> string).

(** * Waiting for the connect request *)

Fixpoint wait_for_connect (accepts : nat -> bool) (incoming : list Incoming) (s : ServerState) :
    result (ConnectRequest * list Incoming) * ServerState :=
  match incoming with
  | [] => (Err (network "client disconnected before sending Connect"), s)
  | InError err :: _ => (Err (network err), s)
  | InFrame frame :: rest =>
      match frame with
      | WsBinary bytes =>
          match decode bytes with
          | Err e => (Err e, s)
          | Ok (Connect request) => (Ok (request, rest), s)
          | Ok _ => wait_for_connect accepts rest s
          end
      | WsPing payload =>
          wait_for_connect accepts rest (tx_send accepts (FrameControl (WsPong payload)) s).2
      | WsClose reason =>
          (Err (network ("client closed during handshake: " +:+ debug_close reason)), s)
      | _ => wait_for_connect accepts rest s
      end
  end.

(** * Establishing the tunnel *)

Definition refuse (accepts : nat -> bool) (code : ErrorCode) (message : string)
    (e : ExposeError) (s : ServerState) : result ActiveTunnel * ServerState :=
  (Err e, (tx_send accepts (FrameProtocol (Error code message)) s).2).

(** From the connect request to the registered tunnel. *)
Definition admit_client (cfg : ServerConfig) (run : SessionRun) (req : ConnectRequest)
    (s : ServerState) : result ActiveTunnel * ServerState :=
  let check := version_check (cr_protocol_version req) PROTOCOL_VERSION in
  if negb (is_compatible check) then
    refuse (sr_accepts run) ProtocolMismatch
      (default "unsupported protocol version" (error_message check))
      (VersionMismatch (cr_protocol_version req) PROTOCOL_VERSION) s
  else if negb (validate_api_key cfg (cr_api_key req)) then
    refuse (sr_accepts run) AuthenticationFailed "invalid API key"
      (Authentication "invalid API key") s
  else
    match allocate_subdomain (cr_desired_subdomain req) (sr_samples run) (ss_manager s) with
    | Err e => (Err e, s)
    | Ok subdomain =>
        match register_tunnel (sr_tunnel_id run) subdomain (cr_tunnel_protocol req)
                (sr_sender run) (cr_api_key req) (ss_manager s) with
        | (Ok handle, m) => (Ok handle, with_manager s m [])
        | (Err (CapacityExceeded r), m) =>
            refuse (sr_accepts run) RateLimitExceeded (ExposeError_to_string (CapacityExceeded r))
              (CapacityExceeded r) (with_manager s m [])
        | (Err (SubdomainTaken n), m) =>
            refuse (sr_accepts run) SubdomainUnavailable (ExposeError_to_string (SubdomainTaken n))
              (SubdomainTaken n) (with_manager s m [])
        | (Err e, m) => (Err e, with_manager s m [])
        end
    end.

(** The listener of a TCP tunnel, and the port to announce. *)
Definition open_port (cfg : ServerConfig) (run : SessionRun) (handle : ActiveTunnel)
    (s : ServerState) : result (option N) * ServerState :=
  match at_protocol handle with
  | Tcp =>
      let '(r, registry) := registry_register handle (sr_bound run) (ss_registry s) in
      (Some <$> r, with_registry s registry)
  | Http => (Ok (effective_public_port cfg), s)
  end.

Definition ack_message (cfg : ServerConfig) (handle : ActiveTunnel) (port : option N)
    (m : TunnelManager) : ConnectResponse :=
  let r := ConnectResponse_build (at_id handle) (at_subdomain handle) (tm_domain m)
             (at_protocol handle) (sv_tls_enabled cfg) port (tm_limits m) in
  {| ca_protocol_version := ca_protocol_version r; ca_tunnel_id := ca_tunnel_id r;
     ca_assigned_subdomain := ca_assigned_subdomain r; ca_domain := ca_domain r;
     ca_tunnel_protocol := ca_tunnel_protocol r; ca_message := Some "tunnel connected";
     ca_limits := ca_limits r; ca_public_scheme := ca_public_scheme r;
     ca_public_port := ca_public_port r; ca_public_url := ca_public_url r |}.

(** * The frames of the client *)

Inductive LoopControl : Type :=
| Next
| Break
| Fail (e : ExposeError).

Definition on_message (handle : ActiveTunnel) (m : Message) (s : ServerState) :
    LoopControl * ServerState :=
  match m with
  | HttpResponse _ _ _ _ =>
      let '(mgr, sent) := fulfill handle m (ss_manager s) in (Next, with_manager s mgr sent)
  | Disconnect _ => (Break, s)
  | Error _ _ => (Break, s)
  | TcpConnectAck connection_id success _ =>
      (Next, with_registry s
               (handle_client_ack (at_id handle) connection_id success (ss_registry s)))
  | TcpData connection_id data _ =>
      match handle_client_data (at_id handle) connection_id data (ss_registry s) with
      | (Ok _, r) => (Next, with_registry s r)
      | (Err e, r) => (Fail e, with_registry s r)
      end
  | TcpClose connection_id _ =>
      (Next, with_registry s (handle_client_close (at_id handle) connection_id (ss_registry s)))
  | _ => (Next, s)
  end.

Definition on_frame (accepts : nat -> bool) (handle : ActiveTunnel) (i : Incoming)
    (s : ServerState) : LoopControl * ServerState :=
  match i with
  | InFrame (WsBinary bytes) =>
      match decode bytes with
      | Ok m => on_message handle m s
      | Err e => (Fail e, s)
      end
  | InFrame (WsPing payload) =>
      (Next, (tx_send accepts (FrameControl (WsPong payload)) s).2)
  | InFrame (WsClose _) => (Break, s)
  | InFrame _ => (Next, s)
  | InError err => (Fail (network err), s)
  end.

(** The loop: [Ok] when it is left, [Err] when the function returns. *)
Fixpoint serve (accepts : nat -> bool) (handle : ActiveTunnel) (incoming : list Incoming)
    (s : ServerState) : result unit * ServerState :=
  match incoming with
  | [] => (Ok tt, s)
  | i :: rest =>
      match on_frame accepts handle i s with
      | (Next, s') => serve accepts handle rest s'
      | (Break, s') => (Ok tt, s')
      | (Fail e, s') => (Err e, s')
      end
  end.

(** * The session *)

(** What follows the loop. *)
Definition clean_up (handle : ActiveTunnel) (s : ServerState) : ServerState :=
  let '(m1, sent) := close handle (ss_manager s) in
  let s1 := with_manager s m1 sent in
  let s2 := with_registry s1 (registry_remove (at_id handle) (ss_registry s1)) in
  with_manager s2 (manager_remove (at_subdomain handle) (ss_manager s2)) [].

(** The session once the tunnel is registered, up to joining the writer. *)
Definition run_tunnel (cfg : ServerConfig) (run : SessionRun) (handle : ActiveTunnel)
    (rest : list Incoming) (s : ServerState) : result unit * ServerState :=
  match open_port cfg run handle s with
  | (Err e, s2) => (Err e, s2)
  | (Ok port, s2) =>
      let ack := ack_message cfg handle port (ss_manager s2) in
      match tx_send (sr_accepts run) (FrameProtocol (ConnectAck ack)) s2 with
      | (false, s3) => (Err (network "websocket closed"), s3)
      | (true, s3) =>
          match serve (sr_accepts run) handle rest s3 with
          | (Err e, s4) => (Err e, s4)
          | (Ok _, s4) => (Ok tt, clean_up handle s4)
          end
      end
  end.

Definition handle_socket (cfg : ServerConfig) (run : SessionRun) (s : ServerState) :
    result unit * ServerState :=
  match wait_for_connect (sr_accepts run) (sr_incoming run) s with
  | (Err e, s1) => (Err e, s1)
  | (Ok (req, rest), s1) =>
      match admit_client cfg run req s1 with
      | (Err e, s2) => (Err e, s2)
      | (Ok handle, s2) => run_tunnel cfg run handle rest s2
      end
  end.
End Session.

(** * Joining the writer task *)

(** Where a sender of the session's channel is held. *)
Inductive Holder : Type :=
| LocalHandle    (* the variable [handle], an [Arc] of the same tunnel *)
| Borrowed.      (* a proxy handler or a TCP task that holds the handle *)

#[export] Instance Holder_eq_dec : EqDecision Holder.
Proof. solve_decision. Defined.

Record Join : Type := {
  jn_holders : list Holder;
  jn_queue : list OutgoingFrame;
  jn_refused : bool;      (* the socket refused a frame *)
  jn_writer_done : bool;
}.

(** The steps while [handle_socket] awaits the writer: a borrower sends or lets
    go of its handle, the writer takes a frame (and ends if the socket refuses
    it), or it sees that the queue is empty and all senders are gone. *)
Inductive join_step : Join -> Join -> Prop :=
| join_send hs q f r :
    Borrowed ∈ hs ->
    join_step {| jn_holders := hs; jn_queue := q; jn_refused := r; jn_writer_done := false |}
              {| jn_holders := hs; jn_queue := q ++ [f]; jn_refused := r;
                 jn_writer_done := false |}
| join_release h1 h2 q r done :
    join_step {| jn_holders := h1 ++ Borrowed :: h2; jn_queue := q; jn_refused := r;
                 jn_writer_done := done |}
              {| jn_holders := h1 ++ h2; jn_queue := q; jn_refused := r;
                 jn_writer_done := done |}
| join_take hs f q r :
    join_step {| jn_holders := hs; jn_queue := f :: q; jn_refused := r; jn_writer_done := false |}
              {| jn_holders := hs; jn_queue := q; jn_refused := r; jn_writer_done := false |}
| join_refuse hs f q r :
    join_step {| jn_holders := hs; jn_queue := f :: q; jn_refused := r; jn_writer_done := false |}
              {| jn_holders := hs; jn_queue := q; jn_refused := true; jn_writer_done := true |}
| join_end r :
    join_step {| jn_holders := []; jn_queue := []; jn_refused := r; jn_writer_done := false |}
              {| jn_holders := []; jn_queue := []; jn_refused := r; jn_writer_done := true |}.

(** When the session reaches the join, [clean_up] has removed the map entry and
    [drop(tx)] the local sender; the variable [handle] lives to the end of the
    function. *)
Definition join_start (borrowers : nat) (queue : list OutgoingFrame) : Join :=
  {| jn_holders := LocalHandle :: replicate borrowers Borrowed; jn_queue := queue;
     jn_refused := false; jn_writer_done := false |}.
