(* ===== verification/ServerSessionSpec.v ===== *)
(** What a tunnel connection guarantees to the server: who is admitted, what a
    refused client is told, what the end of a session leaves behind, and what
    it does not clean up. *)

From Stdlib Require Import Ascii.
From S2P Require Import Prelude RustStr Types Errors Utils Protocol WebSocket Http LocalProxy.
From S2P Require Import PendingStore Externals TunnelManager ManagerSpec ServerConfig ServerProxy.
From S2P Require Import ServerTcp ServerSession.

Local Open Scope N_scope.

Section Spec.
Context `{G : Governor, H : Sha256, C : ConstantTimeEq, B : BincodeCodec, U : UuidDisplay,
          A : ParseSocketAddr}.
Context (debug_close : option string -> string).
Implicit Types s : ServerState.

(** * Admission *)

Lemma tx_send_frame (accepts : nat -> bool) (f : OutgoingFrame) s :
  ss_manager (tx_send accepts f s).2 = ss_manager s /\
  ss_registry (tx_send accepts f s).2 = ss_registry s /\
  ss_answers (tx_send accepts f s).2 = ss_answers s.
Proof. unfold tx_send. by destruct (accepts _). Qed.

Lemma tx_send_all (f : OutgoingFrame) s (accepts : nat -> bool) :
  (forall n, accepts n = true) ->
  tx_send accepts f s =
    (true, {| ss_manager := ss_manager s; ss_registry := ss_registry s;
              ss_queue := ss_queue s ++ [f]; ss_answers := ss_answers s |}).
Proof. intros Ha; unfold tx_send; by rewrite Ha. Qed.

Lemma wait_for_connect_frame (accepts : nat -> bool) (incoming : list Incoming) s :
  let s' := (wait_for_connect debug_close accepts incoming s).2 in
  ss_manager s' = ss_manager s /\ ss_registry s' = ss_registry s /\ ss_answers s' = ss_answers s.
Proof.
  revert s; induction incoming as [|i incoming IH]; intros s; [done|].
  destruct i as [[text|bytes|payload|payload|reason|]|err]; cbn; try done; try apply IH.
  - destruct (decode bytes) as [m|]; [|done]. destruct m; try done; apply IH.
  - destruct (IH (tx_send accepts (FrameControl (WsPong payload)) s).2) as (-> & -> & ->).
    apply tx_send_frame.
Qed.

(** The conditions under which a client becomes a tunnel. *)
Definition admissible (cfg : ServerConfig) (req : ConnectRequest) : Prop :=
  major_version (cr_protocol_version req) = major_version PROTOCOL_VERSION /\
  validate_api_key cfg (cr_api_key req) = true.

Lemma compatible_check (v : N) :
  is_compatible (version_check v PROTOCOL_VERSION) = true <->
  major_version v = major_version PROTOCOL_VERSION.
Proof.
  rewrite <- versions_compatible_iff. unfold version_check.
  destruct (versions_compatible v PROTOCOL_VERSION); [done|]. by destruct (v <? PROTOCOL_VERSION).
Qed.

Lemma register_ok_admits (id : Uuid) (subdomain : string) (p : TunnelProtocol) (sender : Mpsc)
    (key : option string) (m : TunnelManager) :
  match register_tunnel id subdomain p sender key m with
  | (Ok t, m') => t = registered_handle id subdomain p sender key m /\
                  m' = (register_insert id subdomain p sender key m).2 /\
                  tm_tunnels m !! subdomain = None
  | (Err e, m') => m' = m /\ ((exists r, e = CapacityExceeded r) \/ e = SubdomainTaken subdomain)
  end.
Proof.
  unfold register_tunnel. pose proof (register_checks_cases subdomain key m) as Hc.
  destruct (register_checks subdomain key m).
  - destruct Hc as (_ & _ & Hf). by unfold register_insert; cbn.
  - split; [done|]. destruct Hc as [(_ & ->)|[(_ & _ & k & _ & ->)|(_ & _ & _ & ->)]];
      unfold server_full, key_full; eauto.
Qed.

Lemma admit_cases (cfg : ServerConfig) (run : SessionRun) (req : ConnectRequest) s :
  match admit_client cfg run req s with
  | (Ok t, s') => admissible cfg req /\
      exists subdomain,
        allocate_subdomain (cr_desired_subdomain req) (sr_samples run) (ss_manager s)
          = Ok subdomain /\
        t = registered_handle (sr_tunnel_id run) subdomain (cr_tunnel_protocol req)
              (sr_sender run) (cr_api_key req) (ss_manager s) /\
        ss_manager s' = (register_insert (sr_tunnel_id run) subdomain (cr_tunnel_protocol req)
                           (sr_sender run) (cr_api_key req) (ss_manager s)).2 /\
        tm_tunnels (ss_manager s) !! subdomain = None /\
        ss_registry s' = ss_registry s
  | (Err e, s') => ss_manager s' = ss_manager s /\ ss_registry s' = ss_registry s /\
                   ss_answers s' = ss_answers s
  end.
Proof.
  unfold admit_client, refuse.
  destruct (is_compatible _) eqn:Ev; cbn [negb]; [|apply tx_send_frame].
  apply compatible_check in Ev.
  destruct (validate_api_key cfg (cr_api_key req)) eqn:Ek; cbn [negb]; [|apply tx_send_frame].
  destruct (allocate_subdomain _ _ _) as [subdomain|e] eqn:Ea; [|done].
  pose proof (register_ok_admits (sr_tunnel_id run) subdomain (cr_tunnel_protocol req)
                (sr_sender run) (cr_api_key req) (ss_manager s)) as Hr.
  destruct (register_tunnel _ _ _ _ _ _) as [[t|e] m].
  - destruct Hr as (-> & -> & Hf). split; [done|]. exists subdomain; done.
  - destruct Hr as (-> & [[r ->]| ->]); cbn; edestruct tx_send_frame as (-> & -> & ->);
      split_and!; try done; cbn; by rewrite app_nil_r.
Qed.

(** C17: nobody gets a tunnel, or changes anything of the server, without a connect
    request whose protocol major version is the server's and whose API key the
    configuration accepts: a session of any other client leaves the tunnels,
    the pending requests and the TCP listeners exactly as they were. *)
Theorem only_admitted_clients_matter (cfg : ServerConfig) (run : SessionRun) s :
  (forall req rest s', wait_for_connect debug_close (sr_accepts run) (sr_incoming run) s
                         = (Ok (req, rest), s') -> ~ admissible cfg req) ->
  let '(res, s') := handle_socket debug_close cfg run s in
  (exists e, res = Err e) /\
  ss_manager s' = ss_manager s /\ ss_registry s' = ss_registry s /\ ss_answers s' = ss_answers s.
Proof.
  intros Hno; unfold handle_socket.
  pose proof (wait_for_connect_frame (sr_accepts run) (sr_incoming run) s) as Hw.
  destruct (wait_for_connect _ _ _ _) as [[[req rest]|e] s1]; [|by split; [eexists|]].
  cbn in Hw; destruct Hw as (Hm & Hr & Ha). pose proof (admit_cases cfg run req s1) as Hadm.
  destruct (admit_client cfg run req s1) as [[t|e] s2].
  - destruct Hadm as [Hadm _]. by destruct (Hno _ _ _ eq_refl).
  - destruct Hadm as (-> & -> & ->). rewrite Hm, Hr, Ha. by split; [eexists|].
Qed.

(** How a client is refused, and the one frame it is sent, if any. *)
Lemma refusal_cases (cfg : ServerConfig) (run : SessionRun) (req : ConnectRequest) s
    (e : ExposeError) s' :
  (forall n, sr_accepts run n = true) ->
  admit_client cfg run req s = (Err e, s') ->
  ss_manager s' = ss_manager s /\
  ((major_version (cr_protocol_version req) <> major_version PROTOCOL_VERSION /\
    exists message, error_message (version_check (cr_protocol_version req) PROTOCOL_VERSION)
                      = Some message /\
      ss_queue s' = ss_queue s ++ [FrameProtocol (Error ProtocolMismatch message)]) \/
   (validate_api_key cfg (cr_api_key req) = false /\
    ss_queue s' = ss_queue s ++ [FrameProtocol (Error AuthenticationFailed "invalid API key")]) \/
   (admissible cfg req /\
    allocate_subdomain (cr_desired_subdomain req) (sr_samples run) (ss_manager s) = Err e /\
    ss_queue s' = ss_queue s) \/
   (admissible cfg req /\
    exists code, ss_queue s' = ss_queue s ++ [FrameProtocol (Error code (ExposeError_to_string e))] /\
      ((code = RateLimitExceeded /\ exists r, e = CapacityExceeded r) \/
       (code = SubdomainUnavailable /\ exists n, e = SubdomainTaken n)))).
Proof.
  intros Hacc Hadm. pose proof (admit_cases cfg run req s) as Hf. rewrite Hadm in Hf.
  destruct Hf as (-> & _ & _). split; [done|].
  unfold admit_client, refuse in Hadm. rewrite !tx_send_all in Hadm by done.
  destruct (is_compatible _) eqn:Ev; cbn [negb] in Hadm.
  2:{ left; injection Hadm as <- <-. split.
      - intros Heq%compatible_check; congruence.
      - destruct (version_check _ _); [done|..]; eexists; split; cbn; done. }
  apply compatible_check in Ev. right.
  destruct (validate_api_key cfg (cr_api_key req)) eqn:Ek; cbn [negb] in Hadm.
  2:{ left; by injection Hadm as <- <-. }
  right. destruct (allocate_subdomain _ _ _) as [subdomain|e'] eqn:Ea.
  2:{ left; injection Hadm as <- <-. done. }
  right; split; [done|].
  pose proof (register_ok_admits (sr_tunnel_id run) subdomain (cr_tunnel_protocol req)
                (sr_sender run) (cr_api_key req) (ss_manager s)) as Hr.
  destruct (register_tunnel _ _ _ _ _ _) as [[t|e'] m]; [done|].
  destruct Hr as (-> & [[r ->]| ->]); rewrite tx_send_all in Hadm by done;
    injection Hadm as <- <-; eexists; (split; [done|]); [left | right]; eauto.
Qed.

(** what a client that is turned away is told: the version, the key, a full
    server and a name lost to a race are reported with their codes, and nothing
    is registered.  A name that is malformed or already taken is reported to
    nobody: the session just ends, and the client sees a closed connection. *)
Theorem refusals_reported (cfg : ServerConfig) (run : SessionRun) (req : ConnectRequest) s
    (e : ExposeError) s' :
  (forall n, sr_accepts run n = true) ->
  admit_client cfg run req s = (Err e, s') ->
  ss_manager s' = ss_manager s /\
  ((major_version (cr_protocol_version req) <> major_version PROTOCOL_VERSION /\
    exists message, error_message (version_check (cr_protocol_version req) PROTOCOL_VERSION)
                      = Some message /\
      ss_queue s' = ss_queue s ++ [FrameProtocol (Error ProtocolMismatch message)]) \/
   (validate_api_key cfg (cr_api_key req) = false /\
    ss_queue s' = ss_queue s ++ [FrameProtocol (Error AuthenticationFailed "invalid API key")]) \/
   (admissible cfg req /\
    allocate_subdomain (cr_desired_subdomain req) (sr_samples run) (ss_manager s) = Err e /\
    ss_queue s' = ss_queue s) \/
   (admissible cfg req /\
    exists code, ss_queue s' = ss_queue s ++ [FrameProtocol (Error code (ExposeError_to_string e))] /\
      ((code = RateLimitExceeded /\ exists r, e = CapacityExceeded r) \/
       (code = SubdomainUnavailable /\ exists n, e = SubdomainTaken n)))).
Proof. apply refusal_cases. Qed.

(** * The end of a session *)

Lemma fulfill_tunnels (t : ActiveTunnel) (msg : Message) (m : TunnelManager) :
  tm_tunnels (fulfill t msg m).1 = tm_tunnels m.
Proof. destruct msg; try done. by rewrite fulfill_eq. Qed.

Lemma on_frame_tunnels (accepts : nat -> bool) (t : ActiveTunnel) (i : Incoming) s :
  tm_tunnels (ss_manager (on_frame accepts t i s).2) = tm_tunnels (ss_manager s).
Proof.
  destruct i as [[text|bytes|payload|payload|reason|]|err]; cbn; try done.
  - destruct (decode bytes) as [m|]; [|done]. destruct m; cbn; try done.
    + pose proof (fulfill_tunnels t (HttpResponse id status headers body) (ss_manager s)) as Hf.
      unfold fulfill in *. destruct (store_remove id _) as [st o]; by destruct o.
    + by destruct (ServerTcp.handle_client_data _ _ _ _) as [[?|?] ?].
  - by destruct (tx_send_frame accepts (FrameControl (WsPong payload)) s) as (-> & _).
Qed.

Lemma serve_tunnels (accepts : nat -> bool) (t : ActiveTunnel) (incoming : list Incoming) s :
  tm_tunnels (ss_manager (serve accepts t incoming s).2) = tm_tunnels (ss_manager s).
Proof.
  revert s; induction incoming as [|i incoming IH]; intros s; [done|]; cbn.
  pose proof (on_frame_tunnels accepts t i s) as Hf.
  destruct (on_frame accepts t i s) as [[| |e] s1]; cbn in Hf; [by rewrite IH|done|done].
Qed.

Lemma open_port_manager (cfg : ServerConfig) (run : SessionRun) (t : ActiveTunnel) s :
  ss_manager (open_port cfg run t s).2 = ss_manager s.
Proof. unfold open_port. destruct (at_protocol t); [done|]. by destruct (registry_register _ _ _). Qed.

Lemma clean_up_eq (t : ActiveTunnel) s :
  clean_up t s =
    {| ss_manager := manager_remove (at_subdomain t) (close t (ss_manager s)).1;
       ss_registry := delete (at_id t) (ss_registry s); ss_queue := ss_queue s;
       ss_answers := (ss_answers s ++ (close t (ss_manager s)).2) ++ [] |}.
Proof. unfold clean_up. by destruct (close t (ss_manager s)). Qed.

(** The state in which the loop of a session was left: the listener is open, the
    acknowledgement queued, and the client's frames handled up to its leaving. *)
Definition left_loop (cfg : ServerConfig) (run : SessionRun) (t : ActiveTunnel)
    (rest : list Incoming) s s1 : Prop :=
  exists port s2 s3, open_port cfg run t s = (Ok port, s2) /\
    tx_send (sr_accepts run) (FrameProtocol (ConnectAck (ack_message cfg t port (ss_manager s2)))) s2 =
      (true, s3) /\
    serve (sr_accepts run) t rest s3 = (Ok tt, s1).

(** A session that fails keeps the tunnels; one that ends well cleans up after
    a loop that kept them. *)
Lemma run_tunnel_cases (cfg : ServerConfig) (run : SessionRun) (t : ActiveTunnel)
    (rest : list Incoming) s :
  match run_tunnel cfg run t rest s with
  | (Err _, s') => tm_tunnels (ss_manager s') = tm_tunnels (ss_manager s)
  | (Ok _, s') => exists s1, tm_tunnels (ss_manager s1) = tm_tunnels (ss_manager s) /\
                             left_loop cfg run t rest s s1 /\ s' = clean_up t s1
  end.
Proof.
  unfold run_tunnel. pose proof (open_port_manager cfg run t s) as Hp.
  destruct (open_port cfg run t s) as [[port|e] s2] eqn:Eo; cbn in Hp; [|by rewrite Hp].
  set (ack := FrameProtocol _). destruct (tx_send_frame (sr_accepts run) ack s2) as (Hm & _ & _).
  destruct (tx_send (sr_accepts run) ack s2) as [[] s3] eqn:Ea; cbn in Hm; [|by rewrite Hm, Hp].
  pose proof (serve_tunnels (sr_accepts run) t rest s3) as Hs.
  destruct (serve (sr_accepts run) t rest s3) as [[[]|e] s4] eqn:Es; cbn in Hs.
  - exists s4. split_and!; [by rewrite Hs, Hm, Hp | | done]. by exists port, s2, s3.
  - by rewrite Hs, Hm, Hp.
Qed.


(** C29: a session that fails after registration, for instance on a frame that
    does not decode, a read error, or data for a TCP connection that is gone,
    returns without that: the tunnel stays registered with nobody behind it,
    and its subdomain stays taken, also for the client that reconnects. *)
Theorem failed_session_leaks (cfg : ServerConfig) (run : SessionRun) (t : ActiveTunnel)
    (rest : list Incoming) s s' (e : ExposeError) (samples : list (list ascii)) :
  manager_get (at_subdomain t) (ss_manager s) = Some t -> valid_label (at_subdomain t) ->
  run_tunnel cfg run t rest s = (Err e, s') ->
  manager_get (at_subdomain t) (ss_manager s') = Some t /\
  allocate_subdomain (Some (at_subdomain t)) samples (ss_manager s') =
    Err (SubdomainTaken (at_subdomain t)).
Proof.
  intros Hg Hv Hrun. pose proof (run_tunnel_cases cfg run t rest s) as Hc. rewrite Hrun in Hc.
  unfold manager_get in *. rewrite Hc. split; [done|].
  unfold allocate_subdomain. rewrite (sanitize_fixed _ Hv); cbn. by rewrite Hc, Hg.
Qed.

(** C40: the end of a session removes whatever is registered under its subdomain.
    After an administrator disconnected the tunnel and another client took the
    name, the end of the first session takes the second client's tunnel down. *)
Theorem stale_session_removes_successor (id1 id2 : Uuid) (t1 t2 : ActiveTunnel) s
    (m1 m2 : TunnelManager) (sent : list Delivery) (p : TunnelProtocol) (sender : Mpsc)
    (key : option string) :
  manager_wf (ss_manager s) -> manager_get (at_subdomain t1) (ss_manager s) = Some t1 ->
  at_id t1 = id1 -> disconnect_tunnel id1 (ss_manager s) = (true, m1, sent) ->
  register_tunnel id2 (at_subdomain t1) p sender key m1 = (Ok t2, m2) ->
  manager_get (at_subdomain t1) m1 = None /\ manager_get (at_subdomain t1) m2 = Some t2 /\
  manager_get (at_subdomain t1) (ss_manager (clean_up t1 (with_manager s m2 []))) = None.
Proof.
  intros Hm Hg <- Hd Hr. split; [|split].
  - rewrite disconnect_eq, (find_by_id_wf _ _ _ Hm Hg), close_eq in Hd. injection Hd as <- _.
    unfold manager_get; cbn. by rewrite lookup_delete_eq.
  - pose proof (register_ok_admits id2 (at_subdomain t1) p sender key m1) as Ho.
    rewrite Hr in Ho. destruct Ho as (-> & -> & _). unfold manager_get; cbn.
    by rewrite lookup_insert_eq.
  - rewrite clean_up_eq; unfold manager_get; cbn. by rewrite lookup_delete_eq.
Qed.
End Spec.

(** * The join *)

Lemma join_step_keeps (j j' : Join) :
  join_step j j' ->
  LocalHandle ∈ jn_holders j /\ (jn_writer_done j = true -> jn_refused j = true) ->
  LocalHandle ∈ jn_holders j' /\ (jn_writer_done j' = true -> jn_refused j' = true).
Proof. intros []; cbn; intros [Hh Hd]; split; set_solver. Qed.

(** [handle_socket] joins the writer task while its own variable still holds
    a sender of the writer's channel: the join ends only if the socket refuses
    a frame, and with nothing left to send it never ends, so a session that a
    client leaves quietly stays behind with its task and its socket. *)
Theorem join_needs_a_refused_frame :
  (forall borrowers queue j, rtc join_step (join_start borrowers queue) j ->
     jn_writer_done j = true -> jn_refused j = true) /\
  (forall j, ~ join_step (join_start 0 []) j).
Proof.
  split.
  - intros b q j Hr.
    assert (forall j0, rtc join_step j0 j ->
              LocalHandle ∈ jn_holders j0 /\ (jn_writer_done j0 = true -> jn_refused j0 = true) ->
              LocalHandle ∈ jn_holders j /\ (jn_writer_done j = true -> jn_refused j = true)) as Hi.
    { induction 1; [done|]. eauto using join_step_keeps. }
    apply (Hi _ Hr). cbn; split; [set_solver | done].
  - intros j Hs. inversion Hs; subst.
    + set_solver.
    + by destruct h1 as [|? [|]].
Qed.
