(* ===== verification/SessionTraffic.v ===== *)
(** What a tunnel's session takes from its client: the bytes the loop of
    [handle_socket] in [expose-server/src/server.rs] counts as received, and what
    late data of a TCP connection does to the session. *)

From S2P Require Import Prelude RustStr Types Errors Utils Protocol WebSocket Http LocalProxy.
From S2P Require Import PendingStore Externals TunnelManager ManagerSpec ServerConfig ServerProxy.
From S2P Require Import ServerTcp ServerSession Metrics.

Local Open Scope N_scope.

Section Traffic.
Context `{G : Governor, H : Sha256, B : BincodeCodec, U : UuidDisplay}.
Context (accepts : nat -> bool) (handle : ActiveTunnel).
Implicit Types s : ServerState.

(** * Counting *)

(** [TcpTunnelRegistry::handle_client_data] counts what it has written, under the
    subdomain of the tunnel it found. *)
Definition client_data_emits (tunnel_id connection_id : Uuid) (data : Bytes)
    (r : TcpTunnelRegistry) : list Emission :=
  match handle_client_data tunnel_id connection_id data r, r !! tunnel_id with
  | (Ok _, _), Some h => [bytes_received (at_subdomain (tth_tunnel h)) (len data)]
  | _, _ => []
  end.

(** The loop counts a response before it knows whether somebody waits for it. *)
Definition message_emits (m : Message) s : list Emission :=
  match m with
  | HttpResponse _ _ _ body => [bytes_received (at_subdomain handle) (len body)]
  | TcpData connection_id data _ =>
      client_data_emits (at_id handle) connection_id data (ss_registry s)
  | _ => []
  end.

Definition frame_emits (i : Incoming) s : list Emission :=
  match i with
  | InFrame (WsBinary bytes) =>
      match decode bytes with Ok m => message_emits m s | Err _ => [] end
  | _ => []
  end.

Fixpoint serve_emits (incoming : list Incoming) s : list Emission :=
  match incoming with
  | [] => []
  | i :: rest =>
      frame_emits i s ++
      match on_frame accepts handle i s with
      | (Next, s') => serve_emits rest s'
      | (_, _) => []
      end
  end.

(** The bytes of the responses among some deliveries. *)
Definition answered_bytes (ds : list Delivery) : N :=
  foldr (fun d acc => match d.2 with HttpResponse _ _ _ body => len body | _ => 0 end + acc) 0 ds.

Lemma answered_bytes_app (a b : list Delivery) :
  answered_bytes (a ++ b) = answered_bytes a + answered_bytes b.
Proof.
  unfold answered_bytes. induction a as [|d a IH]; [done|]. cbn [app foldr]. rewrite IH. lia.
Qed.

Lemma frame_counts (i : Incoming) s :
  exists new, ss_answers (on_frame accepts handle i s).2 = ss_answers s ++ new /\
    answered_bytes new <= total "expose_bytes_received_total" (frame_emits i s).
Proof.
  assert (exists new, ss_answers s = ss_answers s ++ new /\
            answered_bytes new <= total "expose_bytes_received_total" (frame_emits i s)) as Hsame
    by (exists []; rewrite app_nil_r; split; [done | apply N.le_0_l]).
  destruct i as [[]|]; try exact Hsame; cbn [on_frame frame_emits] in *.
  2: { unfold tx_send. by case_match. }
  destruct (decode data) as [m|e]; [|exact Hsame].
  destruct m; try exact Hsame; cbn [on_message message_emits] in *.
  - rewrite fulfill_eq. eexists; split; [reflexivity|].
    destruct (ps_requests _ !! id); unfold answered_bytes, total, bytes_received, counted; cbn; lia.
  - destruct (handle_client_data _ _ _ _) as [[u|e] r]; exact Hsame.
Qed.

(** Whatever reaches the handlers was counted as received first. *)
Lemma serve_counts (incoming : list Incoming) s :
  exists new, ss_answers (serve accepts handle incoming s).2 = ss_answers s ++ new /\
    answered_bytes new <= total "expose_bytes_received_total" (serve_emits incoming s).
Proof.
  revert s; induction incoming as [|i rest IH]; intros s; cbn [serve serve_emits].
  { exists []. by rewrite app_nil_r. }
  destruct (frame_counts i s) as (new1 & Hs1 & Hn1). rewrite total_app.
  destruct (on_frame accepts handle i s) as [[] s1]; cbn [snd] in *.
  - destruct (IH s1) as (new2 & Hs2 & Hn2). exists (new1 ++ new2).
    rewrite Hs2, Hs1, answered_bytes_app, (assoc (++)). split; [done | lia].
  - exists new1. split; [done | cbn; lia].
  - exists new1. split; [done | cbn; lia].
Qed.

(** * Late data *)

(** The connection is not, or no longer, in the tunnel's table. *)
Definition connection_gone (connection_id : Uuid) (r : TcpTunnelRegistry) : Prop :=
  forall h, r !! at_id handle = Some h -> tth_connections h !! connection_id = None.

Lemma closed_gone (connection_id : Uuid) (r : TcpTunnelRegistry) :
  connection_gone connection_id (handle_client_close (at_id handle) connection_id r).
Proof.
  unfold connection_gone, handle_client_close. destruct (r !! at_id handle) as [h|] eqn:Eh.
  - rewrite lookup_insert_eq. intros ? [= <-]. apply lookup_delete_eq.
  - by rewrite Eh.
Qed.

(** When a public TCP peer hangs up, the server drops its connection and tells the
    client; data the client has sent before it reads that ends the session with
    all its other connections. *)
Lemma late_data_ends_session `{BL : !BincodeLaws B} (connection_id : Uuid) (data b : Bytes)
    (sequence : N) (rest : list Incoming) s :
  encode (TcpData connection_id data sequence) = Ok b ->
  connection_gone connection_id (ss_registry s) ->
  exists what s', serve accepts handle (InFrame (WsBinary b) :: rest) s =
    (Err (TunnelNotFound what), s').
Proof.
  intros Hb Hgone. cbn [serve on_frame]. rewrite (decode_encoded _ _ Hb). cbn [on_message].
  unfold handle_client_data. destruct (ss_registry s !! at_id handle) as [h|] eqn:Eh; [|by eauto].
  rewrite (Hgone h Eh). eauto.
Qed.
End Traffic.
