(* ===== verification/TcpStreams.v ===== *)
(** A TCP connection through the tunnel: the bytes one side reads are the bytes
    the other side writes, in both directions. *)

From S2P Require Import Prelude RustStr Types Errors Utils Protocol WebSocket Http LocalProxy.
From S2P Require Import PendingStore Externals TunnelManager ServerConfig ServerProxy Streaming.
From S2P Require Import ClientTunnel ServerTcp.

Local Open Scope N_scope.

(** What a socket yields before it is closed by its peer. *)
Definition reads_of (data : list Bytes) : list (Result string Bytes) :=
  (Ok <$> data) ++ [Ok []].

Fixpoint data_messages (id : Uuid) (data : list Bytes) (sequence : N) : list Message :=
  match data with
  | [] => []
  | d :: rest =>
      TcpData id d sequence :: data_messages id rest (wrapping_add u64_max sequence 1)
  end.

Lemma connection_loop_open (id : Uuid) (data : list Bytes) (sequence : N) (ob : Outbox) :
  ob_capacity ob = None -> Forall (fun d => d <> []) data ->
  connection_loop id (reads_of data) sequence ob =
    (Some true, push_all (data_messages id data sequence ++ [TcpClose id CloseNormal]) ob).
Proof.
  intros Hc Hf; revert sequence ob Hc; induction Hf as [|d data Hd Hf IH]; intros sequence ob Hc.
  - cbn. by rewrite send_open.
  - destruct d as [|x d]; [done|]. cbn [reads_of fmap list_fmap app connection_loop].
    rewrite send_open by done. unfold reads_of in IH. rewrite IH by done. by rewrite push_all_app.
Qed.

Lemma read_loop_open (id : Uuid) (data : list Bytes) (sequence : N) (n : nat) :
  (length data < n)%nat -> Forall (fun d => d <> []) data ->
  read_loop id (reads_of data) sequence n =
    (Some (Ok tt), OutProtocol <$> (data_messages id data sequence ++ [TcpClose id CloseNormal])).
Proof.
  intros Hn Hf; revert sequence n Hn; induction Hf as [|d data Hd Hf IH]; intros sequence n Hn.
  - cbn in *. by destruct n; [lia|].
  - destruct d as [|x d]; [done|]. cbn [reads_of fmap list_fmap app read_loop].
    destruct n as [|n]; [cbn in Hn; lia|]. unfold reads_of in IH.
    rewrite IH by (cbn in Hn; lia). done.
Qed.

Section Streams.
Context `{U : UuidDisplay}.

Lemma deliver_data (id : Uuid) (data : list Bytes) (sequence : N) (s : ClientState)
    (p : TcpLocalProxy) (w : Bytes) :
  cs_tcp s = Some p ->
  tp_connections p !! id = Some {| th_written := w; th_broken := None |} ->
  deliver (data_messages id data sequence) s =
    (Ok tt, with_tcp s (with_connections p
       (<[id := {| th_written := w ++ concat data; th_broken := None |}]> (tp_connections p))), []).
Proof.
  revert sequence s p w; induction data as [|d data IH]; intros sequence s p w Hs Hp; cbn in *.
  - rewrite app_nil_r, insert_id by done. destruct s as [h t]; cbn in *; subst. by destruct p.
  - rewrite Hs. unfold handle_data. rewrite Hp; cbn.
    erewrite IH; [| done | cbn; by rewrite lookup_insert_eq].
    cbn. by rewrite insert_insert_eq, <- (assoc (++)).
Qed.

(** The server's side of the same. *)
Fixpoint deliver_to_server (tunnel_id : Uuid) (ms : list Message) (r : TcpTunnelRegistry) :
    result unit * TcpTunnelRegistry :=
  match ms with
  | [] => (Ok tt, r)
  | TcpData id data _ :: rest =>
      match handle_client_data tunnel_id id data r with
      | (Ok _, r') => deliver_to_server tunnel_id rest r'
      | (Err e, r') => (Err e, r')
      end
  | TcpClose id _ :: rest => deliver_to_server tunnel_id rest (handle_client_close tunnel_id id r)
  | _ :: rest => deliver_to_server tunnel_id rest r
  end.

Lemma deliver_server_data (tunnel_id id : Uuid) (data : list Bytes) (ms : list Message)
    (sequence : N) (r : TcpTunnelRegistry) (h : TcpTunnelHandle) (w : Bytes) :
  r !! tunnel_id = Some h ->
  tth_connections h !! id = Some {| tcn_written := w; tcn_broken := None |} ->
  deliver_to_server tunnel_id (data_messages id data sequence ++ ms) r =
    deliver_to_server tunnel_id ms
      (<[tunnel_id := with_tcp_connections h
           (<[id := {| tcn_written := w ++ concat data; tcn_broken := None |}]>
              (tth_connections h))]> r).
Proof.
  revert sequence r h w; induction data as [|d data IH]; intros sequence r h w Hr Hh; cbn.
  - rewrite app_nil_r. f_equal. rewrite (insert_id (tth_connections h)) by done.
    rewrite insert_id; [done|]. rewrite Hr. by destruct h.
  - unfold handle_client_data. rewrite Hr, Hh; cbn.
    erewrite IH; [| by rewrite lookup_insert_eq | cbn; by rewrite lookup_insert_eq].
    cbn. by rewrite !insert_insert_eq, <- (assoc (++)).
Qed.

(** C7: a TCP connection carries its bytes faithfully in both directions: what
    the public peer sends until it closes is, in order and complete, what the
    client writes to the local service, and what the service answers is what
    the server writes to the public peer; the close then removes the
    connection on the other side. *)
Theorem tcp_bytes_preserved (id tunnel_id : Uuid) (data : list Bytes) (ob : Outbox) (n : nat)
    (s : ClientState) (p : TcpLocalProxy) (r : TcpTunnelRegistry) (h : TcpTunnelHandle) :
  Forall (fun d => d <> []) data -> ob_capacity ob = None -> (length data < n)%nat ->
  cs_tcp s = Some p -> tp_connections p !! id = Some {| th_written := []; th_broken := None |} ->
  r !! tunnel_id = Some h ->
  tth_connections h !! id = Some {| tcn_written := []; tcn_broken := None |} ->
  (exists ms close s' s'',
     connection_loop id (reads_of data) 0 ob =
       (Some true, {| ob_sent := ob_sent ob ++ ms ++ [close]; ob_capacity := None |}) /\
     deliver ms s = (Ok tt, s', []) /\ deliver [close] s' = (Ok tt, s'', []) /\
     (exists p', cs_tcp s' = Some p' /\ tp_connections p' !! id =
        Some {| th_written := concat data; th_broken := None |}) /\
     (exists p'', cs_tcp s'' = Some p'' /\ tp_connections p'' !! id = None)) /\
  (exists ms close r' r'',
     read_loop id (reads_of data) 0 n =
       (Some (Ok tt), (OutProtocol <$> ms) ++ [OutProtocol close]) /\
     deliver_to_server tunnel_id ms r = (Ok tt, r') /\
     deliver_to_server tunnel_id [close] r' = (Ok tt, r'') /\
     (exists h', r' !! tunnel_id = Some h' /\ tth_connections h' !! id =
        Some {| tcn_written := concat data; tcn_broken := None |}) /\
     (exists h'', r'' !! tunnel_id = Some h'' /\ tth_connections h'' !! id = None)).
Proof.
  intros Hd Hc Hn Hs Hp Hr Hh. split.
  - exists (data_messages id data 0), (TcpClose id CloseNormal). eexists _, _. split_and!.
    + rewrite connection_loop_open by done. unfold push_all. by rewrite Hc.
    + by apply deliver_data.
    + cbn. done.
    + eexists; split; [done|]. cbn. by rewrite lookup_insert_eq.
    + eexists; split; [done|]. cbn. by rewrite lookup_delete_eq.
  - exists (data_messages id data 0), (TcpClose id CloseNormal). eexists _, _. split_and!.
    + rewrite read_loop_open by done. by rewrite fmap_app.
    + rewrite <- (app_nil_r (data_messages id data 0)). by erewrite deliver_server_data.
    + cbn. done.
    + eexists; split; [by rewrite lookup_insert_eq|]. cbn. by rewrite lookup_insert_eq.
    + unfold handle_client_close. rewrite lookup_insert_eq. eexists; split;
        [by rewrite lookup_insert_eq|]. cbn. by rewrite lookup_delete_eq.
Qed.
End Streams.
