(* ===== verification/TcpListener.v ===== *)
(** The listener of a TCP tunnel, [accept_loop] of
    [expose-server/src/tcp_proxy.rs], with the tasks that run beside it: the
    readers of the accepted connections, the frames of the client, and the
    removal of the tunnel.

    The tasks share the table of connections and the tunnel's channel.  A step
    is what one task does between two points where another can run. *)

From S2P Require Import Prelude RustStr Types Errors Protocol WebSocket Http LocalProxy.
From S2P Require Import PendingStore Externals TunnelManager ServerProxy ServerTcp Streaming.
From S2P Require Import ClientTunnel TcpStreams.

Local Open Scope N_scope.

(** A [read_loop]: the sequence number of its next message, whether it has sent
    its close and is about to leave the table, and whether it was aborted.  An
    aborted task ends when it would next wait, so it may still take a step. *)
Record Reader : Type := {
  rd_sequence : N;
  rd_closing : bool;
  rd_aborted : bool;
}.

(** Where the accept loop is: selecting; in [handle_connection], before the
    client is told and before the connection is stored; aborting the readers
    one by one after the loop; or done. *)
Inductive AcceptState : Type :=
| AcSelecting
| AcConnecting (connection_id : Uuid) (addr : string)
| AcSpawned (connection_id : Uuid)
| AcAborting (seen : gset Uuid)
| AcEnded.

(** [remove_tunnel] cancels the token, then clears the table. *)
Inductive Removal : Type :=
| Registered
| Cancelled
| Removed.

Record Listener : Type := {
  ln_accept : AcceptState;
  ln_removal : Removal;
  ln_open : bool;
  ln_connections : gset Uuid;
  ln_readers : gmap Uuid Reader;
  ln_queue : list Message;
}.

Definition with_accept (l : Listener) (a : AcceptState) : Listener :=
  {| ln_accept := a; ln_removal := ln_removal l; ln_open := ln_open l;
     ln_connections := ln_connections l; ln_readers := ln_readers l; ln_queue := ln_queue l |}.
Definition with_connections (l : Listener) (c : gset Uuid) : Listener :=
  {| ln_accept := ln_accept l; ln_removal := ln_removal l; ln_open := ln_open l;
     ln_connections := c; ln_readers := ln_readers l; ln_queue := ln_queue l |}.
Definition with_readers (l : Listener) (r : gmap Uuid Reader) : Listener :=
  {| ln_accept := ln_accept l; ln_removal := ln_removal l; ln_open := ln_open l;
     ln_connections := ln_connections l; ln_readers := r; ln_queue := ln_queue l |}.
Definition with_removal (l : Listener) (r : Removal) : Listener :=
  {| ln_accept := ln_accept l; ln_removal := r; ln_open := ln_open l;
     ln_connections := ln_connections l; ln_readers := ln_readers l; ln_queue := ln_queue l |}.
Definition close_channel (l : Listener) : Listener :=
  {| ln_accept := ln_accept l; ln_removal := ln_removal l; ln_open := false;
     ln_connections := ln_connections l; ln_readers := ln_readers l; ln_queue := ln_queue l |}.

(** [tunnel.send]: the message is queued while the writer is there. *)
Definition tunnel_send (m : Message) (l : Listener) : Listener :=
  if ln_open l then
    {| ln_accept := ln_accept l; ln_removal := ln_removal l; ln_open := true;
       ln_connections := ln_connections l; ln_readers := ln_readers l;
       ln_queue := ln_queue l ++ [m] |}
  else l.

Definition new_reader : Reader :=
  {| rd_sequence := 0; rd_closing := false; rd_aborted := false |}.
Definition next_sequence (r : Reader) : Reader :=
  {| rd_sequence := wrapping_add u64_max (rd_sequence r) 1; rd_closing := rd_closing r;
     rd_aborted := rd_aborted r |}.
Definition closing (r : Reader) : Reader :=
  {| rd_sequence := rd_sequence r; rd_closing := true; rd_aborted := rd_aborted r |}.
Definition aborted (r : Reader) : Reader :=
  {| rd_sequence := rd_sequence r; rd_closing := rd_closing r; rd_aborted := true |}.

Definition abort (id : Uuid) (l : Listener) : Listener :=
  with_readers l (alter aborted id (ln_readers l)).

(** A message about a connection. *)
Definition about (id : Uuid) (m : Message) : bool :=
  match m with
  | TcpConnect k _ | TcpData k _ _ | TcpClose k _ => N.eqb k id
  | _ => false
  end.

(** [Uuid::new_v4] gives an id that was not used before. *)
Definition fresh_id (id : Uuid) (l : Listener) : Prop :=
  (id ∉ ln_connections l) /\ ln_readers l !! id = None /\ filter (fun m => about id m) (ln_queue l) = [].

Inductive listener_step (l : Listener) : Listener -> Prop :=
(** the accept loop *)
| ls_accept id addr :
    ln_accept l = AcSelecting -> fresh_id id l ->
    listener_step l (with_accept l (AcConnecting id addr))
| ls_accept_failed :
    ln_accept l = AcSelecting -> listener_step l (with_accept l (AcAborting ∅))
| ls_cancelled :
    ln_accept l = AcSelecting -> ln_removal l <> Registered ->
    listener_step l (with_accept l (AcAborting ∅))
| ls_told id addr :
    ln_accept l = AcConnecting id addr -> ln_open l = true ->
    listener_step l
      (with_accept (with_readers (tunnel_send (TcpConnect id addr) l)
                      (<[id := new_reader]> (ln_readers l))) (AcSpawned id))
| ls_not_told id addr :
    ln_accept l = AcConnecting id addr -> ln_open l = false ->
    listener_step l (with_accept l AcSelecting)
| ls_stored id :
    ln_accept l = AcSpawned id ->
    listener_step l (with_accept (with_connections l ({[ id ]} ∪ ln_connections l)) AcSelecting)
| ls_abort id seen :
    ln_accept l = AcAborting seen -> id ∈ ln_connections l -> id ∉ seen ->
    listener_step l (with_accept (abort id l) (AcAborting ({[ id ]} ∪ seen)))
| ls_ended seen :
    ln_accept l = AcAborting seen -> ln_connections l ⊆ seen ->
    listener_step l (with_accept l AcEnded)
(** a reader *)
| ls_data id r data :
    ln_readers l !! id = Some r -> rd_closing r = false -> ln_open l = true -> data <> [] ->
    listener_step l
      (with_readers (tunnel_send (TcpData id data (rd_sequence r)) l)
         (<[id := next_sequence r]> (ln_readers l)))
| ls_data_refused id r :
    ln_readers l !! id = Some r -> rd_closing r = false -> ln_open l = false ->
    listener_step l (with_readers l (delete id (ln_readers l)))
| ls_end id r reason :
    ln_readers l !! id = Some r -> rd_closing r = false ->
    listener_step l
      (with_readers (tunnel_send (TcpClose id reason) l) (<[id := closing r]> (ln_readers l)))
| ls_leave id r :
    ln_readers l !! id = Some r -> rd_closing r = true ->
    listener_step l
      (with_readers (with_connections l (ln_connections l ∖ {[ id ]})) (delete id (ln_readers l)))
| ls_reader_aborted id r :
    ln_readers l !! id = Some r -> rd_aborted r = true -> rd_closing r = false ->
    listener_step l (with_readers l (delete id (ln_readers l)))
(** the session: [handle_client_close], [remove_tunnel], the end of the writer *)
| ls_client_close id :
    ln_removal l = Registered -> id ∈ ln_connections l ->
    listener_step l (abort id (with_connections l (ln_connections l ∖ {[ id ]})))
| ls_cancel :
    ln_removal l = Registered -> listener_step l (with_removal l Cancelled)
| ls_clear :
    ln_removal l = Cancelled -> listener_step l (with_removal (with_connections l ∅) Removed)
| ls_channel_closed : listener_step l (close_channel l).

Definition listener_init : Listener :=
  {| ln_accept := AcSelecting; ln_removal := Registered; ln_open := true;
     ln_connections := ∅; ln_readers := ∅; ln_queue := [] |}.

Definition listener_reachable : Listener -> Prop :=
  reachable (fun l => l = listener_init) listener_step.

(** * What the client is told about a connection *)

Definition talk (id : Uuid) (l : Listener) : list Message :=
  filter (fun m => about id m) (ln_queue l).

Fixpoint sequence_after (data : list Bytes) (sequence : N) : N :=
  match data with
  | [] => sequence
  | _ :: rest => sequence_after rest (wrapping_add u64_max sequence 1)
  end.

Lemma data_messages_snoc (id : Uuid) (data : list Bytes) (d : Bytes) (sequence : N) :
  data_messages id (data ++ [d]) sequence =
    data_messages id data sequence ++ [TcpData id d (sequence_after data sequence)].
Proof. revert sequence; induction data as [|x data IH]; intros s; cbn; [done | by rewrite IH]. Qed.

Lemma sequence_after_snoc (data : list Bytes) (d : Bytes) (sequence : N) :
  sequence_after (data ++ [d]) sequence = wrapping_add u64_max (sequence_after data sequence) 1.
Proof. revert sequence; induction data as [|x data IH]; intros s; cbn; [done | by rewrite IH]. Qed.

(** A conversation: opened once, then data numbered from 0, then perhaps one
    close; while a reader runs it knows the next number. *)
Inductive conversation (id : Uuid) : option Reader -> list Message -> Prop :=
| conv_silent : conversation id None []
| conv_running addr data r :
    rd_closing r = false -> rd_sequence r = sequence_after data 0 -> Forall (fun d => d <> []) data ->
    conversation id (Some r) (TcpConnect id addr :: data_messages id data 0)
| conv_over addr data close r :
    Forall (fun d => d <> []) data -> (close = [] \/ exists reason, close = [TcpClose id reason]) ->
    match r with Some r => rd_closing r = true | None => True end ->
    conversation id r (TcpConnect id addr :: data_messages id data 0 ++ close).

Lemma conversation_over (id : Uuid) (r : option Reader) (ms : list Message) :
  conversation id r ms -> conversation id None ms.
Proof.
  intros [|addr data r' _ _ Hd|addr data close r' Hd Hc _].
  - constructor.
  - rewrite <- (app_nil_r (data_messages _ _ _)). apply conv_over; auto.
  - by apply conv_over.
Qed.

Lemma conversation_aborted (id : Uuid) (r : Reader) (ms : list Message) :
  conversation id (Some r) ms -> conversation id (Some (aborted r)) ms.
Proof. inversion 1; subst; [by apply conv_running | by apply conv_over]. Qed.

Lemma talk_send (id : Uuid) (m : Message) (l : Listener) :
  talk id (tunnel_send m l) = talk id l ++ (if ln_open l && about id m then [m] else []).
Proof.
  unfold talk, tunnel_send. destruct (ln_open l); cbn; [|by rewrite app_nil_r].
  rewrite filter_app. f_equal. rewrite filter_cons. by destruct (about id m).
Qed.

(** Each connection has its conversation, and a connection that is being set up
    has none yet. *)
Record listener_wf (l : Listener) : Prop := {
  lw_talk id : conversation id (ln_readers l !! id) (talk id l);
  lw_connecting id addr : ln_accept l = AcConnecting id addr ->
    ln_readers l !! id = None /\ talk id l = [];
}.

Lemma conversation_running (id : Uuid) (r : Reader) (ms : list Message) :
  rd_closing r = false -> conversation id (Some r) ms ->
  exists addr data, ms = TcpConnect id addr :: data_messages id data 0 /\
    rd_sequence r = sequence_after data 0 /\ Forall (fun d => d <> []) data.
Proof. intros Hc. inversion 1; subst; [by repeat eexists | congruence]. Qed.

(** A step that changes nobody's conversation. *)
Lemma same_talk l l' :
  listener_wf l -> ln_readers l' = ln_readers l -> ln_queue l' = ln_queue l ->
  (forall id addr, ln_accept l' = AcConnecting id addr ->
     ln_accept l = AcConnecting id addr \/ fresh_id id l) ->
  listener_wf l'.
Proof.
  intros [Ht Hc] Hr Hq Ha. split; unfold talk; rewrite Hr, Hq; [apply Ht|].
  intros id addr [H|(_ & H & H')]%Ha; [by apply (Hc id addr) | done].
Qed.

(** A step of the reader of [id] that says [m], if anything. *)
Lemma reader_step_wf l id (r' : option Reader) (m : option Message) l' :
  listener_wf l -> is_Some (ln_readers l !! id) -> ln_accept l' = ln_accept l ->
  ln_readers l' = partial_alter (fun _ => r') id (ln_readers l) ->
  (forall k, talk k l' = talk k l ++ (if k =? id then option_list m else [])) ->
  (conversation id (ln_readers l !! id) (talk id l) ->
   conversation id r' (talk id l ++ option_list m)) ->
  listener_wf l'.
Proof.
  intros [Ht Hc] His Ha Hr Hq Hid. split.
  - intros k. rewrite Hr, Hq. destruct (N.eqb_spec k id) as [->|Hne].
    + rewrite lookup_partial_alter_eq. apply Hid, Ht.
    + rewrite lookup_partial_alter_ne, app_nil_r by done. apply Ht.
  - intros k addr. rewrite Ha. intros [Hn Hk]%Hc. rewrite Hr, Hq.
    destruct (N.eqb_spec k id) as [->|Hne]; [by rewrite Hn in His; destruct His|].
    by rewrite lookup_partial_alter_ne, Hk.
Qed.

Lemma talk_same_queue (id : Uuid) (l l' : Listener) :
  ln_queue l' = ln_queue l -> talk id l' = talk id l.
Proof. unfold talk. by intros ->. Qed.

(** The reader of [id], if there is one, is aborted. *)
Lemma abort_wf (id : Uuid) (c : gset Uuid) (a : AcceptState) l :
  listener_wf l -> (forall k addr, a = AcConnecting k addr -> ln_accept l = a) ->
  listener_wf (with_accept (abort id (with_connections l c)) a).
Proof.
  intros [Ht Hc] Ha. split.
  2: { intros k addr Hk. destruct (Hc k addr) as [Hn Hq]; [by rewrite <- Hk; apply (Ha k addr)|].
       split; [by apply lookup_alter_None | by rewrite (talk_same_queue k l)]. }
  intros k. cbn [ln_readers with_accept abort with_readers with_connections]. rewrite (talk_same_queue k l) by done.
  destruct (decide (k = id)) as [->|Hne]; [rewrite lookup_alter_eq | by rewrite lookup_alter_ne].
  specialize (Ht id). destruct (ln_readers l !! id); [by apply conversation_aborted | done].
Qed.

Lemma told_wf (id : Uuid) (addr : string) l :
  listener_wf l -> ln_accept l = AcConnecting id addr -> ln_open l = true ->
  listener_wf (with_accept (with_readers (tunnel_send (TcpConnect id addr) l)
                              (<[id := new_reader]> (ln_readers l))) (AcSpawned id)).
Proof.
  intros [Ht Hc] Ha Ho. destruct (Hc id addr Ha) as [Hr Hk]. split; [|done].
  intros k. cbn [ln_readers with_accept with_readers].
  rewrite (talk_same_queue k (tunnel_send (TcpConnect id addr) l)) by done.
  rewrite talk_send, Ho; cbn [about andb].
  destruct (decide (k = id)) as [->|Hne].
  - rewrite lookup_insert_eq, Hk, N.eqb_refl. cbn.
    by apply (conv_running id addr []).
  - rewrite lookup_insert_ne by done. assert ((id =? k) = false) as -> by (by apply N.eqb_neq).
    rewrite app_nil_r. apply Ht.
Qed.

Lemma said (id : Uuid) (m : Message) (readers : gmap Uuid Reader) l k :
  (forall j, about j m = (id =? j)) ->
  talk k (with_readers (tunnel_send m l) readers) =
    talk k l ++ (if k =? id then option_list (if ln_open l then Some m else None) else []).
Proof.
  intros Hm. rewrite (talk_same_queue k (tunnel_send m l)) by done. rewrite talk_send, Hm.
  rewrite N.eqb_sym. destruct (ln_open l), (k =? id); done.
Qed.

Lemma delete_wf (id : Uuid) (r : Reader) (c : gset Uuid) l :
  listener_wf l -> ln_readers l !! id = Some r ->
  listener_wf (with_readers (with_connections l c) (delete id (ln_readers l))).
Proof.
  intros Hl Hr. apply (reader_step_wf l id None None); [done | by eexists | done | done | |].
  - intros k. rewrite (talk_same_queue k l) by done. destruct (_ =? _); by rewrite app_nil_r.
  - rewrite app_nil_r. apply conversation_over.
Qed.

Lemma listener_step_wf l l' : listener_wf l -> listener_step l l' -> listener_wf l'.
Proof.
  intros Hl Hs; destruct Hs as
    [id addr Ha Hf | Ha | Ha Hn | id addr Ha Ho | id addr Ha Ho | id Ha | id seen Ha Hi Hn
    | seen Ha Hsub | id r data Hr Hc Ho Hd | id r Hr Hc Ho | id r reason Hr Hc | id r Hr Hc
    | id r Hr Hab Hc | id Hrem Hi | Hrem | Hrem |].
  - apply (same_talk l); try done. intros k addr' [= -> ->]. by right.
  - by apply (same_talk l).
  - by apply (same_talk l).
  - by apply told_wf.
  - by apply (same_talk l).
  - by apply (same_talk l).
  - by apply (abort_wf id (ln_connections l)).
  - by apply (same_talk l).
  - apply (reader_step_wf l id (Some (next_sequence r)) (Some (TcpData id data (rd_sequence r))));
      [done | by eexists | by unfold tunnel_send; rewrite Ho | by unfold tunnel_send; rewrite Ho | |].
    + intros k. rewrite (said id) by done. by rewrite Ho.
    + rewrite Hr. intros (addr & ds & -> & Hq & Hne)%(conversation_running _ _ _ Hc).
      change (option_list (Some ?m)) with [m]. rewrite <- app_comm_cons, Hq, <- data_messages_snoc.
      apply conv_running; [done | | by apply Forall_app; auto].
      rewrite sequence_after_snoc. cbn. by rewrite Hq.
  - by apply (delete_wf id r (ln_connections l)).
  - apply (reader_step_wf l id (Some (closing r))
             (if ln_open l then Some (TcpClose id reason) else None));
      [done | by eexists | by unfold tunnel_send; destruct (ln_open l)
      | by unfold tunnel_send; destruct (ln_open l) | intros k; by apply said |].
    rewrite Hr. intros (addr & ds & -> & Hq & Hne)%(conversation_running _ _ _ Hc).
    rewrite <- app_comm_cons.
    apply conv_over; [done | | done]. destruct (ln_open l); [right; by eexists | by left].
  - by apply (delete_wf id r).
  - by apply (delete_wf id r (ln_connections l)).
  - by apply (abort_wf id _ (ln_accept l)).
  - by apply (same_talk l); [..|left].
  - by apply (same_talk l); [..|left].
  - by apply (same_talk l); [..|left].
Qed.

Lemma listener_init_wf : listener_wf listener_init.
Proof. split; [intros id; apply conv_silent | done]. Qed.

(** C11: however the accept loop, the readers, the client's frames and the removal
    of the tunnel interleave, the client is told of each connection in order:
    at most one opening, then the data that was read, numbered from 0, then at
    most one close and nothing after it. *)
Theorem connection_told_in_order (l : Listener) (id : Uuid) :
  listener_reachable l ->
  talk id l = [] \/
  exists addr data close,
    talk id l = TcpConnect id addr :: data_messages id data 0 ++ close /\
    Forall (fun d => d <> []) data /\
    (close = [] \/ exists reason, close = [TcpClose id reason]) /\
    (forall r, ln_readers l !! id = Some r -> rd_closing r = false ->
       close = [] /\ rd_sequence r = sequence_after data 0).
Proof.
  intros Hl. apply (invariant_holds _ _ listener_wf) in Hl;
    [|intros ? ->; apply listener_init_wf | apply listener_step_wf].
  pose proof (lw_talk _ Hl id) as Hc. destruct (ln_readers l !! id) as [r|] eqn:Hr.
  - destruct (rd_closing r) eqn:Hcl.
    + right. inversion Hc as [|? ? ? Hf|addr data close ? Hd Hclose _]; subst; [congruence|].
      exists addr, data, close. split_and!; [done..|]. intros r' [= <-]. congruence.
    + right. destruct (conversation_running _ _ _ Hcl Hc) as (addr & data & Ht & Hq & Hd).
      exists addr, data, []. rewrite app_nil_r. split_and!; [done | done | by left |].
      by intros r' [= <-].
  - inversion Hc as [|? ? ? Hf|addr data close ? Hd Hclose _]; [by left | right].
    by exists addr, data, close.
Qed.

(** * What removal leaves behind *)

Definition listener_steps : Listener -> Listener -> Prop := rtc listener_step.

(** The tunnel is gone, and nothing can stop the reader of [id] but its peer,
    which closes the connection, or the end of the channel. *)
Definition orphaned (id : Uuid) (l : Listener) : Prop :=
  ln_removal l = Removed /\ ln_accept l = AcEnded /\ ln_connections l = ∅ /\
  (ln_open l = false \/
   (exists r, ln_readers l !! id = Some r /\ rd_closing r = false /\ rd_aborted r = false) \/
   exists reason, TcpClose id reason ∈ ln_queue l).

Lemma orphaned_step (id : Uuid) l l' : orphaned id l -> listener_step l l' -> orphaned id l'.
Proof.
  intros (Hrem & Hacc & Hconn & Hrd) Hs; destruct Hs; try congruence.
  all: try (rewrite Hconn in *; set_solver).
  - split_and!; try (by unfold tunnel_send; destruct (ln_open l)).
    right. destruct Hrd as [?|[(r' & Hr' & ? & ?)|[reason' Hin]]]; [congruence|left|right].
    + cbn [ln_readers with_readers]. destruct (decide (id0 = id)) as [->|Hne];
        [rewrite lookup_insert_eq | rewrite lookup_insert_ne by done]; eexists; split; try done.
      by simplify_eq.
    + exists reason'. unfold tunnel_send. destruct (ln_open l); [|done].
      apply elem_of_app. by left.
  - split_and!; try done. by left.
  - split_and!; try (by unfold tunnel_send; destruct (ln_open l)).
    unfold tunnel_send. destruct (ln_open l) eqn:Ho; [right | by left].
    destruct (decide (id0 = id)) as [->|Hne].
    + right. exists reason. cbn. apply elem_of_app. right. by apply list_elem_of_singleton.
    + destruct Hrd as [?|[(r' & Hr' & ? & ?)|[reason' Hin]]]; [congruence|left|right].
      * exists r'. cbn. by rewrite lookup_insert_ne.
      * exists reason'. cbn. apply elem_of_app. by left.
  - split_and!; try done; [cbn; rewrite Hconn; set_solver|].
    destruct Hrd as [?|[(r' & Hr' & ? & ?)|?]]; [by left | right; left | by right; right].
    exists r'. cbn. rewrite lookup_delete_ne; [done | intros ->; congruence].
  - split_and!; try done.
    destruct Hrd as [?|[(r' & Hr' & ? & ?)|?]]; [by left | right; left | by right; right].
    exists r'. cbn. rewrite lookup_delete_ne; [done | intros ->; congruence].
  - split_and!; try done. by left.
Qed.

Lemma orphaned_forever (id : Uuid) l l' : orphaned id l -> listener_steps l l' -> orphaned id l'.
Proof. intros Ho Hs. induction Hs; [done|]. eauto using orphaned_step. Qed.

(** [remove_tunnel] runs to its end, then the accept loop notices. *)
Definition removed_listener (l : Listener) : Listener :=
  with_accept (with_removal (with_connections l ∅) Removed) AcEnded.

Lemma removal_steps l :
  ln_accept l = AcSelecting -> ln_removal l = Registered -> listener_steps l (removed_listener l).
Proof.
  intros Ha Hr. unfold listener_steps.
  eapply rtc_l; [by apply ls_cancel|]. eapply rtc_l; [by apply ls_clear|].
  eapply rtc_l; [by apply ls_cancelled|].
  eapply rtc_l; [by eapply ls_ended; [done | cbn; set_solver]|].
  destruct l; cbn in *. apply rtc_refl.
Qed.

Lemma reachable_steps l l' :
  listener_reachable l -> listener_steps l l' -> listener_reachable l'.
Proof. intros Hl Hs. induction Hs; [done|]. apply IHHs. by eapply reachable_step. Qed.

(** C39: removing a TCP tunnel cancels its listener and clears the table of its
    connections before the accept loop aborts the readers it finds there: the
    loop can find none, so that every reader goes on, and from then on nothing
    ends it but its peer or the end of the session's channel, while the client
    is still sent its data.  And a connection whose peer closes at once can
    leave an entry behind that no reader will remove. *)
Theorem removal_orphans_readers :
  (forall l, listener_reachable l -> ln_accept l = AcSelecting -> ln_removal l = Registered ->
     exists l', listener_steps l l' /\ ln_removal l' = Removed /\ ln_accept l' = AcEnded /\
       ln_readers l' = ln_readers l /\
       forall id r, ln_readers l !! id = Some r -> rd_closing r = false -> rd_aborted r = false ->
         (forall l'', listener_steps l' l'' -> orphaned id l'') /\
         (ln_open l = true -> forall data, data <> [] -> exists l'', listener_steps l' l'' /\
            ln_queue l'' = ln_queue l ++ [TcpData id data (rd_sequence r)])) /\
  (exists l id reason, listener_reachable l /\ ln_accept l = AcSelecting /\
     ln_removal l = Registered /\ id ∈ ln_connections l /\ ln_readers l !! id = None /\
     TcpClose id reason ∈ ln_queue l).
Proof.
  split.
  - intros l Hl Ha Hr. exists (removed_listener l). split_and!; try done; [by apply removal_steps|].
    intros id r Hid Hc Hab. split.
    + intros l''. apply orphaned_forever. split_and!; try done. right; left. by exists r.
    + intros Ho data Hd. eexists; split; [eapply rtc_l; [by eapply (ls_data _ id r data)|apply rtc_refl]|].
      unfold tunnel_send. cbn. by rewrite Ho.
  - eexists _, 1, CloseNormal. split; [|].
    + eapply (reachable_steps listener_init); [by constructor|].
      eapply rtc_l; [by apply (ls_accept _ 1 "peer")|].
      eapply rtc_l; [by eapply ls_told|].
      eapply rtc_l; [by eapply (ls_end _ 1 new_reader CloseNormal)|].
      eapply rtc_l; [by eapply (ls_leave _ 1)|].
      eapply rtc_l; [by eapply ls_stored|]. apply rtc_refl.
    + split_and!; try done; set_solver.
Qed.
