(* ===== verification/Multi.v ===== *)
(** Several tunnels over one websocket, [expose-client/src/multi.rs]: the
    manager of the tunnels' contexts, the frames it handles, and a session from
    the connect requests to its end.

    An [Arc<TunnelContext>] is the entry of the map [mm_contexts]: entries are
    never removed and one is replaced only before the loop starts, so an update
    of a proxy behind the [Arc] is an update of that entry.  A [HashMap] that is
    iterated gives its keys in some order, [map_order].  What spawned tasks do
    to a proxy and to the channel are events of the loop. *)

From Stdlib Require Import Ascii.
From S2P Require Import Prelude RustStr Types Errors Utils Protocol WebSocket Http LocalProxy.
From S2P Require Import ClientConfig Backoff ClientTunnel.

Local Open Scope N_scope.

(** * What the standard library decides *)

(** [str::to_lowercase], by the Unicode tables; on ASCII text it is the
    conversion of ASCII letters. *)
Class UnicodeLower : Type := to_lowercase : string -> string.
Class UnicodeLowerLaws (W : UnicodeLower) : Prop := {
  to_lowercase_ascii s :
    str_forall (fun c => code c <? 128) s = true -> to_lowercase s = to_ascii_lowercase s;
}.

(** The order in which a [HashMap] with these keys is iterated. *)
Class MapOrder : Type := map_order : gset Uuid -> list Uuid.
Class MapOrderLaws (O : MapOrder) : Prop := {
  map_order_perm (X : gset Uuid) : map_order X ≡ₚ elements X;
}.

(** [{:?}] of an optional text and of an optional close frame. *)
Class DebugText : Type := {
  debug_reason : option string -> string;
  debug_close : option string -> string;
}.

(** * Contexts *)

Record TunnelContext : Type := {
  cx_tunnel_id : Uuid;
  cx_protocol : TunnelProtocol;
  cx_http_proxy : option LocalProxy;
  cx_tcp_proxy : option TcpLocalProxy;
}.

Record MultiTunnelManager : Type := {
  mm_contexts : gmap Uuid TunnelContext;
  mm_subdomains : gmap string Uuid;
  mm_http_requests : gmap Uuid Uuid;
  mm_tcp_connections : gmap Uuid Uuid;
}.

Definition multi_new : MultiTunnelManager :=
  {| mm_contexts := ∅; mm_subdomains := ∅; mm_http_requests := ∅; mm_tcp_connections := ∅ |}.

Definition with_http_requests (m : MultiTunnelManager) (r : gmap Uuid Uuid) :
    MultiTunnelManager :=
  {| mm_contexts := mm_contexts m; mm_subdomains := mm_subdomains m; mm_http_requests := r;
     mm_tcp_connections := mm_tcp_connections m |}.

Definition with_tcp_tracking (m : MultiTunnelManager) (c : gmap Uuid Uuid) :
    MultiTunnelManager :=
  {| mm_contexts := mm_contexts m; mm_subdomains := mm_subdomains m;
     mm_http_requests := mm_http_requests m; mm_tcp_connections := c |}.

(** The state of a context's proxy changes. *)
Definition update_context (ctx : TunnelContext) (m : MultiTunnelManager) : MultiTunnelManager :=
  {| mm_contexts := <[cx_tunnel_id ctx := ctx]> (mm_contexts m);
     mm_subdomains := mm_subdomains m; mm_http_requests := mm_http_requests m;
     mm_tcp_connections := mm_tcp_connections m |}.

Definition set_http_proxy (ctx : TunnelContext) (p : LocalProxy) : TunnelContext :=
  {| cx_tunnel_id := cx_tunnel_id ctx; cx_protocol := cx_protocol ctx;
     cx_http_proxy := Some p; cx_tcp_proxy := cx_tcp_proxy ctx |}.

Definition set_tcp_proxy (ctx : TunnelContext) (p : TcpLocalProxy) : TunnelContext :=
  {| cx_tunnel_id := cx_tunnel_id ctx; cx_protocol := cx_protocol ctx;
     cx_http_proxy := cx_http_proxy ctx; cx_tcp_proxy := Some p |}.

Definition new_context (ack : ConnectResponse) (cfg : TunnelConfig) : TunnelContext :=
  {| cx_tunnel_id := ca_tunnel_id ack;
     cx_protocol := ca_tunnel_protocol ack;
     cx_http_proxy :=
       if decide (ca_tunnel_protocol ack = Http)
       then Some (LocalProxy_new (tc_local_host cfg) (tc_local_port cfg)) else None;
     cx_tcp_proxy :=
       if decide (ca_tunnel_protocol ack = Tcp)
       then Some (TcpLocalProxy_new (tc_local_host cfg) (tc_local_port cfg)) else None |}.

Section Contexts.
Context `{W : UnicodeLower, O : MapOrder}.

Definition register_context (ack : ConnectResponse) (cfg : TunnelConfig)
    (m : MultiTunnelManager) : MultiTunnelManager :=
  {| mm_contexts := <[ca_tunnel_id ack := new_context ack cfg]> (mm_contexts m);
     mm_subdomains :=
       <[to_lowercase (ca_assigned_subdomain ack) := ca_tunnel_id ack]> (mm_subdomains m);
     mm_http_requests := mm_http_requests m;
     mm_tcp_connections := mm_tcp_connections m |}.

(** [self.contexts.values()]. *)
Definition context_values (m : MultiTunnelManager) : list TunnelContext :=
  omap (fun id => mm_contexts m !! id) (map_order (dom (mm_contexts m))).

Definition first_of_protocol (p : TunnelProtocol) (m : MultiTunnelManager) :
    option TunnelContext :=
  head (filter (fun ctx => cx_protocol ctx = p) (context_values m)).

(** The first header whose name is [host], its value in lower case. *)
Definition request_host (headers : Headers) : option string :=
  (fun h => to_lowercase h.2) <$> head (filter (fun h => eq_ignore_ascii_case h.1 "host") headers).

Definition host_label (host : string) : string :=
  str_split_first "."%char (str_split_first ":"%char host).

Definition http_context_by_headers (headers : Headers) (m : MultiTunnelManager) :
    option TunnelContext :=
  let fallback := first_of_protocol Http m in
  match request_host headers with
  | Some host =>
      match mm_subdomains m !! host_label host with
      | Some tunnel_id => mm_contexts m !! tunnel_id
      | None => fallback
      end
  | None => fallback
  end.

Definition http_context_for_request (id : Uuid) (m : MultiTunnelManager) :
    option TunnelContext :=
  tunnel_id ← mm_http_requests m !! id; mm_contexts m !! tunnel_id.

Definition track_http_request (request_id tunnel_id : Uuid) (m : MultiTunnelManager) :
    MultiTunnelManager :=
  with_http_requests m (<[request_id := tunnel_id]> (mm_http_requests m)).
Definition clear_http_request (request_id : Uuid) (m : MultiTunnelManager) :
    MultiTunnelManager :=
  with_http_requests m (delete request_id (mm_http_requests m)).

Definition pick_tcp_context (m : MultiTunnelManager) : option TunnelContext :=
  first_of_protocol Tcp m.

Definition track_tcp_connection (connection_id tunnel_id : Uuid) (m : MultiTunnelManager) :
    MultiTunnelManager :=
  with_tcp_tracking m (<[connection_id := tunnel_id]> (mm_tcp_connections m)).
Definition tcp_context (connection_id : Uuid) (m : MultiTunnelManager) : option TunnelContext :=
  tunnel_id ← mm_tcp_connections m !! connection_id; mm_contexts m !! tunnel_id.
Definition remove_tcp_connection (connection_id : Uuid) (m : MultiTunnelManager) :
    MultiTunnelManager :=
  with_tcp_tracking m (delete connection_id (mm_tcp_connections m)).
End Contexts.

(** * Frames *)

Definition multi_protocol_error (code : ErrorCode) (message : string) : ExposeError :=
  match code with
  | AuthenticationFailed => network ("authentication failed: " +:+ message)
  | SubdomainUnavailable => network ("subdomain unavailable: " +:+ message)
  | RateLimitExceeded => network ("rate limited: " +:+ message)
  | ProtocolMismatch => network message
  | _ => network message
  end.

(** Tasks a frame starts, on the proxy of a tunnel, and frames it sends. *)
Inductive MultiEffect : Type :=
| MeHttp (tunnel_id : Uuid) (id : Uuid) (method path : string) (headers : Headers)
    (body : Bytes)
| MeConnect (tunnel_id : Uuid) (connection_id : Uuid) (remote_addr : string)
| MeRaw (frame : WsMessage).

Section Frames.
Context `{B : BincodeCodec, U : UuidDisplay, W : UnicodeLower, O : MapOrder, D : DebugText}.

Definition multi_handle_message (msg : Message) (m : MultiTunnelManager) :
    result unit * MultiTunnelManager * list MultiEffect :=
  match msg with
  | HttpRequest id method path headers body =>
      (Ok tt, m,
       match http_context_by_headers headers m with
       | Some context =>
           match cx_http_proxy context with
           | Some _ => [MeHttp (cx_tunnel_id context) id method path headers body]
           | None => []
           end
       | None => []
       end)
  | HttpRequestStart id method path headers _ =>
      match http_context_by_headers headers m with
      | Some context =>
          match cx_http_proxy context with
          | Some proxy =>
              let proxy' := begin_streaming_request id method path headers proxy in
              (Ok tt, track_http_request id (cx_tunnel_id context)
                        (update_context (set_http_proxy context proxy') m), [])
          | None => (Ok tt, m, [])
          end
      | None => (Ok tt, m, [])
      end
  | HttpRequestChunk id data _ =>
      match http_context_for_request id m with
      | Some context =>
          match cx_http_proxy context with
          | Some proxy =>
              match push_streaming_chunk id data proxy with
              | (Ok _, proxy') => (Ok tt, update_context (set_http_proxy context proxy') m, [])
              | (Err e, proxy') => (Err e, update_context (set_http_proxy context proxy') m, [])
              end
          | None => (Ok tt, m, [])
          end
      | None => (Ok tt, m, [])
      end
  | HttpRequestEnd id =>
      match http_context_for_request id m with
      | Some context =>
          match cx_http_proxy context with
          | Some proxy =>
              match finish_streaming_request id proxy with
              | (Some (method, path, headers, body), proxy') =>
                  (Ok tt, clear_http_request id
                            (update_context (set_http_proxy context proxy') m),
                   [MeHttp (cx_tunnel_id context) id method path headers body])
              | (None, proxy') =>
                  (Ok tt, clear_http_request id
                            (update_context (set_http_proxy context proxy') m), [])
              end
          | None => (Ok tt, clear_http_request id m, [])
          end
      | None => (Ok tt, clear_http_request id m, [])
      end
  | TcpConnect connection_id remote_addr =>
      match pick_tcp_context m with
      | Some context =>
          match cx_tcp_proxy context with
          | Some _ =>
              (Ok tt, track_tcp_connection connection_id (cx_tunnel_id context) m,
               [MeConnect (cx_tunnel_id context) connection_id remote_addr])
          | None => (Ok tt, m, [])
          end
      | None => (Ok tt, m, [])
      end
  | TcpData connection_id data _ =>
      match tcp_context connection_id m with
      | Some context =>
          match cx_tcp_proxy context with
          | Some proxy =>
              match handle_data connection_id data proxy with
              | (Ok _, proxy') => (Ok tt, update_context (set_tcp_proxy context proxy') m, [])
              | (Err e, proxy') => (Err e, update_context (set_tcp_proxy context proxy') m, [])
              end
          | None => (Ok tt, m, [])
          end
      | None => (Ok tt, m, [])
      end
  | TcpClose connection_id _ =>
      match tcp_context connection_id m with
      | Some context =>
          match cx_tcp_proxy context with
          | Some proxy =>
              (Ok tt, remove_tcp_connection connection_id
                        (update_context (set_tcp_proxy context
                           (handle_close connection_id proxy)) m), [])
          | None => (Ok tt, remove_tcp_connection connection_id m, [])
          end
      | None => (Ok tt, remove_tcp_connection connection_id m, [])
      end
  | Disconnect reason =>
      (Err (network ("Server requested disconnect: " +:+ debug_reason reason)), m, [])
  | Error code message => (Err (multi_protocol_error code message), m, [])
  | _ => (Ok tt, m, [])
  end.

Definition multi_handle_frame (frame : WsMessage) (m : MultiTunnelManager) :
    result unit * MultiTunnelManager * list MultiEffect :=
  match frame with
  | WsBinary data =>
      match decode data with
      | Ok msg => multi_handle_message msg m
      | Err e => (Err e, m, [])
      end
  | WsPing payload => (Ok tt, m, [MeRaw (WsPong payload)])
  | WsClose _ => (Err (network "server closed the websocket"), m, [])
  | _ => (Ok tt, m, [])
  end.
End Frames.

(** [spawn_http_task]: the response of the local service, or the error as one. *)
Definition spawn_http_task `{L : HttpLib, V : Upstream} (proxy : LocalProxy) (id : Uuid)
    (method path : string) (headers : Headers) (body : Bytes) : Message :=
  match handle_http_request proxy id method path headers body with
  | Ok resp => resp
  | Err err => HttpResponse id 502 [("x-expose-error", ExposeError_to_string err)] []
  end.

(** * A session *)

(** [tx] is the outcome of sending the n-th frame to the writer task, an error
    once that task has ended. *)
Section Session.
Context `{B : BincodeCodec, U : UuidDisplay, W : UnicodeLower, O : MapOrder, D : DebugText}.
Context (tx : nat -> Result string unit) (version : string).

Definition out_send (o : Outgoing) (queue : list Outgoing) :
    Result string unit * list Outgoing :=
  match tx (length queue) with
  | Ok _ => (Ok tt, queue ++ [o])
  | Err e => (Err e, queue)
  end.

Definition multi_connect_request (cfg : TunnelConfig) : ConnectRequest :=
  {| cr_protocol_version := PROTOCOL_VERSION;
     cr_api_key := tc_api_key cfg;
     cr_desired_subdomain := tc_subdomain cfg;
     cr_tunnel_protocol := tc_protocol cfg;
     cr_client_version := version;
     cr_metadata := Some ("local=" +:+ local_endpoint cfg) |}.

Definition send_connect (cfg : TunnelConfig) (queue : list Outgoing) :
    result unit * list Outgoing :=
  let '(r, queue') := out_send (OutProtocol (Connect (multi_connect_request cfg))) queue in
  (map_err r network, queue').

(** The acknowledgement, and what is left to read. *)
Fixpoint wait_for_connect_ack (incoming : list Incoming) (queue : list Outgoing) :
    result (ConnectResponse * list Incoming) * list Outgoing :=
  match incoming with
  | [] => (Err (network "server closed before sending ConnectAck"), queue)
  | InError err :: _ => (Err (WebSocket err), queue)
  | InFrame frame :: rest =>
      match frame with
      | WsBinary bytes =>
          match decode bytes with
          | Err e => (Err e, queue)
          | Ok (ConnectAck response) => (Ok (response, rest), queue)
          | Ok (Error code message) => (Err (multi_protocol_error code message), queue)
          | Ok _ => wait_for_connect_ack rest queue
          end
      | WsPing payload =>
          wait_for_connect_ack rest (out_send (OutRaw (WsPong payload)) queue).2
      | WsClose frame =>
          (Err (network ("server closed during handshake: " +:+ debug_close frame)), queue)
      | _ => wait_for_connect_ack rest queue
      end
  end.

(** One connect request per tunnel, each acknowledged before the next. *)
Fixpoint establish (tunnels : list TunnelConfig) (incoming : list Incoming)
    (m : MultiTunnelManager) (queue : list Outgoing) :
    result (MultiTunnelManager * list Incoming) * list Outgoing :=
  match tunnels with
  | [] => (Ok (m, incoming), queue)
  | cfg :: rest =>
      match send_connect cfg queue with
      | (Err err, queue1) =>
          (Err err,
           (out_send (OutProtocol (Disconnect (Some (ExposeError_to_string err)))) queue1).2)
      | (Ok _, queue1) =>
          match wait_for_connect_ack incoming queue1 with
          | (Ok (ack, incoming'), queue2) =>
              establish rest incoming' (register_context ack cfg m) queue2
          | (Err err, queue2) => (Err err, queue2)
          end
      end
  end.

Record MultiSession : Type := {
  ms_manager : MultiTunnelManager;
  ms_tasks : list MultiEffect;      (* the tasks spawned so far *)
  ms_outgoing : list Outgoing;
}.

(** The end of a connect task, on the proxy it was started for. *)
Definition connect_task (tunnel_id connection_id : Uuid) (attempt : Result string unit)
    (st : MultiSession) : MultiSession :=
  match mm_contexts (ms_manager st) !! tunnel_id with
  | Some context =>
      match cx_tcp_proxy context with
      | Some proxy =>
          let tx_error := match tx (length (ms_outgoing st)) with
                          | Ok _ => None | Err e => Some e end in
          let '(_, proxy', out) := handle_connect connection_id attempt tx_error proxy in
          {| ms_manager := update_context (set_tcp_proxy context proxy') (ms_manager st);
             ms_tasks := ms_tasks st; ms_outgoing := ms_outgoing st ++ out |}
      | None => st
      end
  | None => st
  end.

(** What the [select!] of the loop picks next, or a task does in between. *)
Inductive MultiEvent : Type :=
| MvShutdown
| MvIncoming (i : Incoming)
| MvEnd
| MvConnected (tunnel_id connection_id : Uuid) (attempt : Result string unit)
| MvReply (response : Message).

(** The effects of a frame: the pongs are sent, the tasks are spawned. *)
Definition apply_effect (st : MultiSession) (e : MultiEffect) : MultiSession :=
  match e with
  | MeRaw frame =>
      {| ms_manager := ms_manager st; ms_tasks := ms_tasks st;
         ms_outgoing := (out_send (OutRaw frame) (ms_outgoing st)).2 |}
  | task =>
      {| ms_manager := ms_manager st; ms_tasks := ms_tasks st ++ [task];
         ms_outgoing := ms_outgoing st |}
  end.

Definition with_multi (m : MultiTunnelManager) (st : MultiSession) : MultiSession :=
  {| ms_manager := m; ms_tasks := ms_tasks st; ms_outgoing := ms_outgoing st |}.

Definition shut_down (st : MultiSession) : option Termination * MultiSession :=
  (Some TermShutdown,
   {| ms_manager := ms_manager st; ms_tasks := ms_tasks st;
      ms_outgoing := (out_send client_shutdown (ms_outgoing st)).2 |}).

(** A proxy task sends its response. *)
Definition reply_task (response : Message) (st : MultiSession) : MultiSession :=
  {| ms_manager := ms_manager st; ms_tasks := ms_tasks st;
     ms_outgoing := (out_send (OutProtocol response) (ms_outgoing st)).2 |}.

(** Once the reader has ended its branch is disabled and only the shutdown
    branch is left, as in the loop of a single tunnel; the tasks go on. *)
Fixpoint reader_ended (events : list MultiEvent) (st : MultiSession) :
    option Termination * MultiSession :=
  match events with
  | [] => (None, st)
  | MvShutdown :: _ => shut_down st
  | (MvEnd | MvIncoming _) :: rest => reader_ended rest st
  | MvConnected tunnel_id connection_id attempt :: rest =>
      reader_ended rest (connect_task tunnel_id connection_id attempt st)
  | MvReply response :: rest => reader_ended rest (reply_task response st)
  end.

Fixpoint multi_loop (events : list MultiEvent) (st : MultiSession) :
    option Termination * MultiSession :=
  match events with
  | [] => (None, st)
  | MvShutdown :: _ => shut_down st
  | MvEnd :: rest => reader_ended rest st
  | MvIncoming (InError err) :: _ => (Some (TermError (WebSocket err)), st)
  | MvIncoming (InFrame frame) :: rest =>
      let '(r, m, effects) := multi_handle_frame frame (ms_manager st) in
      let st' := foldl apply_effect (with_multi m st) effects in
      match r with
      | Ok _ => multi_loop rest st'
      | Err err => (Some (TermError err), st')
      end
  | MvConnected tunnel_id connection_id attempt :: rest =>
      multi_loop rest (connect_task tunnel_id connection_id attempt st)
  | MvReply response :: rest => multi_loop rest (reply_task response st)
  end.
End Session.

(** What a session takes from its surroundings: the outcomes of parsing the URL
    and of connecting, the channel to the writer, what the reader yields from the
    start, the events of the loop once what is left of that is read, and what
    joining the writer gives. *)
Record MultiRun : Type := {
  mr_url : Result string string;
  mr_connect : bool -> Result string unit;
  mr_tx : nat -> Result string unit;
  mr_handshake : list Incoming;
  mr_events : list MultiEvent;
  mr_writer : Result string (result unit);
}.

Definition multi_session_result (t : Termination) (writer_result : Result string (result unit)) :
    SessionResult :=
  match writer_result with
  | Err err => Reconnect (network ("writer task failed: " +:+ err)) true
  | Ok (Err err) => Reconnect err true
  | Ok (Ok _) =>
      match t with
      | TermShutdown => Shutdown true
      | TermError error => Reconnect error true
      end
  end.

Section Run.
Context `{B : BincodeCodec, U : UuidDisplay, W : UnicodeLower, O : MapOrder, D : DebugText}.
Context (version : string).

(** [run_single_session]; [None] while the loop still runs. *)
Definition multi_single_session (config : MultiRuntimeConfig) (run : MultiRun)
    (reconnecting : bool) : option SessionResult :=
  match mr_url run with
  | Err err => Some (Reconnect (network err) false)
  | Ok _ =>
      let tuning := default true ((fun c => tt_nodelay (tc_tcp_tuning c)) <$>
                                    head (mrc_tunnels config)) in
      match mr_connect run tuning with
      | Err err => Some (Reconnect (WebSocket err) false)
      | Ok _ =>
          match establish (mr_tx run) version (mrc_tunnels config) (mr_handshake run)
                  multi_new [] with
          | (Err err, _) => Some (Reconnect err reconnecting)
          | (Ok (m, unread), queue) =>
              match multi_loop (mr_tx run) ((MvIncoming <$> unread) ++ mr_events run)
                      {| ms_manager := m; ms_tasks := []; ms_outgoing := queue |} with
              | (Some t, _) => Some (multi_session_result t (mr_writer run))
              | (None, _) => None
              end
          end
      end
  end.
End Run.

(** * Reconnection: [run_with_token] *)

(** One turn: whether the token is cancelled at its start, the session, and
    whether it is cancelled after the session.  The delay is slept to its end. *)
Record MultiTurn : Type := {
  mt_cancelled_before : bool;
  mt_session : bool -> SessionResult;
  mt_cancelled_after : bool;
}.

Fixpoint multi_run_loop (turns : list MultiTurn) (backoff : ReconnectBackoff)
    (has_connected : bool) : LoopTrace :=
  match turns with
  | [] => trace_end None
  | t :: rest =>
      if mt_cancelled_before t then trace_end (Some (Ok tt))
      else
        trace_session has_connected
          match mt_session t has_connected with
          | Shutdown _ => trace_end (Some (Ok tt))
          | Reconnect error had_connection =>
              if mt_cancelled_after t then trace_end (Some (Ok tt))
              else
                let has_connected := has_connected || had_connection in
                let backoff := if had_connection then reset backoff else backoff in
                match next_delay backoff with
                | (Some delay, backoff) =>
                    trace_sleep delay (multi_run_loop rest backoff has_connected)
                | (None, _) => trace_end (Some (Err error))
                end
          end
  end.

Definition multi_run_with_token (config : MultiRuntimeConfig) (turns : list MultiTurn) :
    LoopTrace :=
  multi_run_loop turns
    (ReconnectBackoff_new (mrc_reconnect_base_delay_ms config)
       (mrc_reconnect_max_attempts config)) false.
