(* ===== verification/MultiSpec.v ===== *)
(** What the client of several tunnels guarantees: its tables stay well formed,
    requests reach the tunnel of their host, with one tunnel it does what the
    client of a single tunnel does; and where it goes wrong with several. *)

From Stdlib Require Import Ascii.
From S2P Require Import Prelude RustStr Types Errors Utils Protocol WebSocket Http LocalProxy.
From S2P Require Import PendingStore Externals TunnelManager ServerConfig ServerProxy Backoff.
From S2P Require Import ClientConfig ClientTunnel Streaming ServerTcp ServerSession Multi.

Local Open Scope N_scope.

(** * Well-formedness *)

(** A context has the proxy of its protocol and no other, the tables lead to
    contexts, and a tracked request has a buffer in the proxy it leads to. *)
Record context_wf (id : Uuid) (ctx : TunnelContext) : Prop := {
  cw_id : cx_tunnel_id ctx = id;
  cw_http : is_Some (cx_http_proxy ctx) <-> cx_protocol ctx = Http;
  cw_tcp : is_Some (cx_tcp_proxy ctx) <-> cx_protocol ctx = Tcp;
}.

Record multi_wf (m : MultiTunnelManager) : Prop := {
  mw_contexts : map_Forall context_wf (mm_contexts m);
  mw_subdomains s id : mm_subdomains m !! s = Some id -> is_Some (mm_contexts m !! id);
  mw_requests r id : mm_http_requests m !! r = Some id ->
    exists ctx p, mm_contexts m !! id = Some ctx /\ cx_http_proxy ctx = Some p /\
                  is_Some (lp_pending_streams p !! r);
  mw_connections c id : mm_tcp_connections m !! c = Some id ->
    exists ctx, mm_contexts m !! id = Some ctx /\ cx_protocol ctx = Tcp;
}.

Lemma multi_new_wf : multi_wf multi_new.
Proof. by split. Qed.

Section Lookups.
Context `{W : UnicodeLower, O : MapOrder}.

Lemma first_of_protocol_Some (p : TunnelProtocol) (m : MultiTunnelManager) (ctx : TunnelContext) :
  first_of_protocol p m = Some ctx ->
  cx_protocol ctx = p /\ exists id, mm_contexts m !! id = Some ctx.
Proof.
  intros Hf%head_Some_elem_of. apply list_elem_of_filter in Hf as [Hp Hin].
  split; [done|]. apply list_elem_of_omap in Hin as (id & _ & Hid). by exists id.
Qed.

Lemma first_of_protocol_None `{!MapOrderLaws O} (p : TunnelProtocol) (m : MultiTunnelManager) :
  first_of_protocol p m = None ->
  forall id ctx, mm_contexts m !! id = Some ctx -> cx_protocol ctx <> p.
Proof.
  intros Hf id ctx Hc Hp.
  assert (ctx ∈ filter (fun ctx => cx_protocol ctx = p) (context_values m)) as Hin.
  { apply list_elem_of_filter; split; [done|]. apply list_elem_of_omap. exists id; split; [|done].
    rewrite map_order_perm. by apply elem_of_elements, elem_of_dom_2 with ctx. }
  unfold first_of_protocol in Hf.
  destruct (filter _ (context_values m)); [by apply elem_of_nil in Hin | done].
Qed.

(** Whatever context the manager finds is the one its id leads to. *)
Definition found (ctx : TunnelContext) (m : MultiTunnelManager) : Prop :=
  mm_contexts m !! cx_tunnel_id ctx = Some ctx /\ context_wf (cx_tunnel_id ctx) ctx.

Lemma lookup_found (id : Uuid) (ctx : TunnelContext) (m : MultiTunnelManager) :
  multi_wf m -> mm_contexts m !! id = Some ctx -> found ctx m.
Proof.
  intros Hm Hc. pose proof (mw_contexts m Hm id ctx Hc) as Hw.
  unfold found. by rewrite (cw_id id ctx Hw).
Qed.

Lemma first_found (p : TunnelProtocol) (m : MultiTunnelManager) (ctx : TunnelContext) :
  multi_wf m -> first_of_protocol p m = Some ctx -> found ctx m.
Proof. intros Hm (_ & id & Hc)%first_of_protocol_Some. by apply lookup_found with id. Qed.

Lemma by_headers_found (headers : Headers) (m : MultiTunnelManager) (ctx : TunnelContext) :
  multi_wf m -> http_context_by_headers headers m = Some ctx -> found ctx m.
Proof.
  intros Hm. unfold http_context_by_headers.
  destruct (request_host headers) as [host|]; [|by apply first_found].
  destruct (mm_subdomains m !! host_label host) as [id|]; [|by apply first_found].
  by apply lookup_found.
Qed.

Lemma for_request_found (r : Uuid) (m : MultiTunnelManager) (ctx : TunnelContext) :
  multi_wf m -> http_context_for_request r m = Some ctx ->
  found ctx m /\ mm_http_requests m !! r = Some (cx_tunnel_id ctx).
Proof.
  intros Hm. unfold http_context_for_request.
  destruct (mm_http_requests m !! r) as [id|] eqn:E; cbn; [|done].
  intros Hc. pose proof (lookup_found _ _ _ Hm Hc) as Hf.
  pose proof (mw_contexts m Hm id ctx Hc) as Hw. by rewrite (cw_id id ctx Hw).
Qed.

Lemma tcp_found (c : Uuid) (m : MultiTunnelManager) (ctx : TunnelContext) :
  multi_wf m -> tcp_context c m = Some ctx -> found ctx m.
Proof.
  intros Hm. unfold tcp_context. destruct (mm_tcp_connections m !! c) as [id|]; cbn; [|done].
  by apply lookup_found.
Qed.
End Lookups.

(** * Operations preserve it *)

(** An update of a proxy that keeps the kind of the context, and the buffers
    that the request table leads to. *)
Lemma update_wf (ctx ctx' : TunnelContext) (m : MultiTunnelManager) (requests : gmap Uuid Uuid) :
  multi_wf m -> found ctx m ->
  cx_tunnel_id ctx' = cx_tunnel_id ctx -> cx_protocol ctx' = cx_protocol ctx ->
  (is_Some (cx_http_proxy ctx') <-> is_Some (cx_http_proxy ctx)) ->
  (is_Some (cx_tcp_proxy ctx') <-> is_Some (cx_tcp_proxy ctx)) ->
  (forall r id, requests !! r = Some id -> id <> cx_tunnel_id ctx ->
     mm_http_requests m !! r = Some id) ->
  (forall r, requests !! r = Some (cx_tunnel_id ctx) ->
     exists p, cx_http_proxy ctx' = Some p /\ is_Some (lp_pending_streams p !! r)) ->
  multi_wf (with_http_requests (update_context ctx' m) requests).
Proof.
  intros Hm [Hc Hw] Hid Hp Hh Ht Hothers Hown. destruct Hw as [_ H1 H2].
  split; cbn; rewrite ?Hid.
  - intros id c. destruct (decide (id = cx_tunnel_id ctx)) as [->|Hne].
    + rewrite lookup_insert_eq. intros [= <-]. split; [done | by rewrite Hh, Hp | by rewrite Ht, Hp].
    + rewrite lookup_insert_ne by done. apply (mw_contexts m Hm).
  - intros s id Hs. destruct (decide (id = cx_tunnel_id ctx)) as [->|Hne].
    + rewrite lookup_insert_eq; eauto.
    + rewrite lookup_insert_ne by done. by apply (mw_subdomains m Hm s).
  - intros r id Hr. destruct (decide (id = cx_tunnel_id ctx)) as [->|Hne].
    + destruct (Hown r Hr) as (p & Hp' & Hs). exists ctx', p. by rewrite lookup_insert_eq.
    + rewrite lookup_insert_ne by done. apply (mw_requests m Hm). by apply Hothers.
  - intros c id Hconn. destruct (mw_connections m Hm c id Hconn) as (x & Hx & Hxp).
    destruct (decide (id = cx_tunnel_id ctx)) as [->|Hne].
    + exists ctx'. rewrite lookup_insert_eq. split; [done|]. rewrite Hp. congruence.
    + exists x. by rewrite lookup_insert_ne.
Qed.

Lemma update_context_wf (ctx ctx' : TunnelContext) (m : MultiTunnelManager) :
  multi_wf m -> found ctx m ->
  cx_tunnel_id ctx' = cx_tunnel_id ctx -> cx_protocol ctx' = cx_protocol ctx ->
  (is_Some (cx_http_proxy ctx') <-> is_Some (cx_http_proxy ctx)) ->
  (is_Some (cx_tcp_proxy ctx') <-> is_Some (cx_tcp_proxy ctx)) ->
  (forall p r, cx_http_proxy ctx = Some p -> is_Some (lp_pending_streams p !! r) ->
     exists p', cx_http_proxy ctx' = Some p' /\ is_Some (lp_pending_streams p' !! r)) ->
  multi_wf (update_context ctx' m).
Proof.
  intros Hm Hf Hid Hp Hh Ht Hs.
  apply (update_wf ctx ctx' m (mm_http_requests m)); try done.
  intros r Hr. destruct (mw_requests m Hm r _ Hr) as (c & p & Hc & Hcp & Hb).
  destruct Hf as [Hctx _]. rewrite Hctx in Hc. injection Hc as <-. by apply (Hs p r).
Qed.

Lemma tracking_wf (m : MultiTunnelManager) (conns : gmap Uuid Uuid) :
  multi_wf m ->
  (forall c id, conns !! c = Some id ->
     exists ctx, mm_contexts m !! id = Some ctx /\ cx_protocol ctx = Tcp) ->
  multi_wf (with_tcp_tracking m conns).
Proof. intros [] Hc; by split. Qed.

Lemma remove_tcp_wf (c : Uuid) (m : MultiTunnelManager) :
  multi_wf m -> multi_wf (remove_tcp_connection c m).
Proof.
  intros Hm. apply tracking_wf; [done|]. intros c' id [_ Hc]%lookup_delete_Some.
  by apply (mw_connections m Hm c').
Qed.

Lemma clear_http_wf (r : Uuid) (m : MultiTunnelManager) :
  multi_wf m -> multi_wf (clear_http_request r m).
Proof.
  intros Hm. destruct Hm as [H1 H2 H3 H4]. split; cbn; try done.
  intros r' id [_ Hr]%lookup_delete_Some. by apply (H3 r').
Qed.

Section Preservation.
Context `{B : BincodeCodec, U : UuidDisplay, W : UnicodeLower, O : MapOrder, D : DebugText}.

Lemma push_chunk_keys (id : Uuid) (data : Bytes) (p p' : LocalProxy) (r : result unit) (k : Uuid) :
  push_streaming_chunk id data p = (r, p') ->
  is_Some (lp_pending_streams p' !! k) <-> is_Some (lp_pending_streams p !! k).
Proof.
  unfold push_streaming_chunk. destruct (lp_pending_streams p !! id) as [e|] eqn:E; [|by intros [= _ <-]].
  destruct (_ <? _); intros [= _ <-]; [done|]; cbn.
  rewrite lookup_insert_is_Some. split; [intros [<-|[_ ?]]; eauto | intros ?].
  destruct (decide (id = k)) as [->|]; [by left | by right].
Qed.

Lemma begin_stream_wf (id : Uuid) (method path : string) (headers : Headers)
    (ctx : TunnelContext) (p : LocalProxy) (m : MultiTunnelManager) :
  multi_wf m -> found ctx m -> cx_http_proxy ctx = Some p ->
  multi_wf (track_http_request id (cx_tunnel_id ctx)
              (update_context (set_http_proxy ctx (begin_streaming_request id method path headers p))
                 m)).
Proof.
  intros Hm Hf Hp. apply (update_wf ctx); cbn; rewrite ?Hp; try done.
  - intros r t [[<- <-]|[_ Hr]]%lookup_insert_Some; done.
  - intros r Hr. eexists; split; [done|]; cbn. rewrite lookup_insert_is_Some.
    destruct (decide (id = r)) as [|Hne]; [by left | right; split; [done|]].
    rewrite lookup_insert_ne in Hr by done.
    destruct (mw_requests m Hm r _ Hr) as (c & p' & Hc & Hcp & Hb). destruct Hf as [Hctx _].
    rewrite Hctx in Hc. injection Hc as <-. by simplify_eq.
Qed.

Lemma finish_stream_wf (id : Uuid) (ctx : TunnelContext) (p p' : LocalProxy)
    (x : option (string * string * Headers * Bytes)) (m : MultiTunnelManager) :
  multi_wf m -> found ctx m -> cx_http_proxy ctx = Some p ->
  finish_streaming_request id p = (x, p') ->
  multi_wf (clear_http_request id (update_context (set_http_proxy ctx p') m)).
Proof.
  intros Hm Hf Hp Hx. apply (update_wf ctx); cbn; rewrite ?Hp; try done.
  - by intros r t [_ Hr]%lookup_delete_Some.
  - intros r [Hne Hr]%lookup_delete_Some. eexists; split; [done|].
    destruct (mw_requests m Hm r _ Hr) as (c & p1 & Hc & Hcp & Hb). destruct Hf as [Hctx _].
    rewrite Hctx in Hc. injection Hc as <-. assert (p1 = p) as -> by congruence.
    unfold finish_streaming_request in Hx. destruct (lp_pending_streams p !! id); simplify_eq; [|done].
    cbn. by rewrite lookup_delete_ne.
Qed.

Lemma set_tcp_wf (ctx : TunnelContext) (p p' : TcpLocalProxy) (m : MultiTunnelManager) :
  multi_wf m -> found ctx m -> cx_tcp_proxy ctx = Some p ->
  multi_wf (update_context (set_tcp_proxy ctx p') m).
Proof. intros Hm Hf Hp. apply (update_context_wf ctx); cbn; rewrite ?Hp; try done; eauto. Qed.

Lemma track_tcp_wf (c : Uuid) (ctx : TunnelContext) (m : MultiTunnelManager) :
  multi_wf m -> found ctx m -> is_Some (cx_tcp_proxy ctx) ->
  multi_wf (track_tcp_connection c (cx_tunnel_id ctx) m).
Proof.
  intros Hm [Hc Hw] Ht. apply tracking_wf; [done|].
  intros k id [[<- <-]|[_ Hk]]%lookup_insert_Some; [|by apply (mw_connections m Hm k)].
  exists ctx; split; [done | by apply (cw_tcp _ _ Hw)].
Qed.

Lemma multi_handle_message_wf (msg : Message) (m : MultiTunnelManager) :
  multi_wf m -> multi_wf (multi_handle_message msg m).1.2.
Proof.
  intros Hm. destruct msg; try exact Hm; cbn [multi_handle_message].
  - destruct (http_context_by_headers headers m) as [ctx|] eqn:Hc; [|done].
    destruct (cx_http_proxy ctx) as [p|] eqn:Hp; [|done].
    apply begin_stream_wf; [done | by eapply by_headers_found | done].
  - destruct (http_context_for_request id m) as [ctx|] eqn:Hc; [|done].
    apply for_request_found in Hc as [Hf _]; [|done].
    destruct (cx_http_proxy ctx) as [p|] eqn:Hp; [|done].
    destruct (push_streaming_chunk id data p) as [r p'] eqn:Hx.
    assert (multi_wf (update_context (set_http_proxy ctx p') m)) as Hw; [|by destruct r].
    apply (update_context_wf ctx); cbn; rewrite ?Hp; try done.
    intros p1 k [= <-] Hk. exists p'; split; [done | by apply (push_chunk_keys _ _ _ _ _ k Hx)].
  - destruct (http_context_for_request id m) as [ctx|] eqn:Hc; [|by apply clear_http_wf].
    apply for_request_found in Hc as [Hf _]; [|done].
    destruct (cx_http_proxy ctx) as [p|] eqn:Hp; [|by apply clear_http_wf].
    destruct (finish_streaming_request id p) as [x p'] eqn:Hx.
    assert (multi_wf (clear_http_request id (update_context (set_http_proxy ctx p') m))) as Hw
      by (by eapply finish_stream_wf).
    by destruct x as [[[[]]]|].
  - destruct (pick_tcp_context m) as [ctx|] eqn:Hc; [|done].
    destruct (cx_tcp_proxy ctx) as [p|] eqn:Hp; [|done].
    apply track_tcp_wf; [done | by eapply first_found | by rewrite Hp].
  - destruct (tcp_context connection_id m) as [ctx|] eqn:Hc; [|done].
    destruct (cx_tcp_proxy ctx) as [p|] eqn:Hp; [|done].
    destruct (handle_data connection_id data p) as [r p'].
    assert (multi_wf (update_context (set_tcp_proxy ctx p') m)) as Hw; [|by destruct r].
    eapply set_tcp_wf; [done | by eapply tcp_found | done].
  - destruct (tcp_context connection_id m) as [ctx|] eqn:Hc; [|by apply remove_tcp_wf].
    destruct (cx_tcp_proxy ctx) as [p|] eqn:Hp; [|by apply remove_tcp_wf].
    apply remove_tcp_wf. eapply set_tcp_wf; [done | by eapply tcp_found | done].
Qed.

Lemma multi_handle_frame_wf (frame : WsMessage) (m : MultiTunnelManager) :
  multi_wf m -> multi_wf (multi_handle_frame frame m).1.2.
Proof.
  intros Hm. destruct frame; cbn; try done.
  destruct (decode data); [by apply multi_handle_message_wf | done].
Qed.

(** * Establishing and running a session *)

Lemma register_context_wf (ack : ConnectResponse) (cfg : TunnelConfig) (m : MultiTunnelManager) :
  multi_wf m -> mm_http_requests m = ∅ -> mm_tcp_connections m = ∅ ->
  multi_wf (register_context ack cfg m).
Proof.
  intros Hm Hr Ht. split; cbn; rewrite ?Hr, ?Ht; try done.
  - intros id c [[<- <-]|[_ Hc]]%lookup_insert_Some; [|by apply (mw_contexts m Hm)].
    split; cbn; [done|..]; destruct (ca_tunnel_protocol ack); cbn; split; try done; by intros [].
  - intros s id [[_ <-]|[_ Hs]]%lookup_insert_Some; rewrite lookup_insert_is_Some; [by left|].
    destruct (decide (ca_tunnel_id ack = id)); [by left | right; split; [done|]].
    by apply (mw_subdomains m Hm s).
Qed.

Context (tx : nat -> Result string unit) (version : string).

Lemma establish_wf (tunnels : list TunnelConfig) (incoming rest : list Incoming)
    (m m' : MultiTunnelManager) (queue : list Outgoing) :
  multi_wf m -> mm_http_requests m = ∅ -> mm_tcp_connections m = ∅ ->
  (establish tx version tunnels incoming m queue).1 = Ok (m', rest) -> multi_wf m'.
Proof.
  revert incoming m queue; induction tunnels as [|cfg tunnels IH]; intros incoming m queue Hm Hr Ht.
  - by intros [= <- _].
  - cbn [establish]. destruct (send_connect tx version cfg queue) as [[[]|e] q1]; [|done].
    destruct (wait_for_connect_ack tx incoming q1) as [[[ack incoming']|e] q2]; [|done].
    apply IH; [by apply register_context_wf | done | done].
Qed.

Lemma foldl_effects_manager (effects : list MultiEffect) (st : MultiSession) :
  ms_manager (foldl (apply_effect tx) st effects) = ms_manager st.
Proof.
  revert st; induction effects as [|e effects IH]; intros st; [done|]. cbn.
  rewrite IH. by destruct e.
Qed.

Lemma connect_task_wf (tunnel_id connection_id : Uuid) (attempt : Result string unit)
    (st : MultiSession) :
  multi_wf (ms_manager st) -> multi_wf (ms_manager (connect_task tx tunnel_id connection_id attempt st)).
Proof.
  intros Hm. unfold connect_task. destruct (mm_contexts (ms_manager st) !! tunnel_id) as [ctx|] eqn:Hc; [|done].
  destruct (cx_tcp_proxy ctx) as [p|] eqn:Hp; [|done].
  destruct (handle_connect connection_id attempt _ p) as [[r p'] out].
  cbn. eapply set_tcp_wf; [done | by eapply lookup_found | done].
Qed.

Lemma reader_ended_wf (events : list MultiEvent) (st : MultiSession) :
  multi_wf (ms_manager st) -> multi_wf (ms_manager (reader_ended tx events st).2).
Proof.
  revert st; induction events as [|[] events IH]; intros st Hm; cbn [reader_ended]; try done.
  1-2: by apply IH.
  - by apply IH, connect_task_wf.
  - by apply IH.
Qed.

Lemma multi_loop_wf (events : list MultiEvent) (st : MultiSession) :
  multi_wf (ms_manager st) -> multi_wf (ms_manager (multi_loop tx events st).2).
Proof.
  revert st; induction events as [|e events IH]; intros st Hm; [done|].
  destruct e as [|[frame|err]| |tunnel connection attempt|response]; cbn [multi_loop]; try done.
  - pose proof (multi_handle_frame_wf frame (ms_manager st) Hm) as Hf.
    destruct (multi_handle_frame frame (ms_manager st)) as [[r m'] effects]; cbn in Hf.
    assert (multi_wf (ms_manager (foldl (apply_effect tx) (with_multi m' st) effects))) as Hw
      by by rewrite foldl_effects_manager.
    destruct r; [by apply IH | done].
  - by apply reader_ended_wf.
  - by apply IH, connect_task_wf.
  - by apply IH.
Qed.

(** A tracked request has its buffer, in the context its id leads to. *)
Lemma tracked_request (r : Uuid) (m : MultiTunnelManager) :
  multi_wf m -> r ∈ dom (mm_http_requests m) ->
  exists ctx p buffer, http_context_for_request r m = Some ctx /\ cx_http_proxy ctx = Some p /\
    lp_pending_streams p !! r = Some buffer.
Proof.
  intros Hm [id Hid]%elem_of_dom. destruct (mw_requests m Hm r id Hid) as (ctx & p & Hc & Hp & [b Hb]).
  exists ctx, p, b. unfold http_context_for_request. rewrite Hid; cbn. by rewrite Hc.
Qed.

(** C12: the tables of the client stay well formed from the first
    acknowledgement to the end of the session, whatever the server sends and
    whenever connect tasks end: a context has the proxy of its protocol and no
    other, and every entry of a table leads to a context of the right kind.  So
    a chunk of a body is never for an unknown request, its only error is a
    buffer above the limit, and the end of every tracked request starts exactly
    one forwarding. *)
Theorem session_stays_wf (tunnels : list TunnelConfig) (incoming rest : list Incoming)
    (events : list MultiEvent) (m : MultiTunnelManager) (queue : list Outgoing) :
  (establish tx version tunnels incoming multi_new []).1 = Ok (m, rest) ->
  let m' := ms_manager (multi_loop tx events
              {| ms_manager := m; ms_tasks := []; ms_outgoing := queue |}).2 in
  multi_wf m' /\
  (forall id data sequence e, (multi_handle_message (HttpRequestChunk id data sequence) m').1.1 = Err e ->
     exists size, e = PayloadTooLarge size STREAM_BUFFER_LIMIT) /\
  (forall id, id ∈ dom (mm_http_requests m') ->
     exists tunnel_id method path headers body m'',
       multi_handle_message (HttpRequestEnd id) m' =
         (Ok tt, m'', [MeHttp tunnel_id id method path headers body]) /\
       mm_http_requests m'' = delete id (mm_http_requests m')).
Proof.
  intros Hest m'.
  assert (multi_wf m') as Hm.
  { apply multi_loop_wf. by eapply establish_wf; [apply multi_new_wf | | | apply Hest]. }
  clearbody m'. split_and!; [done|..].
  - intros id data sequence e. cbn [multi_handle_message].
    destruct (http_context_for_request id m') as [ctx|] eqn:Hc; [|done].
    destruct (for_request_found _ _ _ Hm Hc) as [_ Hid%elem_of_dom_2].
    destruct (tracked_request _ _ Hm Hid) as (ctx' & p & b & Hc' & Hp & Hb).
    rewrite Hc in Hc'. injection Hc' as <-. rewrite Hp. unfold push_streaming_chunk. rewrite Hb.
    destruct (_ <? _); cbn; [intros [= <-]; eauto | done].
  - intros id Hid. destruct (tracked_request _ _ Hm Hid) as (ctx & p & b & Hc & Hp & Hb).
    cbn [multi_handle_message]. rewrite Hc, Hp. unfold finish_streaming_request. rewrite Hb.
    by repeat eexists.
Qed.
End Preservation.

(** * Routing *)

Section Routing.
Context `{B : BincodeCodec, U : UuidDisplay, W : UnicodeLower, O : MapOrder, D : DebugText,
          L : HttpLib}.

Definition ascii_string (s : string) : bool := str_forall (fun c => code c <? 128) s.

Lemma split_first_lower (c : ascii) (s : string) :
  (forall x, Ascii.eqb (char_lower x) c = Ascii.eqb x c) ->
  str_split_first c (to_ascii_lowercase s) = to_ascii_lowercase (str_split_first c s).
Proof.
  intros Hc. unfold str_split_first, to_ascii_lowercase; induction s as [|x s IH]; [done|]; cbn.
  rewrite Hc. destruct (Ascii.eqb x c); cbn; [done | by rewrite IH].
Qed.

Lemma colon_fixed (x : ascii) : Ascii.eqb (char_lower x) ":" = Ascii.eqb x ":".
Proof. by destruct x as [[] [] [] [] [] [] [] []]. Qed.
Lemma dot_fixed (x : ascii) : Ascii.eqb (char_lower x) "." = Ascii.eqb x ".".
Proof. by destruct x as [[] [] [] [] [] [] [] []]. Qed.

(** A label holds no dot, and is its own lower-case form. *)
Lemma label_no_dot (s : string) :
  str_forall label_lower_char s = true -> str_forall (fun x => negb (Ascii.eqb x ".")) s = true.
Proof.
  apply str_forall_impl. intros c Hc. destruct (Ascii.eqb_spec c "."%char) as [->|]; [|done].
  by vm_compute in Hc.
Qed.

Lemma label_lower_fixed (s : string) :
  str_forall label_lower_char s = true -> to_ascii_lowercase s = s.
Proof.
  unfold to_ascii_lowercase; induction s as [|c s IH]; [done|]; cbn.
  rewrite andb_true_iff; intros [Hc Hs]. rewrite IH by done.
  by destruct (label_lower_char_fixed c Hc) as [_ ->].
Qed.

Lemma host_label_resolved (domain host s : string) :
  valid_label s -> str_split_first ":" host = s +:+ "." +:+ domain ->
  host_label (to_ascii_lowercase host) = s.
Proof.
  intros Hs Hh. unfold host_label. rewrite (split_first_lower ":") by apply colon_fixed.
  rewrite Hh, (split_first_lower ".") by apply dot_fixed.
  unfold str_split_first.
  change (s +:+ "." +:+ domain) with (s +:+ String "." domain).
  rewrite str_take_while_app by (done || by apply label_no_dot, vl_chars).
  by apply label_lower_fixed, vl_chars.
Qed.

(** What [resolve] accepted, in terms of the Host header. *)
Lemma resolve_Ok (domain s : string) (parts : Parts) :
  resolve domain parts = Ok s ->
  exists v host, header_get "host" (pt_headers parts) = Some v /\ header_value_to_str v = Some host /\
    str_split_first ":" host = s +:+ "." +:+ domain.
Proof.
  unfold resolve, host_header. destruct (header_get "host" (pt_headers parts)) as [v|]; cbn; [|done].
  destruct (header_value_to_str v) as [host|] eqn:Ev; cbn -[str_ends_with str_take]; [|done].
  destruct (str_ends_with ("." +:+ domain) (str_split_first ":" host)) eqn:E; [|done].
  apply str_ends_with_iff in E as [r Hr]. cbn -[str_take].
  assert (str_take (String.length (str_split_first ":" host) - String.length ("." +:+ domain))
            (str_split_first ":" host) = r) as ->.
  { rewrite Hr, str_length_app.
    replace (String.length r + String.length ("." +:+ domain) - String.length ("." +:+ domain))%nat
      with (String.length r) by lia. apply str_take_app. }
  destruct (String.eqb r EmptyString); [done|]. intros [= <-].
  exists v, host. split_and!; [done | done | exact Hr].
Qed.

Lemma forwarded_host (parts : Parts) (v host : string) :
  Forall (fun h => to_ascii_lowercase h.1 = h.1) (pt_headers parts) ->
  header_get "host" (pt_headers parts) = Some v -> header_value_to_str v = Some host ->
  request_host (forwarded_headers parts) = Some (to_lowercase host).
Proof.
  unfold header_get, request_host, forwarded_headers. intros Hl Hh Hv.
  induction Hl as [|[n x] hs Hn Hl IH]; [done|]. cbn [fst snd] in Hn.
  rewrite filter_cons in Hh; cbn [fst] in Hh. cbn [omap list_omap fst snd].
  destruct (decide (n = "host")) as [->|Hne].
  - injection Hh as ->. rewrite Hv; cbn [mbind option_bind]. by rewrite filter_cons_True.
  - specialize (IH Hh). destruct (header_value_to_str x) as [t|]; cbn [mbind option_bind]; [|done].
    rewrite filter_cons_False; [done|]. unfold eq_ignore_ascii_case; cbn [fst]. rewrite Hn.
    intros He%Is_true_eq_true%String.eqb_eq. by apply Hne.
Qed.

(** C13: a public request reaches the tunnel of its host: the server takes the
    subdomain in front of its domain, and the client, from the forwarded
    headers, picks the tunnel that was acknowledged under that subdomain, both
    for a request sent whole and for a streamed one, whose chunks are then
    tracked to the same tunnel; no other tunnel's state changes. *)
Theorem public_request_reaches_its_tunnel `{!UnicodeLowerLaws W} (domain s : string)
    (parts : Parts) (body : Bytes) (length : option N) (m : MultiTunnelManager) (rid id : Uuid)
    (ctx : TunnelContext) (p : LocalProxy) :
  multi_wf m -> valid_label s ->
  Forall (fun h => to_ascii_lowercase h.1 = h.1) (pt_headers parts) ->
  (forall v t, header_value_to_str v = Some t -> ascii_string t = true) ->
  resolve domain parts = Ok s ->
  mm_subdomains m !! s = Some id -> mm_contexts m !! id = Some ctx ->
  cx_http_proxy ctx = Some p ->
  (forall msg, encode_request rid parts body = Ok msg ->
     multi_handle_message msg m =
       (Ok tt, m, [MeHttp id rid (pt_method parts) (request_path parts)
                     (forwarded_headers parts) body])) /\
  exists m', multi_handle_message (HttpRequestStart rid (pt_method parts) (request_path parts)
                                     (forwarded_headers parts) length) m = (Ok tt, m', []) /\
    (exists ctx', http_context_for_request rid m' = Some ctx' /\ cx_tunnel_id ctx' = id) /\
    (forall id', id' <> id -> mm_contexts m' !! id' = mm_contexts m !! id').
Proof.
  intros Hm Hs Hl Ha (v & host & Hh & Hv & Hsplit)%resolve_Ok Hsub Hctx Hp.
  assert (http_context_by_headers (forwarded_headers parts) m = Some ctx) as Hc.
  { unfold http_context_by_headers. rewrite (forwarded_host _ _ _ Hl Hh Hv).
    rewrite to_lowercase_ascii by (by eapply Ha).
    by rewrite (host_label_resolved domain host s Hs Hsplit), Hsub. }
  pose proof (cw_id _ _ (mw_contexts m Hm id ctx Hctx)) as Hid.
  split; [|eexists; split; [|split]].
  - intros msg [= <-]. cbn [multi_handle_message]. by rewrite Hc, Hp, Hid.
  - cbn [multi_handle_message]. by rewrite Hc, Hp, Hid.
  - unfold http_context_for_request; cbn. rewrite lookup_insert_eq; cbn.
    rewrite Hid, lookup_insert_eq. by eexists.
  - intros id' Hne; cbn. rewrite Hid. by rewrite lookup_insert_ne.
Qed.

(** A TCP connection message names no tunnel, and the client opens every
    connection on one and the same TCP tunnel: with two of them, connections
    for the other one end at the wrong local service. *)
Theorem tcp_tunnels_conflated `{!MapOrderLaws O} (m : MultiTunnelManager) (id : Uuid)
    (ctx : TunnelContext) :
  multi_wf m -> mm_contexts m !! id = Some ctx -> cx_protocol ctx = Tcp ->
  exists chosen,
    (exists ctx', mm_contexts m !! chosen = Some ctx' /\ cx_protocol ctx' = Tcp) /\
    (forall connection_id addr, exists m',
       multi_handle_message (TcpConnect connection_id addr) m =
         (Ok tt, m', [MeConnect chosen connection_id addr]) /\
       mm_contexts m' = mm_contexts m /\ mm_tcp_connections m' !! connection_id = Some chosen) /\
    (forall id' ctx', mm_contexts m !! id' = Some ctx' -> cx_protocol ctx' = Tcp -> id' <> chosen ->
       forall connection_id addr,
         MeConnect id' connection_id addr ∉
           (multi_handle_message (TcpConnect connection_id addr) m).2).
Proof.
  intros Hm Hctx Htcp.
  destruct (first_of_protocol Tcp m) as [c|] eqn:Hf;
    [|by pose proof (first_of_protocol_None Tcp m Hf id ctx Hctx)].
  destruct (first_found Tcp m c Hm Hf) as [Hc Hw].
  destruct (first_of_protocol_Some Tcp m c Hf) as [Hp _].
  destruct (proj2 (cw_tcp _ _ Hw) Hp) as [proxy Hproxy].
  assert (forall k addr, multi_handle_message (TcpConnect k addr) m =
            (Ok tt, track_tcp_connection k (cx_tunnel_id c) m, [MeConnect (cx_tunnel_id c) k addr]))
    as Hk.
  { intros k addr. cbn [multi_handle_message]. unfold pick_tcp_context. by rewrite Hf, Hproxy. }
  exists (cx_tunnel_id c). split_and!; [by exists c|..].
  - intros k addr. eexists; split; [apply Hk|]. cbn. by rewrite lookup_insert_eq.
  - intros id' ctx' _ _ Hne k addr. rewrite Hk; cbn. rewrite list_elem_of_singleton. congruence.
Qed.
End Routing.
