(* ===== verification/MultiRefinement.v ===== *)
(** The client of several tunnels, given one tunnel, against the client of a
    single tunnel: every message the single client handles is handled the same
    way, with the same effects, and the states stay related. *)

From S2P Require Import Prelude RustStr Types Errors Utils Protocol WebSocket Http LocalProxy.
From S2P Require Import PendingStore Externals TunnelManager ServerConfig ServerProxy.
From S2P Require Import ClientConfig ClientTunnel Streaming Multi MultiSpec.

Local Open Scope N_scope.

(** * The relation *)

Definition context_of (id : Uuid) (p : TunnelProtocol) (c : ClientState) : TunnelContext :=
  {| cx_tunnel_id := id; cx_protocol := p; cx_http_proxy := cs_http c;
     cx_tcp_proxy := cs_tcp c |}.

(** The manager holds the state of the single client and tracks exactly its
    streams, and at least its connections. *)
Record one_tunnel (id : Uuid) (p : TunnelProtocol) (c : ClientState) (m : MultiTunnelManager) :
    Prop := {
  ot_context : mm_contexts m = {[ id := context_of id p c ]};
  ot_proxies : match p with
               | Http => is_Some (cs_http c) /\ cs_tcp c = None
               | Tcp => cs_http c = None /\ is_Some (cs_tcp c)
               end;
  ot_subdomains : map_Forall (fun _ t => t = id) (mm_subdomains m);
  ot_requests : mm_http_requests m =
    (fun _ => id) <$> default ∅ (lp_pending_streams <$> cs_http c);
  ot_connections : map_Forall (fun _ t => t = id) (mm_tcp_connections m);
  ot_tracked px k : cs_tcp c = Some px -> is_Some (tp_connections px !! k) ->
    mm_tcp_connections m !! k = Some id;
}.

Definition lift_effect (id : Uuid) (e : Effect) : MultiEffect :=
  match e with
  | SpawnProxy rid method path headers body => MeHttp id rid method path headers body
  | SpawnConnect k addr => MeConnect id k addr
  | SendRaw frame => MeRaw frame
  end.

Lemma singleton_update {A : Type} (k : Uuid) (a b : A) :
  <[k := b]> ({[k := a]} : gmap Uuid A) = {[k := b]}.
Proof. by rewrite insert_singleton_eq. Qed.

Section Refinement.
Context `{B : BincodeCodec, U : UuidDisplay, W : UnicodeLower, O : MapOrder, D : DebugText,
          OL : !MapOrderLaws O}.
Context (id : Uuid) (p : TunnelProtocol).
Implicit Types (c : ClientState) (m : MultiTunnelManager).

Lemma one_context c m : one_tunnel id p c m -> mm_contexts m !! id = Some (context_of id p c).
Proof. intros Hr. by rewrite (ot_context _ _ _ _ Hr), lookup_singleton_eq. Qed.

Lemma one_first (q : TunnelProtocol) c m :
  one_tunnel id p c m ->
  first_of_protocol q m = if decide (p = q) then Some (context_of id p c) else None.
Proof using OL.
  intros Hr. unfold first_of_protocol, context_values.
  assert (map_order (dom (mm_contexts m)) = [id]) as ->.
  { apply Permutation_singleton_r. rewrite map_order_perm, (ot_context _ _ _ _ Hr), dom_singleton_L.
    by rewrite elements_singleton. }
  cbn [omap list_omap]. rewrite (one_context _ _ Hr).
  destruct (decide (p = q)); [by rewrite filter_cons_True | by rewrite filter_cons_False].
Qed.

(** Whatever the headers, a request of an HTTP tunnel finds its context; in a
    TCP tunnel what is found has no HTTP proxy. *)
Lemma one_by_headers (headers : Headers) c m :
  one_tunnel id p c m ->
  (http_context_by_headers headers m = Some (context_of id p c)) \/
  (cs_http c = None /\ http_context_by_headers headers m = None).
Proof using OL.
  intros Hr. assert (p = Http \/ p = Tcp) as Hp by (destruct p; auto).
  assert (first_of_protocol Http m = Some (context_of id p c) \/
          cs_http c = None /\ first_of_protocol Http m = None) as Hf.
  { rewrite (one_first Http _ _ Hr). case_decide; [by left|]. right.
    pose proof (ot_proxies _ _ _ _ Hr) as Hx. destruct Hp as [->| ->]; [done | by destruct Hx]. }
  unfold http_context_by_headers. destruct (request_host headers); [|done].
  destruct (mm_subdomains m !! _) as [t|] eqn:Ht; [|done].
  rewrite (ot_subdomains _ _ _ _ Hr _ _ Ht), (one_context _ _ Hr). by left.
Qed.

Lemma one_request (r : Uuid) c m :
  one_tunnel id p c m ->
  http_context_for_request r m =
    match default ∅ (lp_pending_streams <$> cs_http c) !! r with
    | Some _ => Some (context_of id p c) | None => None end.
Proof.
  intros Hr. unfold http_context_for_request. rewrite (ot_requests _ _ _ _ Hr), lookup_fmap.
  destruct (default ∅ _ !! r); cbn; [by apply one_context | done].
Qed.

Lemma one_tcp (k : Uuid) c m :
  one_tunnel id p c m ->
  tcp_context k m =
    match mm_tcp_connections m !! k with Some _ => Some (context_of id p c) | None => None end.
Proof.
  intros Hr. unfold tcp_context. destruct (mm_tcp_connections m !! k) as [t|] eqn:Ht; [|done].
  cbn. rewrite (ot_connections _ _ _ _ Hr _ _ Ht). by apply one_context.
Qed.

(** The HTTP proxy changes together with the table of requests. *)
Lemma one_http_update c m (px px' : LocalProxy) (requests : gmap Uuid Uuid) :
  one_tunnel id p c m -> cs_http c = Some px ->
  requests = (fun _ => id) <$> lp_pending_streams px' ->
  one_tunnel id p (with_http c px')
    (with_http_requests (update_context (set_http_proxy (context_of id p c) px') m) requests).
Proof.
  intros Hr Hx Hq. split; cbn; try apply Hr; try done.
  - rewrite (ot_context _ _ _ _ Hr). by rewrite singleton_update.
  - pose proof (ot_proxies _ _ _ _ Hr) as Hs. rewrite Hx in Hs.
    destruct p; destruct Hs as [H1 H2]; done.
Qed.

Lemma one_tcp_update c m (px px' : TcpLocalProxy) (conns : gmap Uuid Uuid) :
  one_tunnel id p c m -> cs_tcp c = Some px ->
  map_Forall (fun _ t => t = id) conns ->
  (forall k, is_Some (tp_connections px' !! k) -> conns !! k = Some id) ->
  one_tunnel id p (with_tcp c px')
    (with_tcp_tracking (update_context (set_tcp_proxy (context_of id p c) px') m) conns).
Proof.
  intros Hr Hx Hall Hk. split; cbn; try apply Hr; try done.
  - rewrite (ot_context _ _ _ _ Hr). by rewrite singleton_update.
  - pose proof (ot_proxies _ _ _ _ Hr) as Hs. rewrite Hx in Hs.
    destruct p; destruct Hs as [H1 H2]; done.
  - intros q k [= <-]. apply Hk.
Qed.

Lemma untrack_one c m (k : Uuid) :
  one_tunnel id p c m -> cs_tcp c = None -> one_tunnel id p c (remove_tcp_connection k m).
Proof.
  intros Hr Ht. split; cbn; try apply Hr.
  - intros k' t [_ Hk]%lookup_delete_Some. by apply (ot_connections _ _ _ _ Hr k').
  - intros px k'. by rewrite Ht.
Qed.

(** * One message *)

(** What the single client rejects and the other ignores: a chunk or data for
    something it does not know. *)
Definition unknown_target (e : ExposeError) : Prop :=
  exists k, e = InvalidMessage ("chunk received for unknown request " +:+ uuid_to_string k) \/
            e = InvalidMessage ("TCP data for unknown connection " +:+ uuid_to_string k).

(** The two outcomes of a message agree. *)
Definition agree (single : result FrameControl * ClientState * list Effect)
    (multi : result unit * MultiTunnelManager * list MultiEffect) (m : MultiTunnelManager) : Prop :=
  match single, multi with
  | (Ok _, c', es), (Ok _, m', es') => es' = (lift_effect id <$> es) /\ one_tunnel id p c' m'
  | (Err e, _, _), (Ok _, m', es') => unknown_target e /\ m' = m /\ es' = []
  | (Err _, _, _), (Err _, _, _) => True
  | (Ok _, _, _), (Err _, _, _) => False
  end.

Lemma agree_request_chunk (rid : Uuid) (data : Bytes) (sequence : N) c m :
  one_tunnel id p c m ->
  agree (handle_message (HttpRequestChunk rid data sequence) c)
        (multi_handle_message (HttpRequestChunk rid data sequence) m) m.
Proof.
  intros Hr. cbn [handle_message multi_handle_message]. rewrite (one_request rid _ _ Hr).
  destruct (cs_http c) as [px|] eqn:Hx; cbn [fmap option_fmap option_map from_option Datatypes.id]; [|done].
  unfold push_streaming_chunk.
  destruct (lp_pending_streams px !! rid) as [entry|] eqn:He; cbn [cx_http_proxy context_of].
  - rewrite Hx, He. destruct (STREAM_BUFFER_LIMIT <? _); [done|]. split; [done|].
    apply (one_http_update c m px _ (mm_http_requests m)); [done..|].
    rewrite (ot_requests _ _ _ _ Hr), Hx; cbn.
    rewrite fmap_insert, insert_id; [done|]. by rewrite lookup_fmap, He.
  - split; [eexists; by left | done].
Qed.

Lemma agree_request_end (rid : Uuid) c m :
  one_tunnel id p c m ->
  agree (handle_message (HttpRequestEnd rid) c) (multi_handle_message (HttpRequestEnd rid) m) m.
Proof.
  intros Hr. cbn [handle_message multi_handle_message]. rewrite (one_request rid _ _ Hr).
  assert (forall q, cs_http c = q -> default ∅ (lp_pending_streams <$> q) !! rid = None ->
            one_tunnel id p c (clear_http_request rid m)) as Hclear.
  { intros q Hq Hnone. assert (clear_http_request rid m = m) as ->; [|done].
    unfold clear_http_request. rewrite delete_id; [by destruct m|].
    rewrite (ot_requests _ _ _ _ Hr), Hq, lookup_fmap, Hnone. done. }
  destruct (cs_http c) as [px|] eqn:Hx; cbn [fmap option_fmap option_map from_option Datatypes.id].
  - unfold finish_streaming_request.
    destruct (lp_pending_streams px !! rid) as [entry|] eqn:He.
    + cbn [cx_http_proxy context_of]. rewrite Hx, He. split; [done|].
      apply (one_http_update c m px _ (delete rid (mm_http_requests m))); [done..|].
      rewrite (ot_requests _ _ _ _ Hr), Hx; cbn. by rewrite fmap_delete.
    + split; [done|]. unfold with_http.
      replace {| cs_http := Some px; cs_tcp := cs_tcp c |} with c by (destruct c; cbn in *; by subst).
      by apply (Hclear (Some px)).
  - rewrite lookup_empty. split; [done|]. by apply (Hclear None).
Qed.

Lemma agree_tcp_data (k : Uuid) (data : Bytes) (sequence : N) c m :
  one_tunnel id p c m ->
  agree (handle_message (TcpData k data sequence) c)
        (multi_handle_message (TcpData k data sequence) m) m.
Proof.
  intros Hr. cbn [handle_message multi_handle_message]. rewrite (one_tcp k _ _ Hr).
  destruct (cs_tcp c) as [px|] eqn:Hx.
  - unfold handle_data. destruct (mm_tcp_connections m !! k) as [t|] eqn:Ht; cbn [cx_tcp_proxy context_of].
    + rewrite Hx. destruct (tp_connections px !! k) as [entry|] eqn:He; [|done].
      destruct (th_broken entry); [done|]. split; [done|].
      apply (one_tcp_update c m px _ (mm_tcp_connections m)); [done | done | apply Hr |].
      cbn. intros k' [->|[_ Hk]]%lookup_insert_is_Some; [|by apply (ot_tracked _ _ _ _ Hr px)].
      apply (ot_tracked _ _ _ _ Hr px); [done | by eexists].
    + destruct (tp_connections px !! k) as [entry|] eqn:He.
      * assert (is_Some (tp_connections px !! k)) as Hk by eauto.
        by rewrite (ot_tracked _ _ _ _ Hr px k Hx Hk) in Ht.
      * split; [eexists; by right | done].
  - destruct (mm_tcp_connections m !! k); cbn [cx_tcp_proxy context_of]; [|done]. by rewrite Hx.
Qed.

Lemma agree_tcp_close (k : Uuid) (reason : TcpCloseReason) c m :
  one_tunnel id p c m ->
  agree (handle_message (TcpClose k reason) c) (multi_handle_message (TcpClose k reason) m) m.
Proof.
  intros Hr. cbn [handle_message multi_handle_message]. rewrite (one_tcp k _ _ Hr).
  assert (map_Forall (fun _ t => t = id) (delete k (mm_tcp_connections m))) as Hall.
  { intros k' t [_ Hk]%lookup_delete_Some. by apply (ot_connections _ _ _ _ Hr k'). }
  destruct (cs_tcp c) as [px|] eqn:Hx.
  - assert (forall k', is_Some (tp_connections (handle_close k px) !! k') ->
              delete k (mm_tcp_connections m) !! k' = Some id) as Hdel.
    { cbn. intros k' [e [Hne Hk]%lookup_delete_Some]. rewrite lookup_delete_ne by done.
      by apply (ot_tracked _ _ _ _ Hr px); eauto. }
    destruct (mm_tcp_connections m !! k) as [t|] eqn:Ht; cbn [cx_tcp_proxy context_of].
    + rewrite Hx. split; [done|].
      by apply (one_tcp_update c m px _ (delete k (mm_tcp_connections m))).
    + split; [done|].
      assert (tp_connections px !! k = None) as Hn.
      { destruct (tp_connections px !! k) as [e|] eqn:He; [|done].
        by rewrite (ot_tracked _ _ _ _ Hr px k Hx ltac:(eauto)) in Ht. }
      assert (with_tcp c (handle_close k px) = c) as ->.
      { unfold with_tcp, handle_close, with_connections. rewrite delete_id by done.
        destruct c as [h t']; cbn in *; subst. by destruct px. }
      assert (remove_tcp_connection k m = m) as ->; [|done].
      unfold remove_tcp_connection. rewrite delete_id by done. by destruct m.
  - assert (one_tunnel id p c (remove_tcp_connection k m)) as Hu by by apply untrack_one.
    destruct (mm_tcp_connections m !! k); cbn [cx_tcp_proxy context_of]; rewrite ?Hx; by split.
Qed.

Lemma agree_http_start (rid : Uuid) (method path : string) (headers : Headers) (n : option N) c m :
  one_tunnel id p c m ->
  agree (handle_message (HttpRequestStart rid method path headers n) c)
        (multi_handle_message (HttpRequestStart rid method path headers n) m) m.
Proof using OL.
  intros Hr. cbn [handle_message multi_handle_message].
  destruct (one_by_headers headers _ _ Hr) as [->|[Hx ->]]; [|by rewrite Hx].
  cbn [cx_http_proxy context_of]. destruct (cs_http c) as [px|] eqn:Hx; [|by split].
  split; [done|].
  apply (one_http_update c m px _ (<[rid := id]> (mm_http_requests m))); [done..|].
  rewrite (ot_requests _ _ _ _ Hr), Hx; cbn. by rewrite fmap_insert.
Qed.

Lemma agree_message (msg : Message) c m :
  one_tunnel id p c m -> agree (handle_message msg c) (multi_handle_message msg m) m.
Proof using OL.
  intros Hr. destruct msg; try by split.
  - cbn [handle_message multi_handle_message].
    destruct (one_by_headers headers _ _ Hr) as [->|[Hx ->]]; [|by rewrite Hx].
    cbn [cx_http_proxy context_of]. by destruct (cs_http c).
  - by apply agree_http_start.
  - by apply agree_request_chunk.
  - by apply agree_request_end.
  - cbn [handle_message multi_handle_message]. unfold pick_tcp_context. rewrite (one_first Tcp _ _ Hr).
    pose proof (ot_proxies _ _ _ _ Hr) as Hp.
    destruct (decide (p = Tcp)) as [Ht|Hn]; cbn [cx_tcp_proxy context_of].
    + destruct (cs_tcp c) as [px|] eqn:Hx; [|rewrite Ht in Hp; by destruct Hp as [_ []]].
      split; [done|]. split; cbn; try apply Hr.
      * intros k t [[_ <-]|[_ Hk]]%lookup_insert_Some; [done | by apply (ot_connections _ _ _ _ Hr k)].
      * intros q k Hq Hk. destruct (decide (connection_id = k)) as [->|Hne].
        { by rewrite lookup_insert_eq. }
        rewrite lookup_insert_ne by done. by apply (ot_tracked _ _ _ _ Hr q).
    + assert (cs_tcp c = None) as -> by (destruct p; [by destruct Hp | done]). by split.
  - by apply agree_tcp_data.
  - by apply agree_tcp_close.
Qed.

(** * Whole runs *)

(** The messages of a tunnel one after another, as [deliver] does for the single
    client. *)
Fixpoint multi_deliver (ms : list Message) (m : MultiTunnelManager) :
    result unit * MultiTunnelManager * list MultiEffect :=
  match ms with
  | [] => (Ok tt, m, [])
  | msg :: ms' =>
      match multi_handle_message msg m with
      | (Ok _, m1, e1) =>
          let '(r, m2, e2) := multi_deliver ms' m1 in (r, m2, e1 ++ e2)
      | (Err e, m1, e1) => (Err e, m1, e1)
      end
  end.

Lemma deliver_related (ms : list Message) c c' m (es : list Effect) :
  one_tunnel id p c m -> deliver ms c = (Ok tt, c', es) ->
  exists m', multi_deliver ms m = (Ok tt, m', lift_effect id <$> es) /\ one_tunnel id p c' m'.
Proof using OL.
  revert c m es; induction ms as [|msg ms IH]; intros c m es Hr; cbn.
  - intros [= <- <-]. by exists m.
  - pose proof (agree_message msg c m Hr) as Ha.
    destruct (handle_message msg c) as [[[fc|e] c1] e1]; [|done].
    destruct (multi_handle_message msg m) as [[[u|e] m1] e1']; [|done].
    destruct Ha as [-> Hr1]. destruct (deliver ms c1) as [[r c2] e2] eqn:E.
    intros [= -> -> <-]. destruct (IH c1 m1 e2 Hr1 E) as (m' & -> & Hr').
    exists m'. split; [by rewrite fmap_app | done].
Qed.

Lemma connected_related (k : Uuid) (attempt : Result string unit) (px : TcpLocalProxy)
    c m (st : MultiSession) (tx : nat -> Result string unit) :
  one_tunnel id p c m -> ms_manager st = m -> cs_tcp c = Some px ->
  mm_tcp_connections m !! k = Some id ->
  let tx_error := match tx (length (ms_outgoing st)) with Ok _ => None | Err e => Some e end in
  let '(_, px', out) := handle_connect k attempt tx_error px in
  one_tunnel id p (with_tcp c px') (ms_manager (connect_task tx id k attempt st)) /\
  ms_outgoing (connect_task tx id k attempt st) = ms_outgoing st ++ out.
Proof.
  intros Hr <- Hx Hk. cbn zeta.
  destruct (handle_connect k attempt _ px) as [[r px'] out] eqn:E.
  unfold connect_task. rewrite (one_context _ _ Hr). cbn [cx_tcp_proxy context_of]. rewrite Hx, E.
  split; [|done]. cbn.
  apply (one_tcp_update c _ px px' (mm_tcp_connections (ms_manager st))); [done | done | apply Hr |].
  intros k' Hk'. unfold handle_connect in E. destruct attempt.
  - assert (px' = with_connections px (<[k := {| th_written := []; th_broken := None |}]>
                                          (tp_connections px))) as ->
      by by destruct (match tx _ with Ok _ => None | Err e => Some e end); simplify_eq.
    cbn in Hk'. apply lookup_insert_is_Some in Hk' as [<-|[_ Hk']]; [done|].
    by apply (ot_tracked _ _ _ _ Hr px).
  - injection E as _ <- _. by apply (ot_tracked _ _ _ _ Hr px).
Qed.
End Refinement.

(** The states right after the acknowledgement. *)
Lemma established_related `{W : UnicodeLower} (ack : ConnectResponse) (cfg : TunnelConfig) :
  one_tunnel (ca_tunnel_id ack) (ca_tunnel_protocol ack) (session_state cfg ack)
    (register_context ack cfg multi_new).
Proof.
  split; cbn; try done.
  - by destruct (ca_tunnel_protocol ack).
  - intros s t [[_ <-]|[_ Hs]]%lookup_insert_Some; [done | by rewrite lookup_empty in Hs].
  - by destruct (ca_tunnel_protocol ack).
  - intros px k. destruct (ca_tunnel_protocol ack); cbn; [done|]. intros [= <-].
    by rewrite lookup_empty; intros [].
Qed.

(** C9: with one tunnel the client of several tunnels refines the client of a
    single one.  From the same acknowledgement their states are related, and
    they stay related: a run of messages that the single client handles is
    handled with the same forwardings and connects, in order; the end of a
    connect for a tracked connection changes both alike and sends the same
    acknowledgement.  The single client rejects whatever the other rejects, and
    beyond that only a chunk or data for something unknown, which the other
    ignores. *)
Theorem one_tunnel_refines `{B : BincodeCodec, U : UuidDisplay, W : UnicodeLower, O : MapOrder,
    D : DebugText, !MapOrderLaws O} (ack : ConnectResponse) (cfg : TunnelConfig) :
  let id := ca_tunnel_id ack in
  let related := one_tunnel id (ca_tunnel_protocol ack) in
  related (session_state cfg ack) (register_context ack cfg multi_new) /\
  (forall ms c c' m es, related c m -> deliver ms c = (Ok tt, c', es) ->
     exists m', multi_deliver ms m = (Ok tt, m', lift_effect id <$> es) /\ related c' m') /\
  (forall tx k attempt px c st, related c (ms_manager st) -> cs_tcp c = Some px ->
     mm_tcp_connections (ms_manager st) !! k = Some id ->
     let tx_error := match tx (length (ms_outgoing st)) with Ok _ => None | Err e => Some e end in
     let '(_, px', out) := handle_connect k attempt tx_error px in
     related (with_tcp c px') (ms_manager (connect_task tx id k attempt st)) /\
     ms_outgoing (connect_task tx id k attempt st) = ms_outgoing st ++ out) /\
  (forall msg c m, related c m ->
     let '(single, _, _) := handle_message msg c in
     let '(multi, m', es) := multi_handle_message msg m in
     match single with
     | Ok _ => multi = Ok tt
     | Err e => multi = Ok tt -> unknown_target e /\ m' = m /\ es = []
     end).
Proof.
  cbn zeta. split_and!.
  - apply established_related.
  - intros ms c c' m es. apply deliver_related.
  - intros tx k attempt px c st Hr Hx Hk.
    by apply (connected_related _ _ k attempt px c (ms_manager st) st tx).
  - intros msg c m Hr. pose proof (agree_message _ _ msg c m Hr) as Ha.
    destruct (handle_message msg c) as [[[fc|e] c1] e1];
      destruct (multi_handle_message msg m) as [[[[]|e'] m1] e1']; cbn in Ha; try done.
Qed.
