(* ===== verification/MultiServed.v ===== *)
(** The client of several tunnels against this repository's server, and its
    reconnection: the second tunnel is never acknowledged, and once a session
    was up failed handshakes are retried without end. *)

From S2P Require Import Prelude RustStr Types Errors Utils Protocol WebSocket Http LocalProxy.
From S2P Require Import PendingStore Externals TunnelManager ServerConfig ServerProxy Backoff.
From S2P Require Import ClientConfig ClientTunnel ServerTcp ServerSession Multi.

Local Open Scope N_scope.

(** * Counting acknowledgements *)

Section Count.
Context `{B : BincodeCodec, L : !BincodeLaws B}.

Definition acknowledges (frame : WsMessage) : bool :=
  match frame with
  | WsBinary b => match decode b with Ok (ConnectAck _) => true | _ => false end
  | _ => false
  end.

Definition acks (frames : list WsMessage) : nat := length (filter acknowledges frames).

(** What the writer task of a session puts on the wire for a queued frame. *)
Definition written (f : OutgoingFrame) : option WsMessage :=
  match f with
  | FrameProtocol msg => WsBinary <$> result_ok (encode msg)
  | FrameControl frame => Some frame
  end.

(** What the other end reads as frames. *)
Definition frame_of (i : Incoming) : option WsMessage :=
  match i with InFrame frame => Some frame | InError _ => None end.

Lemma acks_app (a b : list WsMessage) : acks (a ++ b) = (acks a + acks b)%nat.
Proof. unfold acks. by rewrite filter_app, length_app. Qed.

Lemma acks_submseteq (a b : list WsMessage) : a ⊆+ b -> (acks a <= acks b)%nat.
Proof.
  induction 1 as [|x a b _ IH|x y a|x a b _ IH|a b c _ IH1 _ IH2]; [done|..];
    unfold acks in *; rewrite ?filter_cons; repeat case_decide; cbn in *; lia.
Qed.

Lemma written_protocol (msg : Message) :
  (forall r, msg <> ConnectAck r) -> acks (option_list (written (FrameProtocol msg))) = 0%nat.
Proof using L.
  intros Hn. cbn. destruct (encode msg) as [b|e] eqn:E; [|done].
  unfold acks; cbn. rewrite (decode_encoded _ _ E). destruct msg; try done. by destruct (Hn response).
Qed.

Definition queue_acks (q : list OutgoingFrame) : nat := acks (omap written q).

Lemma queue_acks_app (a b : list OutgoingFrame) :
  queue_acks (a ++ b) = (queue_acks a + queue_acks b)%nat.
Proof. unfold queue_acks. by rewrite omap_app, acks_app. Qed.

Lemma queue_acks_one (f : OutgoingFrame) : queue_acks [f] = acks (option_list (written f)).
Proof. unfold queue_acks; cbn. by destruct (written f). Qed.

Lemma queue_acks_le_one (f : OutgoingFrame) : (queue_acks [f] <= 1)%nat.
Proof. rewrite queue_acks_one. destruct (written f); [|cbn; lia]. unfold acks; cbn. case_decide; cbn; lia. Qed.
End Count.

(** * The server acknowledges once *)

Section Server.
Context `{G : Governor, H : Sha256, C : ConstantTimeEq, B : BincodeCodec, U : UuidDisplay,
          A : ParseSocketAddr, L : !BincodeLaws B}.

Definition session_acks (s : ServerState) : nat := queue_acks (ss_queue s).

Lemma tx_send_acks (accepts : nat -> bool) (f : OutgoingFrame) (s : ServerState) :
  (session_acks (tx_send accepts f s).2 <= session_acks s + queue_acks [f])%nat.
Proof.
  unfold tx_send, session_acks. destruct (accepts _); cbn [ss_queue snd]; rewrite ?queue_acks_app; lia.
Qed.

Lemma tx_send_quiet (accepts : nat -> bool) (f : OutgoingFrame) (s : ServerState) :
  queue_acks [f] = 0%nat -> (session_acks (tx_send accepts f s).2 <= session_acks s)%nat.
Proof. intros Hf; pose proof (tx_send_acks accepts f s); lia. Qed.

Lemma wait_for_connect_acks (debug : option string -> string) (accepts : nat -> bool)
    (incoming : list Incoming) (s : ServerState) :
  (session_acks (wait_for_connect debug accepts incoming s).2 <= session_acks s)%nat.
Proof.
  revert s; induction incoming as [|[frame|err] incoming IH]; intros s; cbn; [done| |done].
  destruct frame; try apply IH; [| |done].
  - destruct (decode data) as [[]|]; try done; apply IH.
  - etrans; [apply IH|]. by apply tx_send_quiet.
Qed.

Lemma admit_client_acks (cfg : ServerConfig) (run : SessionRun) (req : ConnectRequest)
    (s : ServerState) :
  (session_acks (admit_client cfg run req s).2 <= session_acks s)%nat.
Proof using L.
  assert (forall code message e t,
            (session_acks (refuse (sr_accepts run) code message e t).2 <= session_acks t)%nat) as Hr.
  { intros code message e t. apply tx_send_quiet. rewrite queue_acks_one. by apply written_protocol. }
  unfold admit_client. destruct (negb (is_compatible _)); [apply Hr|].
  destruct (negb (validate_api_key _ _)); [apply Hr|].
  destruct (allocate_subdomain _ _ _) as [sub|e]; [|done].
  destruct (register_tunnel _ _ _ _ _ _) as [[handle|e] m]; [done|].
  destruct e; try done; apply (Hr _ _ _ (with_manager s m [])).
Qed.

Lemma serve_acks (accepts : nat -> bool) (handle : ActiveTunnel) (incoming : list Incoming)
    (s : ServerState) :
  (session_acks (serve accepts handle incoming s).2 <= session_acks s)%nat.
Proof.
  revert s; induction incoming as [|i incoming IH]; intros s; cbn; [done|].
  assert (session_acks (on_frame accepts handle i s).2 <= session_acks s)%nat as Hf.
  { destruct i as [[]|]; cbn; try done; [|by apply tx_send_quiet].
    destruct (decode data) as [msg|]; [|done]. destruct msg; cbn; try done.
    - by destruct (store_remove id _) as [? []].
    - by destruct (handle_client_data _ _ _ _) as [[]]. }
  destruct (on_frame accepts handle i s) as [[| |e] s']; cbn in *; [|done..].
  etrans; [apply IH | done].
Qed.

(** A whole session puts at most one acknowledgement in its queue. *)
Lemma handle_socket_acks (debug : option string -> string) (cfg : ServerConfig)
    (run : SessionRun) (s : ServerState) :
  (session_acks (handle_socket debug cfg run s).2 <= session_acks s + 1)%nat.
Proof using L.
  unfold handle_socket. pose proof (wait_for_connect_acks debug (sr_accepts run) (sr_incoming run) s).
  destruct (wait_for_connect _ _ _ _) as [[[req rest]|e] s1]; cbn [snd] in *; [|lia].
  pose proof (admit_client_acks cfg run req s1).
  destruct (admit_client cfg run req s1) as [[handle|e] s2]; cbn [snd] in *; [|lia].
  unfold run_tunnel.
  assert (session_acks (open_port cfg run handle s2).2 = session_acks s2) as Hp.
  { unfold open_port. destruct (at_protocol handle); [done|]. by destruct (registry_register _ _ _). }
  destruct (open_port cfg run handle s2) as [[port|e] s3]; cbn [snd] in *; [|lia].
  set (ack := FrameProtocol (ConnectAck (ack_message cfg handle port (ss_manager s3)))).
  pose proof (tx_send_acks (sr_accepts run) ack s3). pose proof (queue_acks_le_one ack).
  destruct (tx_send _ ack s3) as [[] s4]; cbn [snd] in *; [|lia].
  pose proof (serve_acks (sr_accepts run) handle rest s4).
  destruct (serve _ _ _ _) as [[[]|e] s5]; cbn [snd] in *; [|lia].
  assert (session_acks (clean_up handle s5) = session_acks s5) as ->; [|lia].
  unfold clean_up. by destruct (close _ _).
Qed.
End Server.

(** * The client needs one per tunnel *)

Section Client.
Context `{B : BincodeCodec, W : UnicodeLower, D : DebugText}.
Context (tx : nat -> Result string unit) (version : string).

Definition read_acks (incoming : list Incoming) : nat := acks (omap frame_of incoming).

Lemma wait_ack_acks (incoming rest : list Incoming) (ack : ConnectResponse) (queue : list Outgoing) :
  (wait_for_connect_ack tx incoming queue).1 = Ok (ack, rest) ->
  read_acks incoming = S (read_acks rest).
Proof.
  unfold read_acks.
  revert queue; induction incoming as [|[frame|err] incoming IH]; intros queue; [done| |done].
  cbn [wait_for_connect_ack omap list_omap frame_of].
  change (frame :: omap frame_of incoming) with ([frame] ++ omap frame_of incoming).
  rewrite acks_app. intros Hw. destruct frame; try done; try exact (IH _ Hw).
  unfold acks at 1. rewrite filter_cons; cbn [acknowledges].
  destruct (decode data) as [[]|]; try done; try exact (IH _ Hw).
  by injection Hw as _ <-.
Qed.

Lemma establish_acks (tunnels : list TunnelConfig) (incoming rest : list Incoming)
    (m m' : MultiTunnelManager) (queue : list Outgoing) :
  (establish tx version tunnels incoming m queue).1 = Ok (m', rest) ->
  read_acks incoming = (length tunnels + read_acks rest)%nat.
Proof.
  revert incoming m queue; induction tunnels as [|cfg tunnels IH]; intros incoming m queue.
  - by intros [= _ <-].
  - cbn [establish]. destruct (send_connect tx version cfg queue) as [[u|e] q1]; [|done].
    pose proof (wait_ack_acks incoming) as Hw. specialize (Hw).
    destruct (wait_for_connect_ack tx incoming q1) as [[[ack incoming']|e] q2] eqn:E; [|done].
    intros He. rewrite (Hw incoming' ack q1) by (by rewrite E). rewrite (IH _ _ _ He). done.
Qed.

(** All that is sent while tunnels are established. *)
Definition handshake_frame (o : Outgoing) : Prop :=
  match o with
  | OutProtocol (Connect _) | OutProtocol (Disconnect _) | OutRaw (WsPong _) => True
  | _ => False
  end.

Lemma out_send_frames (o : Outgoing) (queue : list Outgoing) :
  handshake_frame o -> Forall handshake_frame queue ->
  Forall handshake_frame (out_send tx o queue).2.
Proof.
  intros Ho Hq. unfold out_send. destruct (tx _); [|done]. apply Forall_app; split; [done|].
  by constructor.
Qed.

Lemma wait_ack_frames (incoming : list Incoming) (queue : list Outgoing) :
  Forall handshake_frame queue -> Forall handshake_frame (wait_for_connect_ack tx incoming queue).2.
Proof.
  revert queue; induction incoming as [|[frame|err] incoming IH]; intros queue Hq; [done| |done].
  cbn. destruct frame; try (by apply IH); [| |done].
  - destruct (decode data) as [[]|]; try done; by apply IH.
  - by apply IH, out_send_frames.
Qed.

Lemma establish_frames (tunnels : list TunnelConfig) (incoming : list Incoming)
    (m : MultiTunnelManager) (queue : list Outgoing) :
  Forall handshake_frame queue ->
  Forall handshake_frame (establish tx version tunnels incoming m queue).2.
Proof.
  revert incoming m queue; induction tunnels as [|cfg tunnels IH]; intros incoming m queue Hq; [done|].
  cbn [establish].
  pose proof (out_send_frames (OutProtocol (Connect (multi_connect_request version cfg))) queue I Hq) as H1.
  unfold send_connect.
  destruct (out_send tx (OutProtocol (Connect _)) queue) as [[u|e] q1]; cbn in *.
  - pose proof (wait_ack_frames incoming q1 H1) as H2.
    destruct (wait_for_connect_ack tx incoming q1) as [[[ack incoming']|e] q2]; [by apply IH | done].
  - by apply out_send_frames.
Qed.
End Client.

(** C21: a client of two or more tunnels never serves any of them against this
    server.  The server acknowledges one connect request per session and ignores
    a second one; so, whatever else the proxies of the server send, the client
    waits for the second acknowledgement until the connection ends, answers no
    request meanwhile (establishing queues nothing but connect requests, pongs
    and a disconnect), and reports the session as failed. *)
Theorem second_tunnel_never_acknowledged `{G : Governor, H : Sha256, C : ConstantTimeEq,
    B : BincodeCodec, U : UuidDisplay, A : ParseSocketAddr, L : !BincodeLaws B, W : UnicodeLower,
    O : MapOrder, D : DebugText}
    (scfg : ServerConfig) (srun : SessionRun) (s : ServerState) (others : list OutgoingFrame)
    (version : string) (config : MultiRuntimeConfig) (run : MultiRun) (url : string)
    (reconnecting : bool) :
  ss_queue s = [] ->
  Forall (fun f => exists msg, f = FrameProtocol msg /\ forall r, msg <> ConnectAck r) others ->
  omap frame_of (mr_handshake run) ⊆+
    omap written (ss_queue (handle_socket debug_close scfg srun s).2 ++ others) ->
  (2 <= length (mrc_tunnels config))%nat ->
  mr_url run = Ok url -> (forall tuning, mr_connect run tuning = Ok tt) ->
  (exists e, multi_single_session version config run reconnecting = Some (Reconnect e reconnecting)) /\
  Forall handshake_frame
    (establish (mr_tx run) version (mrc_tunnels config) (mr_handshake run) multi_new []).2.
Proof.
  intros Hq Hothers Hsub Hlen Hurl Hconn. split; [|by apply establish_frames].
  unfold multi_single_session. rewrite Hurl, Hconn.
  destruct (establish (mr_tx run) version (mrc_tunnels config) (mr_handshake run) multi_new [])
    as [[[m rest]|e] q] eqn:E; [|by eexists]. exfalso.
  assert (read_acks (mr_handshake run) = (length (mrc_tunnels config) + read_acks rest)%nat) as Hr.
  { eapply establish_acks. by rewrite E. }
  apply acks_submseteq in Hsub. change (acks (omap frame_of (mr_handshake run))) with
    (read_acks (mr_handshake run)) in Hsub.
  change (acks (omap written ?x)) with (queue_acks x) in Hsub. rewrite queue_acks_app in Hsub.
  assert (queue_acks others = 0%nat) as Ho.
  { clear Hsub. induction Hothers as [|f others (msg & -> & Hn) Hothers IH]; [done|].
    change (FrameProtocol msg :: others) with ([FrameProtocol msg] ++ others).
    by rewrite queue_acks_app, IH, queue_acks_one, written_protocol. }
  pose proof (handle_socket_acks debug_close scfg srun s) as Hs.
  unfold session_acks in Hs. rewrite Hq in Hs. change (queue_acks []) with 0%nat in Hs. lia.
Qed.

(** * Reconnection *)

(** A turn whose session reaches the server but is refused its tunnels, with
    nobody cancelling. *)
Definition handshake_fails `{B : BincodeCodec, U : UuidDisplay, W : UnicodeLower, O : MapOrder,
    D : DebugText} (version : string) (config : MultiRuntimeConfig) (t : MultiTurn) : Prop :=
  mt_cancelled_before t = false /\ mt_cancelled_after t = false /\
  exists run url e,
    mr_url run = Ok url /\ (forall tuning, mr_connect run tuning = Ok tt) /\
    (establish (mr_tx run) version (mrc_tunnels config) (mr_handshake run) multi_new []).1 = Err e /\
    forall reconnecting,
      multi_single_session version config run reconnecting = Some (mt_session t reconnecting).

Lemma handshake_fails_result `{B : BincodeCodec, U : UuidDisplay, W : UnicodeLower, O : MapOrder,
    D : DebugText} (version : string) (config : MultiRuntimeConfig) (t : MultiTurn) :
  handshake_fails version config t ->
  exists e, forall reconnecting, mt_session t reconnecting = Reconnect e reconnecting.
Proof.
  intros (_ & _ & run & url & e & Hurl & Hconn & He & Hs). exists e. intros reconnecting.
  specialize (Hs reconnecting). unfold multi_single_session in Hs. rewrite Hurl, Hconn in Hs.
  destruct (establish _ _ _ _ _ _) as [[[m rest]|e'] q]; [done|]. cbn in He. by simplify_eq.
Qed.

(** C37: once a session was up, a server that accepts connections but refuses the
    tunnels is retried for ever: each failed handshake counts as a connection
    and resets the backoff, so the configured number of attempts is never
    reached and every delay is the first one. *)
Theorem refused_reconnects_never_give_up `{B : BincodeCodec, U : UuidDisplay, W : UnicodeLower,
    O : MapOrder, D : DebugText} (version : string) (config : MultiRuntimeConfig)
    (connected : MultiTurn) (failing : list MultiTurn) (error : ExposeError) :
  mt_cancelled_before connected = false -> mt_cancelled_after connected = false ->
  mt_session connected false = Reconnect error true ->
  Forall (handshake_fails version config) failing ->
  let t := multi_run_with_token config (connected :: failing) in
  let first := nth_delay (from_millis (N.max (mrc_reconnect_base_delay_ms config) 100)) 0 in
  lt_result t = None /\ lt_delays t = replicate (S (length failing)) first /\
  lt_sessions t = false :: replicate (length failing) true.
Proof.
  cbn zeta; intros Hb Ha Hs Hf.
  set (ms := mrc_reconnect_base_delay_ms config). set (n := mrc_reconnect_max_attempts config).
  assert (forall k, next_delay (reset (at_attempt ms n k)) =
            (Some (nth_delay (from_millis (N.max ms 100)) 0), at_attempt ms n 1)) as Hd.
  { intros k. change (reset (at_attempt ms n k)) with (at_attempt ms n 0).
    apply at_attempt_step; [done | destruct (decide (n = 0)); [by left | right; lia]]. }
  unfold multi_run_with_token. fold ms n.
  change (ReconnectBackoff_new ms n) with (at_attempt ms n 0).
  cbn [multi_run_loop]. rewrite Hb, Hs, Ha, Hd; cbn [orb].
  assert (forall k, let t := multi_run_loop failing (at_attempt ms n k) true in
            lt_result t = None /\
            lt_delays t = replicate (length failing) (nth_delay (from_millis (N.max ms 100)) 0) /\
            lt_sessions t = replicate (length failing) true) as Hloop.
  { cbn zeta. induction Hf as [|t failing Ht Hf IH]; intros k; [done|].
    destruct (handshake_fails_result _ _ _ Ht) as [e He]. destruct Ht as (H1 & H2 & _).
    cbn [multi_run_loop]. rewrite H1, He, H2, Hd; cbn [orb].
    destruct (IH 1) as (Hr & Hdel & Hses). cbn. by rewrite Hr, Hdel, Hses. }
  destruct (Hloop 1) as (Hr & Hdel & Hses). cbn. by rewrite Hr, Hdel, Hses.
Qed.
