(* ===== verification/Contact.v ===== *)
(** A session of the single client, [run_single_session] of
    [expose-client/src/tunnel.rs], and its first contact with this repository's
    server: what the client learns from the frames [handle_socket] sends. *)

From S2P Require Import Prelude RustStr Types Errors Utils Protocol WebSocket Http LocalProxy.
From S2P Require Import PendingStore Externals TunnelManager ManagerSpec ServerConfig ServerProxy.
From S2P Require Import SocketTuning Backoff ClientTunnel ClientSession ServerTcp ServerSession.
From S2P Require Import ServerSessionSpec Multi MultiServed.

Local Open Scope N_scope.

(** * A session of the client *)

(** What it takes from its surroundings: the parsed URL as text, connecting with
    or without [TCP_NODELAY], the socket's options, the writes and reads of the
    handshake, the events of the loop, and what joining the writer gives. *)
Record SessionOutcomes : Type := {
  so_url : Result string string;
  so_connect : bool -> Result string MaybeTlsStream;
  so_option : SocketOption -> Result IoError unit;
  so_write : nat -> Result string unit;
  so_handshake : list Incoming;
  so_events : list SessionEvent;
  so_writer : Result string (result unit);
}.

Definition connect_request (version : string) (config : TunnelConfig) : ConnectRequest :=
  {| cr_protocol_version := PROTOCOL_VERSION;
     cr_api_key := tc_api_key config;
     cr_desired_subdomain := tc_subdomain config;
     cr_tunnel_protocol := tc_protocol config;
     cr_client_version := version;
     cr_metadata := Some ("local=" +:+ local_endpoint config) |}.

(** The options of the socket are set whatever they give: a refusal is logged. *)
Definition tuned (o : SessionOutcomes) (config : TunnelConfig) (socket : MaybeTlsStream) :
    MaybeTlsStream := (apply_ws_stream_tuning (so_option o) (tc_tcp_tuning config) socket).2.

Section Client.
Context `{B : BincodeCodec, U : UuidDisplay}.

(** The result of a session, once it has one, and the socket it used. *)
Definition run_single_session (version : string) (config : TunnelConfig) (o : SessionOutcomes) :
    option SessionResult * option MaybeTlsStream :=
  match so_url o with
  | Err err =>
      (Some (Reconnect (Config (Validation ("Invalid server URL: " +:+ err))) false), None)
  | Ok url =>
      match so_connect o (tt_nodelay (tc_tcp_tuning config)) with
      | Err err =>
          (Some (Reconnect (network ("Failed to connect to " +:+ url +:+ ": " +:+ err
                                     +:+ ". Is the server reachable?")) false), None)
      | Ok socket =>
          let socket := tuned o config socket in
          (match hs_result (perform_handshake (so_write o) (connect_request version config)
                              (so_handshake o)) with
           | None => None
           | Some (Err err) => Some (Reconnect err false)
           | Some (Ok connect_ack) =>
               t ← (session_loop (so_events o)
                      {| ls_client := session_state config connect_ack; ls_effects := [];
                         ls_outgoing := [] |}).1;
               Some (session_result t (so_writer o))
           end, Some socket)
      end
  end.
End Client.

(** * First contact *)

Section Frames.
Context `{G : Governor, H : Sha256, C : ConstantTimeEq, B : BincodeCodec, U : UuidDisplay,
          A : ParseSocketAddr, L : !BincodeLaws B}.

Lemma on_frame_queue (accepts : nat -> bool) (t : ActiveTunnel) (i : Incoming) s :
  ss_queue s `prefix_of` ss_queue (on_frame accepts t i s).2.
Proof.
  destruct i as [[text|bytes|payload|payload|reason|]|err]; cbn; try done.
  - destruct (decode bytes) as [m|]; [|done]. destruct m; cbn; try done.
    + by destruct (store_remove id _) as [? []].
    + by destruct (ServerTcp.handle_client_data _ _ _ _) as [[]].
  - unfold tx_send. destruct (accepts _); cbn; [by apply prefix_app_r | done].
Qed.

Lemma serve_queue (accepts : nat -> bool) (t : ActiveTunnel) (incoming : list Incoming) s :
  ss_queue s `prefix_of` ss_queue (serve accepts t incoming s).2.
Proof.
  revert s; induction incoming as [|i incoming IH]; intros s; [done|]; cbn.
  pose proof (on_frame_queue accepts t i s) as Hf.
  destruct (on_frame accepts t i s) as [[| |e] s1]; cbn in *; [by etrans|done|done].
Qed.

(** A session that has its listener puts the acknowledgement first. *)
Lemma run_tunnel_queue (cfg : ServerConfig) (run : SessionRun) (t : ActiveTunnel)
    (rest : list Incoming) s s2 (port : option N) :
  (forall n, sr_accepts run n = true) -> ss_queue s = [] ->
  open_port cfg run t s = (Ok port, s2) ->
  exists more, ss_queue (run_tunnel cfg run t rest s).2 =
    FrameProtocol (ConnectAck (ack_message cfg t port (ss_manager s2))) :: more.
Proof.
  intros Ha Hq Hp. unfold run_tunnel. rewrite Hp, tx_send_all by done.
  assert (ss_queue s2 = ss_queue s) as ->.
  { unfold open_port in Hp. destruct (at_protocol t); [by injection Hp as _ <-|].
    destruct (registry_register _ _ _). by injection Hp as _ <-. }
  rewrite Hq; cbn [app]. set (s3 := {| ss_manager := _ |}).
  destruct (serve_queue (sr_accepts run) t rest s3) as [more Hm].
  destruct (serve (sr_accepts run) t rest s3) as [[u|e] s4]; cbn [snd] in *.
  - rewrite clean_up_eq. cbn [ss_queue]. rewrite Hm. by eexists.
  - rewrite Hm. by eexists.
Qed.

(** What a client makes of the frames on the wire. *)
Definition client_reads (frames : list OutgoingFrame) : list Incoming :=
  InFrame <$> omap written frames.

Lemma client_reads_app (a b : list OutgoingFrame) :
  client_reads (a ++ b) = client_reads a ++ client_reads b.
Proof. unfold client_reads. by rewrite omap_app, fmap_app. Qed.

Lemma client_reads_cons (m : Message) (b : Bytes) (rest : list OutgoingFrame) :
  encode m = Ok b ->
  client_reads (FrameProtocol m :: rest) = InFrame (WsBinary b) :: client_reads rest.
Proof. intros E. unfold client_reads; cbn. by rewrite E. Qed.

(** A message that other tasks of the server may send on a tunnel: anything but
    an acknowledgement or an error. *)
Definition tunnel_message (f : OutgoingFrame) : Prop :=
  exists m, f = FrameProtocol m /\ (forall r, m <> ConnectAck r) /\ (forall c t, m <> Error c t).

Lemma undecided (early : list OutgoingFrame) :
  Forall tunnel_message early -> Forall (fun i => decisive i = None) (client_reads early).
Proof using L.
  induction 1 as [|f early (m & -> & Hack & Herr) _ IH]; [constructor|].
  change (FrameProtocol m :: early) with ([FrameProtocol m] ++ early).
  rewrite client_reads_app. apply Forall_app; split; [|done].
  unfold client_reads; cbn. destruct (encode m) as [b|e] eqn:E; cbn; [|constructor].
  constructor; [|constructor]. cbn. rewrite (decode_encoded _ _ E).
  destruct m; try done; [by destruct (Hack response) | by destruct (Herr code message)].
Qed.

Lemma early_no_pongs (early : list OutgoingFrame) :
  Forall tunnel_message early -> pongs (client_reads early) = [].
Proof.
  induction 1 as [|f early (m & -> & _) _ IH]; [done|].
  change (FrameProtocol m :: early) with ([FrameProtocol m] ++ early).
  unfold client_reads in *; cbn. by destruct (encode m).
Qed.

Lemma handshake_reads (write : nat -> Result string unit) (req : ConnectRequest) (bytes : Bytes)
    (early rest : list OutgoingFrame) (m : Message) (b : Bytes) (r : result ConnectResponse) :
  (forall n, write n = Ok tt) -> encode (Connect req) = Ok bytes ->
  Forall tunnel_message early -> encode m = Ok b -> decisive (InFrame (WsBinary b)) = Some r ->
  perform_handshake write req (client_reads (early ++ FrameProtocol m :: rest)) =
    {| hs_result := Some r; hs_sent := [WsBinary bytes] |}.
Proof using L.
  intros Hw He Hearly Hm Hd. unfold perform_handshake. rewrite He, Hw, client_reads_app.
  rewrite await_ack_skip by (try done; by apply undecided).
  rewrite (client_reads_cons m b) by done. rewrite (await_ack_decisive _ _ _ _ _ Hd).
  by rewrite early_no_pongs.
Qed.

Lemma admit_queue (cfg : ServerConfig) (run : SessionRun) (req : ConnectRequest) s
    (t : ActiveTunnel) s' :
  admit_client cfg run req s = (Ok t, s') -> ss_queue s' = ss_queue s.
Proof.
  unfold admit_client, refuse. destruct (negb _); [done|]. destruct (negb _); [done|].
  destruct (allocate_subdomain _ _ _); [|done].
  destruct (register_tunnel _ _ _ _ _ _) as [[t'|[]] m]; try done. by intros [= _ <-].
Qed.

(** What a refused client is told. *)
Definition refusal (scfg : ServerConfig) (run : SessionRun) (req : ConnectRequest) (s : ServerState)
    (e told : ExposeError) : Prop :=
  (validate_api_key scfg (cr_api_key req) = false /\ told = Authentication "invalid API key") \/
  (exists r, e = CapacityExceeded r /\ told = CapacityExceeded (ExposeError_to_string e)) \/
  (exists n, e = SubdomainTaken n /\ told = SubdomainTaken (ExposeError_to_string e)) \/
  (allocate_subdomain (cr_desired_subdomain req) (sr_samples run) (ss_manager s) = Err e /\
   told = network "Connection closed before the server acknowledged the tunnel").

Lemma refused_reads (write : nat -> Result string unit) (scfg : ServerConfig) (run : SessionRun)
    (req : ConnectRequest) (bytes : Bytes) s s' (e : ExposeError) :
  (forall n, write n = Ok tt) -> encode (Connect req) = Ok bytes ->
  cr_protocol_version req = PROTOCOL_VERSION ->
  (forall n, sr_accepts run n = true) -> ss_queue s = [] ->
  admit_client scfg run req s = (Err e, s') ->
  Forall (fun f => is_Some (written f)) (ss_queue s') ->
  exists told, hs_result (perform_handshake write req (client_reads (ss_queue s'))) =
    Some (Err told) /\ refusal scfg run req s e told.
Proof using L.
  intros Hw He Hv Ha Hq Hadm Henc.
  destruct (refusal_cases scfg run req s e s' Ha Hadm) as (_ & Hc). rewrite Hq in Hc; cbn [app] in Hc.
  assert (forall code text, is_Some (written (FrameProtocol (Error code text))) ->
            hs_result (perform_handshake write req (client_reads [FrameProtocol (Error code text)])) =
              Some (Err (protocol_error_from_message code text))) as Htold.
  { intros code text [w Hb]. unfold written in Hb. destruct (encode (Error code text)) as [b|] eqn:E; [|done].
    pose proof (handshake_reads write req bytes [] [] _ b
      (Err (protocol_error_from_message code text)) Hw He (Forall_nil_2 _) E) as Hh.
    rewrite app_nil_l in Hh. rewrite Hh; [done|]. cbn. by rewrite (decode_encoded _ _ E). }
  unfold refusal.
  destruct Hc as [[Hn _]|[[Hk Hs]|[[_ [Hal Hs]]|[_ (code & Hs & Hcode)]]]]; [by rewrite Hv in Hn|..];
    rewrite Hs in Henc |- *.
  - eexists; split; [by apply Htold, (Forall_inv Henc)|]. by left.
  - eexists; split; [|by right; right; right].
    unfold perform_handshake. by rewrite He, Hw.
  - eexists; split; [by apply Htold, (Forall_inv Henc)|].
    destruct Hcode as [[-> [r ->]]|[-> [n ->]]]; [right; left | right; right; left]; by eexists.
Qed.
End Frames.

Section Meeting.
Context `{G : Governor, H : Sha256, C : ConstantTimeEq, B : BincodeCodec, U : UuidDisplay,
          A : ParseSocketAddr, L : !BincodeLaws B}.

Lemma built_url (id : Uuid) (subdomain domain : string) (p : TunnelProtocol) (tls : bool)
    (port : option N) (limits : RequestLimits) :
  ca_public_url (ConnectResponse_build id subdomain domain p tls port limits) <> EmptyString.
Proof. unfold ConnectResponse_build. by destruct p, tls. Qed.

End Meeting.
