(* ===== verification/RoundTrip.v ===== *)
(** A public request through the whole system and back: the server's proxy
    ([expose-server/src/proxy]), the tunnel, the client's session and its local
    proxy ([expose-client/src]), the server's session and the waiting handler.

    A tunnel carries many requests at once, so the messages of one request are
    followed among those of all others. *)

From S2P Require Import Prelude RustStr Types Errors Utils Protocol WebSocket Http LocalProxy.
From S2P Require Import PendingStore Externals TunnelManager ManagerSpec ServerConfig ServerProxy.
From S2P Require Import ServerProxySpec ClientTunnel Streaming ServerTcp ServerSession MultiServed.
From S2P Require Import Contact.

Local Open Scope N_scope.

(** * The messages and effects of one request *)

Definition message_request (m : Message) : option Uuid :=
  match m with
  | HttpRequest id _ _ _ _ | HttpRequestStart id _ _ _ _ | HttpRequestChunk id _ _
  | HttpRequestEnd id => Some id
  | _ => None
  end.

Definition effect_request (e : Effect) : option Uuid :=
  match e with SpawnProxy id _ _ _ _ => Some id | _ => None end.

(** What a sequence of messages or effects says about one request. *)
Definition messages_about (id : Uuid) (ms : list Message) : list Message :=
  filter (fun m => message_request m = Some id) ms.
Definition effects_about (id : Uuid) (es : list Effect) : list Effect :=
  filter (fun e => effect_request e = Some id) es.

(** The protocol messages among queued frames. *)
Definition protocol_messages (q : list OutgoingFrame) : list Message :=
  omap (fun f => match f with FrameProtocol m => Some m | FrameControl _ => None end) q.

Lemma effects_about_app (id : Uuid) (a b : list Effect) :
  effects_about id (a ++ b) = effects_about id a ++ effects_about id b.
Proof. apply filter_app. Qed.

(** * One request among others, on the client *)

Section Projection.
Context `{B : BincodeCodec, U : UuidDisplay, L : !BincodeLaws B}.

(** Two states of a client with the same local service that hold the same of
    one request. *)
Definition same_for (id : Uuid) (s t : ClientState) : Prop :=
  exists p q, cs_http s = Some p /\ cs_http t = Some q /\
    lp_upstream_host p = lp_upstream_host q /\ lp_upstream_port p = lp_upstream_port q /\
    lp_pending_streams p !! id = lp_pending_streams q !! id.

Lemma same_for_refl (id : Uuid) (s : ClientState) (p : LocalProxy) :
  cs_http s = Some p -> same_for id s s.
Proof. intros Hp. by exists p, p. Qed.

Lemma handle_message_about (id : Uuid) (m : Message) (s t s' : ClientState) (c : ClientTunnel.FrameControl)
    (es : list Effect) :
  same_for id s t -> message_request m = Some id -> handle_message m s = (Ok c, s', es) ->
  c = Continue /\ effects_about id es = es /\
  exists t', handle_message m t = (Ok c, t', es) /\ same_for id s' t'.
Proof.
  intros (p & q & Hs & Ht & Hh & Hp & Hl) Hm. unfold effects_about.
  destruct m; try done; injection Hm as ->; cbn; rewrite Hs, Ht.
  - intros [= <- <- <-]. split_and!; [done| |by eexists; split; [|exists p, q]].
    rewrite filter_cons. by rewrite decide_True.
  - intros [= <- <- <-]. split_and!; [done..|]. eexists; split; [done|].
    eexists _, _; split_and!; try done. cbn. by rewrite !lookup_insert_eq.
  - unfold push_streaming_chunk. rewrite <- Hl.
    destruct (lp_pending_streams p !! id) as [r|]; [|done]. destruct (_ <? _); [done|].
    intros [= <- <- <-]. split_and!; [done..|]. eexists; split; [done|].
    eexists _, _; split_and!; try done. cbn. by rewrite !lookup_insert_eq.
  - unfold finish_streaming_request. rewrite <- Hl.
    destruct (lp_pending_streams p !! id) as [r|] eqn:E; intros [= <- <- <-]; split_and!; try done.
    + rewrite filter_cons. by rewrite decide_True.
    + eexists; split; [done|]. eexists _, _; split_and!; try done. cbn. by rewrite !lookup_delete_eq.
    + eexists; split; [done|]. exists p, q. split_and!; (done || congruence).
Qed.

Lemma handle_message_other (id : Uuid) (m : Message) (s t s' : ClientState) (c : ClientTunnel.FrameControl)
    (es : list Effect) :
  same_for id s t -> message_request m <> Some id -> handle_message m s = (Ok c, s', es) ->
  c = Continue /\ effects_about id es = [] /\ same_for id s' t.
Proof.
  intros (p & q & Hs & Ht & Hh & Hp & Hl) Hm. unfold effects_about.
  destruct m; cbn in Hm; cbn; rewrite ?Hs; try done.
  all: try (intros [= <- <- <-]; split_and!; [done..|]; by exists p, q).
  - intros [= <- <- <-]. split_and!; [done| |by exists p, q].
    rewrite filter_cons, decide_False; [done|]. cbn. congruence.
  - intros [= <- <- <-]. split_and!; [done..|]. eexists _, _; split_and!; try done. cbn.
    rewrite lookup_insert_ne; [done | congruence].
  - unfold push_streaming_chunk. destruct (lp_pending_streams p !! id0) as [r|]; [|done].
    destruct (_ <? _); [done|]. intros [= <- <- <-]. split_and!; [done..|].
    eexists _, _; split_and!; try done. cbn. rewrite lookup_insert_ne; [done | congruence].
  - unfold finish_streaming_request. destruct (lp_pending_streams p !! id0) as [r|] eqn:E;
      intros [= <- <- <-]; split_and!; try done.
    + rewrite filter_cons, decide_False; [done|]. cbn. congruence.
    + eexists _, _; split_and!; try done. cbn. rewrite lookup_delete_ne; [done | congruence].
    + by exists p, q.
  - destruct (cs_tcp s); intros [= <- <- <-]; (split_and!; [done..|]; by exists p, q).
  - destruct (cs_tcp s) as [tp|]; [destruct (handle_data _ _ _) as [[]]|]; intros [= <- <- <-];
      (split_and!; [done..|]; eexists p, q; by split_and!).
  - destruct (cs_tcp s); intros [= <- <- <-]; (split_and!; [done..|]; by exists p, q).
Qed.

(** What reading a frame gives, if it is a message. *)
Definition read_message (frame : WsMessage) : option Message :=
  match frame with WsBinary b => result_ok (decode b) | _ => None end.

Lemma handle_frame_message (frame : WsMessage) (s : ClientState) :
  match read_message frame with
  | Some m => handle_frame frame s = handle_message m s
  | None => forall c s' es, handle_frame frame s = (Ok c, s', es) ->
      s' = s /\ Forall (fun e => effect_request e = None) es
  end.
Proof.
  destruct frame as [| b | | | |]; cbn; try (intros c s' es [= <- <- <-]; split; [done|]; by repeat constructor).
  by destruct (decode b) as [m|e].
Qed.

(** The frames the client reads while its session goes on do with a request
    what the request's own messages would do alone. *)
Lemma session_projects (id : Uuid) (frames : list WsMessage) (ls ls' : LoopState)
    (t : ClientState) :
  same_for id (ls_client ls) t ->
  session_loop ((fun f => EvIncoming (InFrame f)) <$> frames) ls = (None, ls') ->
  exists t' es, deliver (messages_about id (omap read_message frames)) t = (Ok tt, t', es) /\
    same_for id (ls_client ls') t' /\
    effects_about id (ls_effects ls') = effects_about id (ls_effects ls) ++ es.
Proof.
  revert ls t. induction frames as [|f frames IH]; intros ls t Hst.
  { intros [= <-]. exists t, []. by rewrite app_nil_r. }
  cbn [fmap list_fmap session_loop omap list_omap].
  pose proof (handle_frame_message f (ls_client ls)) as Hf.
  destruct (handle_frame f (ls_client ls)) as [[[[]|e] s'] es] eqn:Eh; [|done..].
  destruct (read_message f) as [m|].
  - symmetry in Hf. unfold messages_about. rewrite filter_cons.
    fold (messages_about id (omap read_message frames)).
    destruct (decide (message_request m = Some id)) as [Hm|Hm].
    + destruct (handle_message_about id m _ t s' _ es Hst Hm Hf) as (_ & Hes & t1 & Ht1 & Hst1).
      intros Hrun. apply (IH _ t1) in Hrun as (t' & es' & Hd & Hst' & He); [|done].
      exists t', (es ++ es'). cbn [deliver]. rewrite Ht1, Hd. split_and!; [done..|].
      rewrite He; cbn [ls_effects]. by rewrite effects_about_app, Hes, (assoc (++)).
    + destruct (handle_message_other id m _ t s' _ es Hst Hm Hf) as (_ & Hes & Hst1).
      intros Hrun. apply (IH _ t) in Hrun as (t' & es' & Hd & Hst' & He); [|done].
      exists t', es'. split_and!; [done..|]. rewrite He; cbn [ls_effects].
      by rewrite effects_about_app, Hes, app_nil_r.
  - destruct (Hf _ _ _ eq_refl) as [-> Hnone]. intros Hrun.
    apply (IH _ t) in Hrun as (t' & es' & Hd & Hst' & He); [|done].
    exists t', es'. split_and!; [done..|]. rewrite He; cbn [ls_effects].
    rewrite effects_about_app. replace (effects_about id es) with (@nil Effect); [by rewrite app_nil_r|].
    clear -Hnone. unfold effects_about. induction Hnone as [|e es He _ IH]; [done|].
    rewrite filter_cons, decide_False; [done|]. by rewrite He.
Qed.

(** A queued frame that reaches the other end as it should: a message that can
    be encoded, or a control frame. *)
Definition delivered (f : OutgoingFrame) : Prop :=
  match f with
  | FrameProtocol m => is_ok (encode m)
  | FrameControl frame => forall b, frame <> WsBinary b
  end.

Lemma read_written (q : list OutgoingFrame) :
  Forall delivered q -> omap read_message (omap written q) = protocol_messages q.
Proof using L.
  induction 1 as [|[m|frame] q Hf _ IH]; [done|..]; cbn in *.
  - destruct (encode m) as [b|e] eqn:Em; [|done]. cbn. rewrite (decode_encoded _ _ Em); cbn.
    unfold protocol_messages in IH. by rewrite <- IH.
  - destruct frame; try done. by destruct (Hf data).
Qed.
End Projection.

(** * The local service *)

Section Local.
Context `{L : HttpLib, HL : !HttpLaws L, V : Upstream}.

(** The public request as the local service at [p] should see it. *)
Definition asked (p : LocalProxy) (parts : Parts) (data : Bytes) : result OutboundRequest :=
  method ← map_err (parse_method (pt_method parts))
             (fun err => Config (Validation ("invalid HTTP method: " +:+ err)));
  uri ← map_err (parse_uri ("http://" +:+ (lp_upstream_host p +:+ ":"
                   +:+ fmt_uint (lp_upstream_port p)) +:+ request_path parts))
          (fun err => Config (Validation ("invalid request URI: " +:+ err)));
  Ok {| or_method := method; or_uri := uri; or_headers := text_headers (pt_headers parts);
        or_body := data |}.

Definition local_response (p : LocalProxy) (parts : Parts) (data : Bytes) : result Response :=
  asked p parts data ≫= exchange.

(** The request reaches the service as it was made, [Host] included. *)
Lemma forwarded_to_local (domain s : string) (p : LocalProxy) (id : Uuid) (parts : Parts)
    (data : Bytes) :
  resolve domain parts = Ok s -> Forall proper_name (pt_headers parts) ->
  handle_http_request p id (pt_method parts) (request_path parts) (forwarded_headers parts) data =
    (r ← local_response p parts data;
     Ok (HttpResponse id (rs_status r)
           (omap (fun h => v ← header_value_to_str h.2; Some (h.1, v)) (rs_headers r)) (rs_body r))).
Proof using HL.
  intros Hs Hnames. unfold handle_http_request, local_response, asked. cbv zeta.
  destruct (parse_method _) as [method|]; [|done].
  cbn [map_err mbind Result_bind]. destruct (parse_uri _) as [uri|]; [|done].
  cbn [map_err mbind Result_bind].
  unfold valid_headers, forwarded_headers. rewrite headers_across by done.
  unfold resolve, host_header in Hs.
  destruct (header_get "host" (pt_headers parts)) as [v|] eqn:Eh; [|done].
  destruct (header_value_to_str v) as [text|] eqn:Et; [|by cbn in Hs; rewrite Et in Hs].
  unfold ensure_host_header. erewrite text_header_get by (by rewrite ?Et). done.
Qed.

(** What a public client gets for an outcome of the local service. *)
Definition public_outcome (r : result Response) (public : result Response) : Prop :=
  match r with
  | Ok r =>
      100 <= rs_status r < 1000 -> Forall proper_name (rs_headers r) ->
      public = Ok {| rs_status := rs_status r; rs_headers := text_headers (rs_headers r);
                     rs_body := rs_body r |}
  | Err _ => exists resp, public = Ok resp /\ rs_status resp = 502 /\ rs_body resp = []
  end.

Lemma answered (cfg : ServerConfig) `{D : DebugMessage} (domain s : string) (p : LocalProxy)
    (id : Uuid) (parts : Parts) (data : Bytes) :
  resolve domain parts = Ok s -> Forall proper_name (pt_headers parts) ->
  public_outcome (local_response p parts data)
    (await_response cfg (Answered (proxy_task_response p id (pt_method parts) (request_path parts)
                                     (forwarded_headers parts) data))).
Proof using HL.
  intros Hs Hnames. unfold proxy_task_response.
  rewrite (forwarded_to_local domain s) by done.
  destruct (local_response p parts data) as [r|e]; cbn.
  - intros Hst Hn. rewrite headers_across by done. by rewrite status_valid.
  - eexists; split; [done|]. cbn. by rewrite (status_valid 502).
Qed.
End Local.

(** * From the public client to the tunnel *)

Section Server.
Context `{G : Governor, H : Sha256, L : HttpLib, D : DebugMessage}.

Definition with_wait (run : RequestRun) (w : WaitOutcome) : RequestRun :=
  {| rr_limiter_now := rr_limiter_now run; rr_limiter_later := rr_limiter_later run;
     rr_request_id := rr_request_id run; rr_now := rr_now run; rr_channel := rr_channel run;
     rr_wait := w |}.

(** A body that the limits of both sides let through, and its data. *)
Definition body_fits (cfg : ServerConfig) (parts : Parts) (body : Body) (data : Bytes) : Prop :=
  body_data body = Some data /\
  if should_stream (sv_streaming cfg) parts body then
    0 < sc_chunk_size_bytes (sv_streaming cfg) /\
    sc_max_body_bytes (sv_streaming cfg) <= usize_max /\
    len data <= sc_max_body_bytes (sv_streaming cfg) /\ len data <= STREAM_BUFFER_LIMIT
  else
    len data <= sv_request_body_limit_bytes cfg /\
    forall upper, body_upper body = Some upper -> upper <= sv_request_body_limit_bytes cfg.

(** The messages that carry a request. *)
Definition request_messages (cfg : ServerConfig) (id : Uuid) (parts : Parts) (body : Body)
    (data : Bytes) : list Message :=
  if should_stream (sv_streaming cfg) parts body then
    HttpRequestStart id (pt_method parts) (request_path parts) (forwarded_headers parts)
      (content_length parts)
    :: chunk_messages id (frame_chunks (sc_chunk_size_bytes (sv_streaming cfg)) (body_frames body)) 0
    ++ [HttpRequestEnd id]
  else [HttpRequest id (pt_method parts) (request_path parts) (forwarded_headers parts) data].

Lemma forward_fits (cfg : ServerConfig) (id : Uuid) (parts : Parts) (body : Body) (data : Bytes)
    (ob : Outbox) :
  body_fits cfg parts body data -> ob_capacity ob = None ->
  forward cfg id parts body ob = Some (Ok tt, push_all (request_messages cfg id parts body data) ob).
Proof.
  unfold body_fits, forward, request_messages. intros [Hd Hf] Hc.
  destruct (should_stream _ _ _).
  - destruct Hf as (Hsize & Hu & Hmax & Hbuf). unfold stream, stream_with_path; cbn [default].
    rewrite send_open by done.
    rewrite (stream_frames_fits _ Hsize id (body_frames body) data) by (done || lia). cbn.
    rewrite send_open by done. by rewrite !push_all_app.
  - destruct Hf as [Hlen Hup].
    destruct (collect_spec (sv_request_body_limit_bytes cfg) body) as (_ & Hok & _).
    rewrite (Hok data) by done. cbn. by rewrite send_open.
Qed.

(** The handler of an admitted request, up to the outcome of its wait. *)
Lemma proxy_admitted (cfg : ServerConfig) (run : RequestRun) (parts : Parts) (body : Body)
    (data : Bytes) (st : ProxyState) (s : string) (t : ActiveTunnel) (ob : Outbox)
    (m1 : TunnelManager) :
  resolve (sv_domain cfg) parts = Ok s -> manager_get s (px_manager st) = Some t ->
  check_rate_limit t (rr_limiter_now run) (rr_limiter_later run) (px_manager st) = (Ok tt, m1) ->
  pending_checks (at_id t) m1 = Ok tt ->
  px_outboxes st !! at_sender t = Some ob -> ob_capacity ob = None ->
  body_fits cfg parts body data ->
  exists st',
    (forall w, proxy_with_state cfg (with_wait run w) parts body st =
       Some (await_response cfg w, st')) /\
    px_outboxes st' =
      <[at_sender t := push_all (request_messages cfg (rr_request_id run) parts body data) ob]>
        (px_outboxes st) /\
    waits_for cfg run t (px_manager st').
Proof.
  intros Hs Ht Hrate Hp Hob Hc Hfit. eexists. split_and!.
  - intros w. unfold proxy_with_state, limiter_check, register_pending_request, with_wait.
    cbn [rr_limiter_now rr_limiter_later rr_request_id rr_now rr_channel rr_wait].
    rewrite Hs, Ht, Hrate, Hp, Hob. cbn [default mbind option_bind].
    rewrite (forward_fits cfg _ parts body data) by done. reflexivity.
  - done.
  - eexists; split; [cbn; by rewrite lookup_insert_eq | done].
Qed.
End Server.

Section Client.
Context `{L : HttpLib, U : UuidDisplay}.

(** A client that handles a request's messages starts its local call once. *)
Lemma deliver_request_messages (cfg : ServerConfig) (id : Uuid) (parts : Parts) (body : Body)
    (data : Bytes) (t : ClientState) (p : LocalProxy) :
  body_fits cfg parts body data -> cs_http t = Some p ->
  exists t', deliver (request_messages cfg id parts body data) t =
    (Ok tt, t', [SpawnProxy id (pt_method parts) (request_path parts) (forwarded_headers parts) data]).
Proof.
  unfold body_fits, request_messages. intros [Hd Hf] Hp. destruct (should_stream _ _ _).
  - destruct Hf as (Hsize & _ & _ & Hbuf).
    pose proof (frame_chunks_data _ Hsize (body_frames body) data Hd) as Hcs.
    erewrite deliver_request by (done || by rewrite Hcs). rewrite Hcs. by eexists.
  - cbn. rewrite Hp. by eexists.
Qed.
End Client.

(** * There and back *)

Section RoundTrip.
Context `{G : Governor, H : Sha256, C : ConstantTimeEq, B : BincodeCodec, U : UuidDisplay,
          L : HttpLib, D : DebugMessage, V : Upstream, BL : !BincodeLaws B, HL : !HttpLaws L}.

(** The server's session takes the answer to the handler that waits for it. *)
Lemma answer_delivered (cfg : ServerConfig) (run : RequestRun) (accepts : nat -> bool)
    (t : ActiveTunnel) (answer : Message) (b : Bytes) status headers (body : Bytes) (s : ServerState) :
  answer = HttpResponse (rr_request_id run) status headers body -> encode answer = Ok b ->
  waits_for cfg run t (ss_manager s) ->
  exists s', on_frame accepts t (InFrame (WsBinary b)) s = (Next, s') /\
    ss_answers s' = ss_answers s ++ [(rr_channel run, answer)] /\
    ps_requests (tm_pending_store (ss_manager s')) !! rr_request_id run = None.
Proof using BL.
  intros -> Hb (r & Hr & Hch & _). cbn. rewrite (decode_encoded _ _ Hb). cbn [on_message].
  rewrite fulfill_eq, Hr, Hch. eexists; split; [done|]. split; [done|].
  cbn. destruct (remove_requests (tm_pending_store (ss_manager s)) (rr_request_id run)) as [-> _].
  by rewrite lookup_delete_eq.
Qed.

(** C3: the round trip.  A public request that the server has room for and whose
    body fits the limits of both sides, whole or streamed, puts its messages on
    its tunnel and waits.  Whatever other requests share the tunnel and however
    their messages interleave, the client starts exactly one local call for it.
    That call asks the local service for what the public client asked: method,
    path and query, headers that are text with the public [Host], body.  The
    answer, once it can be encoded, goes to the waiting handler and to no other,
    and the public client gets the status, the text headers and the body of the
    service's response, or a 502 when the service could not be asked. *)
Theorem public_request_round_trip (cfg : ServerConfig) (run : RequestRun) (parts : Parts)
    (body : Body) (data : Bytes) (st : ProxyState) (s : string) (t : ActiveTunnel) (ob : Outbox)
    (m1 : TunnelManager) :
  resolve (sv_domain cfg) parts = Ok s -> manager_get s (px_manager st) = Some t ->
  check_rate_limit t (rr_limiter_now run) (rr_limiter_later run) (px_manager st) = (Ok tt, m1) ->
  pending_checks (at_id t) m1 = Ok tt ->
  px_outboxes st !! at_sender t = Some ob -> ob_capacity ob = None ->
  body_fits cfg parts body data -> Forall proper_name (pt_headers parts) ->
  let id := rr_request_id run in
  let ms := request_messages cfg id parts body data in
  exists st',
    (forall w, proxy_with_state cfg (with_wait run w) parts body st =
       Some (await_response cfg w, st')) /\
    px_outboxes st' = <[at_sender t := push_all ms ob]> (px_outboxes st) /\
    waits_for cfg run t (px_manager st') /\
    forall q p ls ls', Forall delivered q -> messages_about id (protocol_messages q) = ms ->
      cs_http (ls_client ls) = Some p -> effects_about id (ls_effects ls) = [] ->
      session_loop (EvIncoming <$> client_reads q) ls = (None, ls') ->
      let answer := proxy_task_response p id (pt_method parts) (request_path parts)
                      (forwarded_headers parts) data in
      effects_about id (ls_effects ls') =
        [SpawnProxy id (pt_method parts) (request_path parts) (forwarded_headers parts) data] /\
      public_outcome (local_response p parts data) (await_response cfg (Answered answer)) /\
      forall b ss accepts, encode answer = Ok b -> waits_for cfg run t (ss_manager ss) ->
        exists ss', on_frame accepts t (InFrame (WsBinary b)) ss = (Next, ss') /\
          ss_answers ss' = ss_answers ss ++ [(rr_channel run, answer)] /\
          ps_requests (tm_pending_store (ss_manager ss')) !! id = None.
Proof using BL HL.
  intros Hs Ht Hrate Hp Hob Hc Hfit Hnames id ms.
  destruct (proxy_admitted cfg run parts body data st s t ob m1) as (st' & Hrun & Hout & Hwait);
    [done..|].
  exists st'. split_and!; [done..|].
  intros q p ls ls' Hq Hms Hproxy Hnew Hloop answer. split_and!.
  - unfold client_reads in Hloop. rewrite <- list_fmap_compose in Hloop.
    destruct (session_projects id _ ls ls' (ls_client ls) (same_for_refl id _ p Hproxy) Hloop)
      as (t' & es & Hd & _ & He).
    rewrite read_written, Hms in Hd by done.
    destruct (deliver_request_messages cfg id parts body data (ls_client ls) p Hfit Hproxy)
      as [t'' Hd']. fold id ms in Hd'. rewrite Hd in Hd'. injection Hd' as -> ->. by rewrite He, Hnew.
  - by apply (answered cfg (sv_domain cfg) s).
  - intros b ss accepts Hb Hw. unfold answer, proxy_task_response in *.
    destruct (handle_http_request p id _ _ _ data) as [m|e] eqn:Em.
    + rewrite (forwarded_to_local (sv_domain cfg) s) in Em by done.
      apply bind_Ok in Em as (r & _ & [= <-]). by eapply answer_delivered.
    + by eapply answer_delivered.
Qed.
End RoundTrip.
