(* ===== verification/ClientRun.v ===== *)
(** A running session of an HTTP tunnel on the client: the loop of
    [run_single_session] in [expose-client/src/tunnel.rs] beside the tasks it
    starts, the ping task and the writer task.

    They share the channel to the writer.  A send after the writer has ended is
    lost; nobody looks at the writer before the loop is over. *)

From S2P Require Import Prelude RustStr Types Errors Utils Protocol WebSocket Http LocalProxy.
From S2P Require Import PendingStore Externals TunnelManager ServerConfig ServerProxy ClientTunnel.
From S2P Require Import ClientSession ServerTcp ServerSession MultiServed Contact RoundTrip.

Local Open Scope N_scope.

Record Running : Type := {
  rn_client : ClientState;
  rn_loop : option Termination;        (* how the loop ended *)
  rn_tasks : list Effect;              (* proxy tasks at work *)
  rn_queue : list Outgoing;            (* frames the writer has not taken *)
  rn_writer : option (result unit);    (* what the writer task ended with *)
  rn_wire : list WsMessage;            (* frames on the websocket *)
}.

Definition running_start (client : ClientState) : Running :=
  {| rn_client := client; rn_loop := None; rn_tasks := []; rn_queue := []; rn_writer := None;
     rn_wire := [] |}.

(** [tx.send(..).await] of any holder of the channel; its failure is ignored or
    logged. *)
Definition tx_sends (os : list Outgoing) (s : Running) : Running :=
  match rn_writer s with
  | None => {| rn_client := rn_client s; rn_loop := rn_loop s; rn_tasks := rn_tasks s;
               rn_queue := rn_queue s ++ os; rn_writer := None; rn_wire := rn_wire s |}
  | Some _ => s
  end.

Definition with_loop (s : Running) (client : ClientState) (t : option Termination)
    (tasks : list Effect) : Running :=
  {| rn_client := client; rn_loop := t; rn_tasks := tasks; rn_queue := rn_queue s;
     rn_writer := rn_writer s; rn_wire := rn_wire s |}.

Definition is_task (e : Effect) : bool := match e with SendRaw _ => false | _ => true end.
Definition raw_frame (e : Effect) : option Outgoing :=
  match e with SendRaw frame => Some (OutRaw frame) | _ => None end.

Section Run.
Context `{B : BincodeCodec, U : UuidDisplay, L : HttpLib}.

(** The branch of the loop that read a frame. *)
Definition loop_reads (i : Incoming) (s : Running) : Running :=
  match i with
  | InError err =>
      with_loop s (rn_client s) (Some (TermError (network ("WebSocket read error: " +:+ err))))
        (rn_tasks s)
  | InFrame frame =>
      let '(r, client, effects) := handle_frame frame (rn_client s) in
      let t := match r with
               | Ok Continue => None
               | Ok ClientTunnel.Close =>
                   Some (TermError (TunnelDisconnected (Some "Server closed tunnel")))
               | Err e => Some (TermError e)
               end in
      tx_sends (omap raw_frame effects)
        (with_loop s client t (rn_tasks s ++ filter is_task effects))
  end.

(** A proxy task sends its response and ends; [V] is its exchange with the
    local service. *)
Definition task_finishes (n : nat) (V : Upstream) (s : Running) : option Running :=
  p ← cs_http (rn_client s);
  e ← rn_tasks s !! n;
  match e with
  | SpawnProxy id method path headers body =>
      Some (tx_sends [OutProtocol (proxy_task_response p id method path headers body)]
              (with_loop s (rn_client s) (rn_loop s)
                 (take n (rn_tasks s) ++ drop (S n) (rn_tasks s))))
  | _ => None
  end.

(** What the writer puts on the websocket for a frame. *)
Definition outgoing_frame (o : Outgoing) : result WsMessage :=
  match o with
  | OutProtocol message => WsBinary <$> encode message
  | OutRaw frame => Ok frame
  end.

(** One turn of the writer task; an error ends it and its queue is lost. *)
Definition writer_takes (writable : bool) (s : Running) : option Running :=
  match rn_writer s, rn_queue s with
  | None, o :: rest =>
      let write q w wire :=
        Some {| rn_client := rn_client s; rn_loop := rn_loop s; rn_tasks := rn_tasks s;
                rn_queue := q; rn_writer := w; rn_wire := wire |} in
      match write_frame writable o, outgoing_frame o with
      | Ok _, Ok frame => write rest None (rn_wire s ++ [frame])
      | Err e, _ | _, Err e => write [] (Some (Err e)) (rn_wire s)
      end
  | _, _ => None
  end.

Inductive RunEvent : Type :=
| Reads (i : Incoming)                (* the loop takes what the reader yields *)
| Stops                               (* the loop sees the shutdown signal *)
| Finishes (n : nat) (V : Upstream)   (* a proxy task ends *)
| Writes (writable : bool)            (* the writer takes a frame *)
| Pings.                              (* the ping interval elapses *)

Definition run_step (e : RunEvent) (s : Running) : option Running :=
  match e with
  | Reads i => match rn_loop s with None => Some (loop_reads i s) | Some _ => None end
  | Stops =>
      match rn_loop s with
      | None => let s' := tx_sends [client_shutdown] s in
                Some (with_loop s' (rn_client s') (Some TermShutdown) (rn_tasks s'))
      | Some _ => None
      end
  | Finishes n V => task_finishes n V s
  | Writes writable => writer_takes writable s
  | Pings => Some (tx_sends [OutRaw (WsPing [])] s)
  end.

Fixpoint run_events (es : list RunEvent) (s : Running) : option Running :=
  match es with
  | [] => Some s
  | e :: es' => run_step e s ≫= run_events es'
  end.
End Run.

(** * Every local call is answered once *)

Section Once.
Context `{B : BincodeCodec, U : UuidDisplay, L : HttpLib, BL : !BincodeLaws B}.

Definition response_id (m : Message) : option Uuid :=
  match m with HttpResponse id _ _ _ => Some id | _ => None end.
Definition queued_response (o : Outgoing) : option Uuid :=
  match o with OutProtocol m => response_id m | OutRaw _ => None end.
Definition wire_response (frame : WsMessage) : option Uuid := read_message frame ≫= response_id.

(** The requests whose call or response is somewhere between the loop and the
    websocket. *)
Definition in_flight (s : Running) : list Uuid :=
  omap effect_request (rn_tasks s) ++ omap queued_response (rn_queue s).
Definition answered_ids (s : Running) : list Uuid := omap wire_response (rn_wire s).

(** The requests whose local call a step, or a run, starts. *)
Definition step_starts (e : RunEvent) (s : Running) : list Uuid :=
  match e, rn_loop s with
  | Reads (InFrame frame), None => omap effect_request (handle_frame frame (rn_client s)).2
  | _, _ => []
  end.

Fixpoint starts (es : list RunEvent) (s : Running) : list Uuid :=
  match es with
  | [] => []
  | e :: es' => step_starts e s ++ match run_step e s with Some s' => starts es' s' | None => [] end
  end.

(** Control frames are not binary. *)
Definition plain_frame (o : Outgoing) : Prop :=
  match o with OutRaw (WsBinary _) => False | _ => True end.

Record accounted (started : list Uuid) (s : Running) : Prop := {
  acc_live : rn_writer s = None -> started ≡ₚ in_flight s ++ answered_ids s;
  acc_sub : in_flight s ++ answered_ids s ⊆+ started;
  acc_plain : Forall plain_frame (rn_queue s);
}.

(** Sending on the channel, before or after the writer has ended. *)
Lemma tx_sends_accounted (started : list Uuid) (os : list Outgoing) (s : Running) :
  Forall plain_frame os -> (rn_writer s <> None -> accounted started s) ->
  (rn_writer s = None -> started ≡ₚ omap queued_response os ++ in_flight s ++ answered_ids s) ->
  Forall plain_frame (rn_queue s) ->
  accounted started (tx_sends os s).
Proof.
  intros Hos Hdead Hlive Hq. unfold tx_sends. destruct (rn_writer s) eqn:Ew; [by apply Hdead|].
  specialize (Hlive eq_refl).
  assert (started ≡ₚ in_flight {| rn_client := rn_client s; rn_loop := rn_loop s;
            rn_tasks := rn_tasks s; rn_queue := rn_queue s ++ os; rn_writer := None;
            rn_wire := rn_wire s |} ++ answered_ids s) as Hp.
  { rewrite Hlive. unfold in_flight; cbn. rewrite omap_app. solve_Permutation. }
  constructor; [done | by rewrite Hp | cbn; by apply Forall_app].
Qed.

Lemma effects_tasks (es : list Effect) :
  omap effect_request (filter is_task es) = omap effect_request es.
Proof.
  induction es as [|e es IH]; [done|]. rewrite filter_cons. case_decide as Hc; destruct e; cbn in *;
    rewrite ?IH; (done || by destruct Hc).
Qed.

Lemma effects_raw (frame : WsMessage) (s : ClientState) :
  Forall plain_frame (omap raw_frame (handle_frame frame s).2) /\
  omap queued_response (omap raw_frame (handle_frame frame s).2) = [].
Proof.
  split.
  - destruct frame; cbn; try (by repeat constructor). destruct (decode data) as [m|]; [|constructor].
    destruct m; cbn; try constructor; repeat case_match; cbn; simplify_eq; try constructor.
  - generalize (handle_frame frame s).2. intros es. induction es as [|[] es IH]; cbn; done.
Qed.

Lemma loop_reads_accounted (started : list Uuid) (i : Incoming) (s : Running) :
  rn_loop s = None -> accounted started s ->
  accounted (started ++ step_starts (Reads i) s) (loop_reads i s).
Proof.
  intros Hl [Hlive Hsub Hq]. unfold step_starts, loop_reads. rewrite Hl.
  destruct i as [frame|err]; [|rewrite app_nil_r; by constructor].
  destruct (effects_raw frame (rn_client s)) as [Hraw Hnone].
  destruct (handle_frame frame (rn_client s)) as [[r client] es]. cbn [snd] in *.
  set (t := match r with Ok _ => _ | Err _ => _ end).
  assert (in_flight (with_loop s client t (rn_tasks s ++ filter is_task es))
            ++ answered_ids (with_loop s client t (rn_tasks s ++ filter is_task es)) ≡ₚ
          (in_flight s ++ answered_ids s) ++ omap effect_request es) as Hp.
  { unfold in_flight, answered_ids; cbn. rewrite omap_app, effects_tasks. solve_Permutation. }
  apply tx_sends_accounted; [done| | |done].
  - intros Hdead. constructor; [done| |done]. rewrite Hp. by apply submseteq_app.
  - intros Ha. rewrite Hnone, app_nil_l, Hp. by rewrite (Hlive Ha).
Qed.

Lemma proxy_task_response_id `{V : Upstream} (p : LocalProxy) (id : Uuid) (method path : string)
    (headers : Headers) (body : Bytes) :
  response_id (proxy_task_response p id method path headers body) = Some id.
Proof.
  unfold proxy_task_response. destruct (handle_http_request _ _ _ _ _ _) as [m|e] eqn:E; [|done].
  unfold handle_http_request in E.
  apply bind_Ok in E as (? & _ & E). apply bind_Ok in E as (? & _ & E).
  by apply bind_Ok in E as (? & _ & [= <-]).
Qed.

Lemma task_finishes_accounted (started : list Uuid) (n : nat) (V : Upstream) (s s' : Running) :
  task_finishes n V s = Some s' -> accounted started s -> accounted started s'.
Proof.
  unfold task_finishes. destruct (cs_http (rn_client s)) as [p|]; [|done]. cbn [mbind option_bind].
  destruct (rn_tasks s !! n) as [[id method path headers body| |]|] eqn:En; cbn [mbind option_bind];
    try done. intros [= <-] [Hlive Hsub Hq].
  set (s1 := with_loop s _ _ _). set (m := proxy_task_response p id method path headers body).
  assert (id :: in_flight s1 ++ answered_ids s1 ≡ₚ in_flight s ++ answered_ids s) as Hp.
  { unfold in_flight, answered_ids, s1; cbn. rewrite <- (take_drop_middle _ _ _ En) at 3.
    rewrite !omap_app. cbn. solve_Permutation. }
  apply tx_sends_accounted; [by constructor| | |done].
  - intros Hdead. constructor; [done| |done]. rewrite <- Hsub, <- Hp. by apply submseteq_cons.
  - intros Ha. unfold m. cbn [omap list_omap queued_response].
    rewrite proxy_task_response_id. cbn [app]. by rewrite Hp, (Hlive Ha).
Qed.

Lemma outgoing_frame_response (o : Outgoing) (frame : WsMessage) :
  plain_frame o -> outgoing_frame o = Ok frame -> wire_response frame = queued_response o.
Proof using BL.
  unfold wire_response. destruct o as [m|raw]; cbn.
  - intros _ Ho. destruct (encode m) as [b|e] eqn:Em; [|done]. injection Ho as <-. cbn.
    by rewrite (decode_encoded _ _ Em).
  - intros Hp [= ->]. by destruct frame.
Qed.

Lemma writer_takes_accounted (started : list Uuid) (writable : bool) (s s' : Running) :
  writer_takes writable s = Some s' -> accounted started s -> accounted started s'.
Proof using BL.
  unfold writer_takes. destruct (rn_writer s) eqn:Ew; [done|].
  destruct (rn_queue s) as [|o rest] eqn:Eq; [done|]. intros Hs [Hlive Hsub Hq].
  rewrite Eq in Hq. apply Forall_cons in Hq as [Ho Hrest].
  assert (forall e, s' = {| rn_client := rn_client s; rn_loop := rn_loop s; rn_tasks := rn_tasks s;
             rn_queue := []; rn_writer := Some (Err e); rn_wire := rn_wire s |} ->
            accounted started s') as Hend.
  { intros e ->. constructor; [done| |constructor]. rewrite <- Hsub.
    unfold in_flight, answered_ids; cbn. rewrite app_nil_r. apply submseteq_app; [|done].
    apply submseteq_inserts_r. done. }
  destruct (write_frame writable o) as [u|e]; [|injection Hs as <-; by eapply Hend].
  destruct (outgoing_frame o) as [frame|e] eqn:Ef; [|injection Hs as <-; by eapply Hend].
  injection Hs as <-. specialize (Hlive Ew).
  pose proof (outgoing_frame_response o frame Ho Ef) as Hr.
  assert (started ≡ₚ in_flight {| rn_client := rn_client s; rn_loop := rn_loop s;
      rn_tasks := rn_tasks s; rn_queue := rest; rn_writer := None; rn_wire := rn_wire s ++ [frame] |}
      ++ omap wire_response (rn_wire s ++ [frame])) as Hp.
  { rewrite Hlive. unfold in_flight, answered_ids; cbn. rewrite Eq, omap_app; cbn. rewrite Hr.
    destruct (queued_response o); solve_Permutation. }
  constructor; [done | by rewrite Hp | done].
Qed.

Lemma run_step_accounted (started : list Uuid) (e : RunEvent) (s s' : Running) :
  run_step e s = Some s' -> accounted started s -> accounted (started ++ step_starts e s) s'.
Proof using BL.
  destruct e as [i| |n V|writable|]; cbn [run_step].
  - destruct (rn_loop s) eqn:El; [done|]. intros [= <-]. by apply loop_reads_accounted.
  - rewrite app_nil_r. destruct (rn_loop s) eqn:El; [done|]. intros [= <-] [Hlive Hsub Hq].
    destruct (tx_sends_accounted started [client_shutdown] s) as [Ha Hb Hc];
      [by repeat constructor | done | by intros Hx; apply Hlive | done|]. by constructor.
  - rewrite app_nil_r. by apply task_finishes_accounted.
  - rewrite app_nil_r. by apply writer_takes_accounted.
  - rewrite app_nil_r. intros [= <-] [Hlive Hsub Hq].
    apply tx_sends_accounted; [by repeat constructor | done | by intros Hx; apply Hlive | done].
Qed.

Lemma run_accounted (es : list RunEvent) (started : list Uuid) (s s' : Running) :
  run_events es s = Some s' -> accounted started s -> accounted (started ++ starts es s) s'.
Proof using BL.
  revert started s; induction es as [|e es IH]; intros started s; cbn.
  - intros [= <-]. by rewrite app_nil_r.
  - destruct (run_step e s) as [s1|] eqn:Es; [|done]. intros Hrun Hacc. rewrite (assoc (++)).
    apply IH; [done|]. by eapply run_step_accounted.
Qed.

(** C6: whatever order the loop, the proxy tasks, the ping task and the writer take
    their turns in, the client answers each local call it starts at most once
    and answers nothing it did not start; and as long as the writer lives no
    answer is lost: every request whose call was started is still at work, is
    queued, or its response is on the websocket. *)
Theorem answered_once_per_call (es : list RunEvent) (client : ClientState) (s : Running) :
  run_events es (running_start client) = Some s ->
  let calls := starts es (running_start client) in
  (answered_ids s ⊆+ calls) /\
  (NoDup calls -> NoDup (answered_ids s)) /\
  (rn_writer s = None -> calls ≡ₚ in_flight s ++ answered_ids s).
Proof using BL.
  intros Hrun calls. apply (run_accounted es []) in Hrun as [Hlive Hsub _]; [|by constructor].
  cbn [app] in *. fold calls in Hlive, Hsub. split_and!.
  - etrans; [|exact Hsub]. by apply submseteq_inserts_l.
  - intros Hnd. apply submseteq_Permutation in Hsub as [k Hk]. rewrite Hk in Hnd.
    apply NoDup_app in Hnd as [Hnd _]. by apply NoDup_app in Hnd as (_ & _ & Hnd).
  - done.
Qed.
End Once.

(** * A response the encoder refuses *)

Section Mute.
Context `{B : BincodeCodec, U : UuidDisplay, L : HttpLib}.

(** Nothing that ends the loop: no shutdown, no error of the reader, only frames
    a session survives. *)
Definition uneventful (e : RunEvent) : Prop :=
  match e with
  | Reads (InFrame frame) => harmless frame
  | Reads (InError _) | Stops => False
  | _ => True
  end.

(** A session whose loop runs after its writer has ended. *)
Record mute (result : result unit) (wire : list WsMessage) (s : Running) : Prop := {
  mt_loop : rn_loop s = None;
  mt_writer : rn_writer s = Some result;
  mt_wire : rn_wire s = wire;
  mt_http : is_Some (cs_http (rn_client s));
}.

Lemma handle_frame_http (frame : WsMessage) (s s' : ClientState) (c : ClientTunnel.FrameControl)
    (es : list Effect) :
  handle_frame frame s = (Ok c, s', es) -> is_Some (cs_http s) -> is_Some (cs_http s').
Proof.
  intros Hf [p Hp]. pose proof (handle_frame_message frame s) as Hm.
  destruct (read_message frame) as [m|]; [|by destruct (Hm _ _ _ Hf) as [-> _]].
  rewrite Hf in Hm. symmetry in Hm. pose proof (same_for_refl 0 s p Hp) as Hsame.
  destruct (decide (message_request m = Some 0)) as [Ha|Ha].
  - by destruct (handle_message_about 0 m s s s' c es Hsame Ha Hm) as (_ & _ & ? & _ & p' & _ & -> & _).
  - by destruct (handle_message_other 0 m s s s' c es Hsame Ha Hm) as (_ & _ & p' & _ & -> & _).
Qed.

Lemma tx_sends_mute (r : result unit) (os : list Outgoing) (s : Running) :
  rn_writer s = Some r -> tx_sends os s = s.
Proof. unfold tx_sends. by intros ->. Qed.

Lemma run_step_mute (r : result unit) (wire : list WsMessage) (e : RunEvent) (s s' : Running) :
  uneventful e -> mute r wire s -> run_step e s = Some s' -> mute r wire s'.
Proof.
  intros He [Hl Hw Hwire Hhttp]. destruct e as [[frame|err]| |n V|writable|]; try done;
    cbn [run_step].
  - rewrite Hl. intros [= <-]. unfold loop_reads.
    destruct (He (rn_client s)) as (client & effects & Hf). rewrite Hf.
    rewrite (tx_sends_mute r) by done. constructor; try done. by eapply handle_frame_http.
  - unfold task_finishes. destruct Hhttp as [p Hp]. rewrite Hp. cbn [mbind option_bind].
    destruct (rn_tasks s !! n) as [[]|]; cbn [mbind option_bind]; try done.
    intros [= <-]. rewrite (tx_sends_mute r) by done. by constructor.
  - unfold writer_takes. by rewrite Hw.
  - intros [= <-]. rewrite (tx_sends_mute r) by done. by constructor.
Qed.

Lemma run_mute (r : result unit) (wire : list WsMessage) (es : list RunEvent) (s s' : Running) :
  Forall uneventful es -> mute r wire s -> run_events es s = Some s' -> mute r wire s'.
Proof.
  intros Hes; revert s; induction Hes as [|e es He _ IH]; intros s Hm; cbn; [by intros [= <-]|].
  destruct (run_step e s) as [s1|] eqn:Es; [|done]. apply IH. by eapply run_step_mute.
Qed.

(** C28: one response above the encoder's limit silences a tunnel for good.  The
    writer ends with the error, the loop does not notice: it goes on reading
    and starting local calls, but whatever comes - requests, finished calls,
    pings - nothing is ever put on the websocket again, as long as nobody stops
    the client and the server neither closes the connection nor sends a frame
    that ends the session. *)
Theorem oversized_answer_mutes_session (V : Upstream) (n : nat) (p : LocalProxy) (id : Uuid)
    (method path : string) (headers : Headers) (body : Bytes) (s : Running) status answer_headers
    (big : Bytes) :
  rn_loop s = None -> rn_writer s = None -> rn_queue s = [] -> cs_http (rn_client s) = Some p ->
  rn_tasks s !! n = Some (SpawnProxy id method path headers body) ->
  proxy_task_response p id method path headers body = HttpResponse id status answer_headers big ->
  DEFAULT_MAX_BODY_SIZE < len big ->
  exists s1, run_events [Finishes n V; Writes true] s = Some s1 /\
    rn_writer s1 = Some (Err (PayloadTooLarge (len big) DEFAULT_MAX_BODY_SIZE)) /\
    forall es s2, Forall uneventful es -> run_events es s1 = Some s2 ->
      rn_wire s2 = rn_wire s /\ rn_loop s2 = None /\
      forall frame id' method' path' headers' body',
        read_message frame = Some (HttpRequest id' method' path' headers' body') ->
        exists s3, run_step (Reads (InFrame frame)) s2 = Some s3 /\
          rn_tasks s3 = rn_tasks s2 ++ [SpawnProxy id' method' path' headers' body'] /\
          rn_wire s3 = rn_wire s.
Proof.
  intros Hl Hw Hq Hp Hn Hresp Hbig.
  assert (encode (HttpResponse id status answer_headers big) =
            Err (PayloadTooLarge (len big) DEFAULT_MAX_BODY_SIZE)) as Henc.
  { unfold encode. cbn [validate]. unfold validate_body_size.
    by rewrite decide_True. }
  destruct s as [client loop tasks queue writer wire].
  cbn [rn_client rn_loop rn_tasks rn_queue rn_writer rn_wire] in *. subst.
  eexists. split_and!.
  { cbn [run_events run_step]. unfold task_finishes; cbn [rn_client rn_tasks rn_loop].
    rewrite Hp; cbn [mbind option_bind]. rewrite Hn; cbn [mbind option_bind]. rewrite Hresp.
    unfold writer_takes; cbn [tx_sends with_loop rn_writer rn_queue app write_frame].
    rewrite Henc. reflexivity. }
  { done. }
  intros es s2 Hes Hrun.
  apply (run_mute (Err (PayloadTooLarge (len big) DEFAULT_MAX_BODY_SIZE)) wire) in Hrun as
    [Hl2 Hw2 Hwire2 [p2 Hp2]]; [|done|by constructor].
  split_and!; [done..|]. intros frame id' method' path' headers' body' Hread.
  pose proof (handle_frame_message frame (rn_client s2)) as Hm. rewrite Hread in Hm.
  cbn [handle_message] in Hm. rewrite Hp2 in Hm. eexists. cbn [run_step]. rewrite Hl2.
  unfold loop_reads. rewrite Hm. erewrite tx_sends_mute by done. done.
Qed.
End Mute.
