(* ===== verification/Admin.v ===== *)
(** The admin API of [expose-server/src/admin.rs] behind the authorization of
    [expose-server/src/middleware/auth.rs] and its own rate limiter. *)

From Stdlib Require Import Ascii.
From S2P Require Import Prelude RustStr Types Errors PendingStore Externals TunnelManager.
From S2P Require Import Http ServerConfig.

Local Open Scope N_scope.

(** * Authorization *)

(** A reply the middleware or a handler makes: its status, the headers it sets
    and its JSON error, status or data, or its plain text. *)
Inductive AdminBody : Type :=
| ErrorText (error : string)
| PlainText (text : string)
| StatusText (status : string)
| TunnelList (tunnels : list TunnelSummary)
| TunnelEntry (tunnel : TunnelSummary)
| Stats (domain : string) (active pending rate : N)
| HealthReport (status : string) (tunnels : N) (timestamp : string).

Record AdminReply : Type := {
  ar_status : N;
  ar_headers : list (string * string);
  ar_body : AdminBody;
}.

Definition reply (status : N) (body : AdminBody) : AdminReply :=
  {| ar_status := status; ar_headers := []; ar_body := body |}.

Section Auth.
Context `{C : ConstantTimeEq, L : HttpLib}.

(** [Some] stops the request with a reply, [None] lets it through. *)
Definition admin_auth (config : ServerConfig) (headers : list (string * string)) :
    option AdminReply :=
  if negb (is_enabled (sv_admin config)) then
    Some {| ar_status := 403; ar_headers := [("content-type", "application/json")];
            ar_body := ErrorText "admin API is disabled" |}
  else if ac_insecure_admin (sv_admin config) then None
  else
    let auth_header := header_get "authorization" headers ≫= header_value_to_str in
    let token :=
      match auth_header with
      | Some header =>
          if str_starts_with "Bearer " header then Some (str_drop 7 header) else None
      | None => None
      end in
    match token with
    | None =>
        Some {| ar_status := 401;
                ar_headers := [("content-type", "application/json");
                               ("www-authenticate", "Bearer realm=" +:+ String "034" "admin"
                                                      +:+ String "034" EmptyString)];
                ar_body := ErrorText "missing or invalid authorization header" |}
    | Some token =>
        if negb (validate_admin_token config token) then
          Some {| ar_status := 403; ar_headers := [("content-type", "application/json")];
                  ar_body := ErrorText "invalid admin token" |}
        else None
    end.
End Auth.

(** * Handlers *)

(** [Uuid::parse_str]. *)
Class ParseUuid : Type := parse_uuid : string -> option Uuid.

Section Handlers.
Context `{G : Governor, P : ParseUuid}.

Inductive AdminRequest : Type :=
| ListTunnels
| GetTunnel (id : string)
| DeleteTunnel (id : string)
| GetStats.

Definition not_found : AdminReply := reply 404 (ErrorText "tunnel not found").
Definition invalid_id : AdminReply := reply 400 (ErrorText "invalid tunnel id").

Definition admin_handler (config : ServerConfig) (r : AdminRequest) (m : TunnelManager) :
    AdminReply * TunnelManager * list Delivery :=
  match r with
  | ListTunnels => (reply 200 (TunnelList (manager_list m)), m, [])
  | GetTunnel text =>
      match parse_uuid text with
      | Some id =>
          match summary_by_id id m with
          | Some summary => (reply 200 (TunnelEntry summary), m, [])
          | None => (not_found, m, [])
          end
      | None => (invalid_id, m, [])
      end
  | DeleteTunnel text =>
      match parse_uuid text with
      | Some id =>
          let '(found, m', sent) := disconnect_tunnel id m in
          (if found then reply 200 (StatusText "disconnected") else not_found, m', sent)
      | None => (invalid_id, m, [])
      end
  | GetStats =>
      (reply 200 (Stats (tm_domain m) (active_tunnel_count m) (pending_request_count m)
                    (sv_rate_limit_requests_per_minute config)), m, [])
  end.

(** [AdminRateLimiter::new]: a quota without an explicit burst bursts its rate. *)
Definition admin_limiter (per_minute : N) : gov_state :=
  gov_direct (N.max per_minute 1) (N.max per_minute 1).

Definition admin_rate_limit (now later : Instant) (limiter : gov_state) :
    option AdminReply * gov_state :=
  match gov_check now limiter with
  | (limiter', None) => (None, limiter')
  | (limiter', Some negative) =>
      (Some {| ar_status := 429;
               ar_headers := [("retry-after",
                               fmt_uint (N.max (as_secs (gov_wait negative later)) 1))];
               ar_body := PlainText "admin API rate limited" |}, limiter')
  end.

Context `{C : ConstantTimeEq, L : HttpLib}.

(** A request to a protected route: authorization first, then the limiter, then
    the handler. *)
Definition admin_request (config : ServerConfig) (headers : list (string * string))
    (r : AdminRequest) (now later : Instant) (limiter : gov_state) (m : TunnelManager) :
    AdminReply * gov_state * TunnelManager * list Delivery :=
  match admin_auth config headers with
  | Some denied => (denied, limiter, m, [])
  | None =>
      match admin_rate_limit now later limiter with
      | (Some denied, limiter') => (denied, limiter', m, [])
      | (None, limiter') =>
          let '(answer, m', sent) := admin_handler config r m in (answer, limiter', m', sent)
      end
  end.
(** [/admin/health], merged beside the protected routes: no authorization, no
    limiter; [timestamp] is the current time. *)
Definition admin_health (timestamp : string) (m : TunnelManager) : AdminReply :=
  reply 200 (HealthReport "ok" (active_tunnel_count m) timestamp).
End Handlers.

(** * Properties *)

Section AdminSpec.
Context `{G : Governor, P : ParseUuid, C : ConstantTimeEq, CL : !ConstantTimeEqLaws C, L : HttpLib}.

(** The caller presents the configured token. *)
Definition authorized (config : ServerConfig) (headers : list (string * string)) : Prop :=
  ac_insecure_admin (sv_admin config) = true \/
  exists token value, ac_token (sv_admin config) = Some token /\
    header_get "authorization" headers = Some value /\
    header_value_to_str value = Some ("Bearer " +:+ key_bytes token).

Lemma bearer_split (h : string) :
  str_starts_with "Bearer " h = true -> h = "Bearer " +:+ str_drop 7 h.
Proof. intros [t ->]%prefix_true_iff. f_equal. Qed.

Lemma admin_auth_iff (config : ServerConfig) (headers : list (string * string)) :
  admin_auth config headers = None <-> authorized config headers.
Proof using CL.
  unfold admin_auth, authorized, is_enabled, validate_admin_token.
  destruct (ac_insecure_admin (sv_admin config)); cbn -[str_drop].
  { rewrite orb_true_r; cbn -[str_drop]. split; [by left | done]. }
  rewrite orb_false_r. destruct (ac_token (sv_admin config)) as [token|]; cbn -[str_drop].
  2:{ split; [done|]. by intros [|(? & ? & ? & _)]. }
  destruct (header_get "authorization" headers) as [value|]; cbn -[str_drop].
  2:{ split; [done|]. by intros [|(? & ? & _ & ? & _)]. }
  destruct (header_value_to_str value) as [h|] eqn:Eh; cbn -[str_drop].
  2:{ split; [done|]. intros [|(? & ? & _ & [= <-] & ?)]; congruence. }
  destruct (str_starts_with "Bearer " h) eqn:Es.
  - apply bearer_split in Es. destruct (verify token (str_drop 7 h)) eqn:Ev; cbn [negb].
    + apply verify_iff in Ev. split; [|done]. intros _; right. exists token, value.
      split_and!; [done..|]. rewrite Eh, Es, Ev. done.
    + split; [done|]. intros [|(? & ? & [= <-] & [= <-] & He)]; [done|].
      rewrite Eh in He; injection He as He. rewrite He in Ev.
      assert (verify token (key_bytes token) = true) by (by apply verify_iff).
      change (str_drop 7 ("Bearer " +:+ key_bytes token)) with (key_bytes token) in Ev. congruence.
  - split; [done|]. intros [|(? & ? & _ & [= <-] & He)]; [done|].
    rewrite Eh in He; injection He as ->. by rewrite prefix_app in Es.
Qed.

(** C20: the admin API acts only for a caller who presents the configured token
    (or when the insecure mode is on) and within its rate: every other request
    gets 401, 403 or 429 and leaves the server as it was; an authorized one
    that the limiter grants gets the handler's answer. *)
Theorem admin_access_spec (config : ServerConfig) (headers : list (string * string))
    (r : AdminRequest) (now later : Instant) (limiter : gov_state) (m : TunnelManager) :
  let '(answer, limiter', m', sent) := admin_request config headers r now later limiter m in
  (~ authorized config headers ->
     (ar_status answer = 401 \/ ar_status answer = 403) /\ limiter' = limiter /\ m' = m /\
     sent = [] /\
     (ac_token (sv_admin config) = None -> ar_status answer = 403)) /\
  (authorized config headers ->
     limiter' = (gov_check now limiter).1 /\
     match (gov_check now limiter).2 with
     | None => (answer, m', sent) = admin_handler config r m
     | Some _ => ar_status answer = 429 /\ m' = m /\ sent = [] /\
                 exists secs, 1 <= secs /\ ar_headers answer = [("retry-after", fmt_uint secs)]
     end).
Proof using CL.
  pose proof (admin_auth_iff config headers) as Ha. unfold admin_request.
  destruct (admin_auth config headers) as [denied|] eqn:Ed.
  - split; [|intros Hy%Ha; done]. intros _. unfold admin_auth in Ed.
    repeat case_match; simplify_eq; cbn; split_and!; auto.
    all: intros Hn; try done; unfold is_enabled in *; rewrite Hn in *;
      destruct (ac_insecure_admin (sv_admin config)); done.
  - assert (authorized config headers) as Hok by (by apply Ha).
    unfold admin_rate_limit. destruct (gov_check now limiter) as [l' [neg|]];
      [|destruct (admin_handler config r m) as [[? ?] ?]]; (split; [done|]); intros _; [|done].
    cbn. split_and!; try done. eexists; split; [|done]. lia.
Qed.
End AdminSpec.
