(* ===== verification/Splice.v ===== *)
(** Zero-copy proxying, [expose-server/src/zero_copy]: a pipe, the loop that
    moves bytes from one socket through the pipe to another, and the condition
    to use it.

    [splice(2)] is the kernel's: a class of operations, with the documented
    behaviour as laws.  A descriptor is read at one end of a byte queue and
    written at the end of another; the two descriptors of a pipe share one. *)

From S2P Require Import Prelude RustStr Types Errors WebSocket Http.

Local Open Scope N_scope.

Definition RawFd : Type := N.

(** [nix::fcntl::splice] with [SPLICE_F_MOVE | SPLICE_F_NONBLOCK]. *)
Class Kernel : Type := {
  kernel : Type;
  splice : RawFd -> RawFd -> N -> kernel -> Result string N * kernel;
}.

(** The bytes that are on their way to the reader of a descriptor, and to the
    reader of what is written to one.  A call that succeeds moves the first [n]
    bytes, at most as many as asked for, and touches nothing else; one that
    fails moves none. *)
Class KernelLaws (K : Kernel) : Type := {
  queue : Type;
  queue_eq_dec :: EqDecision queue;
  reads_from : RawFd -> queue;
  writes_to : RawFd -> queue;
  bytes_in : kernel -> queue -> Bytes;
  splice_error fd_in fd_out n k e k' :
    splice fd_in fd_out n k = (Err e, k') -> bytes_in k' = bytes_in k;
  splice_moves fd_in fd_out n k moved k' :
    reads_from fd_in <> writes_to fd_out ->
    splice fd_in fd_out n k = (Ok moved, k') ->
    moved <= n /\ moved <= len (bytes_in k (reads_from fd_in)) /\
    bytes_in k' (reads_from fd_in) = drop (N.to_nat moved) (bytes_in k (reads_from fd_in)) /\
    bytes_in k' (writes_to fd_out) =
      bytes_in k (writes_to fd_out) ++ take (N.to_nat moved) (bytes_in k (reads_from fd_in)) /\
    forall q, q <> reads_from fd_in -> q <> writes_to fd_out -> bytes_in k' q = bytes_in k q;
}.

(** * The sources *)

Definition SPLICE_CHUNK_SIZE : N := 64 * 1024.

Record Pipe : Type := {
  read_fd : RawFd;
  write_fd : RawFd;
}.

Record SpliceProxier : Type := {
  sp_pipe : Pipe;
}.

(** On Linux. *)
Definition can_use_splice (source_is_tls dest_is_tls : bool) : bool :=
  negb source_is_tls && negb dest_is_tls.

Section Proxier.
Context `{K : Kernel}.

Definition SpliceProxier_new (pipe : Result string (RawFd * RawFd)) :
    Result IoError SpliceProxier :=
  fds ← map_err pipe IoOther;
  Ok {| sp_pipe := {| read_fd := fds.1; write_fd := fds.2 |} |}.

(** One round of the loop: [inl] goes on with what was transferred so far. *)
Definition splice_round (p : SpliceProxier) (source_fd dest_fd : RawFd)
    (total_bytes transferred : N) (k : kernel) : (N + Result IoError N) * kernel :=
  if transferred <? total_bytes then
    let remaining := total_bytes - transferred in
    let chunk_size := N.min remaining SPLICE_CHUNK_SIZE in
    match splice source_fd (write_fd (sp_pipe p)) chunk_size k with
    | (Err err, k) => (inr (Err (IoOther err)), k)
    | (Ok n, k) =>
        if n =? 0 then (inr (Ok transferred), k)
        else
          match splice (read_fd (sp_pipe p)) dest_fd n k with
          | (Err err, k) => (inr (Err (IoOther err)), k)
          | (Ok written, k) =>
              let transferred := transferred + written in
              if negb (written =? n) then (inr (Err (IoOther "splice write mismatch")), k)
              else (inl transferred, k)
          end
    end
  else (inr (Ok transferred), k).

Fixpoint splice_loop (fuel : nat) (p : SpliceProxier) (source_fd dest_fd : RawFd)
    (total_bytes transferred : N) (k : kernel) : option (Result IoError N * kernel) :=
  match fuel with
  | O => None
  | S fuel' =>
      match splice_round p source_fd dest_fd total_bytes transferred k with
      | (inl transferred, k) => splice_loop fuel' p source_fd dest_fd total_bytes transferred k
      | (inr r, k) => Some (r, k)
      end
  end.

(** Each round moves a byte at least, so there are at most [total_bytes + 1]. *)
Definition splice_connection (p : SpliceProxier) (source_fd dest_fd : RawFd) (total_bytes : N)
    (k : kernel) : option (Result IoError N * kernel) :=
  splice_loop (S (N.to_nat total_bytes)) p source_fd dest_fd total_bytes 0 k.

(** * What arrives *)

Context {L : KernelLaws K}.

(** The two sockets and the pipe are three queues. *)
Record wired (p : SpliceProxier) (source_fd dest_fd : RawFd) : Prop := {
  wi_pipe : reads_from (read_fd (sp_pipe p)) = writes_to (write_fd (sp_pipe p));
  wi_source : reads_from source_fd <> writes_to (write_fd (sp_pipe p));
  wi_dest : writes_to dest_fd <> writes_to (write_fd (sp_pipe p));
  wi_ends : reads_from source_fd <> writes_to dest_fd;
}.

Section Wired.
Context (p : SpliceProxier) (source_fd dest_fd : RawFd) (W : wired p source_fd dest_fd).

Definition in_source (k : kernel) : Bytes := bytes_in k (reads_from source_fd).
Definition in_pipe (k : kernel) : Bytes := bytes_in k (writes_to (write_fd (sp_pipe p))).
Definition at_dest (k : kernel) : Bytes := bytes_in k (writes_to dest_fd).

(** From [k] to [k'] the bytes [moved] came out at the destination: they and what
    is left in the pipe are what was in the pipe and was taken from the source,
    in order. *)
Definition flow (k k' : kernel) (moved : Bytes) : Prop :=
  in_pipe k ++ in_source k = moved ++ in_pipe k' ++ in_source k' /\
  at_dest k' = at_dest k ++ moved.

Lemma flow_refl k : flow k k [].
Proof. split; [done | by rewrite app_nil_r]. Qed.

Lemma flow_trans k1 k2 k3 a b : flow k1 k2 a -> flow k2 k3 b -> flow k1 k3 (a ++ b).
Proof.
  intros [H1 D1] [H2 D2]. split; [by rewrite H1, H2, (assoc (++)) | by rewrite D2, D1, (assoc (++))].
Qed.

Lemma flow_error k k' : bytes_in k' = bytes_in k -> flow k k' [].
Proof. intros E. unfold flow, in_source, in_pipe, at_dest. rewrite E. apply (flow_refl k). Qed.

Lemma flow_in (n moved : N) k k' :
  splice source_fd (write_fd (sp_pipe p)) n k = (Ok moved, k') ->
  flow k k' [] /\ moved <= n /\ len (in_pipe k') = len (in_pipe k) + moved.
Proof using W.
  intros Hs. destruct W as [Hp H1 H2 H3].
  destruct (splice_moves _ _ _ _ _ _ H1 Hs) as (Hn & Hl & Hsrc & Hdst & Ho).
  unfold flow, in_source, in_pipe, at_dest. rewrite Hsrc, Hdst, (Ho (writes_to dest_fd)) by done.
  rewrite app_nil_r, app_nil_l, <- (assoc (++)), take_drop. split_and!; try done.
  unfold len in *. rewrite length_app, length_take. lia.
Qed.

Lemma flow_out (n moved : N) k k' :
  splice (read_fd (sp_pipe p)) dest_fd n k = (Ok moved, k') ->
  exists out, flow k k' out /\ len out = moved /\ moved <= n /\
    len (in_pipe k) = len (in_pipe k') + moved.
Proof using W.
  intros Hs. destruct W as [Hp H1 H2 H3].
  destruct (splice_moves (read_fd (sp_pipe p)) dest_fd n k moved k' ltac:(by rewrite Hp) Hs)
    as (Hn & Hl & Hsrc & Hdst & Ho). rewrite Hp in *.
  exists (take (N.to_nat moved) (in_pipe k)).
  unfold flow, in_source, in_pipe, at_dest in *. rewrite Hsrc, Hdst, (Ho (reads_from source_fd)) by done.
  rewrite (assoc (++)), take_drop. split_and!; try done.
  - unfold len in *. rewrite length_take. lia.
  - unfold len in *. rewrite length_drop. lia.
Qed.

Lemma splice_round_spec (total transferred : N) k :
  let '(r, k') := splice_round p source_fd dest_fd total transferred k in
  exists moved, flow k k' moved /\
    match r with
    | inl t => t = transferred + len moved /\ 0 < len moved /\ t <= total /\
               len (in_pipe k') = len (in_pipe k)
    | inr (Ok t) => t = transferred /\ moved = [] /\ in_pipe k' = in_pipe k
    | inr (Err e) => transferred + len moved <= total
    end.
Proof using W.
  unfold splice_round. destruct (N.ltb_spec transferred total) as [Hlt|Hge];
    [|by exists []; split; [apply flow_refl|]].
  destruct (splice source_fd _ _ k) as [[n|e] k1] eqn:E1.
  2: { exists []. split; [by eapply flow_error, splice_error|]. unfold len; cbn [length]; lia. }
  destruct (flow_in _ _ _ _ E1) as (F1 & Hn & L1).
  destruct (N.eqb_spec n 0) as [->|Hn0].
  { exists []. split_and!; try done.
    destruct (splice_moves _ _ _ _ _ _ (wi_source _ _ _ W) E1) as (_ & _ & _ & Hd & _).
    unfold in_pipe. by rewrite Hd, app_nil_r. }
  destruct (splice (read_fd _) dest_fd n k1) as [[written|e] k2] eqn:E2.
  2: { exists []. split; [|unfold len; cbn [length]; lia]. apply (flow_trans _ k1 _ [] []); [done|].
       by eapply flow_error, splice_error. }
  destruct (flow_out _ _ _ _ E2) as (out & F2 & Hl & Hw & L2).
  pose proof (flow_trans _ _ _ [] out F1 F2) as F; cbn [app] in F.
  destruct (N.eqb_spec written n) as [->|Hne]; cbn [negb]; exists out; (split; [done|]). all: split_and?; lia.
Qed.

Lemma splice_loop_spec (fuel : nat) (total transferred : N) k :
  transferred <= total -> (N.to_nat (total - transferred) < fuel)%nat ->
  exists r k' moved, splice_loop fuel p source_fd dest_fd total transferred k = Some (r, k') /\
    flow k k' moved /\ transferred + len moved <= total /\
    (forall t, r = Ok t -> t = transferred + len moved /\ len (in_pipe k') = len (in_pipe k)).
Proof using W.
  revert transferred k; induction fuel as [|fuel IH]; intros transferred k Ht Hf; [lia|].
  cbn [splice_loop]. pose proof (splice_round_spec total transferred k) as Hr.
  destruct (splice_round p source_fd dest_fd total transferred k) as [[t|r] k1].
  - destruct Hr as (moved & F & -> & Hm & Hle & HL).
    destruct (IH (transferred + len moved) k1 Hle) as (r & k' & moved' & Hl & F' & Hle' & Hok); [lia|].
    exists r, k', (moved ++ moved'). rewrite len_app. split_and!;
      [done | by eapply flow_trans | lia |]. intros t Hr. destruct (Hok t Hr) as [-> ->].
    split; [lia | done].
  - destruct Hr as (moved & F & Hr). exists r, k1, moved. split_and!; [done | done | |].
    + destruct r as [t|e]; [|done]. destruct Hr as (-> & -> & _). unfold len; cbn [length]; lia.
    + intros t ->. destruct Hr as (-> & -> & ->). unfold len; cbn [length]; split; [lia | done].
Qed.
End Wired.

(** C26: zero-copy proxying ends after at most [total_bytes] moves and keeps the
    stream in order.  What comes out at the destination, followed by what is
    left in the pipe and in the source, is what was in the pipe and the source
    before; on success exactly the reported number of bytes came out, at most
    [total_bytes], and the pipe holds as much as before.  After an error bytes
    may be left in the pipe, which the proxier keeps: the next connection it
    proxies delivers them first, to its own destination. *)
Theorem splice_connection_spec (p : SpliceProxier) (source_fd dest_fd : RawFd) (total_bytes : N)
    (k : kernel) :
  wired p source_fd dest_fd ->
  exists r k' moved, splice_connection p source_fd dest_fd total_bytes k = Some (r, k') /\
    in_pipe p k ++ in_source source_fd k = moved ++ in_pipe p k' ++ in_source source_fd k' /\
    at_dest dest_fd k' = at_dest dest_fd k ++ moved /\ len moved <= total_bytes /\
    (forall t, r = Ok t -> t = len moved /\
       (in_pipe p k = [] -> in_pipe p k' = [] /\ in_source source_fd k = moved ++ in_source source_fd k')) /\
    (forall left_over, in_pipe p k = left_over -> len left_over <= len moved ->
       exists own, at_dest dest_fd k' = at_dest dest_fd k ++ left_over ++ own).
Proof.
  intros W. destruct (splice_loop_spec p source_fd dest_fd W (S (N.to_nat total_bytes)) total_bytes 0 k)
    as (r & k' & moved & Hl & [F D] & Hle & Hok); [lia | lia |].
  exists r, k', moved. split_and!; [done | done | done | lia |..].
  - intros t Ht. destruct (Hok t Ht) as [-> HL]. split; [lia|]. intros He. rewrite He in *.
    assert (in_pipe p k' = []) as Hp'.
    { destruct (in_pipe p k') as [|b l]; [done|]. unfold len in HL; cbn in HL. lia. }
    by rewrite Hp' in F.
  - intros left_over Heq Hlen. rewrite Heq in F.
    exists (drop (length left_over) moved). rewrite D. f_equal.
    rewrite <- (take_drop (length left_over) moved) at 1. f_equal.
    apply (f_equal (take (length left_over))) in F.
    rewrite take_app_length, take_app_le in F; [done|]. unfold len in Hlen. lia.
Qed.
End Proxier.

(** * A kernel for concrete runs

    Queues by number: descriptors 10 and 11 are the ends of one pipe.  A script
    says how many bytes each call moves at most, or its error; without an entry
    a call moves what it can. *)

Module ScriptedKernel.
Record State : Type := {
  st_queues : gmap N Bytes;
  st_script : list (Result string N);
}.

Definition at_queue (st : State) (q : N) : Bytes := default [] (st_queues st !! q).
Definition queue_of (fd : RawFd) : N := if fd =? 11 then 10 else fd.

Definition move (a b n : N) (st : State) (rest : list (Result string N)) :
    Result string N * State :=
  let src := at_queue st a in
  let moved := N.min n (len src) in
  (Ok moved,
   {| st_queues :=
        <[b := at_queue st b ++ take (N.to_nat moved) src]>
          (<[a := drop (N.to_nat moved) src]> (st_queues st));
      st_script := rest |}).

Definition scripted (fd_in fd_out n : N) (st : State) : Result string N * State :=
  match st_script st with
  | Err e :: rest => (Err e, {| st_queues := st_queues st; st_script := rest |})
  | Ok most :: rest => move (queue_of fd_in) (queue_of fd_out) (N.min n most) st rest
  | [] => move (queue_of fd_in) (queue_of fd_out) n st []
  end.

#[export] Instance scripted_kernel : Kernel := {| kernel := State; splice := scripted |}.

Lemma move_spec (a b n moved : N) (st st' : State) (rest : list (Result string N)) :
  a <> b -> move a b n st rest = (Ok moved, st') ->
  moved <= n /\ moved <= len (at_queue st a) /\
  at_queue st' a = drop (N.to_nat moved) (at_queue st a) /\
  at_queue st' b = at_queue st b ++ take (N.to_nat moved) (at_queue st a) /\
  forall q, q <> a -> q <> b -> at_queue st' q = at_queue st q.
Proof.
  intros Hab [= <- <-]. split_and!; [lia | lia | | |].
  - unfold at_queue at 1; cbn. by rewrite lookup_insert_ne, lookup_insert_eq.
  - unfold at_queue at 1; cbn. by rewrite lookup_insert_eq.
  - intros q Ha Hb. unfold at_queue at 1; cbn. by rewrite !lookup_insert_ne.
Qed.

#[export] Instance scripted_kernel_laws : KernelLaws scripted_kernel.
Proof.
  refine {| queue := N; reads_from := queue_of; writes_to := queue_of; bytes_in := at_queue |}.
  - intros fd_in fd_out n k e k'. cbn. unfold scripted.
    destruct (st_script k) as [|[most|e'] rest]; try discriminate. by intros [= _ <-].
  - intros fd_in fd_out n k moved k' Hne. cbn. unfold scripted.
    destruct (st_script k) as [|[most|e'] rest]; intros Hm; [| |discriminate].
    + by eapply move_spec.
    + destruct (move_spec _ _ _ _ _ _ _ Hne Hm) as (? & H). split; [lia | done].
Defined.
End ScriptedKernel.
