(* ===== verification/Health.v ===== *)
(** [expose-server/src/health.rs]: the utilization report behind [/healthz] and
    the readiness and liveness endpoints.  The percentages are 32-bit floats,
    modelled bit for bit by the IEEE 754 operations of the Standard Library's
    [SpecFloat] at 24 bits of precision and exponents up to 128. *)

From Stdlib Require Import ZArith SpecFloat.
From S2P Require Import Prelude RustStr Types Errors PendingStore Externals TunnelManager.
From S2P Require Import ManagerSpec ServerConfig ServerRun.

Local Open Scope N_scope.

(** * 32-bit floats *)

(** [n as f32]: rounded to the nearest, ties to even. *)
Definition f32_of (n : N) : spec_float := binary_normalize 24 128 (Z.of_N n) 0 false.

Definition f32_div : spec_float -> spec_float -> spec_float := SFdiv 24 128.
Definition f32_mul : spec_float -> spec_float -> spec_float := SFmul 24 128.

(** * The report *)

Inductive HealthStatus : Type :=
| Healthy
| Degraded
| Unhealthy.

#[export] Instance HealthStatus_eq_dec : EqDecision HealthStatus.
Proof. solve_decision. Defined.

Record TunnelHealth : Type := {
  th_active : N;
  th_limit : N;
  th_utilization_percent : spec_float;
}.

Record RequestHealth : Type := {
  rh_pending : N;
  rh_limit : N;
  rh_utilization_percent : spec_float;
}.

Record HealthResponse : Type := {
  hr_status : HealthStatus;
  hr_version : string;
  hr_uptime_secs : N;
  hr_tunnels : TunnelHealth;
  hr_requests : RequestHealth;
}.

Definition utilization (count limit : N) : spec_float :=
  if 0 <? limit then f32_mul (f32_div (f32_of count) (f32_of limit)) (f32_of 100)
  else S754_zero false.

Definition health_status (tunnel_util request_util : spec_float) : HealthStatus :=
  if SFltb (f32_of 90) tunnel_util || SFltb (f32_of 90) request_util then Unhealthy
  else if SFltb (f32_of 70) tunnel_util || SFltb (f32_of 70) request_util then Degraded
  else Healthy.

Section Health.
Context `{G : Governor}.

(** [HealthResponse::compute]; [elapsed] is [state.started_at.elapsed()]. *)
Definition compute (config : ServerConfig) (m : TunnelManager) (elapsed : Duration) :
    HealthResponse :=
  let active_tunnels := active_tunnel_count m in
  let tunnel_limit := li_max_tunnels (sv_limits config) in
  let pending_requests := pending_request_count m in
  let pending_limit := li_max_pending_requests (sv_limits config) in
  let tunnel_util := utilization active_tunnels tunnel_limit in
  let request_util := utilization pending_requests pending_limit in
  {| hr_status := health_status tunnel_util request_util;
     hr_version := "0.1.0";
     hr_uptime_secs := as_secs elapsed;
     hr_tunnels := {| th_active := active_tunnels; th_limit := tunnel_limit;
                      th_utilization_percent := tunnel_util |};
     hr_requests := {| rh_pending := pending_requests; rh_limit := pending_limit;
                       rh_utilization_percent := request_util |} |}.

Definition health_check (config : ServerConfig) (m : TunnelManager) (elapsed : Duration) :
    N * HealthResponse :=
  let health := compute config m elapsed in
  let status_code :=
    match hr_status health with
    | Healthy | Degraded => 200
    | Unhealthy => 503
    end in
  (status_code, health).

Definition readiness_check (config : ServerConfig) (m : TunnelManager) : N * string :=
  let active := active_tunnel_count m in
  let limit := li_max_tunnels (sv_limits config) in
  if (0 <? limit) && (limit <=? active) then (503, "at capacity") else (200, "ready").

Definition liveness_check : N * string := (200, "alive").
End Health.

(** * The percentages are exact where it matters

    [percent * limit < 100 * count] is what the code means; the floats round
    twice.  For the limits of the default configuration the two agree at every
    count, which is checked count by count. *)

Definition exceeds (percent count limit : N) : bool := percent * limit <? 100 * count.

(** The constants of the comparison, evaluated once. *)
Definition f32_70 : spec_float := S754_finite false 9175040 (-17).
Definition f32_90 : spec_float := S754_finite false 11796480 (-17).
Definition f32_100 : spec_float := S754_finite false 13107200 (-17).

(** [l] is [f32_of limit]. *)
Definition levels_agree (limit : N) (l : spec_float) (count : N) : bool :=
  let u := f32_mul (f32_div (f32_of count) l) f32_100 in
  Bool.eqb (SFltb f32_90 u) (exceeds 90 count limit) &&
  Bool.eqb (SFltb f32_70 u) (exceeds 70 count limit).

Fixpoint levels_agree_from (limit : N) (l : spec_float) (count : N) (fuel : nat) : bool :=
  match fuel with
  | O => true
  | S k => levels_agree limit l count && levels_agree_from limit l (N.succ count) k
  end.

Lemma levels_agree_from_spec (limit : N) (l : spec_float) (fuel : nat) (first count : N) :
  levels_agree_from limit l first fuel = true -> first <= count < first + N.of_nat fuel ->
  levels_agree limit l count = true.
Proof.
  revert first; induction fuel as [|k IH]; intros first; cbn [levels_agree_from]; [lia|].
  intros [Hk Hb]%andb_true_iff Hc.
  destruct (decide (count = first)) as [->|]; [done | apply (IH _ Hb); lia].
Qed.

Definition exact_limit (limit : N) : Prop :=
  forall count, count <= limit ->
    SFltb (f32_of 90) (utilization count limit) = exceeds 90 count limit /\
    SFltb (f32_of 70) (utilization count limit) = exceeds 70 count limit.

Lemma exact_limit_check (limit : N) (l : spec_float) :
  0 < limit -> f32_of limit = l ->
  levels_agree_from limit l 0 (S (N.to_nat limit)) = true -> exact_limit limit.
Proof.
  intros Hpos Hl Hb count Hc. unfold utilization. apply N.ltb_lt in Hpos as ->. rewrite Hl.
  change (f32_of 70) with f32_70. change (f32_of 90) with f32_90. change (f32_of 100) with f32_100.
  assert (levels_agree limit l count = true) as He by (apply (levels_agree_from_spec _ _ _ _ _ Hb); lia).
  unfold levels_agree in He; cbv zeta in He. apply andb_true_iff in He as [H9 H7].
  by split; apply Bool.eqb_prop.
Qed.

Lemma exact_max_tunnels : exact_limit default_max_tunnels.
Proof.
  apply (exact_limit_check _ (S754_finite false 16384000 (-14))); [done | by vm_compute|].
  vm_compute. reflexivity.
Qed.

Lemma exact_max_pending : exact_limit default_max_pending.
Proof.
  apply (exact_limit_check _ (S754_finite false 10240000 (-10))); [done | by vm_compute|].
  vm_compute. reflexivity.
Qed.

Lemma health_status_exact (tl tc pl pc : N) :
  exact_limit tl -> exact_limit pl -> tc <= tl -> pc <= pl ->
  health_status (utilization tc tl) (utilization pc pl) =
    (if exceeds 90 tc tl || exceeds 90 pc pl then Unhealthy
     else if exceeds 70 tc tl || exceeds 70 pc pl then Degraded else Healthy).
Proof.
  intros Ht Hp Htc Hpc. unfold health_status.
  destruct (Ht _ Htc) as [-> ->], (Hp _ Hpc) as [-> ->]. done.
Qed.

Section HealthSpec.
Context `{G : Governor, A : ParseSocketAddr}.

(** What [Server::new] makes of a configuration: the manager keeps its limits. *)
Definition serves (config : ServerConfig) (m : TunnelManager) : Prop :=
  tm_max_tunnels m = li_max_tunnels (sv_limits config) /\
  tm_pending_config m = sv_pending_requests config.

Lemma Server_new_serves (uring : option (Result string unit)) (config : ServerConfig)
    (now : Instant) :
  serves config (as_manager (Server_new uring config now)).
Proof. unfold Server_new. by destruct (rate_limit_config config). Qed.

(** C24: on a server with the default resource limits and a pending store no
    larger than they say, [/healthz] reports unhealthy, with status 503, exactly
    when more than 900 tunnels or more than 9000 requests are open, degraded
    exactly when it is not that but more than 700 or 7000, and healthy
    otherwise, both with status 200: the two roundings of the 32-bit percentage
    never move a count across a level. *)
Theorem health_check_spec (config : ServerConfig) (m : TunnelManager) (elapsed : Duration) :
  manager_wf m -> serves config m ->
  sv_limits config = ResourceLimits_default ->
  pc_max_global (sv_pending_requests config) <= 10000 ->
  let '(code, health) := health_check config m elapsed in
  let over tunnels requests :=
    tunnels < active_tunnel_count m \/ requests < pending_request_count m in
  (hr_status health = Unhealthy <-> over 900 9000) /\
  (hr_status health = Degraded <-> over 700 7000 /\ ~ over 900 9000) /\
  (hr_status health = Healthy <-> ~ over 700 7000) /\
  code = (if decide (hr_status health = Unhealthy) then 503 else 200).
Proof.
  intros Hwf [Ht Hp] Hl Hg. unfold health_check, compute; cbn [hr_status].
  pose proof (mw_global _ Hwf) as Hpend. rewrite Hp in Hpend.
  pose proof (mw_max _ Hwf) as Hact. rewrite Ht in Hact. rewrite Hl in *.
  cbn [li_max_tunnels li_max_pending_requests ResourceLimits_default] in *.
  rewrite (health_status_exact default_max_tunnels _ default_max_pending _
             exact_max_tunnels exact_max_pending)
    by (unfold default_max_tunnels, default_max_pending in *; lia).
  unfold exceeds, default_max_tunnels, default_max_pending.
  destruct (N.ltb_spec (90 * 1000) (100 * active_tunnel_count m)),
    (N.ltb_spec (90 * 10000) (100 * pending_request_count m)),
    (N.ltb_spec (70 * 1000) (100 * active_tunnel_count m)),
    (N.ltb_spec (70 * 10000) (100 * pending_request_count m)); cbn.
  all: split_and!; try done; split; try done; intros; try lia.
Qed.

(** Health is measured against [limits.max_pending_requests], but requests
    are refused at [pending_requests.max_global]: when the second is at most
    70% of the first, a server that refuses every request because its pending
    store is full still reports healthy with status 200. *)
Theorem full_store_reports_healthy (config : ServerConfig) (m : TunnelManager)
    (elapsed : Duration) :
  manager_wf m -> serves config m ->
  sv_limits config = ResourceLimits_default ->
  pc_max_global (sv_pending_requests config) <= 7000 ->
  active_tunnel_count m <= 700 ->
  pending_request_count m = pc_max_global (sv_pending_requests config) ->
  (forall tunnel_id request_id timeout now channel,
     register_pending_request tunnel_id request_id timeout now channel m =
       (Err (CapacityExceeded "too many pending requests globally"), m)) /\
  (health_check config m elapsed).1 = 200 /\
  hr_status (health_check config m elapsed).2 = Healthy.
Proof.
  intros Hwf [Ht Hp] Hl Hg Hfew Hfull. split.
  - intros. unfold register_pending_request.
    pose proof (pending_checks_cases tunnel_id m) as Hc. rewrite Hp in Hc.
    destruct (pending_checks tunnel_id m).
    + destruct Hc as [Hlt _]. rewrite Hfull in Hlt. lia.
    + destruct Hc as [[_ ->] | [Hlt _]]; [done|]. rewrite Hfull in Hlt. lia.
  - unfold health_check, compute; cbn [hr_status fst snd]. rewrite Hl.
    cbn [li_max_tunnels li_max_pending_requests ResourceLimits_default].
    rewrite (health_status_exact default_max_tunnels _ default_max_pending _
               exact_max_tunnels exact_max_pending)
      by (unfold default_max_tunnels, default_max_pending in *; lia).
    unfold exceeds, default_max_tunnels, default_max_pending.
    destruct (N.ltb_spec (90 * 1000) (100 * active_tunnel_count m)); [lia|].
    destruct (N.ltb_spec (90 * 10000) (100 * pending_request_count m)); [lia|].
    destruct (N.ltb_spec (70 * 1000) (100 * active_tunnel_count m)); [lia|].
    destruct (N.ltb_spec (70 * 10000) (100 * pending_request_count m)); [lia|]. done.
Qed.
End HealthSpec.
