(* ===== verification/Router.v ===== *)
(** The front door of the server: the routes of [Server::build_router] in
    [expose-server/src/server.rs] with the nested ones of [admin.rs], and which
    component answers a request.

    Matching a path against the routes is axum's: a class with its documented
    laws.  So are the text of a captured segment, the acceptance of a websocket
    upgrade, and whether the layers of a route see methods it has no handler
    for: parameters, and the theorem holds whatever they are. *)

From Stdlib Require Import Ascii.
From S2P Require Import Prelude RustStr Types Errors PendingStore Externals TunnelManager.
From S2P Require Import Http ServerConfig ServerProxy Admin Health.

Local Open Scope N_scope.

(** * Routes *)

Inductive Endpoint : Type :=
| HealthzRoute
| ReadyzRoute
| LivezRoute
| ConnectRoute
| TunnelsRoute
| TunnelRoute
| StatsRoute
| AdminHealthRoute.

(** [nest] puts its prefix before each route of the nested router. *)
Definition nest (prefix : string) (routes : list (string * Endpoint)) :
    list (string * Endpoint) := (fun r => (prefix +:+ r.1, r.2)) <$> routes.

(** [admin::router]. *)
Definition admin_routes : list (string * Endpoint) :=
  [("/tunnels", TunnelsRoute); ("/tunnels/:id", TunnelRoute); ("/stats", StatsRoute);
   ("/health", AdminHealthRoute)].

(** [Server::build_router]; everything else falls back on the proxy. *)
Definition routes : list (string * Endpoint) :=
  [("/healthz", HealthzRoute); ("/readyz", ReadyzRoute); ("/livez", LivezRoute);
   ("/connect", ConnectRoute)] ++ nest "/admin" admin_routes.

(** [get] answers GET and HEAD; one route has [delete] too. *)
Definition allows (e : Endpoint) (method : string) : bool :=
  String.eqb method "GET" || String.eqb method "HEAD" ||
  match e with TunnelRoute => String.eqb method "DELETE" | _ => false end.

(** * Matching *)

Definition one_segment (s : string) : bool :=
  negb (String.eqb s EmptyString) && str_forall (fun c => negb (Ascii.eqb c "/"%char)) s.

(** A path fits a route that is equal to it, and one that ends in [:id] where
    the path has one more segment, which is captured. *)
Definition fit (pattern path : string) : option (option string) :=
  if str_ends_with ":id" pattern then
    let prefix := str_take (String.length pattern - 3) pattern in
    if str_starts_with prefix path then
      let segment := str_drop (String.length prefix) path in
      if one_segment segment then Some (Some segment) else None
    else None
  else if String.eqb path pattern then Some None else None.

(** [axum::Router]: the route of a path, with what it captured. *)
Class AxumRouter : Type :=
  match_route : list (string * Endpoint) -> string -> option (Endpoint * option string).
Class AxumRouterLaws (R : AxumRouter) : Prop := {
  match_sound rs path e c : match_route rs path = Some (e, c) ->
    exists pattern, (pattern, e) ∈ rs /\ fit pattern path = Some c;
  match_complete rs path pattern e : (pattern, e) ∈ rs -> is_Some (fit pattern path) ->
    is_Some (match_route rs path);
}.

(** * Reserved paths *)

(** The paths the server keeps for itself, on every host. *)
Definition reserved (path : string) : Prop :=
  path ∈ ["/healthz"; "/readyz"; "/livez"; "/connect"; "/admin/tunnels"; "/admin/stats";
          "/admin/health"] \/
  exists id, path = "/admin/tunnels/" +:+ id /\ one_segment id = true.

Section Reserved.
Context `{R : AxumRouter, RL : !AxumRouterLaws R}.

Lemma fit_static (pattern path : string) (c : option string) :
  str_ends_with ":id" pattern = false -> fit pattern path = Some c <-> path = pattern /\ c = None.
Proof.
  unfold fit. intros ->. destruct (String.eqb_spec path pattern) as [->|Hn]; split; try done.
  - by intros [= <-].
  - by intros [_ ->].
  - by intros [? _].
Qed.

Lemma fit_tunnel (path : string) (c : option string) :
  fit "/admin/tunnels/:id" path = Some c <->
  exists id, path = "/admin/tunnels/" +:+ id /\ one_segment id = true /\ c = Some id.
Proof.
  unfold fit. change (str_ends_with ":id" "/admin/tunnels/:id") with true. cbn iota.
  change (str_take _ "/admin/tunnels/:id") with "/admin/tunnels/". cbv zeta.
  destruct (str_starts_with "/admin/tunnels/" path) eqn:Hp.
  - apply prefix_true_iff in Hp as [r ->]. rewrite (str_drop_app "/admin/tunnels/").
    destruct (one_segment r) eqn:Hs; split; try done.
    + intros [= <-]. by exists r.
    + intros (id & He & _ & ->). by apply (inj (String.append _)) in He as ->.
    + intros (id & He & Hs' & _). apply (inj (String.append _)) in He as ->. congruence.
  - split; [done|]. intros (id & -> & _). unfold str_starts_with in Hp. by rewrite prefix_app in Hp.
Qed.

(** The routes one by one. *)
Lemma routes_cases (Q : string -> Endpoint -> Prop) :
  Q "/healthz" HealthzRoute -> Q "/readyz" ReadyzRoute -> Q "/livez" LivezRoute ->
  Q "/connect" ConnectRoute -> Q "/admin/tunnels" TunnelsRoute ->
  Q "/admin/tunnels/:id" TunnelRoute -> Q "/admin/stats" StatsRoute ->
  Q "/admin/health" AdminHealthRoute ->
  forall pattern e, (pattern, e) ∈ routes -> Q pattern e.
Proof.
  intros H1 H2 H3 H4 H5 H6 H7 H8 pattern e Hin.
  assert (Forall (fun r => Q r.1 r.2) routes) as Hall by (by repeat constructor).
  by apply (proj1 (Forall_forall _ _) Hall (pattern, e)).
Qed.

Lemma fit_reserved (pattern path : string) (e : Endpoint) (c : option string) :
  (pattern, e) ∈ routes -> fit pattern path = Some c -> reserved path.
Proof.
  revert pattern e. apply (routes_cases (fun pattern _ => fit pattern path = Some c -> reserved path)).
  6: { intros (id & -> & Hs & _)%fit_tunnel. right; eauto. }
  all: intros [-> _]%fit_static; [|by vm_compute]; left; set_solver.
Qed.

Lemma reserved_fits (path : string) :
  reserved path -> exists pattern e, (pattern, e) ∈ routes /\ is_Some (fit pattern path).
Proof.
  intros [Hin|(id & -> & Hid)].
  - repeat (apply elem_of_cons in Hin as [->|Hin]); try by apply not_elem_of_nil in Hin.
    all: match goal with |- context [fit _ ?p] => exists p end; eexists; split;
      [unfold routes; cbn; repeat (apply elem_of_cons; first [left; reflexivity | right])
      | exists None; by apply fit_static; vm_compute].
  - exists "/admin/tunnels/:id", TunnelRoute. split; [unfold routes; cbn; set_solver|].
    exists (Some id). apply fit_tunnel. eauto.
Qed.

Lemma unreserved_proxied (path : string) : match_route routes path = None <-> ~ reserved path.
Proof using RL.
  split.
  - intros Hn (pattern & e & Hin & Hf)%reserved_fits.
    destruct (match_complete routes path pattern e Hin Hf) as [x Hx]. congruence.
  - intros Hn. destruct (match_route routes path) as [[e c]|] eqn:Hm; [|done].
    apply match_sound in Hm as (pattern & Hin & Hf). destruct Hn. by eapply fit_reserved.
Qed.

End Reserved.

(** * Answering *)

(** [axum]: the text of a captured segment, if it has one; the status with which
    an upgrade is rejected, if it is; and whether a route's layers run for a
    method the route does not have. *)
Class AxumRequests : Type := {
  segment_text : string -> option string;
  upgrade_rejected : Parts -> option N;
  layers_see_other_methods : bool;
}.

Section Front.
Context `{G : Governor, H : Sha256, P : ParseUuid, C : ConstantTimeEq, L : HttpLib, D : DebugMessage,
          R : AxumRouter, Q : AxumRequests}.

(** What a request meets: the clock, the current time as text, how long the
    server runs, and the outcomes of the proxy. *)
Record FrontRun : Type := {
  fr_now : Instant;
  fr_later : Instant;
  fr_timestamp : string;
  fr_elapsed : Duration;
  fr_proxy : RequestRun;
}.

Record FrontState : Type := {
  fs_proxy : ProxyState;
  fs_admin_limiter : gov_state;
  fs_answers : list Delivery;
}.

Inductive Answer : Type :=
| HealthAnswer (status : N) (health : HealthResponse)
| TextAnswer (status : N) (text : string)
| AdminAnswer (reply : AdminReply)
| BadPath                             (* the segment of [Path<String>] is no text *)
| UpgradeAnswer                       (* [tunnel_entry]: the websocket session starts *)
| UpgradeRejected (status : N)
| MethodNotAllowed
| ProxyAnswer (r : result Response).

Definition with_front (st : FrontState) (m : TunnelManager) (limiter : gov_state)
    (sent : list Delivery) : FrontState :=
  {| fs_proxy := {| px_manager := m; px_outboxes := px_outboxes (fs_proxy st) |};
     fs_admin_limiter := limiter; fs_answers := fs_answers st ++ sent |}.

(** The layers of the protected admin routes around what [inner] does: first the
    authorization, then the limiter. *)
Definition admin_layers (cfg : ServerConfig) (run : FrontRun) (parts : Parts) (st : FrontState)
    (inner : Answer * TunnelManager * list Delivery) : Answer * FrontState :=
  let m := px_manager (fs_proxy st) in
  match admin_auth cfg (pt_headers parts) with
  | Some denied => (AdminAnswer denied, with_front st m (fs_admin_limiter st) [])
  | None =>
      match admin_rate_limit (fr_now run) (fr_later run) (fs_admin_limiter st) with
      | (Some denied, limiter) => (AdminAnswer denied, with_front st m limiter [])
      | (None, limiter) =>
          let '(answer, m', sent) := inner in (answer, with_front st m' limiter sent)
      end
  end.

(** A protected handler, its path extracted first. *)
Definition admin_inner (cfg : ServerConfig) (r : option AdminRequest) (m : TunnelManager) :
    Answer * TunnelManager * list Delivery :=
  match r with
  | Some r => let '(answer, m', sent) := admin_handler cfg r m in (AdminAnswer answer, m', sent)
  | None => (BadPath, m, [])
  end.

Definition protected (e : Endpoint) : bool :=
  match e with TunnelsRoute | TunnelRoute | StatsRoute => true | _ => false end.

(** The request a protected route makes of the admin handlers. *)
Definition admin_request_of (parts : Parts) (e : Endpoint) (captured : option string) :
    option AdminRequest :=
  match e with
  | TunnelsRoute => Some ListTunnels
  | StatsRoute => Some GetStats
  | _ =>
      id ← captured ≫= segment_text;
      Some (if String.eqb (pt_method parts) "DELETE" then DeleteTunnel id else GetTunnel id)
  end.

Definition answer_route (cfg : ServerConfig) (run : FrontRun) (parts : Parts) (e : Endpoint)
    (captured : option string) (st : FrontState) : Answer * FrontState :=
  let m := px_manager (fs_proxy st) in
  match e with
  | HealthzRoute =>
      let '(status, health) := health_check cfg m (fr_elapsed run) in
      (HealthAnswer status health, st)
  | ReadyzRoute => let '(status, text) := readiness_check cfg m in (TextAnswer status text, st)
  | LivezRoute => let '(status, text) := liveness_check in (TextAnswer status text, st)
  | ConnectRoute =>
      (match upgrade_rejected parts with
       | Some status => UpgradeRejected status
       | None => UpgradeAnswer
       end, st)
  | AdminHealthRoute => (AdminAnswer (admin_health (fr_timestamp run) m), st)
  | TunnelsRoute | TunnelRoute | StatsRoute =>
      admin_layers cfg run parts st (admin_inner cfg (admin_request_of parts e captured) m)
  end.

(** A method without a handler. *)
Definition refuse_method (cfg : ServerConfig) (run : FrontRun) (parts : Parts) (e : Endpoint)
    (st : FrontState) : Answer * FrontState :=
  if protected e && layers_see_other_methods then
    admin_layers cfg run parts st (MethodNotAllowed, px_manager (fs_proxy st), [])
  else (MethodNotAllowed, st).

(** A request to the server; [None] is a panic of the proxy. *)
Definition serve_request (cfg : ServerConfig) (run : FrontRun) (parts : Parts) (body : Body)
    (st : FrontState) : option (Answer * FrontState) :=
  match match_route routes (pt_path parts) with
  | Some (e, captured) =>
      Some (if allows e (pt_method parts) then answer_route cfg run parts e captured st
            else refuse_method cfg run parts e st)
  | None =>
      '(r, proxy) ← proxy_with_state cfg (fr_proxy run) parts body (fs_proxy st);
      Some (ProxyAnswer r, {| fs_proxy := proxy; fs_admin_limiter := fs_admin_limiter st;
                              fs_answers := fs_answers st |})
  end.

Context {RL : AxumRouterLaws R} {CL : ConstantTimeEqLaws C}.

(** No tunnel is touched, and only an administrator changes anything but the
    admin limiter. *)
Definition kept_from_tunnels (cfg : ServerConfig) (parts : Parts) (st st' : FrontState)
    (answer : Answer) : Prop :=
  (forall r, answer <> ProxyAnswer r) /\
  px_outboxes (fs_proxy st') = px_outboxes (fs_proxy st) /\
  ((answer = MethodNotAllowed \/ ~ authorized cfg (pt_headers parts)) ->
     px_manager (fs_proxy st') = px_manager (fs_proxy st) /\ fs_answers st' = fs_answers st) /\
  (~ authorized cfg (pt_headers parts) -> fs_admin_limiter st' = fs_admin_limiter st).

Lemma kept_refl (cfg : ServerConfig) (parts : Parts) (st : FrontState) (answer : Answer) :
  (forall r, answer <> ProxyAnswer r) -> kept_from_tunnels cfg parts st st answer.
Proof. done. Qed.

Lemma admin_layers_kept (cfg : ServerConfig) (run : FrontRun) (parts : Parts) (st st' : FrontState)
    (answer a : Answer) (m' : TunnelManager) (sent : list Delivery) :
  admin_layers cfg run parts st (a, m', sent) = (answer, st') ->
  (forall r, a <> ProxyAnswer r) ->
  (a = MethodNotAllowed -> m' = px_manager (fs_proxy st) /\ sent = []) ->
  kept_from_tunnels cfg parts st st' answer.
Proof using CL.
  unfold admin_layers, kept_from_tunnels. intros Hrun Ha Hm.
  pose proof (admin_auth_iff cfg (pt_headers parts)) as Hauth.
  assert (forall m limiter, fs_answers (with_front st m limiter []) = fs_answers st) as Hnil
    by (intros; cbn; by rewrite app_nil_r).
  destruct (admin_auth cfg (pt_headers parts)) as [denied|].
  - injection Hrun as <- <-. by split_and!.
  - assert (authorized cfg (pt_headers parts)) as Hok by by apply Hauth.
    destruct (admin_rate_limit _ _ _) as [[denied|] l]; injection Hrun as <- <-.
    + by split_and!.
    + split_and!; [done..| |done]. intros [->|?]; [|done].
      destruct (Hm eq_refl) as [-> ->]. by rewrite Hnil.
Qed.

Lemma serve_reserved (cfg : ServerConfig) (run : FrontRun) (parts : Parts) (e : Endpoint)
    (c : option string) (st : FrontState) :
  exists answer st',
    (if allows e (pt_method parts) then answer_route cfg run parts e c st
     else refuse_method cfg run parts e st) = (answer, st') /\
    kept_from_tunnels cfg parts st st' answer.
Proof using CL.
  assert (forall i st0, (let '(a, _, _) := i in forall r, a <> ProxyAnswer r) ->
    (let '(a, m', sent) := i in a = MethodNotAllowed -> m' = px_manager (fs_proxy st) /\ sent = []) ->
    st0 = st -> exists answer st',
      admin_layers cfg run parts st0 i = (answer, st') /\ kept_from_tunnels cfg parts st st' answer)
    as Hadmin.
  { intros [[a m'] sent] st0 Ha Hm ->.
    destruct (admin_layers cfg run parts st (a, m', sent)) as [answer st'] eqn:E.
    exists answer, st'. split; [done|]. by eapply admin_layers_kept. }
  destruct (allows e (pt_method parts)).
  - assert (forall r, let '(a, m', sent) := admin_inner cfg r (px_manager (fs_proxy st)) in
              (forall x, a <> ProxyAnswer x) /\ a <> MethodNotAllowed) as Hinner.
    { intros [r|]; cbn; [|done]. by destruct (admin_handler cfg r _) as [[? ?] ?]. }
    destruct e; cbn [answer_route].
    5-7: match goal with |- context [admin_inner _ ?r _] => specialize (Hinner r) end;
      destruct (admin_inner _ _ _) as [[a m'] sent];
      (apply Hadmin; [apply Hinner | by intros ->; destruct Hinner | done]).
    + destruct (health_check _ _ _). eexists _, st. by split; [|apply kept_refl].
    + destruct (readiness_check _ _). eexists _, st. by split; [|apply kept_refl].
    + eexists _, st. by split; [|apply kept_refl].
    + eexists _, st. split; [done|]. apply kept_refl. by destruct (upgrade_rejected parts).
    + eexists _, st. by split; [|apply kept_refl].
  - unfold refuse_method. destruct (protected e && _); [by apply Hadmin|].
    eexists _, st. by split; [|apply kept_refl].
Qed.

(** C19: the server keeps a few paths for itself on every host.  A request to any
    other path is the proxy's, unchanged.  One to a reserved path never reaches
    a tunnel, not even the tunnel of its own host: nothing is put on any
    channel, a method the route does not have changes no tunnel and answers
    nobody, and without the administrator's token nothing at all changes. *)
Theorem reserved_paths_shadow_tunnels (cfg : ServerConfig) (run : FrontRun) (parts : Parts)
    (body : Body) (st : FrontState) :
  (~ reserved (pt_path parts) ->
     serve_request cfg run parts body st =
       (x ← proxy_with_state cfg (fr_proxy run) parts body (fs_proxy st);
        Some (ProxyAnswer x.1, {| fs_proxy := x.2; fs_admin_limiter := fs_admin_limiter st;
                                  fs_answers := fs_answers st |}))) /\
  (reserved (pt_path parts) ->
     exists answer st', serve_request cfg run parts body st = Some (answer, st') /\
       kept_from_tunnels cfg parts st st' answer).
Proof using RL CL.
  split.
  - intros Hn%unreserved_proxied. unfold serve_request. rewrite Hn.
    by destruct (proxy_with_state _ _ _ _ _) as [[r p]|].
  - intros Hr. unfold serve_request.
    destruct (match_route routes (pt_path parts)) as [[e c]|] eqn:Hm;
      [|by apply unreserved_proxied in Hm].
    destruct (serve_reserved cfg run parts e c st) as (answer & st' & -> & Hk). by exists answer, st'.
Qed.
End Front.
