(* ===== verification/Witnesses.v ===== *)
(** Concrete instances of the theorems that have hypotheses: each lemma applies
    one of them to a run or a state computed here, so that the hypotheses are
    known to hold together. *)

From Stdlib Require Import Ascii.
From S2P Require Import Prelude RustStr Types Errors Utils Protocol CodecInstance PendingStore.
From S2P Require Import Externals TunnelManager ManagerSpec ManagerSystem TaskPool Interleaving.
From S2P Require Import WebSocket Http.
From S2P Require Import ServerConfig ServerProxy LocalProxy Backoff ClientTunnel Streaming.
From S2P Require Import ServerProxySpec ClientSession ServerTcp ServerSession ServerSessionSpec.
From S2P Require Import TcpStreams Admin.
Import Concrete PlainHttp.

Local Open Scope N_scope.

#[local] Instance codec : BincodeCodec := bit_codec.
#[local] Instance codec_laws : BincodeLaws codec := bit_codec_laws.
#[local] Instance show_uuid : UuidDisplay := fmt_uint.
#[local] Instance show_message : DebugMessage := variant_name.
#[local] Instance no_socket_addr : ParseSocketAddr := fun _ => None.

(** * A manager with one tunnel and one pending request *)

Definition empty_manager : TunnelManager :=
  manager_new "example.com" RequestLimits_default 60 5 PendingRequestConfig_default 10 2.
Definition demo_manager : TunnelManager :=
  (register_tunnel 1 "demo" Http 77 (Some "key") empty_manager).2.
Definition demo_tunnel : ActiveTunnel :=
  registered_handle 1 "demo" Http 77 (Some "key") empty_manager.
Definition busy_manager : TunnelManager :=
  (register_pending_request 1 100 None 0 500 demo_manager).2.

Lemma empty_manager_wf : manager_wf empty_manager.
Proof. by apply manager_new_wf. Qed.

Lemma demo_manager_wf : manager_wf demo_manager.
Proof.
  apply register_wf; [apply empty_manager_wf|].
  intros k t Ht. by destruct (lookup_empty_Some k t).
Qed.

Lemma busy_manager_wf : manager_wf busy_manager.
Proof.
  apply register_pending_wf; [apply demo_manager_wf | by vm_compute|].
  intros id r Hr. by vm_compute in Hr.
Qed.

Lemma envelope_spec_witness :
  decode (match encode (Disconnect None) with Ok b => b | Err _ => [] end) = Ok (Disconnect None).
Proof.
  destruct (encode (Disconnect None)) as [b|e] eqn:E; [|by vm_compute in E].
  by apply (proj1 (envelope_spec (Disconnect None) b)).
Defined.

Lemma sweep_tick_spec_witness :
  (exists id r, ps_requests (tm_pending_store busy_manager) !! id = Some r) /\
  store_wf (sweep_tick 60000000000 (tm_pending_store busy_manager)).1.
Proof.
  split; [exists 100; eexists; vm_compute; reflexivity|].
  pose proof (sweep_tick_spec 60000000000 _ (mw_store _ busy_manager_wf)) as Hs.
  destruct (sweep_tick _ _) as [s' sent]; apply Hs.
Defined.

Definition sample : list ascii := ["A"; "b"; "3"; "d"; "E"; "f"; "9"; "h"]%char.

Lemma allocate_subdomain_spec_witness :
  alphanumeric_sample sample /\ valid_label "ab3def9h".
Proof.
  assert (alphanumeric_sample sample) as Hs by (split; [done | by repeat constructor]).
  split; [done|].
  pose proof (allocate_subdomain_spec None [sample] demo_manager
                (Forall_cons_2 _ _ _ Hs (Forall_nil_2 _))) as Ha.
  destruct (allocate_subdomain None [sample] demo_manager) as [s|e] eqn:E;
    [|vm_compute in E; discriminate E].
  assert (s = "ab3def9h") as -> by (vm_compute in E; congruence). apply Ha.
Defined.

Lemma register_pending_spec_witness :
  manager_wf (register_pending_request 1 100 None 0 500 demo_manager).2.
Proof.
  pose proof (register_pending_spec 1 100 None 0 500 demo_manager demo_manager_wf) as Hr.
  destruct (register_pending_request 1 100 None 0 500 demo_manager) as [res m'].
  apply Hr; [by vm_compute|]. intros id r Hid; by vm_compute in Hid.
Defined.

Lemma disconnect_tunnel_spec_witness :
  manager_wf (disconnect_tunnel 1 busy_manager).1.2 /\
  (disconnect_tunnel 1 busy_manager).1.1 = true.
Proof.
  pose proof (disconnect_tunnel_spec 1 busy_manager busy_manager_wf) as Hd.
  split; [|by vm_compute]. destruct (disconnect_tunnel 1 busy_manager) as [[f m'] sent]. apply Hd.
Defined.

Lemma check_rate_limit_spec_witness :
  exists c', tm_cells (check_rate_limit demo_tunnel 0 0 demo_manager).2 !! 1 = Some c' /\
             tl_requests_forwarded c' = 1.
Proof.
  pose proof (check_rate_limit_spec demo_tunnel 0 0 demo_manager
    {| tl_rate_limiter := (5 : gov_state); tl_requests_forwarded := 0; tl_rate_limit_hits := 0 |})
    as Hc.
  destruct Hc as (c' & Hc' & _ & Hr); [by vm_compute | done | done|].
  exists c'; split; [exact Hc' | apply Hr].
Defined.

(** * An execution: a tunnel, a request and its answer *)

Definition sys0 : Sys := sys_init empty_manager.
Definition sys1 : Sys :=
  {| sy_manager := demo_manager; sy_issued := ∅; sy_log := [] |}.
Definition sys2 : Sys :=
  {| sy_manager := busy_manager; sy_issued := <[500 := 100]> ∅; sy_log := [] |}.
Definition sys3 : Sys :=
  {| sy_manager := (fulfill demo_tunnel (HttpResponse 100 200 [] []) busy_manager).1;
     sy_issued := <[500 := 100]> ∅;
     sy_log := [(500, HttpResponse 100 200 [] [])] |}.

Lemma sys3_reachable :
  serially_reachable "example.com" RequestLimits_default 60 5 PendingRequestConfig_default 10 2 sys3.
Proof.
  apply (reachable_step _ _ sys2); [apply (reachable_step _ _ sys1);
    [apply (reachable_step _ _ sys0); [by apply reachable_init|]|]|].
  - apply (step_register sys0 1 "demo" Http 77 (Some "key")).
    intros k t Ht. by destruct (lookup_empty_Some k t).
  - apply (step_request sys1 1 100 None 0 500); by vm_compute.
  - apply (step_fulfill sys2 demo_tunnel (HttpResponse 100 200 [] [])).
Qed.

Lemma width_ok : pc_max_global PendingRequestConfig_default <= usize_max.
Proof. by vm_compute. Qed.

Lemma limits_hold_witness : active_tunnel_count (sy_manager sys3) <= 10.
Proof.
  destruct (limits_hold "example.com" RequestLimits_default 60 5 PendingRequestConfig_default 10 2
              sys3 width_ok sys3_reachable) as (Hm & _).
  apply Hm; reflexivity.
Defined.

Lemma counters_exact_witness : ps_per_tunnel (tm_pending_store (sy_manager sys3)) !! 1 = None.
Proof.
  destruct (counters_exact "example.com" RequestLimits_default 60 5 PendingRequestConfig_default 10 2
              sys3 width_ok sys3_reachable) as (_ & _ & Hc).
  apply Hc; vm_compute; reflexivity.
Defined.

Lemma answered_at_most_once_witness : NoDup (sy_log sys3).*1 /\ 500 ∈ (sy_log sys3).*1.
Proof.
  split; [|by apply list_elem_of_singleton].
  destruct (answered_at_most_once "example.com" RequestLimits_default 60 5
              PendingRequestConfig_default 10 2 sys3 width_ok sys3_reachable) as (Hn & _).
  exact Hn.
Defined.

(** * Interleavings *)

Definition two_answers : list (Choice Task) :=
  [Start (RegGlobal (race_request 7)); Run 0; Run 0; Run 0; Run 0; Run 0;
   Start (RemTake 7 (timed_out_response (race_request 7)));
   Start (RemTake 7 (timed_out_response (race_request 7)));
   Run 1; Run 0; Run 0; Run 0; Run 0; Run 0].

Definition two_answers_end : Tasks := default tasks_init (race 3 (race_config 10) two_answers).

Lemma two_answers_reachable : tasks_reachable 3 (race_config 10) two_answers_end.
Proof. apply scheduled with two_answers. by vm_compute. Qed.

Lemma interleaved_at_most_once_witness : NoDup (pl_log two_answers_end).*1.
Proof.
  apply (interleaved_at_most_once 3 (race_config 10) two_answers_end), two_answers_reachable.
Defined.

Lemma global_limit_overshoot_witness : store_len (pl_store two_answers_end) <= 12.
Proof.
  apply (global_limit_overshoot 3 (race_config 10) two_answers_end);
    [lia | apply two_answers_reachable].
Defined.

(** * Configuration *)

Definition one_key : list SecureApiKey :=
  match deserialize_api_keys ["0123456789abcdef"] with Ok ks => ks | Err _ => [] end.

Definition keyed_config : ServerConfig :=
  {| sv_bind_address := Some "0.0.0.0:8080"; sv_https_bind_address := None;
     sv_tls_enabled := false; sv_tls_cert_path := None; sv_tls_key_path := None;
     sv_admin_bind := None; sv_domain := "example.com";
     sv_rate_limit_requests_per_minute := 60; sv_rate_limit_burst_size := 5;
     sv_api_keys := one_key; sv_request_body_limit_bytes := 4;
     sv_request_timeout_secs := 30; sv_tcp_tuning := TcpTuningConfig_default;
     sv_admin := AdminConfig_default; sv_pending_requests := PendingRequestConfig_default;
     sv_streaming := StreamingConfig_default; sv_metrics := MetricsConfig_default;
     sv_bind_host := "0.0.0.0"; sv_limits := ResourceLimits_default;
     sv_legacy_max_tunnels := Some 7 |}.

Lemma validate_api_key_spec_witness :
  validate_api_key keyed_config (Some "0123456789abcdef") = true.
Proof.
  apply (validate_api_key_spec ["0123456789abcdef"] one_key keyed_config
           (Some "0123456789abcdef")); [reflexivity | reflexivity |].
  right. exists "0123456789abcdef". split; [reflexivity | by apply list_elem_of_singleton].
Defined.

Definition loaded : ServerConfig :=
  match load (Some (Ok keyed_config)) (Some "PRODUCTION") with
  | Ok c => c
  | Err _ => keyed_config
  end.

Lemma load_spec_witness :
  ac_insecure_admin (sv_admin loaded) = false /\ li_max_tunnels (sv_limits loaded) = 7.
Proof.
  destruct (load_spec (Ok keyed_config) (Some "PRODUCTION") loaded) as (c0 & Hc & Hp & _ & Hl & _);
    [vm_compute; reflexivity|].
  injection Hc as <-. split; [|exact Hl]. apply Hp. by exists "PRODUCTION".
Defined.

(** * A proxied request *)

Definition demo_parts : Parts :=
  {| pt_method := "POST"; pt_path_and_query := Some "/a?b"; pt_path := "/a";
     pt_headers := [("host", "demo.example.com:8080"); ("x-a", "1")] |}.
Definition demo_body : Body := {| body_upper := None; body_frames := [Data [1; 2]; Data [3]] |}.
Definition demo_run (w : WaitOutcome) : RequestRun :=
  {| rr_limiter_now := 0; rr_limiter_later := 0; rr_request_id := 9; rr_now := 0;
     rr_channel := 90; rr_wait := w |}.
Definition open_outbox : Outbox := {| ob_sent := []; ob_capacity := None |}.
Definition demo_state : ProxyState :=
  {| px_manager := demo_manager; px_outboxes := <[77 := open_outbox]> ∅ |}.

Lemma proxied_request_spec_witness :
  exists resp st', proxy_with_state keyed_config
      (demo_run (Answered (HttpResponse 9 201 [("a", "b")] [5]))) demo_parts demo_body demo_state
    = Some (Ok resp, st') /\ rs_status resp = 201 /\ rs_body resp = [5].
Proof.
  destruct (proxy_with_state keyed_config (demo_run (Answered (HttpResponse 9 201 [("a", "b")] [5])))
              demo_parts demo_body demo_state) as [[[resp|e] st']|] eqn:E;
    [|vm_compute in E; discriminate E|vm_compute in E; discriminate E].
  exists resp, st'. split; [reflexivity|].
  destruct (proxied_request_spec _ _ _ _ _ _ _ E) as (_ & Hr).
  destruct (Hr resp eq_refl) as (s & t & id & status & hs & bytes & _ & _ & _ & Hw & -> & _ & ->).
  cbn in Hw. injection Hw as <- <- <- <-. split; reflexivity.
Defined.

Lemma buffered_request_spec_witness :
  exists res st', proxy_with_state keyed_config (demo_run Elapsed) demo_parts demo_body demo_state
    = Some (res, st') /\
    px_outboxes st' = <[77 := {| ob_sent := [HttpRequest 9 "POST" "/a?b"
      [("host", "demo.example.com:8080"); ("x-a", "1")] [1; 2; 3]]; ob_capacity := None |}]>
      (px_outboxes demo_state).
Proof.
  destruct (buffered_request_spec keyed_config (demo_run Elapsed) demo_parts demo_body demo_state
              "demo" demo_tunnel open_outbox (check_rate_limit demo_tunnel 0 0 demo_manager).2)
    as (res & st' & Hrun & _ & Hc); try (vm_compute; reflexivity).
  exists res, st'. split; [exact Hrun|]. destruct Hc as [Hc _]; exact Hc.
Defined.

(** * Streaming *)

Definition small_stream : StreamingConfig :=
  {| sc_enabled := true; sc_threshold_bytes := 1; sc_chunk_size_bytes := 2;
     sc_max_body_bytes := 4 |}.
Definition http_client : ClientState :=
  {| cs_http := Some (LocalProxy_new "localhost" 3000); cs_tcp := None |}.

Lemma streamed_request_arrives_witness :
  exists ms, stream small_stream 9 demo_parts demo_body None open_outbox =
    Some (Ok tt, {| ob_sent := ms; ob_capacity := None |}) /\ length ms = 4%nat /\
  exists s', deliver ms http_client =
    (Ok tt, s', [SpawnProxy 9 "POST" "/a?b" [("host", "demo.example.com:8080"); ("x-a", "1")]
                   [1; 2; 3]]).
Proof.
  destruct (streamed_request_arrives small_stream 9 demo_parts demo_body None open_outbox [1; 2; 3])
    as (ms & Hs & _ & Hd);
    [split; vm_compute; congruence | vm_compute; congruence | reflexivity | reflexivity
    | vm_compute; congruence | vm_compute; congruence |].
  exists ms; split; [exact Hs|]. destruct (Hd http_client _ eq_refl) as (s' & Hd' & _).
  split; [|exists s'; exact Hd'].
  assert (stream small_stream 9 demo_parts demo_body None open_outbox =
    Some (Ok tt, {| ob_sent := [HttpRequestStart 9 "POST" "/a?b"
             [("host", "demo.example.com:8080"); ("x-a", "1")] None;
           HttpRequestChunk 9 [1; 2] 0; HttpRequestChunk 9 [3] 1; HttpRequestEnd 9];
           ob_capacity := None |})) as He by (vm_compute; reflexivity).
  rewrite He in Hs. injection Hs as <-. reflexivity.
Defined.

Definition long_body : Body :=
  {| body_upper := None; body_frames := [Data [1; 2; 3]; Data [4; 5]] |}.

Lemma oversized_stream_left_open_witness :
  exists ms size (sent : Bytes), stream small_stream 9 demo_parts long_body None open_outbox =
    Some (Err (PayloadTooLarge size 4), {| ob_sent := ms; ob_capacity := None |}) /\
    len sent <= 4.
Proof.
  destruct (oversized_stream_left_open small_stream 9 demo_parts long_body None open_outbox
              [1; 2; 3; 4; 5]) as (ms & size & sent & Hs & _ & Hl & _);
    [reflexivity | reflexivity | reflexivity | reflexivity | vm_compute; congruence
    | vm_compute; congruence |].
  exists ms, size, sent. split; [exact Hs | exact Hl].
Defined.

(** * The client *)

Lemma backoff_schedule_witness :
  delays 3 (ReconnectBackoff_new 1000 10) =
    [Some (from_secs 1); Some (from_secs 2); Some (from_secs 4)].
Proof.
  destruct (backoff_schedule 1000 10 3 eq_refl) as (Hd & _).
  rewrite Hd by (right; vm_compute; congruence). vm_compute; reflexivity.
Defined.

Definition refused_turn (e : ExposeError) : Turn :=
  {| tn_cancelled_before := false; tn_session := fun _ => Reconnect e false;
     tn_cancelled_after := false; tn_cancelled_sleeping := false |}.
Definition two_attempts : TunnelConfig :=
  {| tc_protocol := Http; tc_local_host := "127.0.0.1"; tc_local_port := 3000;
     tc_subdomain := None; tc_server_url := "ws://localhost"; tc_api_key := None;
     tc_reconnect_max_attempts := 2; tc_reconnect_base_delay_ms := 100;
     tc_tcp_tuning := TcpTuningConfig_default |}.
Definition three_errors : list ExposeError := [Internal "a"; Internal "b"; Internal "c"].

Lemma run_with_token_spec_witness :
  lt_result (run_with_token two_attempts (refused_turn <$> three_errors)) =
    Some (Err (Internal "c")).
Proof.
  destruct (run_with_token_spec two_attempts (refused_turn <$> three_errors) three_errors)
    as ((e & He & Hr) & _);
    [discriminate | reflexivity | repeat constructor | reflexivity |].
  injection He as <-. exact Hr.
Defined.

Lemma teardown_waits_for_ping_witness :
  exists s, td_run [Tick; WriterTakes; Tick] (teardown_init 0 []) = Some s /\ td_writer s = None.
Proof.
  eexists; split; [reflexivity|].
  eapply (teardown_waits_for_ping 0 [] [Tick; WriterTakes; Tick]);
    [constructor | repeat constructor | reflexivity].
Defined.

Lemma version_refusal_roundtrip_witness :
  parse_server_version "Client version 100 is incompatible with server version 200. Upgrade the client to version 200 or newer."
    = Some 200.
Proof.
  apply (version_refusal_roundtrip 100 200); [vm_compute; congruence | vm_compute; reflexivity].
Defined.

Definition demo_request : ConnectRequest := ConnectRequest_new None (Some "demo") Http "2.0".
Definition bytes_of (m : Message) : Bytes :=
  match encode m with Ok b => b | Err _ => [] end.

Lemma handshake_spec_witness :
  hs_result (perform_handshake (fun _ => Ok tt) demo_request
     [InFrame (WsPing [1]); InFrame (WsClose None)]) =
  Some (Err (network "Server closed connection during handshake: no reason provided. Verify your API key and requested subdomain.")).
Proof.
  destruct (handshake_spec (fun _ => Ok tt) demo_request (bytes_of (Connect demo_request))
              [InFrame (WsPing [1])] [] (InFrame (WsClose None))
              (Err (network "Server closed connection during handshake: no reason provided. Verify your API key and requested subdomain.")))
    as [Hh _]; [reflexivity | vm_compute; reflexivity | repeat constructor | reflexivity |].
  change [InFrame (WsPing [1]); InFrame (WsClose None)] with
    ([InFrame (WsPing [1])] ++ [InFrame (WsClose None)]).
  rewrite Hh. reflexivity.
Defined.

Definition tcp_client : LoopState :=
  {| ls_client := {| cs_http := None; cs_tcp := Some (TcpLocalProxy_new "localhost" 22) |};
     ls_effects := []; ls_outgoing := [] |}.

Lemma early_tcp_data_ends_session_witness :
  exists st', session_loop [EvIncoming (InFrame (WsBinary (bytes_of (TcpConnect 5 "1.2.3.4:5"))));
                            EvIncoming (InFrame (WsBinary (bytes_of (TcpData 5 [1] 0))))]
                tcp_client =
    (Some (TermError (InvalidMessage "TCP data for unknown connection 5")), st').
Proof.
  destruct (early_tcp_data_ends_session 5 "1.2.3.4:5" [1] 0 (bytes_of (TcpConnect 5 "1.2.3.4:5"))
              (bytes_of (TcpData 5 [1] 0)) tcp_client (TcpLocalProxy_new "localhost" 22) [])
    as (st' & Hl & _);
    [reflexivity | reflexivity | vm_compute; reflexivity | vm_compute; reflexivity |].
  exists st'. exact Hl.
Defined.

Lemma shutdown_ends_session_witness :
  exists st', session_loop [EvIncoming (InFrame (WsPong [])); EvShutdown] tcp_client =
    (Some TermShutdown, st').
Proof.
  destruct (shutdown_ends_session [WsPong []] [] tcp_client) as ((st' & Hs & _) & _).
  { repeat constructor. intros s; by exists s, []. }
  exists st'. exact Hs.
Defined.

(** * Sessions on the server *)

Definition session_start (m : TunnelManager) : ServerState :=
  {| ss_manager := m; ss_registry := registry_new; ss_queue := []; ss_answers := [] |}.
Definition session_of (incoming : list Incoming) : SessionRun :=
  {| sr_tunnel_id := 1; sr_sender := 77; sr_samples := [sample]; sr_bound := Ok 4000;
     sr_accepts := fun _ => true; sr_incoming := incoming |}.
Definition no_debug (reason : option string) : string := EmptyString.

Lemma only_admitted_clients_matter_witness :
  exists e, (handle_socket no_debug keyed_config
    (session_of [InFrame (WsBinary (bytes_of (Connect demo_request)))])
    (session_start empty_manager)).1 = Err e.
Proof.
  assert (wait_for_connect no_debug (fun _ => true)
            [InFrame (WsBinary (bytes_of (Connect demo_request)))] (session_start empty_manager) =
          (Ok (demo_request, []), session_start empty_manager)) as Hw by (vm_compute; reflexivity).
  pose proof (only_admitted_clients_matter no_debug keyed_config
    (session_of [InFrame (WsBinary (bytes_of (Connect demo_request)))])
    (session_start empty_manager)) as Ho.
  destruct (handle_socket no_debug keyed_config _ _) as [res s'].
  destruct Ho as [(e & He) _]; [|exists e; exact He].
  intros req rest s0 Hreq [_ Hk]. cbn [sr_accepts sr_incoming session_of] in Hreq.
  rewrite Hw in Hreq. injection Hreq as <- _ _. vm_compute in Hk. discriminate Hk.
Defined.

Lemma refusals_reported_witness :
  exists e s', admit_client keyed_config (session_of []) demo_request (session_start demo_manager)
    = (Err e, s') /\ ss_manager s' = demo_manager.
Proof.
  destruct (admit_client keyed_config (session_of []) demo_request (session_start demo_manager))
    as [[t|e] s'] eqn:E; [vm_compute in E; discriminate E|].
  exists e, s'; split; [reflexivity|].
  destruct (refusals_reported keyed_config (session_of []) demo_request
              (session_start demo_manager) e s' (fun _ => eq_refl) E) as (Hm & _).
  exact Hm.
Defined.


Lemma demo_valid : valid_label "demo".
Proof. by split. Qed.

Lemma failed_session_leaks_witness :
  exists e s', run_tunnel keyed_config (session_of []) demo_tunnel [InError "reset"]
      (session_start demo_manager) = (Err e, s') /\
    allocate_subdomain (Some "demo") [] (ss_manager s') = Err (SubdomainTaken "demo").
Proof.
  destruct (run_tunnel keyed_config (session_of []) demo_tunnel [InError "reset"]
              (session_start demo_manager)) as [[u|e] s'] eqn:E; [vm_compute in E; discriminate E|].
  exists e, s'; split; [reflexivity|].
  apply (failed_session_leaks keyed_config (session_of []) demo_tunnel [InError "reset"]
           (session_start demo_manager) s' e []);
    [vm_compute; reflexivity | apply demo_valid | exact E].
Defined.

Lemma stale_session_removes_successor_witness :
  exists m2, manager_get "demo" m2 <> None /\
    manager_get "demo"
      (ss_manager (clean_up demo_tunnel (with_manager (session_start demo_manager) m2 []))) = None.
Proof.
  destruct (disconnect_tunnel 1 demo_manager) as [[found m1] sent] eqn:Ed.
  destruct (register_tunnel 2 "demo" Http 78 None m1) as [[t2|e] m2] eqn:Er.
  - destruct (stale_session_removes_successor 1 2 demo_tunnel t2 (session_start demo_manager)
                m1 m2 sent Http 78 None) as (_ & H2 & H3);
      [apply demo_manager_wf | vm_compute; reflexivity | reflexivity
      | vm_compute in Ed |- *; injection Ed as <- <- <-; reflexivity | exact Er |].
    exists m2. split; [|exact H3]. change "demo" with (at_subdomain demo_tunnel).
    rewrite H2. discriminate.
  - vm_compute in Ed; injection Ed as <- <- <-. vm_compute in Er. discriminate Er.
Defined.

(** * TCP streams *)

Lemma tcp_bytes_preserved_witness :
  exists ms, connection_loop 5 (reads_of [[1]; [2; 3]]) 0 open_outbox =
    (Some true, {| ob_sent := ms; ob_capacity := None |}) /\ length ms = 3%nat.
Proof.
  set (p := with_connections (TcpLocalProxy_new "localhost" 22)
              (<[5 := {| th_written := []; th_broken := None |}]> ∅)).
  set (h := {| tth_tunnel := demo_tunnel; tth_port := 4000;
               tth_connections := <[5 := {| tcn_written := []; tcn_broken := None |}]> ∅ |}).
  destruct (tcp_bytes_preserved 5 1 [[1]; [2; 3]] open_outbox 3
              {| cs_http := None; cs_tcp := Some p |} p (<[1 := h]> ∅) h)
    as ((ms & close & s' & s'' & Hl & _) & _);
    [repeat constructor; discriminate | reflexivity | cbn; lia | reflexivity | reflexivity
    | reflexivity | reflexivity |].
  exists (ms ++ [close]). split; [exact Hl|].
  vm_compute in Hl. injection Hl as Hm. change ([] ++ ms ++ [close]) with (ms ++ [close]) in Hm.
  apply (f_equal length) in Hm. vm_compute in Hm |- *. congruence.
Defined.

(** * The admin API *)

#[local] Instance one_uuid : ParseUuid := parse_uint u64_max.

Definition admin_config : ServerConfig :=
  with_admin keyed_config
    {| ac_token := Some {| key_bytes := "admin-token-1234"; key_hash := "admin-token-1234" |};
       ac_insecure_admin := false; ac_bind_address := None; ac_rate_limit_per_minute := 60 |}.

Lemma admin_access_spec_witness :
  exists answer limiter' m' sent,
    admin_request admin_config [("authorization", "Bearer admin-token-1234")] (DeleteTunnel "1")
      0 0 (admin_limiter 60) busy_manager = (answer, limiter', m', sent) /\
    (answer, m', sent) = admin_handler admin_config (DeleteTunnel "1") busy_manager /\
    ar_status answer = 200.
Proof.
  destruct (admin_request admin_config [("authorization", "Bearer admin-token-1234")]
              (DeleteTunnel "1") 0 0 (admin_limiter 60) busy_manager)
    as [[[answer limiter'] m'] sent] eqn:E.
  exists answer, limiter', m', sent. split; [reflexivity|].
  pose proof (admin_access_spec admin_config [("authorization", "Bearer admin-token-1234")]
                (DeleteTunnel "1") 0 0 (admin_limiter 60) busy_manager) as Ha.
  rewrite E in Ha. destruct Ha as [_ Ha].
  assert (authorized admin_config [("authorization", "Bearer admin-token-1234")]) as Hauth.
  { right. eexists _, "Bearer admin-token-1234". repeat split; reflexivity. }
  destruct (Ha Hauth) as [_ Hr]. split; [exact Hr|].
  vm_compute in E. injection E as <- _ _ _. reflexivity.
Defined.
