(* ===== verification/MultiWitnesses.v ===== *)
(** Concrete instances of the theorems about registration races, health, the
    client's configuration and the client of several tunnels. *)

From Stdlib Require Import Ascii.
From S2P Require Import Prelude RustStr Types Errors Utils Protocol CodecInstance PendingStore.
From S2P Require Import Externals TunnelManager ManagerSpec TaskPool Registration WebSocket Http.
From S2P Require Import ServerConfig ServerProxy LocalProxy Backoff ClientConfig ClientTunnel.
From S2P Require Import Streaming ClientSession ServerSession Multi MultiSpec MultiRefinement.
From S2P Require Import MultiServed Health Splice TcpStreams TcpListener ServerRun Contact Witnesses.
Import Concrete.

Local Open Scope N_scope.

#[local] Instance codec : BincodeCodec := bit_codec.
#[local] Instance codec_laws : BincodeLaws codec := bit_codec_laws.
#[local] Instance show_uuid : UuidDisplay := fmt_uint.
#[local] Instance no_socket_addr : ParseSocketAddr := fun _ => None.
#[local] Instance lower : UnicodeLower := to_ascii_lowercase.
#[local] Instance lower_laws : UnicodeLowerLaws lower.
Proof. by constructor. Qed.
#[local] Instance order : MapOrder := elements.
#[local] Instance order_laws : MapOrderLaws order.
Proof. by constructor. Qed.
#[local] Instance debug : DebugText :=
  {| debug_reason := default "None"; debug_close := default "None" |}.

(** A library that only reads ASCII header values, as [to_str] does. *)
#[local] Instance ascii_http : HttpLib := {|
  header_value_to_str v := if ascii_string v then Some v else None;
  header_name_parse := Some;
  header_value_parse := Some;
  status_from_u16 n := if (100 <=? n) && (n <? 1000) then Some n else None;
|}.

Definition tx_open (n : nat) : Result string unit := Ok tt.

(** * Registration *)

Definition race_limits : RegLimits := limits_of empty_manager.

Definition three_tunnels : list (Choice RegTask) :=
  two_registrations (race_tunnel 1 "one") (race_tunnel 2 "two").

Lemma registration_overshoot_witness :
  exists st, reg_run 2 race_limits three_tunnels = Some st /\ msize (pl_store st) <= 11.
Proof.
  destruct (reg_run 2 race_limits three_tunnels) as [st|] eqn:E; [|vm_compute in E; discriminate E].
  exists st; split; [reflexivity|].
  apply (registration_overshoot 2 empty_manager st); [reflexivity | lia |].
  eapply scheduled; exact E.
Defined.

(** * Health *)

Definition serving_config (max_global : N) : ServerConfig :=
  {| sv_bind_address := None; sv_https_bind_address := None; sv_tls_enabled := false;
     sv_tls_cert_path := None; sv_tls_key_path := None; sv_admin_bind := None;
     sv_domain := "example.com"; sv_rate_limit_requests_per_minute := 60;
     sv_rate_limit_burst_size := 5; sv_api_keys := []; sv_request_body_limit_bytes := 4;
     sv_request_timeout_secs := 30; sv_tcp_tuning := TcpTuningConfig_default;
     sv_admin := AdminConfig_default;
     sv_pending_requests :=
       {| pc_max_per_tunnel := 100; pc_max_global := max_global; pc_sweep_interval := from_secs 1;
          pc_default_timeout := from_secs 30 |};
     sv_streaming := StreamingConfig_default; sv_metrics := MetricsConfig_default;
     sv_bind_host := "0.0.0.0"; sv_limits := ResourceLimits_default;
     sv_legacy_max_tunnels := None |}.

Definition serving_manager (max_global : N) : TunnelManager :=
  let c := serving_config max_global in
  (register_pending_request 1 100 None 0 500
    (register_tunnel 1 "demo" Http 77 None
      (manager_new (sv_domain c) RequestLimits_default 60 5 (sv_pending_requests c) 1000 0)).2).2.

Lemma serving_manager_wf (max_global : N) :
  max_global <= usize_max -> manager_wf (serving_manager max_global).
Proof.
  intros Hw. apply register_pending_wf; [|done | intros id r Hr; by vm_compute in Hr].
  apply register_wf; [by apply manager_new_wf | intros k t Ht; by destruct (lookup_empty_Some k t)].
Qed.

Lemma health_check_spec_witness :
  (health_check (serving_config 10000) (serving_manager 10000) 0).1 = 200.
Proof.
  pose proof (health_check_spec (serving_config 10000) (serving_manager 10000) 0
                (serving_manager_wf 10000 ltac:(vm_compute; congruence)) (conj eq_refl eq_refl)
                eq_refl ltac:(vm_compute; congruence)) as Hh.
  destruct (health_check _ _ _) as [status health] eqn:E. destruct Hh as (_ & _ & _ & ->).
  vm_compute in E. injection E as _ <-. reflexivity.
Defined.

Lemma full_store_reports_healthy_witness :
  register_pending_request 1 101 None 0 501 (serving_manager 1) =
    (Err (CapacityExceeded "too many pending requests globally"), serving_manager 1) /\
  hr_status (health_check (serving_config 1) (serving_manager 1) 0).2 = Healthy.
Proof.
  destruct (full_store_reports_healthy (serving_config 1) (serving_manager 1) 0) as (Hr & _ & Hs);
    [apply serving_manager_wf; vm_compute; congruence | split; reflexivity | reflexivity
    | vm_compute; congruence | vm_compute; congruence | vm_compute; reflexivity |].
  split; [apply Hr | exact Hs].
Defined.

(** * Configuration files *)

Definition two_entries : MultiFileConfig :=
  {| mfc_server_url := Some "wss://tunnel.example.com"; mfc_api_key := None;
     mfc_reconnect_max_attempts := None; mfc_reconnect_base_delay_ms := None;
     mfc_tunnels :=
       [{| mf_name := Some "web"; mf_protocol := None; mf_local_host := None;
           mf_local_port := 3000; mf_subdomain := Some "Demo" |};
        {| mf_name := None; mf_protocol := Some Tcp; mf_local_host := None;
           mf_local_port := 22; mf_subdomain := None |}] |}.

#[local] Instance demo_files : ClientLibs := {|
  read_to_string _ := Ok EmptyString;
  parse_file_config _ := Ok FileConfig_default;
  parse_multi_config _ := Ok two_entries;
  parse_url _ := Ok tt;
|}.

Definition multi_config : MultiRuntimeConfig :=
  match load_multi_runtime_config "tunnels.toml" with
  | Ok c => c
  | Err _ => {| mrc_server_url := EmptyString; mrc_api_key := None; mrc_reconnect_max_attempts := 0;
                mrc_reconnect_base_delay_ms := 0; mrc_tunnels := [] |}
  end.

Lemma load_multi_spec_witness :
  length (mrc_tunnels multi_config) = 2%nat /\
  Forall2 (fun entry t => tc_subdomain t = mf_subdomain entry ≫= sanitize_subdomain)
    (mfc_tunnels two_entries) (mrc_tunnels multi_config).
Proof.
  split; [vm_compute; reflexivity|].
  pose proof (load_multi_spec "tunnels.toml" EmptyString two_entries eq_refl eq_refl) as Hl.
  unfold multi_config.
  destruct (load_multi_runtime_config "tunnels.toml") as [cfg|e] eqn:E;
    [|vm_compute in E; discriminate E].
  destruct Hl as (_ & _ & _ & Hf). eapply Forall2_impl; [exact Hf|].
  intros entry t (_ & _ & _ & _ & _ & Hs & _); exact Hs.
Defined.

(** * Several tunnels *)

Definition ack_of (id : Uuid) (subdomain : string) (p : TunnelProtocol) : ConnectResponse :=
  ConnectResponse_build id subdomain "example.com" p false None RequestLimits_default.
Definition two_acks : list Incoming :=
  [InFrame (WsBinary (bytes_of (ConnectAck (ack_of 1 "demo" Http))));
   InFrame (WsBinary (bytes_of (ConnectAck (ack_of 2 "ssh" Tcp))))].

Definition two_tunnels : MultiTunnelManager :=
  match (establish tx_open "2.0" (mrc_tunnels multi_config) two_acks multi_new []).1 with
  | Ok (m, _) => m
  | Err _ => multi_new
  end.

Lemma two_tunnels_established :
  (establish tx_open "2.0" (mrc_tunnels multi_config) two_acks multi_new []).1 =
    Ok (two_tunnels, []).
Proof. vm_compute; reflexivity. Qed.

Lemma two_tunnels_wf : multi_wf two_tunnels.
Proof. eapply establish_wf; [apply multi_new_wf | | | apply two_tunnels_established]; reflexivity. Qed.

Definition stream_start : MultiEvent :=
  MvIncoming (InFrame (WsBinary
    (bytes_of (HttpRequestStart 9 "POST" "/a" [("host", "demo.example.com")] None)))).

Lemma session_stays_wf_witness :
  let m := ms_manager (multi_loop tx_open [stream_start]
             {| ms_manager := two_tunnels; ms_tasks := []; ms_outgoing := [] |}).2 in
  exists m', (multi_handle_message (HttpRequestEnd 9) m).1.2 = m' /\
    mm_http_requests m' = delete 9 (mm_http_requests m).
Proof.
  destruct (session_stays_wf tx_open "2.0" (mrc_tunnels multi_config) two_acks [] [stream_start]
              two_tunnels [] two_tunnels_established) as (_ & _ & He).
  destruct (He 9) as (t & method & path & headers & body & m' & Hm & Hd);
    [vm_compute; reflexivity|].
  exists m'. split; [rewrite Hm; reflexivity | exact Hd].
Defined.

Definition plain_parts : Parts :=
  {| pt_method := "GET"; pt_path_and_query := Some "/a?b"; pt_path := "/a";
     pt_headers := [("host", "demo.example.com:8080"); ("x-a", "1")] |}.

Lemma public_request_reaches_its_tunnel_witness :
  multi_handle_message (HttpRequest 9 "GET" "/a?b" (forwarded_headers plain_parts) [])
    two_tunnels =
  (Ok tt, two_tunnels, [MeHttp 1 9 "GET" "/a?b" (forwarded_headers plain_parts) []]).
Proof.
  destruct (public_request_reaches_its_tunnel "example.com" "demo" plain_parts [] None two_tunnels 9 1
    (new_context (ack_of 1 "demo" Http) (default TunnelConfig_default (head (mrc_tunnels multi_config))))
    (LocalProxy_new "127.0.0.1" 3000)) as [Hr _].
  - apply two_tunnels_wf.
  - by split.
  - repeat constructor.
  - intros v t. unfold header_value_to_str; cbn. by destruct (ascii_string v) eqn:E; intros [= <-].
  - vm_compute; reflexivity.
  - vm_compute; reflexivity.
  - vm_compute; reflexivity.
  - vm_compute; reflexivity.
  - apply Hr. vm_compute; reflexivity.
Defined.

Lemma tcp_tunnels_conflated_witness :
  exists chosen m', multi_handle_message (TcpConnect 5 "1.2.3.4:5") two_tunnels =
    (Ok tt, m', [MeConnect chosen 5 "1.2.3.4:5"]).
Proof.
  destruct (tcp_tunnels_conflated two_tunnels 2
    (new_context (ack_of 2 "ssh" Tcp) (nth 1 (mrc_tunnels multi_config) TunnelConfig_default)))
    as (chosen & _ & Hk & _); [apply two_tunnels_wf | vm_compute; reflexivity | reflexivity |].
  destruct (Hk 5 "1.2.3.4:5") as (m' & Hm & _). exists chosen, m'. exact Hm.
Defined.

Lemma one_tunnel_refines_witness :
  one_tunnel 1 Http (session_state TunnelConfig_default (ack_of 1 "demo" Http))
    (register_context (ack_of 1 "demo" Http) TunnelConfig_default multi_new).
Proof. apply (one_tunnel_refines (ack_of 1 "demo" Http) TunnelConfig_default). Defined.

(** ** Against this server *)

Definition multi_request : ConnectRequest :=
  ConnectRequest_new None (Some "demo") Http "2.0".
Definition two_connects : SessionRun :=
  session_of [InFrame (WsBinary (bytes_of (Connect multi_request)));
              InFrame (WsBinary (bytes_of (Connect multi_request))); InFrame (WsClose None)].

Definition refused_run (handshake : list Incoming) : MultiRun :=
  {| mr_url := Ok "ws://localhost"; mr_connect := fun _ => Ok tt; mr_tx := tx_open;
     mr_handshake := handshake; mr_events := []; mr_writer := Ok (Ok tt) |}.

Definition server_frames : list Incoming :=
  InFrame <$> omap written
    (ss_queue (handle_socket debug_close (serving_config 1) two_connects
                 (session_start empty_manager)).2).

Lemma server_frames_are :
  omap frame_of (mr_handshake (refused_run server_frames)) =
  omap written (ss_queue (handle_socket debug_close (serving_config 1) two_connects
                            (session_start empty_manager)).2).
Proof.
  unfold server_frames; cbn [refused_run mr_handshake].
  induction (omap written _) as [|f fs IH]; cbn; [done|]. by f_equal.
Qed.

Lemma second_tunnel_never_acknowledged_witness :
  exists e, multi_single_session "2.0" multi_config (refused_run server_frames) false =
    Some (Reconnect e false).
Proof.
  destruct (second_tunnel_never_acknowledged (serving_config 1) two_connects
    (session_start empty_manager) [] "2.0" multi_config (refused_run server_frames)
    "ws://localhost" false) as [He _]; [reflexivity | constructor | | | reflexivity | reflexivity |].
  - rewrite server_frames_are, app_nil_r. reflexivity.
  - vm_compute. lia.
  - exact He.
Defined.

Definition refused_turn : MultiTurn :=
  {| mt_cancelled_before := false;
     mt_session := fun reconnecting =>
       default (Shutdown true)
         (multi_single_session "2.0" multi_config (refused_run []) reconnecting);
     mt_cancelled_after := false |}.
Definition up_once : MultiTurn :=
  {| mt_cancelled_before := false; mt_session := fun _ => Reconnect (Internal "reset") true;
     mt_cancelled_after := false |}.

Lemma refused_reconnects_never_give_up_witness :
  lt_result (multi_run_with_token multi_config (up_once :: replicate 20 refused_turn)) = None.
Proof.
  destruct (refused_reconnects_never_give_up "2.0" multi_config up_once (replicate 20 refused_turn)
              (Internal "reset")) as (Hr & _); [reflexivity | reflexivity | reflexivity | |].
  - apply Forall_replicate. split; [reflexivity|]. split; [reflexivity|].
    eexists (refused_run []), _, _.
    split; [reflexivity|]. split; [reflexivity|]. split; [vm_compute; reflexivity|].
    intros reconnecting. vm_compute. reflexivity.
  - exact Hr.
Defined.

(** * Zero copy *)

Import ScriptedKernel.

Definition demo_proxier : SpliceProxier := {| sp_pipe := {| read_fd := 10; write_fd := 11 |} |}.

(** The second write is short: its last two bytes stay in the pipe. *)
Definition short_write : State :=
  {| st_queues := <[1 := [1; 2; 3; 4; 5]]> (<[2 := [7; 8; 9]]> ∅);
     st_script := [Ok 2; Ok 2; Ok 3; Ok 1] |}.

Lemma demo_wired (a b : N) : a ∈ [1; 2] -> b ∈ [3; 4] -> wired (K := scripted_kernel) demo_proxier a b.
Proof.
  intros Ha Hb. repeat (apply elem_of_cons in Ha as [->|Ha]); try by apply not_elem_of_nil in Ha.
  all: repeat (apply elem_of_cons in Hb as [->|Hb]); try by apply not_elem_of_nil in Hb.
  all: by constructor.
Qed.

Definition after_short_write : State :=
  match splice_connection (K := scripted_kernel) demo_proxier 1 3 5 short_write with
  | Some (_, k) => k
  | None => short_write
  end.

(** The next connection, from 2 to 4, gets the two bytes of the first one. *)
Lemma splice_connection_spec_witness :
  exists k' own, splice_connection (K := scripted_kernel) demo_proxier 2 4 3 after_short_write = Some (Ok 3, k') /\
    at_queue k' 4 = [4; 5] ++ own.
Proof.
  destruct (splice_connection_spec (K := scripted_kernel) demo_proxier 2 4 3 after_short_write) as
    (r & k' & moved & Hs & Hf & Hd & _ & Hok & Hleft);
    [apply demo_wired; set_solver|].
  assert (splice_connection (K := scripted_kernel) demo_proxier 2 4 3 after_short_write =
            Some (Ok 3, k')) as Hrun by (vm_compute in Hs |- *; congruence).
  rewrite Hrun in Hs. injection Hs as <-.
  destruct (Hok 3 eq_refl) as [Hm _].
  destruct (Hleft [4; 5]) as [own Hown]; [vm_compute; reflexivity | rewrite <- Hm; vm_compute; congruence|].
  exists k', own. split; [exact Hrun|]. vm_compute in Hown |- *. exact Hown.
Defined.

(** * The listener of a TCP tunnel *)

Definition one_connection : Listener :=
  {| ln_accept := AcSelecting; ln_removal := Registered; ln_open := true;
     ln_connections := {[ 1 ]}; ln_readers := <[1 := next_sequence new_reader]> ∅;
     ln_queue := [TcpConnect 1 "peer"; TcpData 1 [5] 0] |}.

Lemma one_connection_reachable : listener_reachable one_connection.
Proof.
  eapply (reachable_steps listener_init); [by constructor|].
  eapply rtc_l; [by apply (ls_accept _ 1 "peer")|].
  eapply rtc_l; [by eapply ls_told|].
  eapply rtc_l; [by eapply ls_stored|].
  eapply rtc_l; [by apply (ls_data _ 1 new_reader [5])|].
  match goal with |- rtc _ ?l _ => assert (l = one_connection) as -> end; [|apply rtc_refl].
  unfold one_connection, with_readers, tunnel_send; cbn. f_equal.
Qed.

Lemma connection_told_in_order_witness :
  exists data, talk 1 one_connection = TcpConnect 1 "peer" :: data_messages 1 data 0.
Proof.
  destruct (connection_told_in_order one_connection 1 one_connection_reachable)
    as [Hn|(addr & data & close & Ht & _ & _ & Hr)]; [vm_compute in Hn; discriminate Hn|].
  destruct (Hr (next_sequence new_reader)) as [-> _]; [reflexivity | reflexivity|].
  exists data. rewrite app_nil_r in Ht. vm_compute in Ht |- *. injection Ht as -> Ht.
  f_equal. exact Ht.
Defined.

(** * First contact *)

Definition contact_config : TunnelConfig :=
  {| tc_protocol := Http; tc_local_host := "localhost"; tc_local_port := 3000;
     tc_subdomain := Some "demo"; tc_server_url := "ws://localhost"; tc_api_key := None;
     tc_reconnect_max_attempts := 2; tc_reconnect_base_delay_ms := 100;
     tc_tcp_tuning := TcpTuningConfig_default |}.
Definition contact_bytes : Bytes := bytes_of (Connect (connect_request "2.0" contact_config)).
Definition contact_run : SessionRun := session_of [InFrame (WsBinary contact_bytes)].
Definition early_request : OutgoingFrame := FrameProtocol (HttpRequest 9 "GET" "/" [] []).

Definition contact_handle : ActiveTunnel :=
  registered_handle 1 "demo" Http 77 None empty_manager.
Definition contact_state : ServerState :=
  (admit_client (serving_config 1) contact_run (connect_request "2.0" contact_config)
     (session_start empty_manager)).2.
Definition contact_ack_bytes : Bytes :=
  bytes_of (ConnectAck (ack_message (serving_config 1) contact_handle None
                          (ss_manager contact_state))).

Lemma contact_admitted :
  admit_client (serving_config 1) contact_run (connect_request "2.0" contact_config)
    (session_start empty_manager) = (Ok contact_handle, contact_state).
Proof. vm_compute. reflexivity. Qed.

Lemma contact_port :
  open_port (serving_config 1) contact_run contact_handle contact_state = (Ok None, contact_state).
Proof. vm_compute. reflexivity. Qed.

Lemma contact_acked :
  encode (ConnectAck (ack_message (serving_config 1) contact_handle None
                        (ss_manager contact_state))) = Ok contact_ack_bytes.
Proof. vm_compute. reflexivity. Qed.

