(* ===== verification/SystemWitnesses.v ===== *)
(** Concrete instances of the theorems about the whole system: the round trip of a
    request, the running client, metrics and the front door. *)

From Stdlib Require Import Ascii.
From S2P Require Import Prelude RustStr Types Errors Utils Protocol CodecInstance PendingStore.
From S2P Require Import Externals TunnelManager ManagerSpec WebSocket Http ServerConfig ServerProxy.
From S2P Require Import ServerProxySpec LocalProxy ClientTunnel Streaming ServerTcp ServerSession.
From S2P Require Import ClientSession MultiServed Contact Metrics ProxyMetrics RoundTrip ClientRun.
From S2P Require Import Admin Health Router Abandoned Witnesses.
Import Concrete PlainHttp.

Local Open Scope N_scope.

#[local] Instance codec : BincodeCodec := bit_codec.
#[local] Instance codec_laws : BincodeLaws codec := bit_codec_laws.
#[local] Instance show_uuid : UuidDisplay := fmt_uint.
#[local] Instance show_message : DebugMessage := variant_name.
#[local] Instance no_socket_addr : ParseSocketAddr := fun _ => None.
#[local] Instance any_uuid : ParseUuid := parse_uint u64_max.

(** * The round trip *)

(** A local service that answers every request alike. *)
Definition service (answer : Response) : Upstream := {|
  parse_method := Ok;
  parse_uri := Ok;
  exchange _ := Ok answer;
|}.
Definition created : Response := {| rs_status := 201; rs_headers := [("a", "b")]; rs_body := [7] |}.
#[local] Instance local_service : Upstream := service created.

(** The request of [demo_parts] between two messages of another one. *)
Definition shared_queue : list OutgoingFrame :=
  [FrameProtocol (HttpRequestStart 5 "PUT" "/other" [] None);
   FrameProtocol (HttpRequest 9 "POST" "/a?b" [("host", "demo.example.com:8080"); ("x-a", "1")]
                    [1; 2; 3]);
   FrameProtocol (HttpRequestChunk 5 [8; 8] 0)].

Definition http_loop : LoopState :=
  {| ls_client := http_client; ls_effects := []; ls_outgoing := [] |}.
Definition http_loop_end : LoopState :=
  (session_loop (EvIncoming <$> client_reads shared_queue) http_loop).2.

Lemma shared_queue_delivered : Forall delivered shared_queue.
Proof. repeat constructor; vm_compute; reflexivity. Qed.

Lemma shared_queue_read :
  session_loop (EvIncoming <$> client_reads shared_queue) http_loop = (None, http_loop_end).
Proof. vm_compute. reflexivity. Qed.

Lemma demo_fits : body_fits keyed_config demo_parts demo_body [1; 2; 3].
Proof. split; [reflexivity|]. vm_compute. split; [congruence | by intros]. Qed.

Lemma public_request_round_trip_witness :
  exists st', proxy_with_state keyed_config
      (with_wait (demo_run Elapsed) (Answered (HttpResponse 9 201 [("a", "b")] [7])))
      demo_parts demo_body demo_state = Some (Ok created, st') /\
    effects_about 9 (ls_effects http_loop_end) =
      [SpawnProxy 9 "POST" "/a?b" [("host", "demo.example.com:8080"); ("x-a", "1")] [1; 2; 3]].
Proof.
  destruct (public_request_round_trip keyed_config (demo_run Elapsed) demo_parts demo_body [1; 2; 3]
              demo_state "demo" demo_tunnel open_outbox (check_rate_limit demo_tunnel 0 0 demo_manager).2)
    as (st' & Hrun & _ & _ & Hback); try (vm_compute; reflexivity);
    [apply demo_fits | repeat constructor |].
  destruct (Hback shared_queue (LocalProxy_new "localhost" 3000) http_loop http_loop_end
              shared_queue_delivered) as (He & Hresp & _);
    [reflexivity | reflexivity | reflexivity | apply shared_queue_read |].
  exists st'. split; [|exact He].
  assert (await_response keyed_config (Answered (HttpResponse 9 201 [("a", "b")] [7])) = Ok created)
    as Hr by (apply Hresp; [vm_compute; split; congruence | repeat constructor]).
  rewrite Hrun. exact (f_equal (fun r => Some (r, st')) Hr).
Defined.

(** * The running client *)

Definition request_bytes : Bytes :=
  match encode (HttpRequest 9 "GET" "/" [] []) with Ok b => b | Err _ => [] end.

Definition one_call : list RunEvent :=
  [Reads (InFrame (WsBinary request_bytes)); Pings; Finishes 0 local_service; Writes true; Writes true].
Definition one_call_end : Running :=
  default (running_start http_client) (run_events one_call (running_start http_client)).

Lemma one_call_runs : run_events one_call (running_start http_client) = Some one_call_end.
Proof. vm_compute. reflexivity. Qed.
Lemma one_call_starts : starts one_call (running_start http_client) = [9].
Proof. vm_compute. reflexivity. Qed.

Lemma answered_once_per_call_witness : [9] ≡ₚ in_flight one_call_end ++ answered_ids one_call_end.
Proof.
  destruct (answered_once_per_call one_call http_client one_call_end one_call_runs) as (_ & _ & Hlive).
  rewrite <- one_call_starts. apply Hlive. vm_compute. reflexivity.
Defined.

(** A response of one byte above the limit; the bytes are never looked at. *)
Definition big_body : Bytes := replicate (N.to_nat (DEFAULT_MAX_BODY_SIZE + 1)) 0.
Definition big_response : Response := {| rs_status := 200; rs_headers := []; rs_body := big_body |}.

Lemma big_body_len : DEFAULT_MAX_BODY_SIZE < len big_body.
Proof. unfold len, big_body. rewrite length_replicate. lia. Qed.

Definition busy_client : Running :=
  with_loop (running_start http_client) http_client None [SpawnProxy 9 "GET" "/" [] []].

Lemma oversized_answer_mutes_session_witness :
  exists s1, run_events [Finishes 0 (service big_response); Writes true] busy_client = Some s1 /\
    rn_wire (tx_sends [OutRaw (WsPing [])] s1) = [] /\
    rn_loop (tx_sends [OutRaw (WsPing [])] s1) = None.
Proof.
  destruct (oversized_answer_mutes_session (service big_response) 0 (LocalProxy_new "localhost" 3000)
              9 "GET" "/" [] [] busy_client 200 [] big_body)
    as (s1 & Hrun & _ & Hmute);
    [reflexivity | reflexivity | reflexivity | reflexivity | reflexivity | reflexivity
    | apply big_body_len |].
  exists s1. split; [exact Hrun|].
  destruct (Hmute [Pings] (tx_sends [OutRaw (WsPing [])] s1)) as (Hwire & Hloop & _);
    [by repeat constructor | reflexivity |].
  split; [exact Hwire | exact Hloop].
Defined.

(** * Metrics *)

Definition fresh_manager : TunnelManager :=
  manager_new "example.com" RequestLimits_default 60 5 PendingRequestConfig_default 10 2.
Definition metered_by (op : ManagerOp) (s : Meter) : Meter :=
  {| me_manager := op_run op (me_manager s);
     me_emitted := me_emitted s ++ op_emits op (me_manager s);
     me_unreported := unreported_after op (me_manager s) (me_unreported s) |}.
Definition disconnected_meter : Meter :=
  metered_by (OpDisconnect 1) (metered_by (OpRegister 1 "demo" Http 77 None) (meter_init fresh_manager)).

Lemma gauges_tell_witness :
  reported "expose_tunnels_active" (me_emitted disconnected_meter) = Some 1 /\
  active_tunnel_count (me_manager disconnected_meter) = 0.
Proof.
  destruct (gauges_tell "example.com" RequestLimits_default 60 5 PendingRequestConfig_default 10 2
              disconnected_meter) as (_ & Ht & _); [vm_compute; congruence | |].
  - eapply reachable_step; [eapply reachable_step; [by apply reachable_init|]|].
    + exists (OpRegister 1 "demo" Http 77 None). split; [|reflexivity].
      intros k t Hk. cbn in Hk. by rewrite lookup_empty in Hk.
    + exists (OpDisconnect 1). by split.
  - split; [|vm_compute; reflexivity]. rewrite Ht. vm_compute. reflexivity.
Defined.

Definition counted_run :
    option (result Response * ProxyState * list Emission) :=
  proxy_metered keyed_config (demo_run (Answered (HttpResponse 9 201 [("a", "b")] [5]))) 3
    demo_parts demo_body demo_state.

Lemma requests_accounted_witness :
  exists res st' es, counted_run = Some (res, st', es) /\
    total "expose_requests_total" es = 1 /\ samples "expose_request_duration_seconds" es = 1.
Proof.
  destruct counted_run as [[[res st'] es]|] eqn:E; [|vm_compute in E; discriminate E].
  exists res, st', es. split; [reflexivity|].
  destruct (requests_accounted _ _ _ _ _ _ _ _ _ E) as (Hrun & _ & _ & Hone & Hsample & _).
  assert (total "expose_requests_total" es = 1) as Ht.
  { apply Hone. exists "demo", demo_tunnel, (check_rate_limit demo_tunnel 0 0 demo_manager).2.
    split; [|split]; vm_compute; reflexivity. }
  split; [exact Ht|]. rewrite (Hsample Ht).
  vm_compute in Hrun. injection Hrun as <- _. reflexivity.
Defined.

(** * The front door *)

(** The first route that fits. *)
#[local] Instance first_fit : AxumRouter := fun rs path =>
  head (omap (fun r => c ← fit r.1 path; Some (r.2, c)) rs).

#[local] Instance first_fit_laws : AxumRouterLaws first_fit.
Proof.
  constructor; unfold match_route, first_fit.
  - intros rs path e c Hm. apply head_Some_elem_of, list_elem_of_omap in Hm as ([pattern e'] & Hin & Hf).
    cbn in Hf. destruct (fit pattern path) as [c'|] eqn:Ef; [|done]. injection Hf as -> ->. by exists pattern.
  - intros rs path pattern e Hin [c Hc].
    assert ((e, c) ∈ omap (fun r => c ← fit r.1 path; Some (r.2, c)) rs) as Hl.
    { apply list_elem_of_omap. exists (pattern, e). split; [done|]. cbn. by rewrite Hc. }
    destruct (omap _ rs); [by apply not_elem_of_nil in Hl | by eexists].
Qed.

#[local] Instance plain_axum : AxumRequests :=
  {| segment_text := Some; upgrade_rejected _ := None; layers_see_other_methods := true |}.

Definition admin_parts : Parts :=
  {| pt_method := "DELETE"; pt_path_and_query := None; pt_path := "/admin/tunnels/1";
     pt_headers := [("host", "demo.example.com")] |}.
Definition front_run : FrontRun :=
  {| fr_now := 0; fr_later := 0; fr_timestamp := "now"; fr_elapsed := 0; fr_proxy := demo_run Elapsed |}.
Definition front_state : FrontState :=
  {| fs_proxy := demo_state; fs_admin_limiter := admin_limiter 60; fs_answers := [] |}.

(** A caller without a token cannot disconnect the tunnel of the host he calls. *)
Lemma reserved_paths_shadow_tunnels_witness :
  exists answer st', serve_request keyed_config front_run admin_parts demo_body front_state =
      Some (answer, st') /\ px_manager (fs_proxy st') = demo_manager.
Proof.
  destruct (reserved_paths_shadow_tunnels keyed_config front_run admin_parts demo_body front_state)
    as [_ Hr].
  destruct Hr as (answer & st' & Hs & _ & _ & Hkept & _); [right; exists "1"; split; reflexivity|].
  exists answer, st'. split; [exact Hs|]. apply Hkept. right.
  intros [Hi|(token & value & Ht & _)]; [vm_compute in Hi; discriminate Hi | discriminate Ht].
Defined.

(** * Abandoned requests *)

Definition tight_pending : PendingRequestConfig :=
  {| pc_max_per_tunnel := 2;
     pc_max_global := pc_max_global PendingRequestConfig_default;
     pc_default_timeout := pc_default_timeout PendingRequestConfig_default;
     pc_sweep_interval := pc_sweep_interval PendingRequestConfig_default |}.
Definition tight_manager : TunnelManager :=
  (register_tunnel 1 "demo" Http 77 None
     (manager_new "example.com" RequestLimits_default 60 5 tight_pending 10 2)).2.
Definition tight_tunnel : ActiveTunnel :=
  registered_handle 1 "demo" Http 77 None
    (manager_new "example.com" RequestLimits_default 60 5 tight_pending 10 2).
Definition tight_state : ProxyState :=
  {| px_manager := tight_manager; px_outboxes := <[77 := open_outbox]> ∅ |}.

(** One visitor leaves while its body comes, one while it waits for the answer. *)
Definition visit (id channel : N) (w : WaitPoint) : Visit :=
  {| vi_run := {| rr_limiter_now := 0; rr_limiter_later := 0; rr_request_id := id; rr_now := 0;
                  rr_channel := channel; rr_wait := Elapsed |};
     vi_parts := demo_parts; vi_body := demo_body; vi_point := w |}.
Definition visits : list Visit := [visit 8 80 (ForBody [Data [1]]); visit 9 90 ForAnswer].
Definition visited : ProxyState := default tight_state (drop_all keyed_config visits tight_state).

Lemma tight_wf : manager_wf tight_manager.
Proof.
  apply register_wf; [by apply manager_new_wf|]. intros k t Ht. by destruct (lookup_empty_Some k t).
Qed.

Lemma visits_dropped : drop_all keyed_config visits tight_state = Some visited.
Proof. vm_compute. reflexivity. Qed.

Lemma visits_fresh : fresh_visits visits (tm_pending_store tight_manager).
Proof.
  split_and!; [by apply (bool_decide_unpack _); vm_compute..|].
  intros v _. split; [done|]. intros id r Hr. by destruct (lookup_empty_Some id r).
Qed.

Lemma abandoned_requests_block_tunnel_witness :
  exists e m', proxy_with_state keyed_config (demo_run Elapsed) demo_parts demo_body
      {| px_manager := sweeps [10; 20] (px_manager visited); px_outboxes := px_outboxes visited |} =
    Some (Err e, {| px_manager := m'; px_outboxes := px_outboxes visited |}).
Proof.
  destruct (abandoned_requests_block_tunnel keyed_config visits tight_state visited "demo"
              tight_tunnel [10; 20]) as [_ Hblock].
  - exact tight_wf.
  - vm_compute. reflexivity.
  - intros v [->|[->|[]%not_elem_of_nil]%elem_of_cons]%elem_of_cons; vm_compute; reflexivity.
  - exact visits_fresh.
  - exact visits_dropped.
  - vm_compute. discriminate.
  - intros now v Hnow [->|[->|[]%not_elem_of_nil]%elem_of_cons]%elem_of_cons;
      repeat (apply elem_of_cons in Hnow as [->|Hnow]); try by apply not_elem_of_nil in Hnow.
    all: vm_compute; reflexivity.
  - destruct (Hblock (demo_run Elapsed) demo_parts demo_body (px_outboxes visited))
      as (e & m' & Hr & _); [vm_compute; reflexivity|]. exists e, m'. exact Hr.
Defined.
